(* ===== verification/_CoqProject ===== *)
-Q . S2P
Prelude.v
Go.v
Format.v
JsonStruct.v
Params.v
Calendar.v
Domain.v
Effects.v
Repository.v
WellFormed.v
JobConfig.v
Transport.v
Instances.v
Queries.v
Lifecycle.v
Finalizer.v
TriggerFailure.v
JobExecutor.v
TaskExecutor.v
Trace.v
Steps.v
Delivery.v
Consumer.v
Kafka.v
Pipeline.v
Redelivery.v
Concurrency.v
Races.v
Retry.v
Recovery.v
Scheduler.v
Payroll.v
Console.v
Stats.v
Server.v
PayrollService.v
System.v
