(* ===== verification/Prelude.v ===== *)
(** * scherry: a verification development

    scherry (Go, [src/internal]) runs jobs that split into tasks.  A trigger (cron
    through asynq, an API call, the console) makes a job row and its task rows in
    PostgreSQL and publishes one Kafka message per task; consumers run the tasks,
    retry them or put them on a dead-letter topic; a completion cron moves a RUNNING
    job whose tasks are settled to its final status.  The parts share nothing but
    the two tables and the topics, and several processes run them at once.

    ** The files

    - [Prelude]: results, list functions (SQL's updates, counts and [LIMIT 1]) and
      their lemmas.  [Go]: 64-bit integers, times, errors with wrapping,
      [interface{}] values, JSON texts, [pgtype.JSONB], [strings.TrimSpace].
      [Params]: [strconv.Atoi] and [time.Parse] for the console's parameters.
      [Format], [JsonStruct] and [Calendar]: what the sample program uses of [fmt]
      (floats), [encoding/json] (structs) and [time] (dates in a zone).
    - [Effects]: a function that talks to the outside is a [prog], a tree of calls
      (clock, [uuid.New], SQL statement, Kafka write, hook, the caller's executors).
      [run] executes one program; [pool_step] interleaves many, one call at a time.
      What the environment answers comes from an [env], with failures of the
      database (before or after the statement took effect) and of Kafka.
    - [Domain] and [Lifecycle]: [internal/domain], the records and their methods,
      the transition tables and the events on them.
    - [Repository] and [Queries]: [internal/repository].  Each statement or
      transaction is a function on the two tables ([DB], rows in insertion order); an
      insert checks the keys and the types of the columns ([migrations/]).
      [WellFormed]: the invariant of the tables and a program logic for it.
    - [JobConfig]: [internal/jobconfig].  [Transport]: the producer and consumer of
      [internal/transport].  [Delivery]: from a task row to the consumer and back.
    - [JobExecutor], [TaskExecutor], [Finalizer], [Retry], [TriggerFailure]: the
      files of the same names under [internal/executor] ([job_finalizer.go] for
      [Finalizer]), one definition per function.
    - [Consumer]: the loop of a consumer on one partition, with its commits.  [Kafka]:
      the readers and writers made for a configuration.
    - [Trace]: the calls of the caller's task executors that a run makes.  [Steps]: the
      worlds it passes through, call by call, for what is said of the order of things.
    - [Pipeline]: the composition of all of these: a trigger, the consumers until no
      message is left, the completion check.  [Recovery]: the same from a retry on, and
      a run followed by the retry of what it left undone.  [Redelivery]: messages read
      again after their job is over.
    - [Concurrency]: the interleavings of consumers, completion checks,
      terminations and cancellations.  [Races]: interleavings that end badly.  [System]:
      the interleavings of everything a service does.
    - [Scheduler]: [internal/scheduler] and the consumer registry: a [Service] and
      the state each registration leaves, also when it fails.
    - [Console] and [Stats]: [internal/console], each handler from its parameters to
      a response (a panic is the response [RPanic]).  [Server]: [New], the methods
      that forward to the executors, and the routes of the console.
    - [Payroll] and [PayrollService]: [examples/payroll], a client of the library: its
      store, its executors, its start and its API.  [client_env] is the environment in
      which the library's calls of executors are answered by that code.
    - [Instances]: concrete stand-ins for the code outside the repository and the
      sample rows the witnesses use.

    A Go pointer that is mutated is a value passed in and returned; an error is a
    value of [res]; a map is a [gmap]; logging is left out.

    ** What the theorems show

    - The whole (C1): a trigger, its consumers (which may
      read the messages in any order, and some of them again) and a completion check
      leave every item's task settled as the caller's code behaves, and the job with
      the status its tasks give it; while the caller's code succeeds it is called exactly
      once per item (C13).
    - Every operation (C7): whatever fails and however threads interleave, statuses
      stay in the schema, keys unique, tasks with their jobs, rows and the columns that
      identify them for ever; no task row goes past its number of attempts
      (C8).
    - Tasks (C2, C20, C21): a message of a runnable task does exactly what the
      executor's answer and the attempts left say; retries end, no attempt is lost, and
      the calls of the executor are counted.  Messages read again once the job
      is over run nothing (C35; [executeTask_job_over] is one such message).
    - Completion (C3, C18, C34): a job is finalized exactly when it is RUNNING and
      its tasks are settled, with the status its rows determine, and reported once; the
      cron, which takes 200 jobs at a time, catches up (C19).
    - Triggers (C4, C27, C32): one job, one task row and one message per item, in
      which order, and the
      other branches ([executeJob_disabled] and [executeJob_empty] are those for a disabled
      job and for an empty split).
    - Retries of jobs (C5, C29): the clone and its resumption ([retryJob_nothing]: the
      empty retry).  A retry run to its end settles the clone ([retry_completes]), and a
      partial one repairs exactly what a run left undone (C6), unless the trigger was
      repeated in between (C28).
    - Interleavings (C9, C10): whatever fails and however the workers interleave, a
      terminal job never changes and a job is reported finished at most once; and three
      kinds of schedule (C24 to C26), possible from every database and
      configuration they describe, in which the program does not do what it means to.
    - Consumers (C15, C16, C33): the loop processes its partition in order, each message
      once, and returns when its context ends; a message that failed is lost.
    - State machines ([job_event_sound]), cancelling transactions (C22, C23), delivery
      ([PublishTasks_carries], [retry_message_delivered]), validation ([ValidateShared_exact]) and registration (C14, C36; [Register_bad_schedule], [Register_same_consumer],
      and [Register_readers], [NewKafkaWriter_spec] for the clients it makes).
    - Console (C17, C37 to C40): all but two routes only read; the merged
      job list and the offsets it cannot serve, the round trip of trigger ids, the
      partition of the time series; also paging ([ListTasksForJob_pages]) and the answers of
      the terminate and retry endpoints ([handleTerminate_codes], [handleRetry_refuses_open]).
    - The sample program (C11, C12): a run of each of its jobs records exactly
      one payment per employee; the pay period and the clock changes that make it wrong (C30, C31), the
      requests and batches that fail ([bonusTrigger_rejects], [payroll_batch_partial]), the batches ([chunkEmployees_partition])
      and the start and the stop ([main_serves], [main_stops]).

    ** Parameters, fuel and bounds

    Code outside the repository is a class or an argument with the documented laws
    it needs: [Fsm] (looplab/fsm), [Pgtype], [UuidText] (google/uuid), [Codec] (the
    JSON form of tasks and retry messages), [FloatConv] (conversions the language
    leaves open), [Inspector] (asynq), [cron_error], [ParseStandard] (cron),
    [kafkago_NewReader] and [MessageReader] (kafka-go), [date_trunc], [collate] and
    [scan_float] (PostgreSQL), [pgxpool_New] and [gorm_Open] (the connection),
    [scheduler_Start] (asynq), [getenv] and the zone of the clock ([Location]).
    [Codec]'s laws promise an encoding only of values with documents and with times of
    years JSON can carry ([json_task]); a theorem whose rows must all be published says that
    the clock reads such times ([json_clock]).  [Instances] gives each law a model.  The two paging loops of [Retry] take fuel;
    [enough n], [n / 1000 + 1] turns for [n] tasks, is proved to suffice and the
    result to be that of the whole loop.  [drain] of [Pipeline] takes one turn per
    message, in the order and with the redeliveries its [delivery_plan] decides, and
    [turns] plus one turn per redelivery are enough: every task is read once per attempt
    and at most once more on the dead-letter topic.  The
    consumer's loop runs until its context ends; one turn more than the looks it takes
    at a live context is enough.  [chunk_from] takes a turn per employee, enough since
    every batch has one ([chunkEmployees_partition]).  Everything else is structural recursion.

    ** Not modelled

    The structs that only pass dependencies on, the test doubles and the aliases of the
    public package (they hold no logic); isolation below one statement (each statement
    and transaction is atomic); the context's cancellation and deadlines inside a call;
    the rounding of stored times to microseconds, and the column types in updates (a status
    or an attempt that is written fits, and a result comes from [JSONB_Set]);
    Kafka's rebalancing; the embedded page, the writing of JSON and the HTTP server
    itself; logging; the sample program's signals.  The text of a JSON string is taken to be valid UTF-8
    without escapes that matter.  [client_env] gives a panic of the sample's executors as
    an error; the theorems exclude it ([payable]).  Two of its task executors at once
    are run one after the other; what they record is stated up to order.  Maps are walked in one fixed order
    where Go leaves the order open, and equal sort keys keep their order. *)
From stdpp Require Export base tactics list gmap strings sorting.
From Stdlib Require Export ZArith Lia.

#[global] Open Scope Z_scope.
#[export] Set Default Goal Selector "!".

(** ** Results

    A Go function returning [(T, error)] is modelled by [res T]: the code under
    [src/] never looks at the value when the error is not nil. *)
Inductive result (E A : Type) : Type :=
| Ok (x : A)
| Err (e : E).
Arguments Ok {E A} x.
Arguments Err {E A} e.

Definition result_map {E A B} (f : A -> B) (r : result E A) : result E B :=
  match r with Ok x => Ok (f x) | Err e => Err e end.

Definition result_bind {E A B} (r : result E A) (f : A -> result E B) : result E B :=
  match r with Ok x => f x | Err e => Err e end.

(** The error part of a result, Go's [err] after [_, err := ...]. *)
Definition result_err {E A} (r : result E A) : option E :=
  match r with Ok _ => None | Err e => Some e end.

Definition is_Ok {E A} (r : result E A) : Prop := exists x, r = Ok x.

(** ** Lists *)

(** [contains l x] is Go's [slices.Contains(l, x)]. *)
Definition contains {A} `{EqDecision A} (l : list A) (x : A) : bool :=
  bool_decide (x ∈ l).

(** [update_where p f l] rewrites every element that satisfies [p], as an SQL
    [UPDATE ... WHERE p] does. *)
Definition update_where {A} (p : A -> bool) (f : A -> A) (l : list A) : list A :=
  map (fun x => if p x then f x else x) l.

(** [count p l] is SQL's [count( * ) FILTER (WHERE p)]. *)
Definition count {A} (p : A -> bool) (l : list A) : Z :=
  Z.of_nat (length (List.filter p l)).

(** [pick before l] is the row an [ORDER BY ... LIMIT 1] returns: the first
    element of [l] that no later element is strictly [before]. *)
Fixpoint pick {A} (before : A -> A -> bool) (l : list A) : option A :=
  match l with
  | [] => None
  | x :: l' =>
      match pick before l' with
      | None => Some x
      | Some y => Some (if before y x then y else x)
      end
  end.

(** The sum of a column over the rows. *)
Definition total_of {A} (column : A -> Z) (l : list A) : Z := foldr (fun x acc => column x + acc) 0 l.

(** ** Lemmas *)
Section lists.
  Context {A : Type}.
  Implicit Types (p : A -> bool) (f : A -> A) (l : list A).

Lemma contains_spec `{EqDecision A} l x : contains l x = true <-> x ∈ l.
Proof. apply bool_decide_eq_true. Qed.

Lemma update_where_length p f l : length (update_where p f l) = length l.
Proof. apply length_map. Qed.

Lemma update_where_app p f l1 l2 :
  update_where p f (l1 ++ l2) = update_where p f l1 ++ update_where p f l2.
Proof. apply map_app. Qed.

Lemma update_where_none p f l :
  (forall x, x ∈ l -> p x = false) -> update_where p f l = l.
Proof.
  intros H. unfold update_where. rewrite <- (map_id l) at 2.
  apply map_ext_in. intros x Hx. rewrite H; [done|]. by apply list_elem_of_In.
Qed.

Lemma update_where_map_inv {B} (g : A -> B) p f l :
  (forall x, g (f x) = g x) -> map g (update_where p f l) = map g l.
Proof.
  intros H. unfold update_where. rewrite map_map.
  apply map_ext. intros x. by destruct (p x).
Qed.

Lemma elem_of_update_where p f l y :
  y ∈ update_where p f l <-> exists x, x ∈ l /\ y = if p x then f x else x.
Proof.
  unfold update_where. rewrite list_elem_of_In, in_map_iff.
  setoid_rewrite list_elem_of_In. split; intros (x & ? & ?); eauto.
Qed.

(** Updates and selections on a key the update keeps. *)
Lemma filter_update_other (sel : A -> bool) p f l :
  (forall x, p x = true -> sel x = false) -> (forall x, sel (f x) = sel x) ->
  List.filter sel (update_where p f l) = List.filter sel l.
Proof.
  intros Hp Hf. induction l as [|x l IH]; [done|]. cbn.
  destruct (p x) eqn:Hx; cbn.
  - rewrite Hf, (Hp x) by done. exact IH.
  - destruct (sel x); [f_equal|]; exact IH.
Qed.

Lemma filter_update_hit (sel : A -> bool) f l :
  (forall x, sel (f x) = sel x) -> List.filter sel (update_where sel f l) = map f (List.filter sel l).
Proof.
  intros Hf. induction l as [|x l IH]; [done|]. cbn.
  destruct (sel x) eqn:Hx; cbn; rewrite ?Hf, Hx; [cbn; f_equal|]; exact IH.
Qed.

Lemma filter_update_nil (sel : A -> bool) p f l :
  (forall x, sel (f x) = sel x) -> List.filter sel l = [] -> List.filter sel (update_where p f l) = [].
Proof.
  intros Hf. induction l as [|x l IH]; [done|]. cbn.
  assert (sel (if p x then f x else x) = sel x) as -> by (destruct (p x); [apply Hf|done]).
  destruct (sel x); [done|]. done.
Qed.

Lemma filter_none (sel : A -> bool) l : (forall x, x ∈ l -> sel x = false) -> List.filter sel l = [].
Proof.
  induction l as [|x l IH]; intros Hl; [done|]. cbn. rewrite Hl by left. apply IH. intros y Hy. apply Hl. by right.
Qed.

Lemma filter_all (sel : A -> bool) l : Forall (fun x => sel x = true) l -> List.filter sel l = l.
Proof. induction 1 as [|x l Hx _ IH]; [done|]. cbn. by rewrite Hx, IH. Qed.

Lemma nodup_map_filter {B} (key : A -> B) p l :
  NoDup (map key l) -> NoDup (map key (List.filter p l)).
Proof.
  induction l as [|x l IH]; [done|]. cbn. intros [Hx Hnd]%NoDup_cons.
  destruct (p x); [|by apply IH]. cbn. apply NoDup_cons. split; [|by apply IH].
  intros Hin. apply Hx. apply list_elem_of_In, in_map_iff in Hin as (y & Hy & [? _]%filter_In).
  apply list_elem_of_In, in_map_iff. eauto.
Qed.

Lemma count_nonneg p l : 0 <= count p l.
Proof. unfold count. lia. Qed.

Lemma count_cons p x l : count p (x :: l) = (if p x then 1 else 0) + count p l.
Proof. unfold count. cbn. destruct (p x); cbn; lia. Qed.

Lemma count_app p l1 l2 : count p (l1 ++ l2) = count p l1 + count p l2.
Proof. unfold count. rewrite List.filter_app, length_app. lia. Qed.

Lemma count_perm p l l' : l ≡ₚ l' -> count p l = count p l'.
Proof. induction 1; rewrite ?count_cons; lia. Qed.

Lemma count_zero_iff p l : count p l = 0 <-> forall x, x ∈ l -> p x = false.
Proof.
  induction l as [|x l IH].
  - split; [|done]. intros _ x Hx. by apply not_elem_of_nil in Hx.
  - rewrite count_cons. setoid_rewrite elem_of_cons.
    pose proof (count_nonneg p l). split.
    + intros Hc y [-> | Hy]; destruct (p x) eqn:?; try lia; try done; by apply IH; [lia|].
    + intros Hall. rewrite (Hall x) by by left.
      assert (count p l = 0) as -> by (apply IH; eauto). lia.
Qed.

Lemma count_le_length p l : count p l <= Z.of_nat (length l).
Proof. unfold count. pose proof (filter_length_le p l). lia. Qed.

Lemma elem_of_take_inv n l x : x ∈ take n l -> x ∈ l.
Proof. intros Hx. rewrite <- (take_drop n l). apply elem_of_app. by left. Qed.

Lemma pick_elem before l x : pick before l = Some x -> x ∈ l.
Proof.
  revert x. induction l as [|y l IH]; intros x; cbn; [done|].
  destruct (pick before l) as [z|].
  - intros [= <-]. destruct (before z y); [right; by apply IH | left].
  - intros [= <-]. left.
Qed.

Lemma pick_is_Some before l : l ≠ [] -> is_Some (pick before l).
Proof. destruct l; [done|]. intros _. cbn. destruct (pick _ _); eauto. Qed.

Lemma pick_None before l : pick before l = None <-> l = [].
Proof.
  split; [|by intros ->]. intros H. destruct l as [|x l]; [done|].
  destruct (pick_is_Some before (x :: l)); congruence.
Qed.

Lemma filter_update_comm (sel : A -> bool) p f l :
  (forall x, sel (f x) = sel x) ->
  List.filter sel (update_where p f l) = update_where p f (List.filter sel l).
Proof.
  intros Hf. induction l as [|x l IH]; [done|]. cbn. fold (update_where p f l).
  assert (sel (if p x then f x else x) = sel x) as -> by (destruct (p x); [apply Hf|done]).
  destruct (sel x); cbn; by rewrite IH.
Qed.

(** Updating one row changes a total by the change of that row. *)
Lemma total_of_update (column : A -> Z) p f l x :
  List.filter p l = [x] -> total_of column (update_where p f l) = total_of column l - column x + column (f x).
Proof.
  unfold total_of. induction l as [|y l IH]; [done|]. cbn. destruct (p y) eqn:Hy.
  - intros [= -> Hnil]. fold (update_where p f l). rewrite update_where_none; [lia|].
    intros z Hz. destruct (p z) eqn:Hpz; [|done]. exfalso.
    assert (In z (List.filter p l)) as Hin by (apply filter_In; by rewrite <- list_elem_of_In).
    by rewrite Hnil in Hin.
  - intros Hx. specialize (IH Hx). unfold update_where in IH. lia.
Qed.

(** The only row updated leaves a selection. *)
Lemma filter_update_leaves sel p f l x :
  List.filter p l = [x] -> sel x = true -> sel (f x) = false ->
  List.filter sel l ≡ₚ x :: List.filter sel (update_where p f l).
Proof.
  intros Hp Hx Hfx. induction l as [|y l IH]; [done|]. cbn in Hp |- *. fold (update_where p f l). destruct (p y) eqn:Hy.
  - injection Hp as -> Hnil. rewrite Hx, Hfx. rewrite update_where_none; [done|].
    intros z Hz. destruct (p z) eqn:Hpz; [|done]. exfalso.
    assert (In z (List.filter p l)) as Hin by (apply filter_In; by rewrite <- list_elem_of_In).
    by rewrite Hnil in Hin.
  - specialize (IH Hp). destruct (sel y); [|done]. etrans; [by apply Permutation_skip|apply perm_swap].
Qed.

Lemma pick_single (before : A -> A -> bool) x : pick before [x] = Some x.
Proof. done. Qed.
End lists.

Lemma total_of_perm {A} (column : A -> Z) l l' : l ≡ₚ l' -> total_of column l = total_of column l'.
Proof. unfold total_of. induction 1; cbn; lia. Qed.

Lemma total_of_map {A B} (column : B -> Z) (f : A -> B) l :
  total_of column (map f l) = total_of (fun x => column (f x)) l.
Proof. induction l as [|x l IH]; [done|]. cbn. unfold total_of in IH. by rewrite IH. Qed.

Lemma filter_and {A} (p q : A -> bool) l :
  List.filter (fun x => p x && q x) l = List.filter q (List.filter p l).
Proof.
  induction l as [|x l IH]; [done|]. cbn. destruct (p x), (q x) eqn:Hq; cbn; rewrite ?Hq, ?IH; done.
Qed.

Lemma filter_map_length {A B} (key : A -> B) (p : B -> bool) l :
  length (List.filter (fun x => p (key x)) l) = length (List.filter p (map key l)).
Proof. induction l as [|x l IH]; [done|]. cbn. destruct (p (key x)); cbn; by rewrite ?IH. Qed.

Lemma Forall2_update_where {A B} (P Q : A -> B -> Prop) (p : B -> bool) f (xs : list A) (ys : list B) :
  Forall2 P xs ys ->
  (forall x y, x ∈ xs -> y ∈ ys -> P x y -> Q x (if p y then f y else y)) ->
  Forall2 Q xs (update_where p f ys).
Proof.
  induction 1 as [|x y xs ys Hxy _ IH]; intros HPQ; constructor.
  - apply HPQ; [left|left|done].
  - apply IH. intros x' y' Hx' Hy'. apply HPQ; by right.
Qed.

(** ** Tactics *)

(** Case analysis on the innermost [match]/[if] of the goal or a hypothesis. *)
Ltac case_all :=
  repeat (case_match; simplify_eq/=); try done.

(** Split conjunctions of the goal. *)
Ltac splits := repeat match goal with |- _ /\ _ => split end.
