(* ===== verification/Go.v ===== *)
(** * Go: the values of the language and its standard library the source uses

    Machine integers, [time.Time], [uuid.UUID], [error] values with wrapping,
    [interface{}] values, JSON texts, and [strings.TrimSpace].  Packages that are
    not under [src/] (pgtype, google/uuid) appear as classes of operations with
    the documented laws the code relies on. *)
From S2P Require Import Prelude.
From Stdlib Require Import Floats.SpecFloat.

(** ** Integers *)

(** [int] and [int64] are 64 bits wide; arithmetic wraps. *)
Definition wrap64 (z : Z) : Z := (z + 2 ^ 63) mod 2 ^ 64 - 2 ^ 63.

Definition max_int64 : Z := 2 ^ 63 - 1.
Definition min_int64 : Z := - 2 ^ 63.

(** ** Time *)

(** A [time.Time] is its nanosecond offset from the zero time (January 1,
    year 1, UTC); a [time.Duration] is an [int64] of nanoseconds. *)
Abbreviation time := Z.
Abbreviation duration := Z.

Definition zero_time : time := 0.
Definition IsZero (t : time) : bool := t =? zero_time.

(** [t.Sub(u)] saturates at the ends of [int64]. *)
Definition Sub (t u : time) : duration := Z.max min_int64 (Z.min max_int64 (t - u)).
Definition Add (t : time) (d : duration) : time := t + d.
Definition Before (t u : time) : bool := t <? u.
Definition After (t u : time) : bool := u <? t.

(** Integer division truncates toward zero. *)
Definition Milliseconds (d : duration) : Z := Z.quot d 1000000.

(** ** Identifiers *)

(** A [uuid.UUID] is 16 bytes, here the number they spell. *)
Abbreviation uuid := N.

(** google/uuid's text form. *)
Class UuidText := {
  uuid_String : uuid -> string;
  uuid_Parse : string -> result string uuid;
}.

Class UuidTextLaws `{UuidText} : Prop := {
  uuid_Parse_String : forall u, uuid_Parse (uuid_String u) = Ok u;
}.

(** ** Errors *)

(** [ErrText] is [errors.New] or [fmt.Errorf] without a wrapped error,
    [ErrWrap] is [fmt.Errorf("...: %w", err)], [ErrForeign] an error made by
    code outside the repository.  The others are the values the source tests
    for: [repository.ErrJobAlreadyTerminal], [gorm.ErrRecordNotFound] and
    [fsm.NoTransitionError], with a nil or an inner error. *)
Inductive error : Type :=
| ErrText (msg : string)
| ErrWrap (msg : string) (inner : error)
| ErrForeign (msg : string)
| ErrJobAlreadyTerminal
| ErrRecordNotFound
| ErrNoTransition
| ErrNoTransitionWith (inner : error).

#[global] Instance error_eq_dec : EqDecision error.
Proof. solve_decision. Defined.

(** [err.Error()]. *)
Fixpoint error_string (e : error) : string :=
  match e with
  | ErrText s | ErrForeign s => s
  | ErrWrap s e => s ++ ": " ++ error_string e
  | ErrJobAlreadyTerminal => "job is already in a terminal state"
  | ErrRecordNotFound => "record not found"
  | ErrNoTransition => "no transition"
  | ErrNoTransitionWith e => "no transition with error: " ++ error_string e
  end%string.

(** [errors.Is(err, target)] for the sentinel values. *)
Fixpoint errors_Is (e target : error) : bool :=
  bool_decide (e = target) ||
  match e with ErrWrap _ e => errors_Is e target | _ => false end.

(** [errors.As(err, &nt)] for [fsm.NoTransitionError]: the [Err] field of the
    first such error on the chain. *)
Fixpoint errors_As_NoTransition (e : error) : option (option error) :=
  match e with
  | ErrNoTransition => Some None
  | ErrNoTransitionWith inner => Some (Some inner)
  | ErrWrap _ e => errors_As_NoTransition e
  | _ => None
  end.

(** A result whose error is an [error]. *)
Abbreviation res := (result error).

(** ** [interface{}] values *)

(** [VMap None] is a nil map.  [float64] is IEEE binary64. *)
#[warnings="-register-all"]
Inductive value : Type :=
| VNil
| VBool (b : bool)
| VInt (z : Z)
| VInt64 (z : Z)
| VFloat64 (f : spec_float)
| VString (s : string)
| VSlice (l : list value)
| VMap (m : option (list (string * value))).

(** [map[string]interface{}]; [None] is the nil map. *)
Abbreviation gomap := (option (gmap string value)).

Definition gomap_lookup (m : gomap) (k : string) : option value :=
  match m with Some m => m !! k | None => None end.

Definition gomap_value (m : gomap) : value := VMap (map_to_list <$> m).

(** Conversion of an [int] constant to [float64], as decoding a JSON integer
    literal does. *)
Definition float_of_int (z : Z) : spec_float := binary_normalize 53 1024 z 0 false.

(** [int(f)] discards the fraction; the result for a value out of range is
    left to the implementation by the language. *)
Class FloatConv := { float_to_int_out_of_range : spec_float -> Z }.

Definition float_trunc (f : spec_float) : option Z :=
  match f with
  | S754_zero _ => Some 0
  | S754_finite s m e =>
      let a := if 0 <=? e then Z.pos m * 2 ^ e else Z.pos m / 2 ^ (- e) in
      Some (if s then - a else a)
  | _ => None
  end.

Definition float_to_int `{FloatConv} (f : spec_float) : Z :=
  match float_trunc f with
  | Some z => if (min_int64 <=? z) && (z <=? max_int64) then z else float_to_int_out_of_range f
  | None => float_to_int_out_of_range f
  end.

(** ** JSON *)

(** A JSON text, up to what decoding can see of it: empty, a document, or
    malformed. *)
Inductive json_text : Type :=
| JEmpty
| JDoc (v : value)
| JBad (s : string).

(** What a value becomes when it is encoded and decoded again: every number a
    [float64], a nil map the value [nil]. *)
Fixpoint json_norm (v : value) : value :=
  match v with
  | VInt z | VInt64 z => VFloat64 (float_of_int z)
  | VSlice l => VSlice (map json_norm l)
  | VMap None => VNil
  | VMap (Some kvs) => VMap (Some (map (fun kv => (kv.1, json_norm kv.2)) kvs))
  | v => v
  end.

(** NaN and the infinities have no JSON encoding. *)
Fixpoint json_encodable (v : value) : bool :=
  match v with
  | VFloat64 (S754_nan | S754_infinity _) => false
  | VSlice l => forallb json_encodable l
  | VMap (Some kvs) => forallb (fun kv => json_encodable kv.2) kvs
  | _ => true
  end.

(** [json.Unmarshal(bytes, &m)] with [m] a nil [map[string]interface{}]. *)
Definition json_Unmarshal_map (t : json_text) : res gomap :=
  match t with
  | JDoc (VMap (Some kvs)) => Ok (Some (list_to_map kvs))
  | JDoc VNil => Ok None
  | JDoc _ => Err (ErrForeign "json: cannot unmarshal value into Go value of type map[string]interface {}")
  | JEmpty => Err (ErrForeign "unexpected end of JSON input")
  | JBad _ => Err (ErrForeign "invalid character")
  end.

(** ** pgtype.JSONB *)
Inductive pg_status : Type := Undefined | Null | Present.

#[global] Instance pg_status_eq_dec : EqDecision pg_status.
Proof. solve_decision. Defined.

Record JSONB : Type := mkJSONB {
  JSONB_Status : pg_status;
  JSONB_Bytes : json_text;
}.

Definition JSONB_zero : JSONB := mkJSONB Undefined JEmpty.

(** A present document. *)
Definition JSONB_document (b : JSONB) : bool :=
  match b with mkJSONB Present (JDoc _) => true | _ => false end.

(** The operations of pgtype the source calls: [Set] and [AssignTo(&map)]. *)
Class Pgtype := {
  JSONB_Set : gomap -> res JSONB;
  JSONB_AssignTo : JSONB -> res gomap;
}.

(** Documented behaviour: [Set] of an encodable map stores its JSON encoding (and what
    it stores of a map is always an encoding), [AssignTo] decodes a present value into
    the map. *)
Class PgtypeLaws `{Pgtype} : Prop := {
  JSONB_Set_Present : forall m,
    json_encodable (gomap_value (Some m)) = true ->
    JSONB_Set (Some m) = Ok (mkJSONB Present (JDoc (json_norm (gomap_value (Some m)))));
  JSONB_Set_document : forall m b, JSONB_Set m = Ok b -> JSONB_document b = true;
  JSONB_AssignTo_Present : forall v,
    JSONB_AssignTo (mkJSONB Present (JDoc v)) = json_Unmarshal_map (JDoc v);
}.

(** ** UTF-8 *)

(** The bytes after the first of an encoding. *)
Definition tail_byte (b : nat) : bool := (128 <=? b)%nat && (b <=? 191)%nat.
Definition utf8_2 (a b : nat) : bool := (194 <=? a)%nat && (a <=? 223)%nat && tail_byte b.
Definition utf8_3 (a b c : nat) : bool :=
  tail_byte b && tail_byte c &&
  (((a =? 224) && (160 <=? b)) || ((a =? 237) && (b <=? 159)) ||
   ((225 <=? a) && (a <=? 239) && negb (a =? 237)))%nat.
Definition utf8_4 (a b c d : nat) : bool :=
  tail_byte b && tail_byte c && tail_byte d &&
  (((a =? 240) && (144 <=? b)) || ((241 <=? a) && (a <=? 243)) || ((a =? 244) && (b <=? 143)))%nat.

(** The number of characters of a text; [None] when it is not valid UTF-8 or has a
    NUL. *)
Fixpoint utf8_length (l : list nat) : option nat :=
  match l with
  | [] => Some O
  | a :: l1 =>
      if (a =? 0)%nat then None
      else if (a <? 128)%nat then S <$> utf8_length l1
      else
        match l1 with
        | [] => None
        | b :: l2 =>
            if utf8_2 a b then S <$> utf8_length l2
            else
              match l2 with
              | [] => None
              | c :: l3 =>
                  if utf8_3 a b c then S <$> utf8_length l3
                  else
                    match l3 with
                    | [] => None
                    | d :: l4 => if utf8_4 a b c d then S <$> utf8_length l4 else None
                    end
              end
        end
  end.

(** ** strings.TrimSpace *)

(** The UTF-8 encodings of the code points with the White_Space property. *)
Definition white_space : list (list nat) :=
  [[9]; [10]; [11]; [12]; [13]; [32]; [194; 133]; [194; 160]; [225; 154; 128];
   [226; 128; 128]; [226; 128; 129]; [226; 128; 130]; [226; 128; 131]; [226; 128; 132];
   [226; 128; 133]; [226; 128; 134]; [226; 128; 135]; [226; 128; 136]; [226; 128; 137];
   [226; 128; 138]; [226; 128; 168]; [226; 128; 169]; [226; 128; 175]; [226; 129; 159];
   [227; 128; 128]]%nat.

Fixpoint strip_prefix (p l : list nat) : option (list nat) :=
  match p, l with
  | [], _ => Some l
  | x :: p', y :: l' => if Nat.eqb x y then strip_prefix p' l' else None
  | _, _ => None
  end.

Definition strip_one (ws : list (list nat)) (l : list nat) : option (list nat) :=
  head (omap (fun p => strip_prefix p l) ws).

Fixpoint trim_left (fuel : nat) (ws : list (list nat)) (l : list nat) : list nat :=
  match fuel, strip_one ws l with
  | S fuel, Some l' => trim_left fuel ws l'
  | _, _ => l
  end.

Lemma utf8_length_app l l' a b :
  utf8_length l = Some a -> utf8_length l' = Some b -> utf8_length (l ++ l') = Some (a + b)%nat.
Proof.
  intros Hl Hl'. remember (length l) as n eqn:Hn. revert l a Hl Hn.
  induction (lt_wf n) as [n _ IH]. intros l a Hl ->.
  assert (IH' : forall k x, (length k < length l)%nat -> utf8_length k = Some x -> utf8_length (k ++ l') = Some (x + b)%nat)
    by (intros k x Hk Hx; by eapply (IH (length k))).
  clear IH. destruct l as [|c l1]; [by injection Hl as <-|]. cbn [app utf8_length] in *.
  destruct (c =? 0)%nat; [done|].
  destruct (c <? 128)%nat; [|destruct l1 as [|d l2]; [done|]; cbn [app] in *; destruct (utf8_2 c d);
    [|destruct l2 as [|e l3]; [done|]; cbn [app] in *; destruct (utf8_3 c d e);
      [|destruct l3 as [|f l4]; [done|]; cbn [app] in *; destruct (utf8_4 c d e f); [|done]]]].
  all: apply fmap_Some in Hl as (x & Hx & ->); rewrite (IH' _ x); [done|cbn; lia|done].
Qed.

Definition string_bytes (s : string) : list nat :=
  map Ascii.nat_of_ascii (String.list_ascii_of_string s).

Definition bytes_string (l : list nat) : string :=
  String.string_of_list_ascii (map Ascii.ascii_of_nat l).

Definition TrimSpace (s : string) : string :=
  let n := String.length s in
  let l := trim_left n white_space (string_bytes s) in
  bytes_string (rev (trim_left n (map (@rev nat) white_space) (rev l))).

(** [strings.HasPrefix] and [strings.TrimPrefix]. *)
Definition HasPrefix (s p : string) : bool := String.prefix p s.
Definition TrimPrefix (s p : string) : string :=
  if String.prefix p s then String.substring (String.length p) (String.length s - String.length p) s else s.

(** ** Lemmas *)

Lemma wrap64_id z : min_int64 <= z <= max_int64 -> wrap64 z = z.
Proof. unfold wrap64, min_int64, max_int64. intros. rewrite Z.mod_small; lia. Qed.

Lemma errors_Is_wrap msg e target :
  errors_Is e target = true -> errors_Is (ErrWrap msg e) target = true.
Proof. intros H. cbn. by rewrite H, orb_true_r. Qed.

Lemma json_Unmarshal_norm_lookup m k v m' :
  m !! k = Some v ->
  json_Unmarshal_map (JDoc (json_norm (gomap_value (Some m)))) = Ok m' ->
  gomap_lookup m' k = Some (json_norm v).
Proof.
  intros Hk. cbn. intros [= <-]. cbn.
  assert (map (fun kv => (kv.1, json_norm kv.2)) (map_to_list m)
          = prod_map id json_norm <$> map_to_list m) as ->.
  { apply map_ext. by intros []. }
  rewrite <- map_to_list_fmap, list_to_map_to_list, lookup_fmap, Hk. done.
Qed.
