(* ===== verification/Format.v ===== *)
(** * Format: the texts [fmt] makes of numbers and of [interface{}] values

    What [%.2f], [%v] and the zero padding of a time layout print, as functions: a
    [float64] is a rational with a power of two, so its decimal digits are computed
    exactly on integers. *)
From stdpp Require Import pretty.
From Stdlib Require Import Floats.SpecFloat.
From S2P Require Import Prelude Go.

(** ** Integers *)
Fixpoint zeros (n : nat) : string := match n with O => "" | S n => "0" ++ zeros n end%string.

(** At least [width] digits. *)
Definition padded (width : nat) (z : Z) : string :=
  let s := pretty (Z.abs z) in
  ((if (z <? 0)%Z then "-" else "") ++ zeros (width - String.length s)%nat ++ s)%string.

(** ** [%.2f] *)

(** [a / b], ties to even. *)
Definition round_half_even (a b : Z) : Z :=
  let q := a / b in let r := a mod b in
  if 2 * r <? b then q else if b <? 2 * r then q + 1 else if Z.even q then q else q + 1.

(** A positive [float64] as a fraction. *)
Definition fraction_of (m : positive) (e : Z) : Z * Z :=
  if 0 <=? e then (Z.pos m * 2 ^ e, 1) else (Z.pos m, 2 ^ (- e)).

Definition sign_text (negative : bool) (s : string) : string := if negative then ("-" ++ s)%string else s.

(** [z] hundredths. *)
Definition hundredths_text (z : Z) : string := (pretty (z / 100) ++ "." ++ padded 2 (z mod 100))%string.

Definition format_f2 (f : spec_float) : string :=
  match f with
  | S754_nan => "NaN"
  | S754_infinity s => if s then "-Inf" else "+Inf"
  | S754_zero s => sign_text s "0.00"
  | S754_finite s m e =>
      let '(n, d) := fraction_of m e in sign_text s (hundredths_text (round_half_even (100 * n) d))
  end%string.

(** ** [%v] of a [float64]: the shortest digits that read back as the number *)

(** The [float64] nearest to [d * 10 ^ t]. *)
Definition read_decimal (d t : Z) : spec_float :=
  if 0 <=? t then float_of_int (d * 10 ^ t)
  else let '(m, e, l) := SFdiv_core_binary 53 1024 d 0 (10 ^ (- t)) 0 in binary_round_aux 53 1024 false m e l.

(** [x <= 10 ^ t] for the fraction [x] of [n] and [d]. *)
Definition scale10 (t : Z) (n d : Z) : Z * Z := if 0 <=? t then (n, d * 10 ^ t) else (n * 10 ^ (- t), d).

(** The largest [t] with [10 ^ t <= n / d]. *)
Definition log10 (n d : Z) : Z :=
  let g := Z.of_nat (String.length (pretty n)) - Z.of_nat (String.length (pretty d)) in
  let '(n', d') := scale10 g n d in if d' <=? n' then g else g - 1.

Definition same_float (f g : spec_float) : bool := match SFcompare f g with Some Eq => true | _ => false end.

(** The candidates with [p] digits, from [p] digits on: a number and its scale. *)
Fixpoint shortest_from (fuel : nat) (p : Z) (f : spec_float) (n d : Z) : Z * Z :=
  let t := log10 n d - p + 1 in
  let '(n', d') := scale10 t n d in
  let lo := n' / d' in
  match fuel with
  | O => (lo, t)
  | S fuel =>
      let down := same_float (read_decimal lo t) f in
      let up := same_float (read_decimal (lo + 1) t) f in
      if down && up then (round_half_even n' d', t)
      else if down then (lo, t)
      else if up then (lo + 1, t)
      else shortest_from fuel (p + 1) f n d
  end.

(** Without the zeros at the end. *)
Fixpoint strip_zeros (fuel : nat) (d t : Z) : Z * Z :=
  match fuel with
  | O => (d, t)
  | S fuel => if d mod 10 =? 0 then strip_zeros fuel (d / 10) (t + 1) else (d, t)
  end.

Definition substring_from (n : nat) (s : string) : string := String.substring n (String.length s - n) s.

(** [digits], the first [dp] of them before the point. *)
Definition format_e (digits : string) (exp : Z) : string :=
  let rest := substring_from 1 digits in
  (String.substring 0 1 digits ++ (if bool_decide (rest = "") then "" else "." ++ rest) ++
   "e" ++ (if (exp <? 0)%Z then "-" else "+") ++ padded 2 (Z.abs exp))%string.
Definition format_plain (digits : string) (dp : Z) : string :=
  let nd := Z.of_nat (String.length digits) in
  if dp <=? 0 then ("0." ++ zeros (Z.to_nat (- dp)) ++ digits)%string
  else if nd <=? dp then (digits ++ zeros (Z.to_nat (dp - nd)))%string
  else (String.substring 0 (Z.to_nat dp) digits ++ "." ++ substring_from (Z.to_nat dp) digits)%string.

Definition format_g (f : spec_float) : string :=
  match f with
  | S754_nan => "NaN"
  | S754_infinity s => if s then "-Inf" else "+Inf"
  | S754_zero s => sign_text s "0"
  | S754_finite s m e =>
      let '(n, d) := fraction_of m e in
      let '(ds, t) := shortest_from 17 1 (S754_finite false m e) n d in
      let '(ds, t) := strip_zeros 17 ds t in
      let digits := pretty ds in
      let dp := (Z.of_nat (String.length digits) + t)%Z in
      sign_text s (if (dp - 1 <? -4)%Z || (6 <=? dp - 1)%Z
                   then format_e digits (dp - 1)%Z else format_plain digits dp)
  end%string.

(** ** [%v] of an [interface{}] value; a map is printed by ascending keys *)
Definition key_le {A} (a b : string * A) : Prop := String.leb a.1 b.1 = true.
#[export] Instance key_le_dec {A} (a b : string * A) : Decision (key_le a b).
Proof. unfold key_le. apply _. Defined.

Definition sort_keys {A} (kvs : list (string * A)) : list (string * A) := merge_sort key_le kvs.

Fixpoint spaced (l : list string) : string :=
  match l with [] => "" | [s] => s | s :: l => s ++ " " ++ spaced l end%string.

Fixpoint format_v (v : value) : string :=
  match v with
  | VNil => "<nil>"
  | VBool b => if b then "true" else "false"
  | VInt z | VInt64 z => pretty z
  | VFloat64 f => format_g f
  | VString s => s
  | VSlice l => "[" ++ spaced (map format_v l) ++ "]"
  | VMap None => "map[]"
  | VMap (Some kvs) =>
      let texts := sort_keys (map (fun kv => (kv.1, format_v kv.2)) kvs) in
      "map[" ++ spaced (map (fun kv => kv.1 ++ ":" ++ kv.2) texts) ++ "]"
  end%string.

(** ** Checks on known values *)
Definition dec (d t : Z) : spec_float := read_decimal d t.

Example f2_values :
  map format_f2 [float_of_int 5000; dec 125 (-3); dec 375 (-3); dec 1005 (-3); dec 29995 (-4); S754_zero true] =
  ["5000.00"; "0.12"; "0.38"; "1.00"; "3.00"; "-0.00"]%string.
Proof. vm_compute. reflexivity. Qed.

Example v_values :
  map (fun f => format_v (VFloat64 f))
    [dec 1 (-1); dec 3 (-1); float_of_int 100000; float_of_int 1000000; float_of_int 123456789; dec 15 (-1);
     dec 1 (-4); dec 1 (-5); dec 12345 (-8); float_of_int (2 ^ 53); dec 5 (-324); dec 17976931348623157 292] =
  ["0.1"; "0.3"; "100000"; "1e+06"; "1.23456789e+08"; "1.5"; "0.0001"; "1e-05"; "0.00012345";
   "9.007199254740992e+15"; "5e-324"; "1.7976931348623157e+308"]%string.
Proof. vm_compute. reflexivity. Qed.

Example v_map :
  format_v (VMap (Some [("b", VSlice [VInt 1; VNil]); ("a", VBool true)]))%string = "map[a:true b:[1 <nil>]]"%string.
Proof. vm_compute. reflexivity. Qed.

Example padded_values : map (padded 4) [7; 2024; 12345; -7] = ["0007"; "2024"; "12345"; "-0007"]%string.
Proof. vm_compute. reflexivity. Qed.
