(* ===== verification/JsonStruct.v ===== *)
(** * JsonStruct: [encoding/json] between structs and [interface{}] values

    Decoding an object into a struct: the choice of the field (by its exact name, then
    up to case), the conversion of each value to the field's type, and what [null]
    leaves.  An encoded [map[string]interface{}] lists its keys in ascending order. *)
From Stdlib Require Import Floats.SpecFloat.
From S2P Require Import Prelude Go Format.

(** ** Field names *)
Definition upper (c : nat) : nat := if ((97 <=? c) && (c <=? 122))%nat then (c - 32)%nat else c.

(** [foldName] as far as it can reach an ASCII name: letters without their case, and
    the two other characters that fold to one, U+017F and U+212A. *)
Fixpoint fold_bytes (l : list nat) : list nat :=
  match l with
  | [] => []
  | a :: l1 =>
      match l1 with
      | b :: l2 =>
          if ((a =? 197) && (b =? 191))%nat then 83%nat :: fold_bytes l2
          else
            match l2 with
            | c :: l3 =>
                if ((a =? 226) && (b =? 132) && (c =? 170))%nat then 75%nat :: fold_bytes l3
                else upper a :: fold_bytes l1
            | [] => upper a :: fold_bytes l1
            end
      | [] => [upper a]
      end
  end.
Definition foldName (s : string) : list nat := fold_bytes (string_bytes s).

(** The field a key names. *)
Definition find_field (names : list string) (key : string) : option string :=
  if bool_decide (key ∈ names) then Some key
  else head (List.filter (fun n => bool_decide (foldName n = foldName key)) names).

(** The pairs of an object in their order; [set] stores a value in a field, and
    [None] is a value that does not fit it. *)
Fixpoint decode_object {S} (names : list string) (set : string -> value -> S -> option S)
    (kvs : list (string * value)) (st : S) : option S :=
  match kvs with
  | [] => Some st
  | (k, v) :: kvs =>
      match find_field names k with
      | None => decode_object names set kvs st
      | Some n => st ← set n v st; decode_object names set kvs st
      end
  end.

(** ** Values: [null] leaves a field as it is, and makes a slice nil *)
Definition decode_string (v : value) (old : string) : option string :=
  match v with
  | VString s => Some s
  | VNil | VMap None => Some old
  | _ => None
  end.

(** The number when it is whole: its text then has neither a fraction nor, within
    [int], an exponent. *)
Definition whole (f : spec_float) : option Z :=
  match f with
  | S754_zero _ => Some 0
  | S754_finite s m e =>
      let '(n, d) := fraction_of m e in
      if n mod d =? 0 then Some (if s then - (n / d) else n / d) else None
  | _ => None
  end.

Definition decode_int (v : value) (old : Z) : option Z :=
  match v with
  | VInt z | VInt64 z => Some z
  | VFloat64 f => z ← whole f; if (min_int64 <=? z) && (z <=? max_int64) then Some z else None
  | VNil | VMap None => Some old
  | _ => None
  end.

Definition decode_float (v : value) (old : spec_float) : option spec_float :=
  match v with
  | VInt z | VInt64 z => Some (float_of_int z)
  | VFloat64 (S754_nan | S754_infinity _) => None
  | VFloat64 f => Some f
  | VNil | VMap None => Some old
  | _ => None
  end.

(** A [[]string] ([None] is nil) and the array behind it, whose elements a second
    value for the same field finds again where it has [null]. *)
Record strings : Type := mkStrings { sl_value : option (list string); sl_array : list string }.

Fixpoint decode_elements (i : nat) (vs : list value) (array : list string) : option (list string) :=
  match vs with
  | [] => Some []
  | v :: vs =>
      s ← decode_string v (default ""%string (array !! i));
      cons s <$> decode_elements (S i) vs array
  end.

Definition decode_strings (v : value) (old : strings) : option strings :=
  match v with
  | VSlice [] => Some (mkStrings (Some []) [])
  | VSlice vs =>
      l ← decode_elements 0 vs (sl_array old);
      Some (mkStrings (Some l) (l ++ drop (length l) (sl_array old)))
  | VNil | VMap None => Some (mkStrings None [])
  | _ => None
  end.

Definition strings_value (l : option (list string)) : value :=
  match l with None => VNil | Some l => VSlice (map VString l) end.

(** ** Documents *)

Definition unsupported_value : error := ErrForeign "json: unsupported value".
Definition unfit_value : error := ErrForeign "json: cannot unmarshal value into Go struct field".

(** [json.Marshal] of a struct, given as the value of its fields, then [json.Unmarshal]
    into a nil map. *)
Definition struct_to_map (fields : list (string * value)) : res gomap :=
  let v := VMap (Some fields) in
  if json_encodable v then json_Unmarshal_map (JDoc (json_norm v)) else Err unsupported_value.

(** [json.Marshal] of a map, then [json.Unmarshal] into a struct. *)
Definition map_to_struct {S} (names : list string) (set : string -> value -> S -> option S)
    (m : gomap) (zero : S) : res S :=
  if json_encodable (gomap_value m) then
    match m with
    | None => Ok zero
    | Some m =>
        match decode_object names set (sort_keys (map_to_list m)) zero with
        | Some st => Ok st
        | None => Err unfit_value
        end
    end
  else Err unsupported_value.

(** [json.NewDecoder(body).Decode(&st)], with the body's first value. *)
Definition decode_body {S} (names : list string) (set : string -> value -> S -> option S)
    (body : json_text) (zero : S) : res S :=
  match body with
  | JEmpty => Err (ErrForeign "EOF")
  | JBad _ => Err (ErrForeign "invalid character")
  | JDoc (VMap (Some kvs)) =>
      match decode_object names set kvs zero with Some st => Ok st | None => Err unfit_value end
  | JDoc (VNil | VMap None) => Ok zero
  | JDoc _ => Err unfit_value
  end.

(** ** Checks *)
Example find_field_values :
  map (find_field ["name"; "employee_ids"]%string) ["name"; "NAME"; "Employee_IDs"; "names"]%string =
  [Some "name"; Some "name"; Some "employee_ids"; None]%string.
Proof. vm_compute. reflexivity. Qed.

Example decode_strings_again :
  (decode_strings (VSlice [VString "a"; VString "b"]) (mkStrings None []) ≫= decode_strings (VSlice [VNil; VString "c"]))%string
  = Some (mkStrings (Some ["a"; "c"]) ["a"; "c"])%string.
Proof. vm_compute. reflexivity. Qed.

(** ** Lemmas *)

(** *** Integers as [float64] *)
Lemma digits2_iter m d : digits2_pos (Pos.iter xO m d) = (digits2_pos m + d)%positive.
Proof. induction d as [|d IH] using Pos.peano_ind; [cbn; lia|]. rewrite Pos.iter_succ. cbn. rewrite IH. lia. Qed.

Lemma iter_xO m d : Z.pos (Pos.iter xO m d) = Z.pos m * 2 ^ Z.pos d.
Proof.
  induction d as [|d IH] using Pos.peano_ind; [cbn; lia|].
  rewrite Pos.iter_succ, Pos2Z.inj_xO, IH, Pos2Z.inj_succ, Z.pow_succ_r by lia. lia.
Qed.

Lemma digits2_bound p k : Z.pos p < 2 ^ Z.pos k -> (digits2_pos p <= k)%positive.
Proof.
  revert k. induction p as [p IH|p IH|]; intros k Hk; cbn; [| |lia].
  all: assert (k = 1%positive \/ exists k', k = Pos.succ k') as [->|[k' ->]]
         by (destruct (Pos.succ_pred_or k); eauto); [cbn in Hk; lia|].
  all: rewrite Pos2Z.inj_succ, Z.pow_succ_r in Hk by lia.
  all: apply -> Pos.succ_le_mono; apply IH; lia.
Qed.

(** Rounding leaves a mantissa of at most 53 digits alone. *)
Lemma round_aux_exact m e :
  (digits2_pos m <= 53)%positive -> -1074 <= e <= 971 -> Z.pos (digits2_pos m) + e - 53 <= e ->
  binary_round_aux 53 1024 false (Z.pos m) e loc_Exact = S754_finite false m e.
Proof.
  intros Hd He Hf. unfold binary_round_aux, shr_fexp. cbn [Zdigits2 shr_record_of_loc].
  assert (exists q, fexp 53 1024 (Z.pos (digits2_pos m) + e) - e = - Z.of_nat q) as [q ->].
  { exists (Z.to_nat (e - fexp 53 1024 (Z.pos (digits2_pos m) + e))).
    unfold fexp, emin. rewrite Z2Nat.id; lia. }
  assert (forall r, shr r e (- Z.of_nat q) = (r, e)) as Hshr by (intros r; by destruct q).
  rewrite Hshr. cbn [shr_m loc_of_shr_record round_nearest_even Zdigits2].
  assert (fexp 53 1024 (Z.pos (digits2_pos m) + e) - e <= 0) as Hle by (unfold fexp, emin; lia).
  destruct (fexp 53 1024 (Z.pos (digits2_pos m) + e) - e) eqn:Hz; [| |]; try lia; cbn [shr shr_m].
  all: by rewrite (proj2 (Z.leb_le _ _)) by lia.
Qed.

Lemma whole_float_of_int z : 0 < z < 2 ^ 53 -> whole (float_of_int z) = Some z.
Proof.
  destruct z as [|p|]; try lia. intros [_ Hp].
  pose proof (digits2_bound p 53 Hp) as Hd.
  unfold float_of_int, binary_normalize, binary_round.
  assert (exists m e, shl_align p 0 (fexp 53 1024 (Z.pos (digits2_pos p) + 0)) = (m, e) /\
    (digits2_pos m <= 53)%positive /\ -52 <= e <= 0 /\ Z.pos m = Z.pos p * 2 ^ (- e)) as (m & e & -> & Hm & He & Heq).
  { unfold shl_align. assert (fexp 53 1024 (Z.pos (digits2_pos p) + 0) - 0 = Z.pos (digits2_pos p) - 53) as Hf
      by (unfold fexp, emin; lia).
    destruct (fexp 53 1024 (Z.pos (digits2_pos p) + 0) - 0) as [|?|d] eqn:Hfe; [|lia|].
    - exists p, 0. splits; [done|done|lia|lia|]. rewrite Z.pow_0_r. lia.
    - eexists _, _. split; [done|]. rewrite digits2_iter, iter_xO.
      replace (fexp 53 1024 (Z.pos (digits2_pos p) + 0)) with (- Z.pos d) by lia. rewrite Z.opp_involutive.
      splits; lia. }
  rewrite round_aux_exact; [|done|lia|].
  2: { assert (Z.pos (digits2_pos m) <= 53) by lia. lia. }
  cbn. unfold fraction_of. destruct (Z.leb_spec 0 e).
  - assert (e = 0) as -> by lia. rewrite Z.mod_1_r, Z.div_1_r. cbn. f_equal. lia.
  - rewrite Heq, Z.mod_mul, Z.div_mul by (apply Z.pow_nonzero; lia). done.
Qed.

(** *** Maps that are already what JSON makes of them *)
Definition normal (v : value) : Prop := json_norm v = v.
Definition normal_map (m : gmap string value) : Prop := map_Forall (fun _ => normal) m.

Lemma json_norm_map (m : gmap string value) :
  json_norm (gomap_value (Some m)) = gomap_value (Some m) <-> normal_map m.
Proof.
  change (VMap (Some (map (fun kv => (kv.1, json_norm kv.2)) (map_to_list m))) = VMap (Some (map_to_list m)) <-> normal_map m).
  split.
  - intros [= Hm] k v Hk%elem_of_map_to_list. unfold normal.
    apply list_elem_of_lookup in Hk as [i Hi]. pose proof (f_equal (lookup i) Hm) as Hl.
    change (map ?f ?l) with (f <$> l) in Hl. rewrite list_lookup_fmap, Hi in Hl. by injection Hl.
  - intros Hn. f_equal. f_equal. etrans; [|apply map_id]. apply map_ext_in.
    intros [k v] Hin%list_elem_of_In%elem_of_map_to_list. cbn. f_equal. exact (Hn k v Hin).
Qed.

(** Such a map passes a JSON column unchanged. *)
Lemma column_roundtrip m : normal_map m -> json_Unmarshal_map (JDoc (json_norm (gomap_value (Some m)))) = Ok (Some m).
Proof. intros ->%json_norm_map. cbn. by rewrite list_to_map_to_list. Qed.

(** Distinct fields make a normal map. *)
Lemma struct_to_map_ok fields :
  forallb (fun kv => json_encodable kv.2) fields = true ->
  struct_to_map fields = Ok (Some (list_to_map (map (fun kv => (kv.1, json_norm kv.2)) fields))).
Proof. intros H. unfold struct_to_map. cbn [json_encodable]. by rewrite H. Qed.

Lemma normal_list_to_map (kvs : list (string * value)) :
  Forall (fun kv => normal kv.2) kvs -> normal_map (list_to_map kvs).
Proof.
  intros Hn k v Hk. apply elem_of_list_to_map_2 in Hk. rewrite Forall_forall in Hn. exact (Hn _ Hk).
Qed.

Lemma normal_strings l : normal (VSlice (map VString l)).
Proof. unfold normal. cbn. f_equal. rewrite map_map. by apply map_ext. Qed.

Lemma decode_elements_strings i l array : decode_elements i (map VString l) array = Some l.
Proof. revert i. induction l as [|s l IH]; intros i; [done|]. cbn. by rewrite IH. Qed.

Lemma decode_strings_ok l old : exists array, decode_strings (VSlice (map VString l)) old = Some (mkStrings (Some l) array).
Proof.
  destruct l as [|s l]; [by eexists|]. unfold decode_strings. cbn [map].
  change (VString s :: map VString l) with (map VString (s :: l)). rewrite decode_elements_strings. by eexists.
Qed.

Lemma decode_int_ok z old : 0 < z < 2 ^ 53 -> decode_int (VFloat64 (float_of_int z)) old = Some z.
Proof.
  intros Hz. cbn. rewrite whole_float_of_int by done. cbn. unfold min_int64, max_int64.
  by rewrite !(proj2 (Z.leb_le _ _)) by lia.
Qed.

(** An integer has a JSON encoding. *)
Lemma encodable_strings l : json_encodable (VSlice (map VString l)) = true.
Proof. cbn. by induction l. Qed.

Lemma encodable_int z : 0 < z < 2 ^ 53 -> json_encodable (VFloat64 (float_of_int z)) = true.
Proof. intros Hz. pose proof (whole_float_of_int z Hz). by destruct (float_of_int z). Qed.

Lemma encodable_list_to_map (kvs : list (string * value)) :
  Forall (fun kv => json_encodable kv.2 = true) kvs -> json_encodable (gomap_value (Some (list_to_map kvs))) = true.
Proof.
  intros Hall. cbn. apply forallb_forall. intros [k v] Hin%list_elem_of_In%elem_of_map_to_list.
  apply elem_of_list_to_map_2 in Hin. rewrite Forall_forall in Hall. exact (Hall _ Hin).
Qed.

Lemma decode_object_cons {S} names set k n v kvs (st st' : S) :
  find_field names k = Some n -> set n v st = Some st' ->
  decode_object names set ((k, v) :: kvs) st = decode_object names set kvs st'.
Proof. intros Hn Hs. cbn. rewrite Hn. cbn. by rewrite Hs. Qed.

Lemma encodable_map (m : gmap string value) :
  map_Forall (fun _ v => json_encodable v = true) m -> json_encodable (gomap_value (Some m)) = true.
Proof.
  intros Hm. cbn. apply forallb_forall. intros [k v] Hin%list_elem_of_In%elem_of_map_to_list. exact (Hm k v Hin).
Qed.
