(* ===== verification/Params.v ===== *)
(** * Params: the query parameters of the console

    [strconv.Atoi] and [time.Parse(time.RFC3339, ...)] of the standard library as
    functions on strings, and [atoiOr] and [parseTimeParam] of
    [internal/console/handler.go], which fall back silently. *)
From Stdlib Require Import Ascii.
From S2P Require Import Prelude Go.

(** ** Integers *)
Definition digit (c : ascii) : option Z :=
  let n := Z.of_nat (nat_of_ascii c) in
  if (48 <=? n) && (n <=? 57) then Some (n - 48) else None.

Fixpoint digits (acc : Z) (s : string) : option Z :=
  match s with
  | EmptyString => Some acc
  | String c s => match digit c with Some d => digits (10 * acc + d) s | None => None end
  end.

Definition unsigned (s : string) : option Z :=
  match s with EmptyString => None | _ => digits 0 s end.

(** [strconv.Atoi]: an optional sign and decimal digits, within [int]. *)
Definition Atoi (s : string) : option Z :=
  let r :=
    match s with
    | String "-" s => Z.opp <$> unsigned s
    | String "+" s => unsigned s
    | s => unsigned s
    end%char in
  match r with
  | Some n => if (min_int64 <=? n) && (n <=? max_int64) then Some n else None
  | None => None
  end.

Definition atoiOr (v : string) (fallback : Z) : Z :=
  if bool_decide (v = ""%string) then fallback
  else match Atoi v with Some n => n | None => fallback end.

(** ** Times *)

(** A parser consumes a prefix of its input. *)
Definition parser (A : Type) : Type := string -> option (A * string).

Definition lit (c : ascii) : parser unit := fun s =>
  match s with
  | String d s => if Ascii.eqb c d then Some ((), s) else None
  | EmptyString => None
  end.

(** Exactly [n] digits. *)
Fixpoint fixed_digits (n : nat) (acc : Z) : parser Z := fun s =>
  match n, s with
  | O, _ => Some (acc, s)
  | S n, String c s => match digit c with Some d => fixed_digits n (10 * acc + d) s | None => None end
  | _, EmptyString => None
  end.

(** [getnum(value, false)]: one digit or two. *)
Definition one_or_two_digits : parser Z := fun s =>
  match fixed_digits 2 0 s with
  | Some r => Some r
  | None => fixed_digits 1 0 s
  end.

(** The digits of a fraction and what follows them. *)
Fixpoint span_digits (s : string) : list Z * string :=
  match s with
  | String c s' =>
      match digit c with
      | Some d => let '(ds, rest) := span_digits s' in (d :: ds, rest)
      | None => ([], s)
      end
  | EmptyString => ([], s)
  end.

(** [parseNanoseconds]: nine digits at most, the others are dropped. *)
Definition nanoseconds (ds : list Z) : Z :=
  let ds := take 9 ds in
  fold_left (fun acc d => 10 * acc + d) ds 0 * 10 ^ (9 - Z.of_nat (length ds)).

(** The optional fraction after the seconds: a dot or a comma and a digit. *)
Definition fraction : parser Z := fun s =>
  match s with
  | String c s' =>
      if Ascii.eqb c "." || Ascii.eqb c "," then
        match span_digits s' with
        | ([], _) => Some (0%Z, s)
        | (ds, rest) => Some (nanoseconds ds, rest)
        end
      else Some (0%Z, s)
  | EmptyString => Some (0%Z, s)
  end%char.

(** The zone: [Z], or a sign, hours and minutes; in seconds east of UTC. *)
Definition zone : parser Z := fun s =>
  match s with
  | String "Z" s => Some (0%Z, s)
  | String c s =>
      if Ascii.eqb c "+" || Ascii.eqb c "-" then
        match fixed_digits 2 0 s with
        | Some (h, s) =>
            match lit ":" s with
            | Some (_, s) =>
                match fixed_digits 2 0 s with
                | Some (m, s) =>
                    if ((h <=? 24) && (m <=? 60))%Z
                    then Some (((if Ascii.eqb c "-" then -1 else 1) * (60 * (60 * h + m)))%Z, s)
                    else None
                | None => None
                end
            | None => None
            end
        | None => None
        end
      else None
  | EmptyString => None
  end%char.

Definition leap (y : Z) : bool := (y mod 4 =? 0) && (negb (y mod 100 =? 0) || (y mod 400 =? 0)).

Definition days_in (y m : Z) : Z :=
  if m =? 2 then (if leap y then 29 else 28)
  else if bool_decide (m ∈ [4; 6; 9; 11]) then 30 else 31.

(** Days from January 1 of year 1 to January 1 of year [y]. *)
Definition days_before_year (y : Z) : Z :=
  let p := y - 1 in 365 * p + p / 4 - p / 100 + p / 400.

Definition days_before_month (y m : Z) : Z :=
  foldr Z.add 0 (map (fun i => days_in y (Z.of_nat i)) (seq 1 (Z.to_nat (m - 1)))).

(** [time.Date] in UTC. *)
Definition Date (y m d hh mm ss ns : Z) : time :=
  let days := days_before_year y + days_before_month y m + (d - 1) in
  1000000000 * (86400 * days + 3600 * hh + 60 * mm + ss) + ns.

(** [time.Parse(time.RFC3339, s)]; [None] is an error. *)
Definition Parse_RFC3339 (s : string) : option time :=
  '(y, s) ← fixed_digits 4 0 s;
  '(_, s) ← lit "-" s;
  '(m, s) ← fixed_digits 2 0 s;
  '(_, s) ← lit "-" s;
  '(d, s) ← fixed_digits 2 0 s;
  '(_, s) ← lit "T" s;
  '(hh, s) ← one_or_two_digits s;
  '(_, s) ← lit ":" s;
  '(mm, s) ← fixed_digits 2 0 s;
  '(_, s) ← lit ":" s;
  '(ss, s) ← fixed_digits 2 0 s;
  '(ns, s) ← fraction s;
  '(east, s) ← zone s;
  if bool_decide (s = ""%string) && (1 <=? m) && (m <=? 12) && (1 <=? d) && (d <=? days_in y m) &&
     (hh <? 24) && (mm <? 60) && (ss <? 60)
  then Some (Date y m d hh mm ss ns - 1000000000 * east)
  else None.

Definition parseTimeParam (v : string) : option time :=
  if bool_decide (v = ""%string) then None else Parse_RFC3339 v.

(** [r.URL.Query()]; [Get] of an absent key is empty. *)
Abbreviation query := (gmap string string).
Definition Get (q : query) (key : string) : string := default ""%string (q !! key).

(** ** Checks on known values *)

(** February 29 of 2024 comes 738944 days after January 1 of year 1. *)
Example parse_utc :
  Parse_RFC3339 "2024-02-29T12:30:05.25Z" = Some (1000000000 * (86400 * 738944 + 45005) + 250000000).
Proof. vm_compute. reflexivity. Qed.

Example parse_offset : Parse_RFC3339 "2024-02-29T00:00:00+01:30" = Parse_RFC3339 "2024-02-28T22:30:00Z".
Proof. vm_compute. reflexivity. Qed.

Example parse_rejects :
  map Parse_RFC3339 ["2023-02-29T00:00:00Z"; "2024-13-01T00:00:00Z"; "2024-01-01"; "2024-01-01T24:00:00Z"]%string
  = [None; None; None; None].
Proof. vm_compute. reflexivity. Qed.

Example atoi_values :
  map (fun s => atoiOr s 50) [""; "7"; "-3"; "x"; "9223372036854775808"]%string = [50; 7; -3; 50; 50].
Proof. vm_compute. reflexivity. Qed.
