(* ===== verification/Calendar.v ===== *)
(** * Calendar: dates in a time zone

    [time.Time]'s [Date], [Clock], [AddDate] and [Format("2006-01")], and [time.Date]
    with a [Location]: a list of changes of the offset, as the zone database has them.
    The days are those of [Params.Date], counted from January 1 of year 1. *)
From S2P Require Import Prelude Go Params Format.

(** ** Days *)

(** The year and the day of the year (from 0) of a day. *)
Definition year_day (n : Z) : Z * Z :=
  let r := n mod 146097 in
  let n100 := Z.min 3 (r / 36524) in
  let r := r - 36524 * n100 in
  let n4 := r / 1461 in
  let r := r - 1461 * n4 in
  let n1 := Z.min 3 (r / 365) in
  (400 * (n / 146097) + 100 * n100 + 4 * n4 + n1 + 1, r - 365 * n1).

(** The month and the day in it. *)
Fixpoint month_day (fuel : nat) (y m yday : Z) : Z * Z :=
  match fuel with
  | O => (m, yday + 1)
  | S fuel => if yday <? days_in y m then (m, yday + 1) else month_day fuel y (m + 1) (yday - days_in y m)
  end.

Definition civil (n : Z) : Z * Z * Z :=
  let '(y, yday) := year_day n in let '(m, d) := month_day 11 y 1 yday in (y, m, d).

(** ** Zones *)

(** The offset, in seconds east of UTC, up to the first change, and the changes:
    when (in seconds) and to what. *)
Record Location : Type := mkLocation { loc_first : Z; loc_changes : list (Z * Z) }.

(** The offset at an instant and the interval it holds in. *)
Fixpoint lookup_zone (off : Z) (start : option Z) (changes : list (Z * Z)) (sec : Z) : Z * option Z * option Z :=
  match changes with
  | [] => (off, start, None)
  | (at_, o) :: changes => if sec <? at_ then (off, start, Some at_) else lookup_zone o (Some at_) changes sec
  end.
Definition loc_lookup (loc : Location) (sec : Z) : Z * option Z * option Z :=
  lookup_zone (loc_first loc) None (loc_changes loc) sec.
Definition offset_at (loc : Location) (sec : Z) : Z := (loc_lookup loc sec).1.1.

Definition within (sec : Z) (start stop : option Z) : bool :=
  match start with Some s => s <=? sec | None => true end && match stop with Some e => sec <? e | None => true end.

Definition second : Z := 1000000000.
Definition unix_sec (t : time) : Z := t / second.

(** [time.Date(y, m, d, hh, mm, ss, ns, loc)]: a month outside 1 to 12 moves the year,
    the other numbers simply add up. *)
Definition seconds_of (y m d hh mm ss : Z) : Z :=
  let y := y + (m - 1) / 12 in
  let m := (m - 1) mod 12 + 1 in
  86400 * (days_before_year y + days_before_month y m + (d - 1)) + 3600 * hh + 60 * mm + ss.

Definition time_Date (loc : Location) (y m d hh mm ss ns : Z) : time :=
  let unix := seconds_of y m d hh mm ss in
  let '(offset, start, stop) := loc_lookup loc unix in
  let unix :=
    if offset =? 0 then unix
    else
      let utc := unix - offset in
      if within utc start stop then utc else unix - offset_at loc utc in
  unix * second + ns.

(** [t.Date()] and [t.Clock()] in a zone. *)
Definition wall (loc : Location) (t : time) : Z := unix_sec t + offset_at loc (unix_sec t).
Definition Time_Date (loc : Location) (t : time) : Z * Z * Z := civil (wall loc t / 86400).
Definition Time_Clock (loc : Location) (t : time) : Z * Z * Z :=
  let s := wall loc t mod 86400 in (s / 3600, s mod 3600 / 60, s mod 60).

Definition AddDate (loc : Location) (years months days : Z) (t : time) : time :=
  let '(y, m, d) := Time_Date loc t in
  let '(hh, mm, ss) := Time_Clock loc t in
  time_Date loc (y + years) (m + months) (d + days) hh mm ss (t mod second).

(** [t.Format("2006-01")]. *)
Definition year_month (y m : Z) : string := (padded 4 y ++ "-" ++ padded 2 m)%string.
Definition Format_year_month (loc : Location) (t : time) : string :=
  let '(y, m, _) := Time_Date loc t in year_month y m.

Definition UTC : Location := mkLocation 0 [].

Example civil_values :
  map civil [0; 58; 59; 365; 738944; -1] =
  [(1, 1, 1); (1, 2, 28); (1, 3, 1); (2, 1, 1); (2024, 2, 29); (0, 12, 31)].
Proof. vm_compute. reflexivity. Qed.

Example add_date_values :
  map (fun months => Time_Date UTC (AddDate UTC 0 months 0 (time_Date UTC 2024 3 31 12 0 0 5))) [1; -1; -3; -15] =
  [(2024, 5, 1); (2024, 3, 2); (2023, 12, 31); (2022, 12, 31)].
Proof. vm_compute. reflexivity. Qed.

(** ** Lemmas *)
Lemma days_in_bounds y m : 28 <= days_in y m <= 31.
Proof. unfold days_in. repeat case_match; lia. Qed.

Lemma year_day_spec y k :
  0 <= k < 365 + (if leap y then 1 else 0) -> year_day (days_before_year y + k) = (y, k).
Proof.
  intros Hk. unfold year_day, days_before_year.
  assert (exists a b c d, y = 400 * a + 100 * b + 4 * c + d + 1 /\ 0 <= b <= 3 /\ 0 <= c <= 24 /\ 0 <= d <= 3)
    as (a & b & c & d & -> & Hb & Hc & Hd).
  { set (r := (y - 1) mod 400). exists ((y - 1) / 400), (r / 100), (r mod 100 / 4), (r mod 4).
    subst r. splits; Z.div_mod_to_equations; lia. }
  assert (Hl : leap (400 * a + 100 * b + 4 * c + d + 1) = true -> d = 3 /\ (c < 24 \/ b = 3)).
  { unfold leap. intros [H4%Z.eqb_eq H]%andb_true_iff. rewrite orb_true_iff, negb_true_iff, Z.eqb_neq, Z.eqb_eq in H.
    Z.div_mod_to_equations. lia. }
  set (p := 400 * a + 100 * b + 4 * c + d + 1 - 1).
  assert (p / 4 = 100 * a + 25 * b + c) as -> by (subst p; Z.div_mod_to_equations; lia).
  assert (p / 100 = 4 * a + b) as -> by (subst p; Z.div_mod_to_equations; lia).
  assert (p / 400 = a) as -> by (subst p; Z.div_mod_to_equations; lia).
  assert (k < 365 \/ k = 365 /\ d = 3 /\ (c < 24 \/ b = 3)) as Hk' by (destruct (leap _); [destruct Hl; [done|]|]; lia).
  clear Hl. set (n := 365 * p + _ - _ + a + k).
  assert (n = 146097 * a + (36524 * b + 1461 * c + 365 * d + k)) as -> by (subst n p; lia).
  set (r0 := 36524 * b + 1461 * c + 365 * d + k).
  assert (0 <= r0 < 146097) by (subst r0; lia).
  assert ((146097 * a + r0) / 146097 = a) as -> by (Z.div_mod_to_equations; lia).
  assert ((146097 * a + r0) mod 146097 = r0) as -> by (Z.div_mod_to_equations; lia).
  assert (Z.min 3 (r0 / 36524) = b) as -> by (subst r0; Z.div_mod_to_equations; lia).
  assert ((r0 - 36524 * b) / 1461 = c) as -> by (subst r0; Z.div_mod_to_equations; lia).
  assert (Z.min 3 ((r0 - 36524 * b - 1461 * c) / 365) = d) as -> by (subst r0; Z.div_mod_to_equations; lia).
  f_equal; subst r0; lia.
Qed.

Lemma days_before_month_S y k :
  days_before_month y (Z.of_nat (S k) + 1) = days_before_month y (Z.of_nat k + 1) + days_in y (Z.of_nat k + 1).
Proof.
  unfold days_before_month. replace (Z.to_nat (Z.of_nat (S k) + 1 - 1)) with (S k) by lia.
  replace (Z.to_nat (Z.of_nat k + 1 - 1)) with k by lia. rewrite seq_S, map_app, foldr_app. cbn [map foldr].
  replace (Z.of_nat (1 + k)) with (Z.of_nat k + 1) by lia. rewrite Z.add_0_r.
  generalize (days_in y (Z.of_nat k + 1)). generalize (map (fun i => days_in y (Z.of_nat i)) (seq 1 k)).
  intros l x. induction l as [|a l IH]; cbn; lia.
Qed.

Lemma days_before_month_mono y k j :
  days_before_month y (Z.of_nat k + 1) <= days_before_month y (Z.of_nat (k + j) + 1).
Proof.
  induction j as [|j IH]; [by rewrite Nat.add_0_r|]. rewrite Nat.add_succ_r, (days_before_month_S y (k + j)).
  pose proof (days_in_bounds y (Z.of_nat (k + j) + 1)). lia.
Qed.

Lemma days_before_month_le y m : 1 <= m <= 12 -> days_before_month y m + days_in y m <= 365 + (if leap y then 1 else 0).
Proof.
  intros Hm. assert (exists k, (k <= 11)%nat /\ m = Z.of_nat k + 1) as (k & Hk & ->) by (exists (Z.to_nat (m - 1)); lia).
  clear Hm. rewrite <- days_before_month_S.
  pose proof (days_before_month_mono y (S k) (11 - k)) as Hmono. replace (S k + (11 - k))%nat with 12%nat in Hmono by lia.
  assert (days_before_month y (Z.of_nat 12 + 1) = 365 + (if leap y then 1 else 0)); [|lia].
  unfold days_before_month, days_in. by destruct (leap y).
Qed.

Lemma days_before_month_nonneg y m : 0 <= days_before_month y m.
Proof.
  unfold days_before_month. induction (seq _ _) as [|i l IH]; cbn; [lia|]. pose proof (days_in_bounds y (Z.of_nat i)). lia.
Qed.

Lemma month_day_spec fuel y k j d :
  (j <= fuel)%nat -> 1 <= d <= days_in y (Z.of_nat (k + j) + 1) ->
  month_day fuel y (Z.of_nat k + 1)
    (days_before_month y (Z.of_nat (k + j) + 1) - days_before_month y (Z.of_nat k + 1) + (d - 1)) =
  (Z.of_nat (k + j) + 1, d).
Proof.
  revert k j. induction fuel as [|fuel IH]; intros k j Hj Hd; cbn [month_day].
  { assert (j = 0)%nat as -> by lia. rewrite Nat.add_0_r. f_equal; lia. }
  destruct j as [|j].
  { rewrite Nat.add_0_r in *. rewrite (proj2 (Z.ltb_lt _ _)) by lia. f_equal; lia. }
  replace (k + S j)%nat with (S k + j)%nat in * by lia.
  pose proof (days_before_month_S y k). pose proof (days_before_month_mono y (S k) j) as Hmono.
  rewrite (proj2 (Z.ltb_ge _ _)) by lia.
  replace (Z.of_nat k + 1 + 1) with (Z.of_nat (S k) + 1) by lia. rewrite <- (IH (S k) j) by (done || lia). f_equal. lia.
Qed.

(** The civil date of a day is that the day was made from. *)
Lemma civil_date y m d :
  1 <= m <= 12 -> 1 <= d <= days_in y m -> civil (days_before_year y + days_before_month y m + (d - 1)) = (y, m, d).
Proof.
  intros Hm Hd. pose proof (days_before_month_le y m Hm). pose proof (days_before_month_nonneg y m).
  unfold civil. rewrite <- Z.add_assoc, year_day_spec by lia.
  assert (exists j, (j <= 11)%nat /\ m = Z.of_nat (0 + j) + 1) as (j & Hj & ->) by (exists (Z.to_nat (m - 1)); lia).
  pose proof (month_day_spec 11 y 0 j d Hj Hd) as Hmd.
  change (days_before_month y (Z.of_nat 0 + 1)) with 0 in Hmd. rewrite Z.sub_0_r in Hmd.
  change (Z.of_nat 0 + 1) with 1 in Hmd. by rewrite Hmd.
Qed.

(** No change of the offset within a day of an instant. *)
Definition steady_offset (loc : Location) (off : Z) (sec : Z) : Prop :=
  Z.abs off < 86400 /\ forall s, Z.abs (s - sec) <= 86400 -> offset_at loc s = off.

(** Then the time of a wall clock is exact. *)
Lemma time_Date_exact loc off y m hh mm ss ns :
  steady_offset loc off (seconds_of y m 1 hh mm ss) ->
  time_Date loc y m 1 hh mm ss ns = (seconds_of y m 1 hh mm ss - off) * second + ns.
Proof.
  intros [Hoff Hs]. unfold time_Date. set (u := seconds_of y m 1 hh mm ss) in *.
  pose proof (Hs u ltac:(lia)) as H0. pose proof (Hs (u - off) ltac:(lia)) as H1. unfold offset_at in H0.
  destruct (loc_lookup loc u) as [[o start] stop]. cbn in H0. subst o. f_equal. f_equal.
  destruct (Z.eqb_spec off 0) as [->|]; [lia|]. rewrite H1. by destruct (within _ _ _).
Qed.

Lemma wall_exact loc off y m :
  steady_offset loc off (seconds_of y m 1 0 0 0) ->
  wall loc (time_Date loc y m 1 0 0 0 0) = seconds_of y m 1 0 0 0.
Proof.
  intros Hs. rewrite (time_Date_exact loc off) by done. destruct Hs as [Hoff Hs].
  unfold wall, unix_sec. rewrite Z.add_0_r, Z.div_mul by done. rewrite Hs; lia.
Qed.

(** The first of a month, numbered on from month 1 of year [y]. *)
Definition month_of (y m : Z) : Z * Z := (y + (m - 1) / 12, (m - 1) mod 12 + 1).

Lemma first_of_month loc off y m :
  steady_offset loc off (seconds_of y m 1 0 0 0) ->
  let t := time_Date loc y m 1 0 0 0 0 in
  Time_Date loc t = (month_of y m, 1) /\ Time_Clock loc t = (0, 0, 0) /\ t mod second = 0.
Proof.
  intros Hs. cbv zeta. unfold Time_Date, Time_Clock. rewrite (wall_exact loc off) by done.
  unfold seconds_of. set (y' := y + _). set (m' := (m - 1) mod 12 + 1).
  assert (1 <= m' <= 12) by (subst m'; Z.div_mod_to_equations; lia).
  set (days := days_before_year y' + days_before_month y' m' + (1 - 1)).
  replace (86400 * days + 3600 * 0 + 60 * 0 + 0) with (days * 86400) by lia.
  rewrite Z.div_mul, Z.mod_mul by done. splits.
  - subst days. rewrite civil_date; [done|done|]. pose proof (days_in_bounds y' m'). lia.
  - done.
  - rewrite (time_Date_exact loc off) by done. by rewrite Z.add_0_r, Z.mod_mul.
Qed.

Lemma month_day_month fuel y m n : m <= (month_day fuel y m n).1 <= m + Z.of_nat fuel.
Proof.
  revert m n. induction fuel as [|fuel IH]; intros m n; cbn [month_day]; [cbn; lia|].
  case_match; [cbn; lia|]. specialize (IH (m + 1) (n - days_in y m)). lia.
Qed.

Lemma Time_Date_month loc t y m d : Time_Date loc t = (y, m, d) -> 1 <= m <= 12.
Proof.
  unfold Time_Date, civil. destruct (year_day _) as [y' n]. pose proof (month_day_month 11 y' 1 n) as Hm.
  destruct (month_day 11 y' 1 n) as [m' d']. intros [= <- <- <-]. cbn in Hm. lia.
Qed.

Lemma month_of_id y m : 1 <= m <= 12 -> month_of y m = (y, m).
Proof. intros Hm. unfold month_of. f_equal; Z.div_mod_to_equations; lia. Qed.

(** *** A gap at midnight *)

Lemma days_before_year_S y : days_before_year (y + 1) = days_before_year y + 365 + (if leap y then 1 else 0).
Proof.
  unfold days_before_year. assert ((y + 1 - 1) = y) as -> by lia.
  assert (forall k, 0 < k -> y / k = (y - 1) / k + (if y mod k =? 0 then 1 else 0)) as Hdiv.
  { intros k Hk. destruct (Z.eqb_spec (y mod k) 0); Z.div_mod_to_equations; nia. }
  rewrite (Hdiv 4), (Hdiv 100), (Hdiv 400) by lia. unfold leap.
  destruct (Z.eqb_spec (y mod 4) 0), (Z.eqb_spec (y mod 100) 0), (Z.eqb_spec (y mod 400) 0); cbn;
    first [lia|exfalso; Z.div_mod_to_equations; lia].
Qed.

(** The instants just before a month's first midnight are on the last day of the month
    before. *)
Lemma civil_day_before y m delta :
  0 < delta <= 86400 ->
  let '(y', m') := month_of y (m - 1) in
  civil ((seconds_of y m 1 0 0 0 - delta) / 86400) = (y', m', days_in y' m').
Proof.
  intros Hd. unfold month_of, seconds_of. set (q := (m - 1) / 12). set (r := (m - 1) mod 12).
  assert (0 <= r < 12 /\ m - 1 = 12 * q + r) as [Hr Hm] by (subst q r; Z.div_mod_to_equations; lia).
  clearbody q r. set (n := days_before_year (y + q) + days_before_month (y + q) (r + 1)).
  replace ((86400 * (n + (1 - 1)) + 3600 * 0 + 60 * 0 + 0 - delta) / 86400) with (n - 1) by (Z.div_mod_to_equations; lia).
  destruct (Z.eq_dec r 0) as [H0|H0].
  - assert ((m - 1 - 1) / 12 = q - 1 /\ (m - 1 - 1) mod 12 = 11) as [-> ->] by (Z.div_mod_to_equations; lia).
    assert (n - 1 = days_before_year (y + (q - 1)) + days_before_month (y + (q - 1)) 12 + (31 - 1)) as ->.
    { subst n. rewrite H0. change (days_before_month (y + q) (0 + 1)) with 0.
      replace (y + q) with (y + (q - 1) + 1) by lia. rewrite days_before_year_S.
      assert (days_before_month (y + (q - 1)) 12 = 334 + (if leap (y + (q - 1)) then 1 else 0)) as ->.
      { unfold days_before_month, days_in. by destruct (leap _). }
      lia. }
    change (11 + 1) with 12. change (days_in (y + (q - 1)) 12) with 31. apply civil_date; [lia|].
    change (days_in (y + (q - 1)) 12) with 31. lia.
  - assert ((m - 1 - 1) / 12 = q /\ (m - 1 - 1) mod 12 = r - 1) as [-> ->] by (Z.div_mod_to_equations; lia).
    replace (r - 1 + 1) with r by lia. pose proof (days_in_bounds (y + q) r).
    assert (n - 1 = days_before_year (y + q) + days_before_month (y + q) r + (days_in (y + q) r - 1)) as ->.
    { subst n. pose proof (days_before_month_S (y + q) (Z.to_nat (r - 1))) as HS.
      replace (Z.of_nat (S (Z.to_nat (r - 1)))) with r in HS by lia.
      replace (Z.of_nat (Z.to_nat (r - 1)) + 1) with r in HS by lia. lia. }
    apply civil_date; lia.
Qed.

(** The clocks go forward, from offset [o1] west of Greenwich to [o2], at the midnight
    whose number is [sec]: there is no such midnight. *)
Record gap (loc : Location) (o1 o2 sec : Z) : Prop := {
  gap_west : o1 < 0;
  gap_forward : o1 < o2 <= o1 + 86400;
  gap_until : (loc_lookup loc sec).2 = Some (sec - o1);
  gap_before : forall s, sec - 86400 <= s < sec - o1 -> offset_at loc s = o1;
  gap_after : offset_at loc (sec - o1) = o2;
}.

(** [time.Date] answers with the end of the day before. *)
Lemma gap_day loc o1 o2 y m :
  gap loc o1 o2 (seconds_of y m 1 0 0 0) ->
  let '(y', m') := month_of y (m - 1) in
  Time_Date loc (time_Date loc y m 1 0 0 0 0) = (y', m', days_in y' m').
Proof.
  intros [Hw Hf Hu Hb Ha]. pose proof (civil_day_before y m (o2 - o1) ltac:(lia)) as Hciv.
  destruct (month_of y (m - 1)) as [y' m']. rewrite <- Hciv. unfold Time_Date, wall. do 2 f_equal.
  set (u := seconds_of y m 1 0 0 0) in *.
  assert (unix_sec (time_Date loc y m 1 0 0 0 0) = u - o2) as ->.
  { unfold time_Date, unix_sec. fold u. pose proof (Hb u ltac:(lia)) as H0. unfold offset_at in H0.
    destruct (loc_lookup loc u) as [[o start] stop]. cbn in H0, Hu. subst o stop.
    rewrite (proj2 (Z.eqb_neq _ _)) by lia. rewrite Ha.
    assert (within (u - o1) start (Some (u - o1)) = false) as ->.
    { unfold within. rewrite Z.ltb_irrefl. by rewrite andb_false_r. }
    rewrite Z.add_0_r. by apply Z.div_mul. }
  rewrite Hb by lia. lia.
Qed.
