(* ===== verification/Domain.v ===== *)
(** * Domain: jobs, tasks and their state machines

    [internal/domain]: the status and action constants, the [Job] and [Task]
    records, the transition tables, and the methods of both types.  The engine
    that runs the tables is github.com/looplab/fsm, which is not under [src/]:
    it is the class [Fsm], with the documented behaviour in [FsmLaws]. *)
From S2P Require Import Prelude Go.

(** ** Constants *)

Definition JobStatusPending : string := "PENDING".
Definition JobStatusRunning : string := "RUNNING".
Definition JobStatusCompleted : string := "COMPLETED".
Definition JobStatusFailed : string := "FAILED".
Definition JobStatusPartialFailed : string := "PARTIAL_FAILED".
Definition JobStatusRejected : string := "REJECTED".
Definition JobStatusCancelled : string := "CANCELLED".

Definition TaskStatusPending : string := "PENDING".
Definition TaskStatusRunning : string := "RUNNING".
Definition TaskStatusCompleted : string := "COMPLETED".
Definition TaskStatusFailed : string := "FAILED".
Definition TaskStatusRejected : string := "REJECTED".
Definition TaskStatusCancelled : string := "CANCELLED".
Definition TaskStatusMaxRetriesExhausted : string := "MAX_RETRIES_EXHAUSTED".

Definition JobActionStart : string := "start".
Definition JobActionComplete : string := "complete".
Definition JobActionFail : string := "fail".
Definition JobActionPartialFail : string := "partial_fail".
Definition JobActionReject : string := "reject".
Definition JobActionCancel : string := "cancel".

Definition TaskActionStart : string := "start".
Definition TaskActionComplete : string := "complete".
Definition TaskActionFail : string := "fail".
Definition TaskActionReject : string := "reject".
Definition TaskActionCancel : string := "cancel".
Definition TaskActionRetry : string := "retry".
Definition TaskActionExhaustRetries : string := "exhaust_retries".

Definition NonTerminalJobStates : list string := [JobStatusRunning; JobStatusPending].

Definition TerminalJobStates : list string :=
  [JobStatusCompleted; JobStatusFailed; JobStatusPartialFailed; JobStatusRejected;
   JobStatusCancelled].

Definition TerminalTaskStates : list string :=
  [TaskStatusCompleted; TaskStatusRejected; TaskStatusCancelled;
   TaskStatusMaxRetriesExhausted].

(** Every status a column of each table may hold. *)
Definition JobStates : list string := NonTerminalJobStates ++ TerminalJobStates.
Definition TaskStates : list string :=
  [TaskStatusPending; TaskStatusRunning; TaskStatusFailed] ++ TerminalTaskStates.

(** ** State machines *)

(** [fsm.EventDesc]. *)
Record EventDesc : Type := mkEventDesc {
  Event_Name : string;
  Event_Src : list string;
  Event_Dst : string;
}.

Definition jobTransitions : list EventDesc :=
  [mkEventDesc JobActionStart [JobStatusPending] JobStatusRunning;
   mkEventDesc JobActionReject [JobStatusPending] JobStatusRejected;
   mkEventDesc JobActionCancel [JobStatusPending] JobStatusCancelled;
   mkEventDesc JobActionFail [JobStatusPending] JobStatusFailed;
   mkEventDesc JobActionComplete [JobStatusRunning] JobStatusCompleted;
   mkEventDesc JobActionPartialFail [JobStatusRunning] JobStatusPartialFailed;
   mkEventDesc JobActionFail [JobStatusRunning] JobStatusFailed;
   mkEventDesc JobActionCancel [JobStatusRunning] JobStatusCancelled].

Definition taskTransitions : list EventDesc :=
  [mkEventDesc TaskActionStart [TaskStatusPending; TaskStatusRunning] TaskStatusRunning;
   mkEventDesc TaskActionReject [TaskStatusPending] TaskStatusRejected;
   mkEventDesc TaskActionCancel [TaskStatusPending] TaskStatusCancelled;
   mkEventDesc TaskActionComplete [TaskStatusRunning] TaskStatusCompleted;
   mkEventDesc TaskActionFail [TaskStatusRunning] TaskStatusFailed;
   mkEventDesc TaskActionRetry [TaskStatusFailed] TaskStatusPending;
   mkEventDesc TaskActionExhaustRetries [TaskStatusFailed] TaskStatusMaxRetriesExhausted;
   mkEventDesc TaskActionCancel [TaskStatusPending; TaskStatusRunning] TaskStatusCancelled].

(** What [Event(ctx, name)] does on a machine in state [current]: enter a state
    (running the [enter_state] callback) or return an error. *)
Inductive fsm_outcome : Type :=
| FsmEnter (dst : string)
| FsmError (e : error).

Class Fsm := { fsm_Event : list EventDesc -> string -> string -> fsm_outcome }.

(** The documented lookup: the transitions are a map from (event, source) to
    destination, filled in order, so the last entry for a key wins. *)
Definition fsm_lookup (evs : list EventDesc) (current name : string) : option string :=
  last (omap (fun d => if bool_decide (Event_Name d = name) && contains (Event_Src d) current
                       then Some (Event_Dst d) else None) evs).

(** The documented behaviour: an event without a transition from the current
    state is an error; one that leads to the current state is a
    [NoTransitionError] with a nil inner error and runs no [enter_state]. *)
Class FsmLaws `{Fsm} : Prop := {
  fsm_Event_enter : forall evs cur name dst,
    fsm_lookup evs cur name = Some dst -> dst ≠ cur -> fsm_Event evs cur name = FsmEnter dst;
  fsm_Event_same : forall evs cur name,
    fsm_lookup evs cur name = Some cur -> fsm_Event evs cur name = FsmError ErrNoTransition;
  fsm_Event_invalid : forall evs cur name,
    fsm_lookup evs cur name = None ->
    exists msg, fsm_Event evs cur name = FsmError (ErrForeign msg);
}.

(** ** Jobs *)
Record Job : Type := mkJob {
  Job_ID : uuid;
  Job_ParentJobID : option uuid;
  Job_Name : string;
  Job_Status : string;
  Job_MaxRetries : Z;
  Job_UniqueReferenceID : option string;
  Job_CreatedAt : time;
  Job_UpdatedAt : time;
  Job_StartedAt : option time;
  Job_FinishedAt : option time;
  Job_DurationMs : option Z;
  Job_Metadata : JSONB;
}.

(** Assignments [job.F = x]. *)
Definition Job_set_Status (s : string) (j : Job) : Job :=
  mkJob (Job_ID j) (Job_ParentJobID j) (Job_Name j) s (Job_MaxRetries j)
    (Job_UniqueReferenceID j) (Job_CreatedAt j) (Job_UpdatedAt j) (Job_StartedAt j)
    (Job_FinishedAt j) (Job_DurationMs j) (Job_Metadata j).
Definition Job_set_MaxRetries (n : Z) (j : Job) : Job :=
  mkJob (Job_ID j) (Job_ParentJobID j) (Job_Name j) (Job_Status j) n
    (Job_UniqueReferenceID j) (Job_CreatedAt j) (Job_UpdatedAt j) (Job_StartedAt j)
    (Job_FinishedAt j) (Job_DurationMs j) (Job_Metadata j).
Definition Job_set_CreatedAt (t : time) (j : Job) : Job :=
  mkJob (Job_ID j) (Job_ParentJobID j) (Job_Name j) (Job_Status j) (Job_MaxRetries j)
    (Job_UniqueReferenceID j) t (Job_UpdatedAt j) (Job_StartedAt j)
    (Job_FinishedAt j) (Job_DurationMs j) (Job_Metadata j).
Definition Job_set_UpdatedAt (t : time) (j : Job) : Job :=
  mkJob (Job_ID j) (Job_ParentJobID j) (Job_Name j) (Job_Status j) (Job_MaxRetries j)
    (Job_UniqueReferenceID j) (Job_CreatedAt j) t (Job_StartedAt j)
    (Job_FinishedAt j) (Job_DurationMs j) (Job_Metadata j).
Definition Job_set_StartedAt (t : option time) (j : Job) : Job :=
  mkJob (Job_ID j) (Job_ParentJobID j) (Job_Name j) (Job_Status j) (Job_MaxRetries j)
    (Job_UniqueReferenceID j) (Job_CreatedAt j) (Job_UpdatedAt j) t
    (Job_FinishedAt j) (Job_DurationMs j) (Job_Metadata j).
Definition Job_set_FinishedAt (t : option time) (j : Job) : Job :=
  mkJob (Job_ID j) (Job_ParentJobID j) (Job_Name j) (Job_Status j) (Job_MaxRetries j)
    (Job_UniqueReferenceID j) (Job_CreatedAt j) (Job_UpdatedAt j) (Job_StartedAt j)
    t (Job_DurationMs j) (Job_Metadata j).
Definition Job_set_DurationMs (d : option Z) (j : Job) : Job :=
  mkJob (Job_ID j) (Job_ParentJobID j) (Job_Name j) (Job_Status j) (Job_MaxRetries j)
    (Job_UniqueReferenceID j) (Job_CreatedAt j) (Job_UpdatedAt j) (Job_StartedAt j)
    (Job_FinishedAt j) d (Job_Metadata j).
Definition Job_set_Metadata (m : JSONB) (j : Job) : Job :=
  mkJob (Job_ID j) (Job_ParentJobID j) (Job_Name j) (Job_Status j) (Job_MaxRetries j)
    (Job_UniqueReferenceID j) (Job_CreatedAt j) (Job_UpdatedAt j) (Job_StartedAt j)
    (Job_FinishedAt j) (Job_DurationMs j) m.

(** [UpdateStatus]; [now] is the clock read it makes. *)
Definition Job_UpdateStatus (status : string) (now : time) (j : Job) : Job :=
  Job_set_UpdatedAt now (Job_set_Status status j).

Definition Job_IsExecutionPending (j : Job) : bool :=
  contains NonTerminalJobStates (Job_Status j).
Definition Job_IsPending (j : Job) : bool := bool_decide (Job_Status j = JobStatusPending).
Definition Job_IsRunning (j : Job) : bool := bool_decide (Job_Status j = JobStatusRunning).
Definition Job_IsRejected (j : Job) : bool := bool_decide (Job_Status j = JobStatusRejected).
Definition Job_IsCancelled (j : Job) : bool := bool_decide (Job_Status j = JobStatusCancelled).

(** ** Tasks *)
Record Task : Type := mkTask {
  Task_ID : uuid;
  Task_JobID : uuid;
  Task_Name : string;
  Task_Status : string;
  Task_Attempt : Z;
  Task_MaxRetries : Z;
  Task_SequenceNumber : Z;
  Task_DistributionKey : option string;
  Task_Params : JSONB;
  Task_Result : JSONB;
  Task_CreatedAt : time;
  Task_UpdatedAt : time;
  Task_StartedAt : option time;
  Task_FinishedAt : option time;
  Task_DurationMs : option Z;
  Task_Job : option Job;
}.

Definition Task_set_Status (s : string) (t : Task) : Task :=
  mkTask (Task_ID t) (Task_JobID t) (Task_Name t) s (Task_Attempt t) (Task_MaxRetries t)
    (Task_SequenceNumber t) (Task_DistributionKey t) (Task_Params t) (Task_Result t)
    (Task_CreatedAt t) (Task_UpdatedAt t) (Task_StartedAt t) (Task_FinishedAt t)
    (Task_DurationMs t) (Task_Job t).
Definition Task_set_Attempt (n : Z) (t : Task) : Task :=
  mkTask (Task_ID t) (Task_JobID t) (Task_Name t) (Task_Status t) n (Task_MaxRetries t)
    (Task_SequenceNumber t) (Task_DistributionKey t) (Task_Params t) (Task_Result t)
    (Task_CreatedAt t) (Task_UpdatedAt t) (Task_StartedAt t) (Task_FinishedAt t)
    (Task_DurationMs t) (Task_Job t).
Definition Task_set_MaxRetries (n : Z) (t : Task) : Task :=
  mkTask (Task_ID t) (Task_JobID t) (Task_Name t) (Task_Status t) (Task_Attempt t) n
    (Task_SequenceNumber t) (Task_DistributionKey t) (Task_Params t) (Task_Result t)
    (Task_CreatedAt t) (Task_UpdatedAt t) (Task_StartedAt t) (Task_FinishedAt t)
    (Task_DurationMs t) (Task_Job t).
Definition Task_set_Params (p : JSONB) (t : Task) : Task :=
  mkTask (Task_ID t) (Task_JobID t) (Task_Name t) (Task_Status t) (Task_Attempt t)
    (Task_MaxRetries t) (Task_SequenceNumber t) (Task_DistributionKey t) p (Task_Result t)
    (Task_CreatedAt t) (Task_UpdatedAt t) (Task_StartedAt t) (Task_FinishedAt t)
    (Task_DurationMs t) (Task_Job t).
Definition Task_set_Result (r : JSONB) (t : Task) : Task :=
  mkTask (Task_ID t) (Task_JobID t) (Task_Name t) (Task_Status t) (Task_Attempt t)
    (Task_MaxRetries t) (Task_SequenceNumber t) (Task_DistributionKey t) (Task_Params t) r
    (Task_CreatedAt t) (Task_UpdatedAt t) (Task_StartedAt t) (Task_FinishedAt t)
    (Task_DurationMs t) (Task_Job t).
Definition Task_set_CreatedAt (c : time) (t : Task) : Task :=
  mkTask (Task_ID t) (Task_JobID t) (Task_Name t) (Task_Status t) (Task_Attempt t)
    (Task_MaxRetries t) (Task_SequenceNumber t) (Task_DistributionKey t) (Task_Params t)
    (Task_Result t) c (Task_UpdatedAt t) (Task_StartedAt t) (Task_FinishedAt t)
    (Task_DurationMs t) (Task_Job t).
Definition Task_set_UpdatedAt (u : time) (t : Task) : Task :=
  mkTask (Task_ID t) (Task_JobID t) (Task_Name t) (Task_Status t) (Task_Attempt t)
    (Task_MaxRetries t) (Task_SequenceNumber t) (Task_DistributionKey t) (Task_Params t)
    (Task_Result t) (Task_CreatedAt t) u (Task_StartedAt t) (Task_FinishedAt t)
    (Task_DurationMs t) (Task_Job t).
Definition Task_set_StartedAt (s : option time) (t : Task) : Task :=
  mkTask (Task_ID t) (Task_JobID t) (Task_Name t) (Task_Status t) (Task_Attempt t)
    (Task_MaxRetries t) (Task_SequenceNumber t) (Task_DistributionKey t) (Task_Params t)
    (Task_Result t) (Task_CreatedAt t) (Task_UpdatedAt t) s (Task_FinishedAt t)
    (Task_DurationMs t) (Task_Job t).
Definition Task_set_FinishedAt (f : option time) (t : Task) : Task :=
  mkTask (Task_ID t) (Task_JobID t) (Task_Name t) (Task_Status t) (Task_Attempt t)
    (Task_MaxRetries t) (Task_SequenceNumber t) (Task_DistributionKey t) (Task_Params t)
    (Task_Result t) (Task_CreatedAt t) (Task_UpdatedAt t) (Task_StartedAt t) f
    (Task_DurationMs t) (Task_Job t).
Definition Task_set_DurationMs (d : option Z) (t : Task) : Task :=
  mkTask (Task_ID t) (Task_JobID t) (Task_Name t) (Task_Status t) (Task_Attempt t)
    (Task_MaxRetries t) (Task_SequenceNumber t) (Task_DistributionKey t) (Task_Params t)
    (Task_Result t) (Task_CreatedAt t) (Task_UpdatedAt t) (Task_StartedAt t)
    (Task_FinishedAt t) d (Task_Job t).
Definition Task_set_Job (j : option Job) (t : Task) : Task :=
  mkTask (Task_ID t) (Task_JobID t) (Task_Name t) (Task_Status t) (Task_Attempt t)
    (Task_MaxRetries t) (Task_SequenceNumber t) (Task_DistributionKey t) (Task_Params t)
    (Task_Result t) (Task_CreatedAt t) (Task_UpdatedAt t) (Task_StartedAt t)
    (Task_FinishedAt t) (Task_DurationMs t) j.

Definition Task_UpdateStatus (status : string) (now : time) (t : Task) : Task :=
  Task_set_UpdatedAt now (Task_set_Status status t).

Definition Task_IsTerminal (t : Task) : bool := contains TerminalTaskStates (Task_Status t).

(** ** Methods that call pgtype *)
Section metadata.
  Context `{Pgtype}.

Definition Job_SetMetadata (metadata : gomap) (j : Job) : res Job :=
  match JSONB_Set metadata with
  | Ok b => Ok (Job_set_Metadata b j)
  | Err e => Err (ErrWrap "set job metadata" e)
  end.

Definition Task_GetParams (t : Task) : res gomap :=
  if decide (JSONB_Status (Task_Params t) = Null) then Ok (Some ∅)
  else match JSONB_AssignTo (Task_Params t) with
       | Ok m => Ok m
       | Err e => Err (ErrWrap "unmarshal task params" e)
       end.

Definition Task_SetParams (params : gomap) (t : Task) : res Task :=
  match JSONB_Set params with
  | Ok b => Ok (Task_set_Params b t)
  | Err e => Err (ErrWrap "set task params" e)
  end.

Definition Task_SetResult (result : gomap) (t : Task) : res Task :=
  match JSONB_Set result with
  | Ok b => Ok (Task_set_Result b t)
  | Err e => Err (ErrWrap "set task result" e)
  end.
End metadata.

(** [nil, nil] is [Ok None]: the nil map. *)
Definition Job_MetadataMap (j : Job) : res gomap :=
  let m := Job_Metadata j in
  if negb (bool_decide (JSONB_Status m = Present)) ||
     match JSONB_Bytes m with JEmpty => true | _ => false end
  then Ok None
  else match json_Unmarshal_map (JSONB_Bytes m) with
       | Ok meta => Ok meta
       | Err e => Err (ErrWrap "decode job metadata" e)
       end.
