(* ===== verification/Effects.v ===== *)
(** * Effects: programs, the world they act on, and how they run

    A Go function that talks to the outside is a program ([prog]): a tree whose
    nodes are the calls it makes (the clock, [uuid.New], an SQL statement, a Kafka
    write, a hook, the caller's executors) and whose branches are what it does with
    each answer.  [run] executes one program from start to end; [pool_step] lets
    any number of programs run at the same time, one call at a time, which is how
    the worker goroutines, the cron handlers and the console share the database.

    Everything the environment chooses (times, fresh identifiers, failures of the
    database or of Kafka, the answers of the caller's code) is read from an [env],
    indexed by the number of calls made so far: a theorem for every [env] holds for
    every behaviour of the environment. *)
From S2P Require Import Prelude Go Domain.

(** ** Values the programs exchange *)

(** [jobconfig.TaskData]. *)
Record TaskData : Type := mkTaskData {
  TaskData_Name : string;
  TaskData_Params : gomap;
  TaskData_DistributionKey : string;
}.

(** [kafkago.Message]; a nil key is [None]. *)
Record Message : Type := mkMessage {
  Message_Topic : string;
  Message_Key : option string;
  Message_Value : string;
}.

(** A call of a caller-supplied hook. *)
Inductive hook_call : Type :=
| OnTasksPublished (jobName : string) (n : Z)
| OnTaskStarted (jobName taskID : string) (attempt : Z)
| OnTaskFinished (jobName taskID status : string) (d : duration)
| OnJobFinished (jobName refID status : string) (d : duration).

(** A caller-supplied object behind an interface or a function value. *)
Abbreviation handle := nat.

(** The two tables of [migrations/], rows in insertion order. *)
Record DB : Type := mkDB { db_jobs : list Job; db_tasks : list Task }.

(** A statement (or a transaction) receives the database's clock and returns
    the new tables with its result. *)
Definition stmt (X : Type) : Type := time -> DB -> DB * res X.

Inductive eff : Type -> Type :=
| ENow : eff time
| ENewUUID : eff uuid
| ESql {X} (s : stmt X) : eff (res X)
| EWriteMessages (msgs : list Message) : eff (res unit)
| ESleep (d : duration) : eff unit
| EHook (h : hook_call) : eff unit
| EJobExecute (x : handle) (metadata : gomap) : eff (res (list TaskData))
| ETaskExecute (x : handle) (params : gomap) : eff (res gomap)
| EEnabled (f : handle) : eff bool.

Inductive prog (R : Type) : Type :=
| Ret (r : R)
| Vis {X} (e : eff X) (k : X -> prog R).
Arguments Ret {R} r.
Arguments Vis {R X} e k.

Fixpoint prog_bind {A B} (f : A -> prog B) (p : prog A) : prog B :=
  match p with
  | Ret a => f a
  | Vis e k => Vis e (fun x => prog_bind f (k x))
  end.

#[export] Instance prog_ret : MRet prog := fun A a => Ret a.
#[export] Instance prog_mbind : MBind prog := fun A B f p => prog_bind f p.

(** One call. *)
Definition call {X} (e : eff X) : prog X := Vis e Ret.

Definition Now : prog time := call ENow.
Definition NewUUID : prog uuid := call ENewUUID.
Definition sql {X} (s : stmt X) : prog (res X) := call (ESql s).
Definition hook (h : hook_call) : prog unit := call (EHook h).

(** [time.Since(start)]. *)
Definition Since (start : time) : prog duration := now ← Now; Ret (Sub now start).

(** Go's [x, err := p; if err != nil { return ..., wrap(err) }]. *)
Definition try {A B} (p : prog (res A)) (wrap : error -> error) (k : A -> prog (res B)) :
    prog (res B) :=
  r ← p; match r with Ok a => k a | Err e => Ret (Err (wrap e)) end.

(** ** Running *)

(** A statement may succeed, be lost, or be applied without its answer
    reaching the caller. *)
Inductive sql_fate : Type :=
| SqlDone
| SqlLost (e : error)
| SqlUnacked (e : error).

(** A Kafka write may fail after some of its messages were accepted. *)
Inductive write_fate : Type :=
| WriteDone
| WriteFailed (accepted : Message -> bool) (e : error).

Record env : Type := mkEnv {
  env_now : nat -> time;
  env_uuid : nat -> uuid;
  env_sql : nat -> sql_fate;
  env_write : nat -> write_fate;
  env_job_execute : nat -> handle -> gomap -> res (list TaskData);
  env_task_execute : nat -> handle -> gomap -> res gomap;
  env_enabled : nat -> handle -> bool;
}.

Record World : Type := mkWorld {
  w_db : DB;
  w_kafka : list Message;
  w_hooks : list hook_call;
  w_tick : nat;
}.

Definition tick (w : World) : World :=
  mkWorld (w_db w) (w_kafka w) (w_hooks w) (S (w_tick w)).
Definition with_db (db : DB) (w : World) : World :=
  mkWorld db (w_kafka w) (w_hooks w) (w_tick w).

Definition do_sql {X} (E : env) (s : stmt X) (w : World) : World * res X :=
  let n := w_tick w in
  let '(db', r) := s (env_now E n) (w_db w) in
  match env_sql E n with
  | SqlDone => (tick (with_db db' w), r)
  | SqlLost e => (tick w, Err e)
  | SqlUnacked e => (tick (with_db db' w), Err e)
  end.

Definition do_write (E : env) (msgs : list Message) (w : World) : World * res unit :=
  let add l := mkWorld (w_db w) (w_kafka w ++ l) (w_hooks w) (S (w_tick w)) in
  match env_write E (w_tick w) with
  | WriteDone => (add msgs, Ok ())
  | WriteFailed f e => (add (List.filter f msgs), Err e)
  end.

Definition interp {X} (E : env) (e : eff X) : World -> World * X :=
  match e in eff X return World -> World * X with
  | ENow => fun w => (tick w, env_now E (w_tick w))
  | ENewUUID => fun w => (tick w, env_uuid E (w_tick w))
  | ESql s => do_sql E s
  | EWriteMessages msgs => do_write E msgs
  | ESleep _ => fun w => (tick w, ())
  | EHook h => fun w => (mkWorld (w_db w) (w_kafka w) (w_hooks w ++ [h]) (S (w_tick w)), ())
  | EJobExecute x m => fun w => (tick w, env_job_execute E (w_tick w) x m)
  | ETaskExecute x m => fun w => (tick w, env_task_execute E (w_tick w) x m)
  | EEnabled f => fun w => (tick w, env_enabled E (w_tick w) f)
  end.

Fixpoint run {R} (E : env) (p : prog R) (w : World) : World * R :=
  match p with
  | Ret r => (w, r)
  | Vis e k => let '(w', x) := interp E e w in run E (k x) w'
  end.

(** ** Running together *)

(** A configuration: the world and the programs still running on it. *)
Definition pool : Type := World * list (prog unit).

Inductive pool_step (E : env) : pool -> pool -> Prop :=
| PoolStep w ts i X (e : eff X) k :
    ts !! i = Some (Vis e k) ->
    pool_step E (w, ts)
      ((interp E e w).1, <[i := k (interp E e w).2]> ts).

(** The same step as a function: thread [i] makes its next call. *)
Definition step_thread (E : env) (i : nat) (c : pool) : pool :=
  match c.2 !! i with
  | Some (Vis e k) => let '(w', x) := interp E e c.1 in (w', <[i := k x]> c.2)
  | _ => c
  end.

Definition run_schedule (E : env) (sched : list nat) (c : pool) : pool :=
  fold_left (fun c i => step_thread E i c) sched c.

(** A time the clock read. *)
Definition reading (E : env) (t : time) : Prop := exists n, t = env_now E n.

(** ** Environments without failures *)

(** The database and Kafka answer every call. *)
Record reliable (E : env) : Prop := {
  reliable_sql : forall n, env_sql E n = SqlDone;
  reliable_write : forall n, env_write E n = WriteDone;
}.

(** ** Lemmas *)

Lemma mbind_Ret {A B} (a : A) (f : A -> prog B) : (Ret a ≫= f) = f a.
Proof. done. Qed.

Lemma mbind_Vis {A B X} (e : eff X) (k : X -> prog A) (f : A -> prog B) :
  (Vis e k ≫= f) = Vis e (fun x => k x ≫= f).
Proof. done. Qed.

Lemma run_bind {A B} E (p : prog A) (f : A -> prog B) w :
  run E (p ≫= f) w = run E (f (run E p w).2) (run E p w).1.
Proof.
  revert w. induction p as [a|X e k IH]; intros w; [done|].
  cbn. destruct (interp E e w) as [w' x]. apply IH.
Qed.

Lemma run_Ret {A} E (a : A) w : run E (Ret a) w = (w, a).
Proof. done. Qed.

Lemma run_call {X} E (e : eff X) w : run E (call e) w = interp E e w.
Proof. cbn. by destruct (interp E e w). Qed.

Lemma run_try {A B} E (p : prog (res A)) wrap (k : A -> prog (res B)) w :
  run E (try p wrap k) w =
  match (run E p w).2 with
  | Ok a => run E (k a) (run E p w).1
  | Err e => ((run E p w).1, Err (wrap e))
  end.
Proof. unfold try. rewrite run_bind. by destruct (run E p w).2. Qed.

Lemma run_Now E w : run E Now w = (tick w, env_now E (w_tick w)).
Proof. done. Qed.

Lemma run_Since E t w : run E (Since t) w = (tick w, Sub (env_now E (w_tick w)) t).
Proof. done. Qed.

Lemma run_hook E h w :
  run E (hook h) w = (mkWorld (w_db w) (w_kafka w) (w_hooks w ++ [h]) (S (w_tick w)), ()).
Proof. done. Qed.

Lemma run_sql {X} E (s : stmt X) w : run E (sql s) w = do_sql E s w.
Proof. apply run_call. Qed.

Lemma run_sql_reliable {X} E (s : stmt X) w :
  reliable E ->
  run E (sql s) w =
  (tick (with_db (s (env_now E (w_tick w)) (w_db w)).1 w), (s (env_now E (w_tick w)) (w_db w)).2).
Proof.
  intros HE. rewrite run_sql. unfold do_sql. rewrite (reliable_sql _ HE).
  by destruct (s _ _).
Qed.

(** A query that leaves the tables alone. *)
Lemma run_query {X} E (s : stmt X) w r :
  reliable E -> (forall now, s now (w_db w) = (w_db w, r)) -> run E (sql s) w = (tick w, r).
Proof. intros HE Hs. rewrite run_sql_reliable, Hs by done. by destruct w. Qed.

(** Every run of a schedule is a sequence of pool steps. *)
Lemma step_thread_sound E i c : rtc (pool_step E) c (step_thread E i c).
Proof.
  destruct c as [w ts]. unfold step_thread. cbn.
  destruct (ts !! i) as [[r|X e k]|] eqn:Hi; [done | | done].
  destruct (interp E e w) as [w' x] eqn:Hint.
  apply rtc_once. pose proof (PoolStep E w ts i X e k Hi) as Hs. by rewrite Hint in Hs.
Qed.

Lemma run_schedule_sound E sched c : rtc (pool_step E) c (run_schedule E sched c).
Proof.
  unfold run_schedule. revert c. induction sched as [|i sched IH]; intros c; [done|].
  cbn. etrans; [apply step_thread_sound | apply IH].
Qed.

(** A program that runs alone in the pool ends as [run] says. *)
Lemma run_alone E (p : prog unit) w :
  rtc (pool_step E) (w, [p]) ((run E p w).1, [Ret (run E p w).2]).
Proof.
  revert w. induction p as [[]|X e k IH]; intros w; [done|].
  eapply rtc_l; [by apply (PoolStep E w _ 0)|]. cbn.
  destruct (interp E e w) as [w' x] eqn:Hint. cbn. apply IH.
Qed.

Create Rewrite HintDb run.
#[export] Hint Rewrite @run_bind @run_Ret @run_try @run_Now @run_Since @run_hook : run.

Lemma run_NewUUID E w : run E NewUUID w = (tick w, env_uuid E (w_tick w)).
Proof. done. Qed.

Lemma run_write_reliable E msgs w :
  reliable E ->
  run E (call (EWriteMessages msgs)) w =
  (mkWorld (w_db w) (w_kafka w ++ msgs) (w_hooks w) (S (w_tick w)), Ok ()).
Proof. intros HE. rewrite run_call. cbn. unfold do_write. by rewrite (reliable_write _ HE). Qed.

(** Symbolic execution of a program under a reliable environment [HE]. *)
Ltac run_step HE :=
  first
    [ progress rewrite ?run_bind, ?run_try, ?run_Now, ?run_Since, ?run_NewUUID, ?run_hook, ?run_Ret
    | rewrite (run_sql_reliable _ _ _ HE)
    | rewrite (run_write_reliable _ _ _ HE) ];
  cbn [fst snd w_db w_tick w_hooks w_kafka tick with_db id].
Ltac run_go HE := repeat run_step HE.
