(* ===== verification/Repository.v ===== *)
(** * Repository: the SQL statements over the two tables

    [internal/repository/repository.go].  Each statement (and each transaction)
    is a function on the tables, atomic as PostgreSQL makes it; each method is the
    program that reads the clock where the Go code does and sends its statements.
    Column defaults are those of the gorm tags and of [migrations/]: a zero
    [CreatedAt], [UpdatedAt], [MaxRetries] or job [Status] takes its default, and
    the database's clock is the transaction's start, so the rows of one
    transaction share [created_at].  Both tables have the primary key
    (id, created_at), and an insert checks the column types of [migrations/].  The
    updates do not check them again: they write the status constants, documents made by
    [SetResult], times, and attempts that stay within [MaxRetries]. *)
From S2P Require Import Prelude Go Domain Effects.

(** ** Column updates *)

(** A [map[string]interface{}] passed to [UpdateJob]/[UpdateTask], keyed by
    column. *)
Inductive job_column : Type :=
| JobCol_status (s : string)
| JobCol_started_at (t : time)
| JobCol_finished_at (t : time)
| JobCol_duration_ms (d : Z)
| JobCol_updated_at (t : time).

Inductive task_column : Type :=
| TaskCol_status (s : string)
| TaskCol_attempt (n : Z)
| TaskCol_result (r : JSONB)
| TaskCol_started_at (t : time)
| TaskCol_finished_at (t : time)
| TaskCol_duration_ms (d : Z)
| TaskCol_updated_at (t : time).

Definition set_job_column (j : Job) (c : job_column) : Job :=
  match c with
  | JobCol_status s => Job_set_Status s j
  | JobCol_started_at t => Job_set_StartedAt (Some t) j
  | JobCol_finished_at t => Job_set_FinishedAt (Some t) j
  | JobCol_duration_ms d => Job_set_DurationMs (Some d) j
  | JobCol_updated_at t => Job_set_UpdatedAt t j
  end.

Definition set_task_column (t : Task) (c : task_column) : Task :=
  match c with
  | TaskCol_status s => Task_set_Status s t
  | TaskCol_attempt n => Task_set_Attempt n t
  | TaskCol_result r => Task_set_Result r t
  | TaskCol_started_at x => Task_set_StartedAt (Some x) t
  | TaskCol_finished_at x => Task_set_FinishedAt (Some x) t
  | TaskCol_duration_ms d => Task_set_DurationMs (Some d) t
  | TaskCol_updated_at x => Task_set_UpdatedAt x t
  end.

Definition set_job_columns (us : list job_column) (j : Job) : Job := fold_left set_job_column us j.
Definition set_task_columns (us : list task_column) (t : Task) : Task :=
  fold_left set_task_column us t.

(** ** Conditions *)
Definition job_has_id (id : uuid) (j : Job) : bool := N.eqb (Job_ID j) id.
Definition task_has_id (id : uuid) (t : Task) : bool := N.eqb (Task_ID t) id.
Definition task_of_job (jobID : uuid) (t : Task) : bool := N.eqb (Task_JobID t) jobID.
Definition job_status_in (l : list string) (j : Job) : bool := contains l (Job_Status j).
Definition task_status_in (l : list string) (t : Task) : bool := contains l (Task_Status t).

Definition same_job_key (a b : Job) : bool :=
  N.eqb (Job_ID a) (Job_ID b) && (Job_CreatedAt a =? Job_CreatedAt b).
Definition same_task_key (a b : Task) : bool :=
  N.eqb (Task_ID a) (Task_ID b) && (Task_CreatedAt a =? Task_CreatedAt b).

(** [ORDER BY created_at DESC, id]. *)
Definition newest_first (a b : Job) : bool :=
  (Job_CreatedAt b <? Job_CreatedAt a) ||
  ((Job_CreatedAt a =? Job_CreatedAt b) && N.ltb (Job_ID a) (Job_ID b)).

(** The statuses the finalizer's queries count as settled. *)
Definition settledTaskStates : list string :=
  [TaskStatusCompleted; TaskStatusFailed; TaskStatusMaxRetriesExhausted; TaskStatusRejected;
   TaskStatusCancelled].

(** ** Statements *)

Definition select_job_by_id (id : uuid) : stmt Job := fun _ db =>
  (db, match List.filter (job_has_id id) (db_jobs db) with
       | j :: _ => Ok j
       | [] => Err ErrRecordNotFound
       end).

Definition select_task_by_id (id : uuid) : stmt Task := fun _ db =>
  (db, match List.filter (task_has_id id) (db_tasks db) with
       | t :: _ => Ok t
       | [] => Err ErrRecordNotFound
       end).

(** gorm's [Preload("Job")]: the job whose (id, created_at) is the task's
    (job_id, created_at). *)
Definition job_of_task (t : Task) (j : Job) : bool :=
  job_has_id (Task_JobID t) j && (Job_CreatedAt j =? Task_CreatedAt t).

Definition preload_job (t : Task) : stmt (option Job) := fun _ db =>
  (db, Ok (head (List.filter (job_of_task t) (db_jobs db)))).

Definition has_ref (ref : string) (j : Job) : bool :=
  bool_decide (Job_UniqueReferenceID j = Some ref).

Definition select_job_by_ref (ref : string) : stmt (option Job) := fun _ db =>
  (db, Ok (pick newest_first (List.filter (has_ref ref) (db_jobs db)))).

(** [len(statuses) > 0] adds the [status IN ?] condition. *)
Definition statuses_match (statuses : list string) (t : Task) : bool :=
  match statuses with [] => true | _ => task_status_in statuses t end.

Definition select_tasks (jobID : uuid) (statuses : list string) : stmt (list Task) := fun _ db =>
  (db, Ok (List.filter (fun t => task_of_job jobID t && statuses_match statuses t) (db_tasks db))).

Definition seq_le (a b : Task) : Prop := Task_SequenceNumber a <= Task_SequenceNumber b.
#[global] Instance seq_le_dec : RelDecision seq_le.
Proof. intros a b. apply Z_le_dec. Defined.

Definition select_tasks_batch (jobID : uuid) (statuses : list string) (afterSeq limit : Z) :
    stmt (list Task) := fun _ db =>
  (db, Ok (take (Z.to_nat limit)
    (merge_sort seq_le
      (List.filter (fun t => task_of_job jobID t && (afterSeq <? Task_SequenceNumber t) &&
                             statuses_match statuses t) (db_tasks db))))).

Definition update_jobs (p : Job -> bool) (f : Job -> Job) (db : DB) : DB :=
  mkDB (update_where p f (db_jobs db)) (db_tasks db).
Definition update_tasks (p : Task -> bool) (f : Task -> Task) (db : DB) : DB :=
  mkDB (db_jobs db) (update_where p f (db_tasks db)).

Definition exec_update_jobs (p : Job -> bool) (us : list job_column) : stmt Z := fun _ db =>
  (update_jobs p (set_job_columns us) db, Ok (count p (db_jobs db))).

Definition exec_update_tasks (p : Task -> bool) (us : list task_column) : stmt unit := fun _ db =>
  (update_tasks p (set_task_columns us) db, Ok ()).

Definition terminate_tx (jobID : uuid) : stmt unit := fun now db =>
  let p j := job_has_id jobID j && job_status_in [JobStatusPending; JobStatusRunning] j in
  if existsb p (db_jobs db) then
    let db := update_jobs p (set_job_columns [JobCol_status JobStatusCancelled; JobCol_updated_at now]) db in
    (update_tasks (fun t => task_of_job jobID t && task_status_in [TaskStatusPending] t)
       (set_task_columns [TaskCol_status TaskStatusCancelled; TaskCol_updated_at now]) db, Ok ())
  else (db, Err ErrJobAlreadyTerminal).

Definition cancel_previous_tx (jobName : string) (currentJobID : uuid) : stmt unit := fun now db =>
  let p j := bool_decide (Job_Name j = jobName) && negb (job_has_id currentJobID j) &&
             job_status_in [JobStatusPending; JobStatusRunning] j in
  match List.filter p (db_jobs db) with
  | [] => (db, Ok ())
  | cancelled =>
      let ids := map Job_ID cancelled in
      let db := update_jobs p (set_job_columns [JobCol_status JobStatusCancelled; JobCol_updated_at now]) db in
      (update_tasks (fun t => contains ids (Task_JobID t) &&
                              task_status_in [TaskStatusPending; TaskStatusRunning; TaskStatusFailed] t)
         (set_task_columns [TaskCol_status TaskStatusCancelled; TaskCol_updated_at now]) db, Ok ())
  end.

Definition updated_le (a b : Job) : Prop := Job_UpdatedAt a <= Job_UpdatedAt b.
#[global] Instance updated_le_dec : RelDecision updated_le.
Proof. intros a b. apply Z_le_dec. Defined.

(** The [NOT EXISTS] subquery of [FindCompletableJobIDs]. *)
Definition all_settled (jobID : uuid) (db : DB) : bool :=
  negb (existsb (fun t => task_of_job jobID t && negb (task_status_in settledTaskStates t)) (db_tasks db)).

Definition select_completable (jobName : string) (limit : Z) : stmt (list uuid) := fun _ db =>
  (db, Ok (map Job_ID (take (Z.to_nat limit)
    (merge_sort updated_le
      (List.filter (fun j => bool_decide (Job_Name j = jobName) && job_status_in [JobStatusRunning] j &&
                             all_settled (Job_ID j) db) (db_jobs db)))))).

Record TaskStatusSummary : Type := mkSummary {
  Summary_Total : Z;
  Summary_Completed : Z;
  Summary_NonTerminal : Z;
}.

Definition summarize (l : list Task) : TaskStatusSummary :=
  mkSummary (count (fun _ => true) l)
    (count (task_status_in [TaskStatusCompleted]) l)
    (count (fun t => negb (task_status_in settledTaskStates t)) l).

Definition select_summary (jobID : uuid) : stmt TaskStatusSummary := fun _ db =>
  (db, Ok (summarize (List.filter (task_of_job jobID) (db_tasks db)))).

(** Column defaults on [INSERT]. *)
Definition job_defaults (now : time) (j : Job) : Job :=
  let j := if bool_decide (Job_Status j = "") then Job_set_Status JobStatusPending j else j in
  let j := if Job_MaxRetries j =? 0 then Job_set_MaxRetries 3 j else j in
  let j := if IsZero (Job_CreatedAt j) then Job_set_CreatedAt now j else j in
  if IsZero (Job_UpdatedAt j) then Job_set_UpdatedAt now j else j.

Definition task_defaults (now : time) (t : Task) : Task :=
  let t := if Task_MaxRetries t =? 0 then Task_set_MaxRetries 3 t else t in
  let t := if IsZero (Task_CreatedAt t) then Task_set_CreatedAt now t else t in
  if IsZero (Task_UpdatedAt t) then Task_set_UpdatedAt now t else t.

(** ** Column types of [migrations/] *)

(** [TEXT] and [VARCHAR(n)], which counts characters.  (PostgreSQL cuts an excess that
    is all spaces; here it does not fit either.) *)
Definition pg_text (s : string) : bool :=
  match utf8_length (string_bytes s) with Some _ => true | None => false end.
Definition pg_varchar (n : nat) (s : string) : bool :=
  match utf8_length (string_bytes s) with Some k => (k <=? n)%nat | None => false end.

(** [INTEGER]. *)
Definition pg_integer (z : Z) : bool := (- 2 ^ 31 <=? z) && (z <? 2 ^ 31).

(** A nullable column. *)
Definition pg_null {A} (p : A -> bool) (x : option A) : bool :=
  match x with Some x => p x | None => true end.

(** What the columns of an inserted row accept.  A [JSONB NOT NULL] column takes a
    document: an undefined value has no driver value. *)
Definition job_fits (j : Job) : bool :=
  pg_varchar 255 (Job_Name j) && pg_varchar 50 (Job_Status j) && pg_integer (Job_MaxRetries j) &&
  pg_null (pg_varchar 255) (Job_UniqueReferenceID j) && JSONB_document (Job_Metadata j).

Definition task_fits (t : Task) : bool :=
  pg_varchar 255 (Task_Name t) && pg_varchar 50 (Task_Status t) && pg_integer (Task_Attempt t) &&
  pg_integer (Task_MaxRetries t) && pg_integer (Task_SequenceNumber t) &&
  pg_null pg_text (Task_DistributionKey t) && JSONB_document (Task_Params t) && JSONB_document (Task_Result t).

Definition duplicate_key : error := ErrForeign "duplicate key value violates unique constraint".
Definition unfit_column : error := ErrForeign "a value does not fit its column".

Definition insert_job (now : time) (j : Job) (db : DB) : res (DB * Job) :=
  let j := job_defaults now j in
  if negb (job_fits j) then Err unfit_column
  else if existsb (same_job_key j) (db_jobs db) then Err duplicate_key
  else Ok (mkDB (db_jobs db ++ [j]) (db_tasks db), j).

Fixpoint insert_tasks (now : time) (ts : list Task) (db : DB) : res (DB * list Task) :=
  match ts with
  | [] => Ok (db, [])
  | t :: ts =>
      let t := task_defaults now t in
      if negb (task_fits t) then Err unfit_column
      else if existsb (same_task_key t) (db_tasks db) then Err duplicate_key
      else match insert_tasks now ts (mkDB (db_jobs db) (db_tasks db ++ [t])) with
           | Ok (db, ts) => Ok (db, t :: ts)
           | Err e => Err e
           end
  end.

(** An error rolls the transaction back. *)
Definition create_job_and_tasks_tx (job : Job) (tasks : list Task) : stmt (Job * list Task) :=
  fun now db =>
  match insert_job now job db with
  | Err e => (db, Err (ErrWrap "create job" e))
  | Ok (db', job) =>
      match insert_tasks now tasks db' with
      | Err e => (db, Err (ErrWrap "create tasks" e))
      | Ok (db', tasks) => (db', Ok (job, tasks))
      end
  end.

(** The rows as gorm leaves them in the slice, defaults filled in. *)
Definition create_tasks_tx (tasks : list Task) : stmt (list Task) := fun now db =>
  match insert_tasks now tasks db with
  | Err e => (db, Err e)
  | Ok (db', tasks) => (db', Ok tasks)
  end.

(** ** Methods *)

Definition TaskInsertBatchSize : Z := 1000.
Definition repo_defaultCompletionCheckBatchSize : Z := 200.

Definition FindJobByID (jobID : uuid) : prog (res Job) := sql (select_job_by_id jobID).

Definition FindJobWithTasksByUniqueReferenceID (ref : string) :
    prog (res (option (Job * list Task))) :=
  try (sql (select_job_by_ref ref)) id (fun found =>
    match found with
    | None => Ret (Ok None)
    | Some job =>
        try (sql (select_tasks (Job_ID job) [])) id (fun tasks => Ret (Ok (Some (job, tasks))))
    end).

Definition FindTasksByJobIDAndStatuses (jobID : uuid) (statuses : list string) :
    prog (res (list Task)) := sql (select_tasks jobID statuses).

Definition FindTasksByJobIDAndStatusesBatch (jobID : uuid) (statuses : list string)
    (afterSeq limit : Z) : prog (res (list Task)) :=
  sql (select_tasks_batch jobID statuses afterSeq limit).

Definition CreateTasks (tasks : list Task) : prog (res (list Task)) :=
  match tasks with [] => Ret (Ok []) | _ => sql (create_tasks_tx tasks) end.

Definition UpdateTasksStatus (taskIDs : list uuid) (status : string) : prog (res unit) :=
  now ← Now;
  sql (exec_update_tasks (fun t => contains taskIDs (Task_ID t))
         [TaskCol_status status; TaskCol_updated_at now]).

Definition UpdateTasksStatusByJobID (jobID : uuid) (newStatus : string) : prog (res unit) :=
  now ← Now;
  sql (exec_update_tasks (task_of_job jobID)
         [TaskCol_status newStatus; TaskCol_updated_at now]).

Definition TerminateJob (jobID : uuid) : prog (res unit) := sql (terminate_tx jobID).

Definition CancelPreviousJobs (jobName : string) (currentJobID : uuid) : prog (res unit) :=
  sql (cancel_previous_tx jobName currentJobID).

Definition UpdateJobStatus (jobID : uuid) (status : string) : prog (res unit) :=
  now ← Now;
  r ← sql (exec_update_jobs (job_has_id jobID) [JobCol_status status; JobCol_updated_at now]);
  Ret (result_map (fun _ => ()) r).

Definition UpdateJob (jobID : uuid) (updates : list job_column) : prog (res unit) :=
  match updates with
  | [] => Ret (Ok ())
  | _ =>
      now ← Now;
      r ← sql (exec_update_jobs (job_has_id jobID) (updates ++ [JobCol_updated_at now]));
      Ret (result_map (fun _ => ()) r)
  end.

Definition UpdateJobIfStatus (jobID : uuid) (expectedStatus : string) (updates : list job_column) :
    prog (res bool) :=
  match updates with
  | [] => Ret (Ok false)
  | _ =>
      now ← Now;
      r ← sql (exec_update_jobs
                 (fun j => job_has_id jobID j && bool_decide (Job_Status j = expectedStatus))
                 (updates ++ [JobCol_updated_at now]));
      Ret (result_map (fun n => n =? 1) r)
  end.

Definition FindCompletableJobIDs (jobName : string) (limit : Z) : prog (res (list uuid)) :=
  let limit := if limit <=? 0 then repo_defaultCompletionCheckBatchSize else limit in
  sql (select_completable jobName limit).

Definition UpdateTask (taskID : uuid) (updates : list task_column) : prog (res unit) :=
  match updates with
  | [] => Ret (Ok ())
  | _ =>
      now ← Now;
      sql (exec_update_tasks (task_has_id taskID) (updates ++ [TaskCol_updated_at now]))
  end.

Definition is_pending_clone (parentJobID : uuid) (j : Job) : bool :=
  bool_decide (Job_ParentJobID j = Some parentJobID) && job_status_in NonTerminalJobStates j.

Definition FindPendingJobByParentID (parentJobID : uuid) : prog (res (option Job)) :=
  sql (fun _ db => (db, Ok (pick newest_first (List.filter (is_pending_clone parentJobID) (db_jobs db))))).

Definition GetTaskStatusSummary (jobID : uuid) : prog (res TaskStatusSummary) :=
  sql (select_summary jobID).

Definition CreateJobAndTasks (job : Job) (tasks : list Task) : prog (res (Job * list Task)) :=
  sql (create_job_and_tasks_tx job tasks).

Section text.
  Context `{UuidText}.

Definition FindTaskWithJob (taskID : uuid) : prog (res (Task * Job)) :=
  try (sql (select_task_by_id taskID)) id (fun task =>
  try (sql (preload_job task)) id (fun found =>
    match found with
    | None =>
        Ret (Err (ErrText ("job not found for task " ++ uuid_String (Task_ID task) ++
                           " (job_id " ++ uuid_String (Task_JobID task) ++ ")")))
    | Some job => Ret (Ok (Task_set_Job (Some job) task, job))
    end)).
End text.

(** Both tables are keyed by id alone: every id the system makes is a fresh
    [uuid.New()]. *)
Definition unique_jobs (db : DB) : Prop := NoDup (map Job_ID (db_jobs db)).
Definition unique_tasks (db : DB) : Prop := NoDup (map Task_ID (db_tasks db)).

(** Every identifier the environment makes is new: [uuid.New()]. *)
Record fresh_uuids (E : env) (db : DB) : Prop := {
  fresh_inj : forall m n, env_uuid E m = env_uuid E n -> m = n;
  fresh_job : forall n, env_uuid E n ∉ map Job_ID (db_jobs db);
  fresh_task : forall n, env_uuid E n ∉ map Task_ID (db_tasks db);
  fresh_owner : forall n, env_uuid E n ∉ map Task_JobID (db_tasks db);
}.

(** What [FindTaskWithJob] finds for a task id. *)
Definition loads (db : DB) (taskID : uuid) (t : Task) (j : Job) : Prop :=
  List.filter (task_has_id taskID) (db_tasks db) = [t] /\
  head (List.filter (job_of_task t) (db_jobs db)) = Some j.

(** ** Lemmas *)

Lemma filter_unique {A} (key : A -> uuid) (l : list A) x :
  NoDup (map key l) -> x ∈ l -> List.filter (fun y => N.eqb (key y) (key x)) l = [x].
Proof.
  induction l as [|y l IH]; intros Hnd Hin; [by apply not_elem_of_nil in Hin|].
  cbn in Hnd. apply NoDup_cons in Hnd as [Hy Hnd]. cbn.
  apply elem_of_cons in Hin as [->|Hin].
  - rewrite N.eqb_refl. f_equal.
    destruct (List.filter _ l) as [|z zs] eqn:Hf; [done|]. exfalso. apply Hy.
    assert (In z (z :: zs)) as Hz by by left. rewrite <- Hf in Hz.
    apply filter_In in Hz as [Hz Heq]. apply N.eqb_eq in Heq. rewrite <- Heq.
    apply list_elem_of_In, in_map, Hz.
  - destruct (N.eqb_spec (key y) (key x)) as [Heq|]; [|by apply IH].
    exfalso. apply Hy. rewrite Heq. by apply list_elem_of_In, in_map, list_elem_of_In.
Qed.

Lemma filter_job_unique db j :
  unique_jobs db -> j ∈ db_jobs db -> List.filter (job_has_id (Job_ID j)) (db_jobs db) = [j].
Proof. apply filter_unique. Qed.

Lemma filter_task_unique db t :
  unique_tasks db -> t ∈ db_tasks db -> List.filter (task_has_id (Task_ID t)) (db_tasks db) = [t].
Proof. apply filter_unique. Qed.

(** Updates keep the keys. *)
Lemma set_job_columns_key us j :
  Job_ID (set_job_columns us j) = Job_ID j /\ Job_CreatedAt (set_job_columns us j) = Job_CreatedAt j /\
  Job_Name (set_job_columns us j) = Job_Name j.
Proof.
  unfold set_job_columns. revert j. induction us as [|u us IH]; intros j; [done|].
  cbn. destruct (IH (set_job_column j u)) as (-> & -> & ->). by destruct u.
Qed.

Lemma set_task_columns_key us t :
  Task_ID (set_task_columns us t) = Task_ID t /\
  Task_CreatedAt (set_task_columns us t) = Task_CreatedAt t /\
  Task_JobID (set_task_columns us t) = Task_JobID t /\
  Task_SequenceNumber (set_task_columns us t) = Task_SequenceNumber t.
Proof.
  unfold set_task_columns. revert t. induction us as [|u us IH]; intros t; [done|].
  cbn. destruct (IH (set_task_column t u)) as (-> & -> & -> & ->). by destruct u.
Qed.

Lemma update_jobs_unique p f db :
  (forall j, Job_ID (f j) = Job_ID j) -> unique_jobs db -> unique_jobs (update_jobs p f db).
Proof. intros Hf. unfold unique_jobs. cbn. by rewrite update_where_map_inv. Qed.

Lemma update_tasks_unique p f db :
  (forall t, Task_ID (f t) = Task_ID t) -> unique_tasks db -> unique_tasks (update_tasks p f db).
Proof. intros Hf. unfold unique_tasks. cbn. by rewrite update_where_map_inv. Qed.

(** A row that is not updated stays. *)
Lemma update_where_other {A} (p : A -> bool) f l x :
  x ∈ l -> p x = false -> x ∈ update_where p f l.
Proof. intros Hin Hp. apply elem_of_update_where. exists x. by rewrite Hp. Qed.

Lemma update_where_hit {A} (p : A -> bool) f l x :
  x ∈ l -> p x = true -> f x ∈ update_where p f l.
Proof. intros Hin Hp. apply elem_of_update_where. exists x. by rewrite Hp. Qed.

Lemma job_has_id_true id j : job_has_id id j = true <-> Job_ID j = id.
Proof. apply N.eqb_eq. Qed.
Lemma job_has_id_false id j : job_has_id id j = false <-> Job_ID j ≠ id.
Proof. apply N.eqb_neq. Qed.
Lemma task_has_id_true id t : task_has_id id t = true <-> Task_ID t = id.
Proof. apply N.eqb_eq. Qed.
Lemma task_has_id_false id t : task_has_id id t = false <-> Task_ID t ≠ id.
Proof. apply N.eqb_neq. Qed.

Lemma unique_jobs_inj db a b :
  unique_jobs db -> a ∈ db_jobs db -> b ∈ db_jobs db -> Job_ID a = Job_ID b -> a = b.
Proof.
  intros Hu Ha Hb Heq. pose proof (filter_job_unique _ _ Hu Ha) as H1.
  pose proof (filter_job_unique _ _ Hu Hb) as H2. rewrite Heq, H2 in H1. by simplify_eq.
Qed.

Lemma unique_inserted (l ts : list Task) :
  NoDup (map Task_ID l) -> NoDup (map Task_ID ts) -> (forall t, t ∈ ts -> Task_ID t ∉ map Task_ID l) ->
  NoDup (map Task_ID (l ++ ts)).
Proof.
  intros Hl Hts Hfresh. rewrite map_app. apply NoDup_app. splits; [done| |done]. intros i Hi1 Hi2.
  apply list_elem_of_In, in_map_iff in Hi2 as (t & <- & Ht%list_elem_of_In). by eapply Hfresh.
Qed.

Lemma unique_tasks_inj db a b :
  unique_tasks db -> a ∈ db_tasks db -> b ∈ db_tasks db -> Task_ID a = Task_ID b -> a = b.
Proof.
  intros Hu Ha Hb Heq. pose proof (filter_task_unique _ _ Hu Ha) as H1.
  pose proof (filter_task_unique _ _ Hu Hb) as H2. rewrite Heq, H2 in H1. by simplify_eq.
Qed.

(** A task of a job loads with it. *)
Lemma loads_row db t j :
  unique_tasks db -> t ∈ db_tasks db -> List.filter (job_has_id (Job_ID j)) (db_jobs db) = [j] ->
  Task_JobID t = Job_ID j -> Task_CreatedAt t = Job_CreatedAt j -> loads db (Task_ID t) t j.
Proof.
  intros Hu Hin Hj Hid Hcr. split; [by apply filter_task_unique|].
  unfold job_of_task. rewrite filter_and, Hid, Hj. cbn. by rewrite Hcr, Z.eqb_refl.
Qed.

(** Two updates of the same rows are one. *)
Lemma update_tasks_update p f g db :
  (forall t, p (g t) = p t) ->
  update_tasks p f (update_tasks p g db) = update_tasks p (fun t => f (g t)) db.
Proof.
  intros Hp. unfold update_tasks, update_where. cbn. f_equal. rewrite map_map.
  apply map_ext. intros t. destruct (p t) eqn:Ht; by rewrite ?Hp, Ht.
Qed.

Lemma set_task_columns_app us vs t :
  set_task_columns (us ++ vs) t = set_task_columns vs (set_task_columns us t).
Proof. apply fold_left_app. Qed.

Lemma task_has_id_columns id us t : task_has_id id (set_task_columns us t) = task_has_id id t.
Proof. unfold task_has_id. by destruct (set_task_columns_key us t) as (-> & _). Qed.

Lemma update_tasks_columns id us vs db :
  update_tasks (task_has_id id) (set_task_columns vs)
    (update_tasks (task_has_id id) (set_task_columns us) db) =
  update_tasks (task_has_id id) (set_task_columns (us ++ vs)) db.
Proof.
  rewrite update_tasks_update by (intros; apply task_has_id_columns).
  unfold update_tasks, update_where. f_equal. apply map_ext. intros t.
  by rewrite set_task_columns_app.
Qed.

Lemma run_UpdateTask E w taskID updates :
  reliable E -> updates ≠ [] ->
  run E (UpdateTask taskID updates) w =
  (mkWorld (update_tasks (task_has_id taskID)
              (set_task_columns (updates ++ [TaskCol_updated_at (env_now E (w_tick w))])) (w_db w))
     (w_kafka w) (w_hooks w) (2 + w_tick w), Ok ()).
Proof.
  intros HE Hne. unfold UpdateTask. destruct updates as [|u us]; [done|].
  run_go HE. done.
Qed.

(** An update of one row is determined by what it does to that row. *)
Lemma update_tasks_one id t f g db :
  List.filter (task_has_id id) (db_tasks db) = [t] -> f t = g t ->
  update_tasks (task_has_id id) f db = update_tasks (task_has_id id) g db.
Proof.
  intros Hf Hfg. unfold update_tasks. f_equal. apply map_ext_in. intros x Hx.
  destruct (task_has_id id x) eqn:Hp; [|done].
  assert (In x (List.filter (task_has_id id) (db_tasks db))) as Hin by (by apply filter_In).
  rewrite Hf in Hin. by destruct Hin as [<-|[]].
Qed.

Lemma run_FindTaskWithJob `{UuidText} E w taskID t j :
  reliable E -> loads (w_db w) taskID t j ->
  run E (FindTaskWithJob taskID) w = (tick (tick w), Ok (Task_set_Job (Some j) t, j)).
Proof.
  intros HE [Ht Hj]. unfold FindTaskWithJob.
  rewrite run_try, (run_query E _ w (Ok t) HE) by (intros; unfold select_task_by_id; by rewrite Ht).
  cbn [fst snd].
  rewrite run_try, (run_query E _ (tick w) (Ok (Some j)) HE)
    by (intros; unfold preload_job; cbn [tick w_db]; by rewrite Hj).
  done.
Qed.

(** Inserts with new keys. *)
Lemma job_defaults_ID now j : Job_ID (job_defaults now j) = Job_ID j.
Proof. unfold job_defaults. by repeat case_match. Qed.

Lemma task_defaults_ID now t : Task_ID (task_defaults now t) = Task_ID t.
Proof. unfold task_defaults. by repeat case_match. Qed.

Lemma task_defaults_fields now t :
  let t' := task_defaults now t in
  Task_JobID t' = Task_JobID t /\ Task_Name t' = Task_Name t /\ Task_Status t' = Task_Status t /\
  Task_Attempt t' = Task_Attempt t /\ Task_SequenceNumber t' = Task_SequenceNumber t /\
  Task_DistributionKey t' = Task_DistributionKey t /\ Task_Params t' = Task_Params t /\
  Task_MaxRetries t' = (if Task_MaxRetries t =? 0 then 3 else Task_MaxRetries t) /\
  Task_CreatedAt t' = (if IsZero (Task_CreatedAt t) then now else Task_CreatedAt t).
Proof.
  unfold task_defaults. destruct (Task_MaxRetries t =? 0) eqn:Hm; cbn;
    destruct (IsZero (Task_CreatedAt t)) eqn:Hc; cbn; case_match; by splits.
Qed.

Lemma job_defaults_fields now j :
  let j' := job_defaults now j in
  Job_Name j' = Job_Name j /\ Job_UniqueReferenceID j' = Job_UniqueReferenceID j /\
  Job_ParentJobID j' = Job_ParentJobID j /\ Job_Metadata j' = Job_Metadata j /\
  Job_StartedAt j' = Job_StartedAt j /\
  Job_Status j' = (if bool_decide (Job_Status j = "") then JobStatusPending else Job_Status j) /\
  Job_MaxRetries j' = (if Job_MaxRetries j =? 0 then 3 else Job_MaxRetries j) /\
  Job_CreatedAt j' = (if IsZero (Job_CreatedAt j) then now else Job_CreatedAt j).
Proof.
  unfold job_defaults. case_bool_decide; cbn; (destruct (Job_MaxRetries j =? 0) eqn:Hm; cbn;
    destruct (IsZero (Job_CreatedAt j)) eqn:Hc; cbn; case_match; by splits).
Qed.

(** The defaults fit their columns. *)
Lemma pg_integer_spec z : pg_integer z = true <-> - 2 ^ 31 <= z < 2 ^ 31.
Proof. unfold pg_integer. rewrite andb_true_iff, Z.leb_le, Z.ltb_lt. lia. Qed.

Lemma job_fits_defaults now j :
  job_fits (Job_set_Status (if bool_decide (Job_Status j = "") then JobStatusPending else Job_Status j) j) = true ->
  job_fits (job_defaults now j) = true.
Proof.
  destruct (job_defaults_fields now j) as (Hn & Hr & _ & Hm & _ & Hs & Hmax & _).
  unfold job_fits. rewrite Hn, Hr, Hm, Hs, Hmax. cbn [Job_Name Job_Status Job_MaxRetries Job_UniqueReferenceID Job_Metadata Job_set_Status].
  rewrite !andb_true_iff. intros H0. destruct_and! H0. split_and!; try done. by destruct (Job_MaxRetries j =? 0).
Qed.

Lemma task_fits_defaults now t : task_fits t = true -> task_fits (task_defaults now t) = true.
Proof.
  destruct (task_defaults_fields now t) as (_ & Hn & Hs & Ha & Hq & Hk & Hp & Hm & _).
  assert (Task_Result (task_defaults now t) = Task_Result t) as Hr by (unfold task_defaults; by repeat case_match).
  unfold task_fits. rewrite Hn, Hs, Ha, Hq, Hk, Hp, Hm, Hr. rewrite !andb_true_iff.
  intros H0. destruct_and! H0. split_and!; try done. by destruct (Task_MaxRetries t =? 0).
Qed.

Lemma insert_job_new now j db :
  job_fits (job_defaults now j) = true -> Job_ID j ∉ map Job_ID (db_jobs db) ->
  insert_job now j db = Ok (mkDB (db_jobs db ++ [job_defaults now j]) (db_tasks db), job_defaults now j).
Proof.
  intros Hfit Hj. unfold insert_job. rewrite Hfit. cbn [negb].
  destruct (existsb _ (db_jobs db)) eqn:Hex; [|done].
  apply existsb_exists in Hex as (x & Hx & [Hid _]%andb_true_iff). exfalso. apply Hj.
  apply N.eqb_eq in Hid. rewrite job_defaults_ID in Hid. rewrite Hid.
  by apply list_elem_of_In, in_map.
Qed.

Lemma insert_tasks_new now ts db :
  Forall (fun t => task_fits t = true) ts ->
  NoDup (map Task_ID ts) -> (forall t, t ∈ ts -> Task_ID t ∉ map Task_ID (db_tasks db)) ->
  insert_tasks now ts db =
  Ok (mkDB (db_jobs db) (db_tasks db ++ map (task_defaults now) ts), map (task_defaults now) ts).
Proof.
  intros Hfit. revert db. induction Hfit as [|t ts Ht0 Hfit IH]; intros db Hnd Hnew; cbn.
  { rewrite app_nil_r. by destruct db. }
  rewrite (task_fits_defaults _ _ Ht0). cbn [negb].
  cbn in Hnd. apply NoDup_cons in Hnd as [Ht Hnd].
  destruct (existsb _ (db_tasks db)) eqn:Hex.
  { apply existsb_exists in Hex as (x & Hx & [Hid _]%andb_true_iff). exfalso.
    apply (Hnew t); [left|]. apply N.eqb_eq in Hid. rewrite task_defaults_ID in Hid. rewrite Hid.
    by apply list_elem_of_In, in_map. }
  rewrite IH; [|done|].
  - cbn. by rewrite <- app_assoc.
  - intros x Hx. cbn. rewrite map_app, elem_of_app. intros [Hin|Hin].
    + apply (Hnew x); [by right|done].
    + cbn in Hin. apply list_elem_of_singleton in Hin. rewrite task_defaults_ID in Hin.
      apply Ht. rewrite <- Hin. by apply list_elem_of_In, in_map, list_elem_of_In.
Qed.

Lemma run_CreateJobAndTasks_now E w job ts :
  reliable E -> (forall now, job_fits (job_defaults now job) = true) -> Forall (fun t => task_fits t = true) ts ->
  Job_ID job ∉ map Job_ID (db_jobs (w_db w)) -> NoDup (map Task_ID ts) ->
  (forall t, t ∈ ts -> Task_ID t ∉ map Task_ID (db_tasks (w_db w))) ->
  exists now, now = env_now E (w_tick w) /\
    let job' := job_defaults now job in
    let ts' := map (task_defaults now) ts in
    run E (CreateJobAndTasks job ts) w =
    (tick (with_db (mkDB (db_jobs (w_db w) ++ [job']) (db_tasks (w_db w) ++ ts')) w), Ok (job', ts')).
Proof.
  intros HE Hfj Hft Hj Hnd Hts. exists (env_now E (w_tick w)). split; [done|]. cbv zeta. unfold CreateJobAndTasks.
  rewrite run_sql_reliable by done. unfold create_job_and_tasks_tx.
  rewrite insert_job_new by done. by rewrite insert_tasks_new.
Qed.

Lemma run_CreateJobAndTasks E w job ts :
  reliable E -> (forall now, job_fits (job_defaults now job) = true) -> Forall (fun t => task_fits t = true) ts ->
  Job_ID job ∉ map Job_ID (db_jobs (w_db w)) -> NoDup (map Task_ID ts) ->
  (forall t, t ∈ ts -> Task_ID t ∉ map Task_ID (db_tasks (w_db w))) ->
  exists now,
    let job' := job_defaults now job in
    let ts' := map (task_defaults now) ts in
    run E (CreateJobAndTasks job ts) w =
    (tick (with_db (mkDB (db_jobs (w_db w) ++ [job']) (db_tasks (w_db w) ++ ts')) w), Ok (job', ts')).
Proof.
  intros HE Hfj Hft Hj Hnd Hts. destruct (run_CreateJobAndTasks_now E w job ts HE Hfj Hft Hj Hnd Hts) as (now & _ & Hrun).
  by exists now.
Qed.

Lemma run_UpdateJob E w jobID updates :
  reliable E -> updates ≠ [] ->
  run E (UpdateJob jobID updates) w =
  (mkWorld (update_jobs (job_has_id jobID)
              (set_job_columns (updates ++ [JobCol_updated_at (env_now E (w_tick w))])) (w_db w))
     (w_kafka w) (w_hooks w) (2 + w_tick w), Ok ()).
Proof.
  intros HE Hne. unfold UpdateJob. destruct updates as [|u us]; [done|].
  run_go HE. done.
Qed.
