(* ===== verification/WellFormed.v ===== *)
(** * WellFormed: the invariant of the two tables and a logic for it

    The tables are well-formed when the statuses are those of the schema, the primary
    keys are unique, every task has its job and no task has used more attempts than it
    was given; they evolve when no row is deleted and no column that identifies a row
    changes.  [safe] is a weakest precondition of that invariant, which also carries
    the facts a program has learned and nothing can undo; [calm] is what a program that
    keeps it promises of its result.  Every statement and method of [Repository] is
    shown to keep it. *)
From S2P Require Import Prelude Go Domain Effects Repository.

(** ** The invariant *)

(** The primary keys, and the key of a task's job. *)
Definition job_key (j : Job) : uuid * time := (Job_ID j, Job_CreatedAt j).
Definition task_key (t : Task) : uuid * time := (Task_ID t, Task_CreatedAt t).
Definition task_owner (t : Task) : uuid * time := (Task_JobID t, Task_CreatedAt t).

(** The columns that are written once. *)
Definition job_identity (j : Job) :=
  (job_key j, Job_ParentJobID j, Job_Name j, Job_MaxRetries j, Job_UniqueReferenceID j, Job_Metadata j).
Definition task_identity (t : Task) :=
  (task_key t, task_owner t, Task_Name t, Task_MaxRetries t, Task_SequenceNumber t, Task_DistributionKey t, Task_Params t).

Lemma map_Job_ID (l : list Job) : map Job_ID l = map (fun i => i.1.1.1.1.1.1) (map job_identity l).
Proof. by rewrite map_map. Qed.
Lemma map_Job_Name (l : list Job) : map Job_Name l = map (fun i => i.1.1.1.2) (map job_identity l).
Proof. by rewrite map_map. Qed.

(** The statuses of a row.  A task can also get its job's, PARTIAL_FAILED included. *)
Definition TaskColumnStates : list string := TaskStates ++ [JobStatusPartialFailed].
Definition job_typed (j : Job) : Prop := Job_Status j ∈ JobStates.
Record task_typed (t : Task) : Prop := {
  task_typed_status : Task_Status t ∈ TaskColumnStates;
  task_typed_attempt : 1 <= Task_Attempt t;
  task_typed_retries : Task_MaxRetries t <= max_int64;
}.

(** The attempts of a row stay within those of a row of that id (of its own, when ids
    are not repeated: [attempts_within]). *)
Definition task_limit (t : Task) : uuid * Z := (Task_ID t, Task_MaxRetries t).
Definition within (limits : list (uuid * Z)) (t : Task) : Prop :=
  exists n, (Task_ID t, n) ∈ limits /\ Task_Attempt t <= Z.max 1 n.

Record well_formed (db : DB) : Prop := {
  wf_jobs : Forall job_typed (db_jobs db);
  wf_tasks : Forall task_typed (db_tasks db);
  wf_job_keys : NoDup (map job_key (db_jobs db));
  wf_task_keys : NoDup (map task_key (db_tasks db));
  wf_owners : Forall (fun t => task_owner t ∈ map job_key (db_jobs db)) (db_tasks db);
  wf_attempts : Forall (within (map task_limit (db_tasks db))) (db_tasks db);
}.

(** From [db] to [db']: rows are only added, and keep what identifies them. *)
Definition evolves (db db' : DB) : Prop :=
  map job_identity (db_jobs db) `prefix_of` map job_identity (db_jobs db') /\
  map task_identity (db_tasks db) `prefix_of` map task_identity (db_tasks db').

(** ** The logic *)

(** What a program can learn for good: a job row exists; a task row of that id
    and number of retries exists. *)
Inductive fact : Type :=
| JobRow (key : uuid * time)
| TaskRow (limit : uuid * Z).

Definition holds (db : DB) (f : fact) : Prop :=
  match f with
  | JobRow key => key ∈ map job_key (db_jobs db)
  | TaskRow limit => limit ∈ map task_limit (db_tasks db)
  end.
Definition known (K : list fact) (db : DB) : Prop := forall f, f ∈ K -> holds db f.

Definition safe_eff {X} (e : eff X) (K : list fact) : (list fact -> X -> Prop) -> Prop :=
  match e in eff X return (list fact -> X -> Prop) -> Prop with
  | ESql s => fun rec =>
      (forall now db, IsZero now = false -> well_formed db -> known K db ->
         evolves db (s now db).1 /\ well_formed (s now db).1 /\
         exists K', K ⊆ K' /\ known K' (s now db).1 /\ rec K' (s now db).2) /\
      forall err, rec K (Err err)
  | _ => fun rec => forall x, rec K x
  end.

Fixpoint safe {R} (Q : list fact -> R -> Prop) (p : prog R) (K : list fact) : Prop :=
  match p with
  | Ret r => Q K r
  | Vis e k => safe_eff e K (fun K' x => safe Q (k x) K')
  end.

(** A program that keeps the invariant if the jobs [N] exist; its result is [P]. *)
Definition calm {R} (N : list fact) (P : R -> Prop) (p : prog R) : Prop :=
  forall (Q : list fact -> R -> Prop) K,
    N ⊆ K -> (forall K' r, K ⊆ K' -> P r -> Q K' r) -> safe Q p K.

(** A statement that keeps it. *)
Definition sound {X} (N : list fact) (P : X -> Prop) (s : stmt X) : Prop :=
  forall now db, IsZero now = false -> well_formed db -> known N db ->
    evolves db (s now db).1 /\ well_formed (s now db).1 /\
    match (s now db).2 with Ok a => P a | Err _ => True end.

Definition ok {A} (P : A -> Prop) (r : res A) : Prop := match r with Ok a => P a | Err _ => True end.

(** Anything. *)
Definition any {A} : A -> Prop := fun _ => True.

(** ** Lemmas *)

Lemma evolves_refl db : evolves db db.
Proof. done. Qed.

Lemma evolves_trans a b c : evolves a b -> evolves b c -> evolves a c.
Proof. intros [] []. split; by etrans. Qed.

Lemma evolves_keys db db' : evolves db db' -> map job_key (db_jobs db) ⊆ map job_key (db_jobs db').
Proof.
  intros [[l Hl] _].
  assert (Hk : forall d, map job_key (db_jobs d) =
    map (fun i => i.1.1.1.1.1) (map job_identity (db_jobs d))) by (intros d; by rewrite map_map).
  rewrite !Hk, Hl, map_app. intros k Hin. apply elem_of_app. by left.
Qed.

Lemma evolves_limits db db' : evolves db db' -> map task_limit (db_tasks db) ⊆ map task_limit (db_tasks db').
Proof.
  intros [_ [l Hl]].
  assert (Hk : forall d, map task_limit (db_tasks d) =
    map (fun i => (i.1.1.1.1.1.1.1, i.1.1.1.2)) (map task_identity (db_tasks d))) by (intros d; by rewrite map_map).
  rewrite !Hk, Hl, map_app. intros k Hin. apply elem_of_app. by left.
Qed.

Lemma known_evolves K db db' : known K db -> evolves db db' -> known K db'.
Proof.
  intros HK He f Hf. specialize (HK f Hf). destruct f; cbn in *; [by apply (evolves_keys db)|by apply (evolves_limits db)].
Qed.

Lemma known_sub K K' db : K ⊆ K' -> known K' db -> known K db.
Proof. intros HKK HK f Hf. by apply HK, HKK. Qed.

Lemma within_sub l l' t : l ⊆ l' -> within l t -> within l' t.
Proof. intros Hl (n & Hin & Hle). exists n. split; [by apply Hl|done]. Qed.

(** With the ids of tasks unique, the limit is the row's own. *)
Lemma attempts_within db t :
  well_formed db -> unique_tasks db -> t ∈ db_tasks db ->
  1 <= Task_Attempt t <= Z.max 1 (Task_MaxRetries t).
Proof.
  intros Hwf Hu Ht. pose proof (wf_tasks _ Hwf) as Hty. pose proof (wf_attempts _ Hwf) as Ha.
  rewrite Forall_forall in Hty, Ha. destruct (Hty t Ht) as [_ H1 _]. split; [done|].
  destruct (Ha t Ht) as (n & Hn%list_elem_of_In%in_map_iff & Hle). destruct Hn as (t' & [= Hid <-] & Ht'%list_elem_of_In).
  pose proof (filter_unique Task_ID _ _ Hu Ht) as E1. pose proof (filter_unique Task_ID _ _ Hu Ht') as E2.
  rewrite Hid, E1 in E2. by injection E2 as <-.
Qed.

Lemma safe_mono {R} (P Q : list fact -> R -> Prop) p K :
  (forall K r, P K r -> Q K r) -> safe P p K -> safe Q p K.
Proof.
  intros HPQ. revert K. induction p as [r|X e k IH]; intros K; cbn; [apply HPQ|].
  destruct e; cbn; auto. intros [Hs Herr]. split; [|by auto]. intros now db Hn Hwf Hk.
  destruct (Hs now db Hn Hwf Hk) as (? & ? & K' & ? & ? & ?). eauto 8.
Qed.

Lemma safe_bind {A B} (Q : list fact -> B -> Prop) (p : prog A) (f : A -> prog B) K :
  safe (fun K' a => safe Q (f a) K') p K -> safe Q (p ≫= f) K.
Proof.
  revert K. induction p as [a|X e k IH]; intros K; [done|]. cbn.
  destruct e; cbn; auto. intros [Hs Herr]. split; [|by auto]. intros now db Hn Hwf Hk.
  destruct (Hs now db Hn Hwf Hk) as (? & ? & K' & ? & ? & ?). eauto 8.
Qed.

Lemma calm_Ret {R} N (P : R -> Prop) r : P r -> calm N P (Ret r).
Proof. intros Hr Q K _ HQ. cbn. by apply HQ. Qed.

Lemma calm_bind {A B} N (P : A -> Prop) (P' : B -> Prop) (p : prog A) (f : A -> prog B) :
  calm N P p -> (forall a, P a -> calm N P' (f a)) -> calm N P' (p ≫= f).
Proof.
  intros Hp Hf Q K HN HQ. apply safe_bind, Hp; [done|]. intros K1 a HK1 Ha. apply Hf; [done|set_solver|].
  intros K2 r HK2. apply HQ. by etrans.
Qed.

Lemma calm_mono {R} N N' (P P' : R -> Prop) p :
  calm N' P p -> N' ⊆ N -> (forall r, P r -> P' r) -> calm N P' p.
Proof. intros Hp HN HP Q K HK HQ. apply Hp; [set_solver|]. intros K' r HK' Hr. by apply HQ, HP. Qed.

Lemma calm_try {A B} N (P : A -> Prop) (P' : B -> Prop) (p : prog (res A)) wrap (k : A -> prog (res B)) :
  calm N (ok P) p -> (forall a, P a -> calm N (ok P') (k a)) -> calm N (ok P') (try p wrap k).
Proof.
  intros Hp Hk. eapply calm_bind; [exact Hp|]. intros [a|e]; [apply Hk|]. intros _. by apply calm_Ret.
Qed.

Lemma calm_sql {X} N (P : X -> Prop) (s : stmt X) : sound N P s -> calm N (ok P) (sql s).
Proof.
  intros Hs Q K HN HQ. cbn. split; [|by intros; apply HQ]. intros now db Hn Hwf Hk.
  destruct (Hs now db Hn Hwf) as (Hev & Hwf' & Hr); [by eapply known_sub|]. splits; [done|done|]. exists K. splits; [done| |by apply HQ].
  by eapply known_evolves.
Qed.

(** Every call but a statement. *)
Lemma calm_call {X} N (e : eff X) : (match e with ESql _ => False | _ => True end) -> calm N any (call e).
Proof. intros He Q K HN HQ. destruct e; try done; intros ?; by apply HQ. Qed.

(** ** Statements *)

Lemma wf_update_jobs p f db :
  (forall j, job_identity (f j) = job_identity j) -> (forall j, job_typed j -> job_typed (f j)) ->
  well_formed db -> well_formed (update_jobs p f db) /\ evolves db (update_jobs p f db).
Proof.
  intros Hid Hty [Hj Ht Hjk Htk Ho Ha].
  assert (Hkey : map job_key (update_where p f (db_jobs db)) = map job_key (db_jobs db)).
  { apply update_where_map_inv. intros j. specialize (Hid j). unfold job_identity in Hid. congruence. }
  split.
  - split; cbn; rewrite ?Hkey; try done. apply Forall_forall. intros j (x & Hx & ->)%elem_of_update_where.
    rewrite Forall_forall in Hj. case_match; auto.
  - split; cbn; [|done]. by rewrite update_where_map_inv.
Qed.

Lemma wf_update_tasks p f db :
  (forall t, task_identity (f t) = task_identity t) -> (forall t, task_typed t -> task_typed (f t)) ->
  (forall t, t ∈ db_tasks db -> p t = true -> within (map task_limit (db_tasks db)) t ->
     within (map task_limit (db_tasks db)) (f t)) ->
  well_formed db -> well_formed (update_tasks p f db) /\ evolves db (update_tasks p f db).
Proof.
  intros Hid Hty Hin [Hj Ht Hjk Htk Ho Ha].
  assert (Hkey : map task_key (update_where p f (db_tasks db)) = map task_key (db_tasks db)).
  { apply update_where_map_inv. intros t. specialize (Hid t). unfold task_identity in Hid. congruence. }
  assert (Hlim : map task_limit (update_where p f (db_tasks db)) = map task_limit (db_tasks db)).
  { apply update_where_map_inv. intros t. specialize (Hid t). unfold task_identity, task_key in Hid.
    unfold task_limit. congruence. }
  split.
  - split; cbn; rewrite ?Hkey, ?Hlim; try done.
    + apply Forall_forall. intros t (x & Hx & ->)%elem_of_update_where. rewrite Forall_forall in Ht. case_match; auto.
    + apply Forall_forall. intros t (x & Hx & ->)%elem_of_update_where. rewrite Forall_forall in Ho.
      specialize (Ho x Hx). case_match; [|done]. specialize (Hid x). unfold task_identity in Hid.
      replace (task_owner (f x)) with (task_owner x) by congruence. done.
    + apply Forall_forall. intros t (x & Hx & ->)%elem_of_update_where. rewrite Forall_forall in Ha.
      specialize (Ha x Hx). destruct (p x) eqn:Hp; [by apply Hin|done].
  - split; cbn; [done|]. by rewrite update_where_map_inv.
Qed.

(** Columns whose values the schema allows. *)
Definition job_column_ok (c : job_column) : Prop := match c with JobCol_status s => s ∈ JobStates | _ => True end.
Definition task_column_ok (n : Z) (c : task_column) : Prop :=
  match c with
  | TaskCol_status s => s ∈ TaskColumnStates
  | TaskCol_attempt a => 1 <= a <= Z.max 1 n
  | _ => True
  end.

Lemma set_job_columns_ok us j :
  job_identity (set_job_columns us j) = job_identity j /\
  (Forall job_column_ok us -> job_typed j -> job_typed (set_job_columns us j)).
Proof.
  unfold set_job_columns. revert j. induction us as [|u us IH]; intros j; [done|]. cbn.
  destruct (IH (set_job_column j u)) as [-> Hty]. split; [by destruct u|].
  intros [Hu Hus]%Forall_cons Hj. apply Hty; [done|]. by destruct u.
Qed.

Lemma set_task_columns_ok n us t :
  task_identity (set_task_columns us t) = task_identity t /\
  (Forall (task_column_ok n) us -> task_typed t ->
   task_typed (set_task_columns us t) /\
   (Task_Attempt (set_task_columns us t) = Task_Attempt t \/ Task_Attempt (set_task_columns us t) <= Z.max 1 n)).
Proof.
  unfold set_task_columns. revert t. induction us as [|u us IH]; intros t; [by auto|]. cbn.
  destruct (IH (set_task_column t u)) as [-> Hty]. split; [by destruct u|].
  intros [Hu Hus]%Forall_cons [H1 H2 H3]. destruct Hty as [Hty Hle]; [done|by destruct u; split; cbn in *; try done; lia|].
  split; [done|]. destruct Hle as [->|]; [|by right]. destruct u; cbn in *; try (by left). right. lia.
Qed.

Lemma wf_job_columns p us db :
  Forall job_column_ok us -> well_formed db ->
  well_formed (update_jobs p (set_job_columns us) db) /\ evolves db (update_jobs p (set_job_columns us) db).
Proof. intros Hus. apply wf_update_jobs; intros j; [|intros ?]; by apply set_job_columns_ok. Qed.

(** A number of attempts above 1 needs a row that allows it. *)
Definition allowed (n : Z) (p : Task -> bool) (limits : list (uuid * Z)) : Prop :=
  n <= 1 \/ forall t, p t = true -> (Task_ID t, n) ∈ limits.

Lemma wf_task_columns n p us db :
  Forall (task_column_ok n) us -> allowed n p (map task_limit (db_tasks db)) -> well_formed db ->
  well_formed (update_tasks p (set_task_columns us) db) /\ evolves db (update_tasks p (set_task_columns us) db).
Proof.
  intros Hus Hall Hwf. pose proof (wf_tasks _ Hwf) as Hty. rewrite Forall_forall in Hty.
  assert (Hin : forall t, t ∈ db_tasks db -> p t = true -> within (map task_limit (db_tasks db)) t ->
            within (map task_limit (db_tasks db)) (set_task_columns us t)).
  { intros t Ht Hp (m & Hm & Hle). destruct (set_task_columns_ok n us t) as [Hid Hok].
    destruct (Hok Hus (Hty t Ht)) as [_ Hatt]. unfold task_identity, task_key in Hid.
    assert (Task_ID (set_task_columns us t) = Task_ID t) as Hi by congruence. unfold within. rewrite Hi.
    destruct Hatt as [->|Hn]; [by exists m|]. destruct Hall as [Hn1|Hall]; [exists m; split; [done|lia]|].
    exists n. split; [by apply Hall|done]. }
  apply (wf_update_tasks p (set_task_columns us) db); [| |done|done].
  - intros t. by apply (set_task_columns_ok n).
  - intros t Ht. by apply (set_task_columns_ok n).
Qed.

Lemma sound_update_jobs p us : Forall job_column_ok us -> sound [] any (exec_update_jobs p us).
Proof. intros Hus now db _ Hwf _. cbn. destruct (wf_job_columns p us db Hus Hwf). by splits. Qed.

Lemma sound_update_tasks p us : Forall (task_column_ok 1) us -> sound [] any (exec_update_tasks p us).
Proof. intros Hus now db _ Hwf _. cbn. destruct (wf_task_columns 1 p us db Hus ltac:(by left) Hwf). by splits. Qed.

(** A row whose number of retries is known can be given that many attempts. *)
Lemma sound_update_task id n us :
  Forall (task_column_ok n) us -> sound [TaskRow (id, n)] any (exec_update_tasks (task_has_id id) us).
Proof.
  intros Hus now db _ Hwf Hk. cbn.
  destruct (wf_task_columns n (task_has_id id) us db Hus); [right|done|by splits].
  intros t Ht%N.eqb_eq. rewrite Ht. apply (Hk (TaskRow (id, n))). left.
Qed.

(** The two cancelling transactions update both tables. *)
Lemma wf_cancel p q now db :
  well_formed db ->
  let db' := update_tasks q (set_task_columns [TaskCol_status TaskStatusCancelled; TaskCol_updated_at now])
               (update_jobs p (set_job_columns [JobCol_status JobStatusCancelled; JobCol_updated_at now]) db) in
  evolves db db' /\ well_formed db'.
Proof.
  intros Hwf.
  destruct (wf_job_columns p [JobCol_status JobStatusCancelled; JobCol_updated_at now] db) as [Hwf1 Hev1]; [|done|].
  { by repeat constructor. }
  assert (Forall (task_column_ok 1) [TaskCol_status TaskStatusCancelled; TaskCol_updated_at now]) as Hok by by repeat constructor.
  destruct (wf_task_columns 1 q _ _ Hok ltac:(by left) Hwf1) as [Hwf2 Hev2]. split; [by eapply evolves_trans|done].
Qed.

Lemma sound_terminate id : sound [] any (terminate_tx id).
Proof.
  intros now db _ Hwf _. unfold terminate_tx. case_match; [|by splits].
  splits; [by eapply wf_cancel..|done].
Qed.

Lemma sound_cancel_previous name id : sound [] any (cancel_previous_tx name id).
Proof.
  intros now db _ Hwf _. unfold cancel_previous_tx. case_match; [by splits|].
  splits; [by eapply wf_cancel..|done].
Qed.

(** A query: the tables stay, and what it answers is some of their rows. *)
Lemma sound_query {X} (P : X -> Prop) (s : stmt X) :
  (forall now db, (s now db).1 = db) -> (forall now db, well_formed db -> ok P (s now db).2) -> sound [] P s.
Proof. intros Hdb HP now db _ Hwf _. rewrite Hdb. splits; [done|done|]. by apply HP. Qed.

(** Check the columns of an update one by one. *)
Ltac columns_ok :=
  cbn [app fst snd];
  repeat (apply List.Forall_cons; [first [exact I | assumption | cbn; assumption | cbn; apply contains_spec; reflexivity]|]);
  apply List.Forall_nil.

(** *** Inserts *)
Lemma job_defaults_typed now j : (Job_Status j = ""%string \/ job_typed j) -> job_typed (job_defaults now j).
Proof.
  destruct (job_defaults_fields now j) as (_ & _ & _ & _ & _ & Hs & _). unfold job_typed in *. rewrite Hs.
  intros [->|Hj]; [by apply contains_spec|]. case_bool_decide; [by apply contains_spec|done].
Qed.

Lemma task_defaults_typed now t : task_typed t -> task_typed (task_defaults now t).
Proof.
  destruct (task_defaults_fields now t) as (_ & _ & Hs & Ha & _ & _ & _ & Hm & _). intros [H1 H2 H3].
  split; rewrite ?Hs, ?Ha, ?Hm; [done|done|]. by case_match.
Qed.

(** The owner of a task row once it is inserted at [now]. *)
Definition owner_at (now : time) (t : Task) : uuid * time :=
  (Task_JobID t, if IsZero (Task_CreatedAt t) then now else Task_CreatedAt t).

Lemma task_defaults_owner now t : task_owner (task_defaults now t) = owner_at now t.
Proof.
  destruct (task_defaults_fields now t) as (Hj & _ & _ & _ & _ & _ & _ & _ & Hc). unfold task_owner, owner_at. by rewrite Hj, Hc.
Qed.

Lemma nodup_snoc {A} (l : list A) x : NoDup l -> x ∉ l -> NoDup (l ++ [x]).
Proof. intros Hl Hx. apply NoDup_app. splits; [done| |apply NoDup_singleton]. intros y Hy ->%list_elem_of_singleton. done. Qed.

Lemma existsb_key {A B} (key : A -> B) (same : A -> A -> bool) x l :
  (forall a b, key a = key b -> same a b = true) -> existsb (same x) l = false -> key x ∉ map key l.
Proof.
  intros Hs Hex Hin. apply list_elem_of_In, in_map_iff in Hin as (y & Hy & Hin).
  assert (existsb (same x) l = true) as Ht by (apply existsb_exists; exists y; split; [done|by apply Hs]). congruence.
Qed.

Lemma wf_insert_job now j db db' j' :
  insert_job now j db = Ok (db', j') -> (Job_Status j = ""%string \/ job_typed j) -> well_formed db ->
  well_formed db' /\ evolves db db' /\ job_typed j' /\ job_key j' ∈ map job_key (db_jobs db') /\ j' = job_defaults now j.
Proof.
  unfold insert_job. destruct (negb (job_fits _)); [done|]. destruct (existsb _ _) eqn:Hex; [done|]. intros [= <- <-] Hty [Hj Ht Hjk Htk Ho Ha].
  assert (job_key (job_defaults now j) ∉ map job_key (db_jobs db)) as Hnew.
  { eapply existsb_key; [|exact Hex]. intros a b [= Hid Hcr]. unfold same_job_key.
    by rewrite Hid, Hcr, N.eqb_refl, Z.eqb_refl. }
  pose proof (job_defaults_typed now j Hty) as Hty'. splits; [|split; cbn; [rewrite map_app; by eexists|done]|done| |done].
  - split; cbn; try done.
    + apply Forall_app. split; [done|]. by apply Forall_singleton.
    + rewrite map_app. by apply nodup_snoc.
    + eapply Forall_impl; [exact Ho|]. intros t Hin. rewrite map_app. apply elem_of_app. by left.
  - cbn. rewrite map_app. apply elem_of_app. right. left.
Qed.

(** A row that has not run. *)
Definition task_new (t : Task) : Prop := task_typed t /\ Task_Attempt t = 1.

Lemma wf_insert_tasks now ts db db' ts' :
  insert_tasks now ts db = Ok (db', ts') ->
  Forall (fun t => task_new t /\ owner_at now t ∈ map job_key (db_jobs db)) ts -> well_formed db ->
  well_formed db' /\ evolves db db' /\ db_jobs db' = db_jobs db /\ Forall task_typed ts'.
Proof.
  revert db ts'. induction ts as [|t ts IH]; intros db ts'; cbn [insert_tasks].
  { intros [= <- <-] _ Hwf. by splits. }
  destruct (negb (task_fits _)); [done|]. destruct (existsb _ _) eqn:Hex; [done|]. set (db1 := mkDB _ _).
  destruct (insert_tasks now ts db1) as [[db2 ts2]|] eqn:Hrest; [|done]. intros [= -> <-] [[[Hty Hatt] Hown] Hts]%Forall_cons Hwf.
  assert (task_key (task_defaults now t) ∉ map task_key (db_tasks db)) as Hnew.
  { eapply existsb_key; [|exact Hex]. intros a b [= Hid Hcr]. unfold same_task_key.
    by rewrite Hid, Hcr, N.eqb_refl, Z.eqb_refl. }
  pose proof (task_defaults_typed now t Hty) as Hty'.
  assert (well_formed db1) as Hwf1.
  { destruct Hwf as [Hj Ht Hjk Htk Ho Ha]. split; cbn; try done.
    - apply Forall_app. split; [done|]. by apply Forall_singleton.
    - rewrite map_app. by apply nodup_snoc.
    - apply Forall_app. split; [done|]. constructor; [|constructor]. by rewrite task_defaults_owner.
    - rewrite map_app. apply Forall_app. split; [|apply Forall_singleton].
      + eapply Forall_impl; [exact Ha|]. intros t' Ht'. eapply within_sub; [|exact Ht']. intros k Hin. apply elem_of_app. by left.
      + exists (Task_MaxRetries (task_defaults now t)). split; [apply elem_of_app; right; left|].
        destruct (task_defaults_fields now t) as (_ & _ & _ & -> & _). lia. }
  destruct (IH db1 ts2 Hrest Hts Hwf1) as (Hwf2 & Hev2 & Hj2 & Hts2). splits; [done| |done|by constructor].
  eapply evolves_trans; [|exact Hev2]. split; cbn; [done|]. rewrite map_app. by eexists.
Qed.

(** ** The repository's methods *)
Section repository.
  Context {N : list fact}.

Lemma calm_stmt {X} (P : X -> Prop) (s : stmt X) : sound [] P s -> calm N (ok P) (sql s).
Proof. intros Hs. eapply calm_mono; [by apply (calm_sql [])|set_solver|done]. Qed.

(** A query with the rows it selects. *)
Lemma calm_query {X} (P : X -> Prop) (s : stmt X) :
  (forall now db, (s now db).1 = db) -> (forall now db, well_formed db -> ok P (s now db).2) -> calm N (ok P) (sql s).
Proof. intros H1 H2. apply calm_stmt. by apply sound_query. Qed.

Lemma calm_Now : calm N any Now.
Proof. by apply calm_call. Qed.

Lemma calm_NewUUID : calm N any NewUUID.
Proof. by apply calm_call. Qed.

Lemma calm_hook h : calm N any (hook h).
Proof. by apply calm_call. Qed.

Lemma calm_Since t : calm N any (Since t).
Proof. eapply calm_bind; [apply calm_Now|]. intros; by apply calm_Ret. Qed.

Lemma calm_any {R} (P : R -> Prop) (p : prog R) : calm N P p -> calm N any p.
Proof. intros Hp. by eapply calm_mono. Qed.

Lemma calm_FindJobByID id : calm N (ok job_typed) (FindJobByID id).
Proof.
  apply calm_query; [done|]. intros now db Hwf. unfold select_job_by_id. cbn.
  destruct (List.filter _ _) as [|j l] eqn:Hf; [done|]. cbn.
  assert (In j (j :: l)) as Hin by by left. rewrite <- Hf in Hin. apply filter_In in Hin as [Hin _].
  eapply Forall_forall; [apply (wf_jobs _ Hwf)|]. by apply list_elem_of_In.
Qed.

Lemma filter_typed_tasks p db : well_formed db -> Forall task_typed (List.filter p (db_tasks db)).
Proof.
  intros Hwf. apply Forall_forall. intros t Ht. apply list_elem_of_In, filter_In in Ht as [Ht _].
  eapply Forall_forall; [apply (wf_tasks _ Hwf)|]. by apply list_elem_of_In.
Qed.

Lemma calm_select_tasks id statuses : calm N (ok (Forall task_typed)) (sql (select_tasks id statuses)).
Proof. apply calm_query; [done|]. intros now db Hwf. cbn. by apply filter_typed_tasks. Qed.

Lemma pick_typed before p db :
  well_formed db -> match pick before (List.filter p (db_jobs db)) with Some j => job_typed j | None => True end.
Proof.
  intros Hwf. destruct (pick _ _) as [j|] eqn:Hp; [|done]. apply pick_elem, list_elem_of_In, filter_In in Hp as [Hp _].
  eapply Forall_forall; [apply (wf_jobs _ Hwf)|]. by apply list_elem_of_In.
Qed.

Definition found_typed (r : option (Job * list Task)) : Prop :=
  match r with Some (j, ts) => job_typed j /\ Forall task_typed ts | None => True end.

Lemma calm_FindJobWithTasks ref : calm N (ok found_typed) (FindJobWithTasksByUniqueReferenceID ref).
Proof.
  eapply (calm_try _ (fun o => match o with Some j => job_typed j | None => True end)).
  - apply calm_query; [done|]. intros now db Hwf. cbn. by apply pick_typed.
  - intros [j|] Hj; [|by apply calm_Ret]. eapply calm_try; [apply calm_select_tasks|].
    intros ts Hts. apply calm_Ret. by split.
Qed.

Lemma calm_FindPendingJobByParentID id :
  calm N (ok (fun o => match o with Some j => job_typed j | None => True end)) (FindPendingJobByParentID id).
Proof. apply calm_query; [done|]. intros now db Hwf. cbn. by apply pick_typed. Qed.

Lemma calm_FindTasksBatch id statuses after limit :
  calm N (ok (Forall task_typed)) (FindTasksByJobIDAndStatusesBatch id statuses after limit).
Proof.
  apply calm_query; [done|]. intros now db Hwf. cbn. apply Forall_take.
  rewrite merge_sort_Permutation. by apply filter_typed_tasks.
Qed.

Lemma calm_GetTaskStatusSummary id : calm N any (GetTaskStatusSummary id).
Proof. eapply calm_any. by apply (calm_query any). Qed.

Lemma calm_FindCompletableJobIDs name limit : calm N any (FindCompletableJobIDs name limit).
Proof. eapply calm_any. by apply (calm_query any). Qed.

Lemma calm_UpdateTask id us : Forall (task_column_ok 1) us -> calm N any (UpdateTask id us).
Proof.
  intros Hus. unfold UpdateTask. destruct us as [|u us]; [by apply calm_Ret|].
  eapply calm_bind; [apply calm_Now|]. intros now _. eapply calm_any, calm_stmt, sound_update_tasks.
  apply Forall_app. split; [done|]. by repeat constructor.
Qed.

Lemma calm_UpdateTask_attempt id n us :
  TaskRow (id, n) ∈ N -> Forall (task_column_ok n) us -> calm N any (UpdateTask id us).
Proof.
  intros Hn Hus. unfold UpdateTask. destruct us as [|u us]; [by apply calm_Ret|].
  eapply calm_bind; [apply calm_Now|]. intros now _.
  eapply calm_mono; [apply (calm_sql [TaskRow (id, n)]), sound_update_task| |done].
  - apply Forall_app. split; [done|]. by repeat constructor.
  - intros f Hf. apply list_elem_of_singleton in Hf as ->. done.
Qed.

Lemma calm_UpdateTasksStatus ids status : status ∈ TaskColumnStates -> calm N any (UpdateTasksStatus ids status).
Proof.
  intros Hs. unfold UpdateTasksStatus. eapply calm_bind; [apply calm_Now|]. intros now _.
  eapply calm_any, calm_stmt, sound_update_tasks. columns_ok.
Qed.

Lemma calm_UpdateTasksStatusByJobID id status : status ∈ TaskColumnStates -> calm N any (UpdateTasksStatusByJobID id status).
Proof.
  intros Hs. unfold UpdateTasksStatusByJobID. eapply calm_bind; [apply calm_Now|]. intros now _.
  eapply calm_any, calm_stmt, sound_update_tasks. columns_ok.
Qed.

Lemma calm_UpdateJob id us : Forall job_column_ok us -> calm N any (UpdateJob id us).
Proof.
  intros Hus. unfold UpdateJob. destruct us as [|u us]; [by apply calm_Ret|].
  eapply calm_bind; [apply calm_Now|]. intros now _. eapply calm_bind; [|intros; by apply calm_Ret].
  eapply calm_stmt, sound_update_jobs. apply Forall_app. split; [done|]. by repeat constructor.
Qed.

Lemma calm_UpdateJobIfStatus id st us : Forall job_column_ok us -> calm N any (UpdateJobIfStatus id st us).
Proof.
  intros Hus. unfold UpdateJobIfStatus. destruct us as [|u us]; [by apply calm_Ret|].
  eapply calm_bind; [apply calm_Now|]. intros now _. eapply calm_bind; [|intros; by apply calm_Ret].
  eapply calm_stmt, sound_update_jobs. apply Forall_app. split; [done|]. by repeat constructor.
Qed.

Lemma calm_TerminateJob id : calm N any (TerminateJob id).
Proof. eapply calm_any, calm_stmt, sound_terminate. Qed.

Lemma calm_CancelPreviousJobs name id : calm N any (CancelPreviousJobs name id).
Proof. eapply calm_any, calm_stmt, sound_cancel_previous. Qed.
End repository.

(** The task rows that go in with a new job. *)
Definition tasks_with (job : Job) (ts : list Task) : Prop :=
  IsZero (Job_CreatedAt job) = true /\
  Forall (fun t => task_new t /\ Task_JobID t = Job_ID job /\ IsZero (Task_CreatedAt t) = true) ts.

(** What a creation makes known. *)
Definition created_typed (K : list fact) (r : res (Job * list Task)) : Prop :=
  ok (fun '(j, ts) => job_typed j /\ Forall task_typed ts /\ IsZero (Job_CreatedAt j) = false /\ JobRow (job_key j) ∈ K) r.

Lemma safe_CreateJobAndTasks Q K job ts :
  (Job_Status job = ""%string \/ job_typed job) -> tasks_with job ts ->
  (forall K' r, K ⊆ K' -> created_typed K' r -> Q K' r) -> safe Q (CreateJobAndTasks job ts) K.
Proof.
  intros Hty [Hz Hts] HQ. cbn. split; [|by intros; apply HQ]. intros now db Hn Hwf Hk. unfold create_job_and_tasks_tx.
  assert (Hno : forall e, evolves db db /\ well_formed db /\ exists K', K ⊆ K' /\ known K' db /\ Q K' (Err e)).
  { intros e. splits; [done|done|]. exists K. splits; [done|done|by apply HQ]. }
  destruct (insert_job now job db) as [[db1 j1]|e] eqn:Hj; [|apply Hno].
  destruct (wf_insert_job _ _ _ _ _ Hj Hty Hwf) as (Hwf1 & Hev1 & Hty1 & Hkey1 & Heq).
  assert (job_key j1 = (Job_ID job, now)) as Hkey.
  { rewrite Heq. destruct (job_defaults_fields now job) as (_ & _ & _ & _ & _ & _ & _ & Hc).
    unfold job_key. by rewrite job_defaults_ID, Hc, Hz. }
  destruct (insert_tasks now ts db1) as [[db2 ts2]|e] eqn:Ht; [|apply Hno].
  destruct (wf_insert_tasks _ _ _ _ _ Ht) as (Hwf2 & Hev2 & Hj2 & Hts2); [|done|].
  { eapply Forall_impl; [exact Hts|]. intros t (Htt & Hown & Hz'). split; [done|].
    unfold owner_at. by rewrite Hz', Hown, <- Hkey. }
  cbn [fst snd]. assert (evolves db db2) as Hev by by eapply evolves_trans.
  splits; [done|done|]. assert (K ⊆ JobRow (job_key j1) :: K) as HKK by (intros k Hin; by right).
  exists (JobRow (job_key j1) :: K). splits; [done| |].
  - intros k [->|Hin]%elem_of_cons; [cbn; by rewrite Hj2|]. by apply (known_evolves K db db2).
  - apply HQ; [done|]. cbn. splits; [done|done| |left].
    injection Hkey as _ ->. done.
Qed.

Lemma calm_CreateJobAndTasks N job ts :
  (Job_Status job = ""%string \/ job_typed job) -> tasks_with job ts ->
  calm N (ok (fun '(j, ts) => job_typed j /\ Forall task_typed ts)) (CreateJobAndTasks job ts).
Proof.
  intros Hty Hts Q K HN HQ. apply safe_CreateJobAndTasks; [done|done|]. intros K' r HK Hr. apply HQ; [done|].
  destruct r as [[j' ts']|]; [|done]. by destruct Hr as (? & ? & _).
Qed.

(** Tasks of jobs that exist. *)
Lemma calm_CreateTasks N ts :
  Forall (fun t => task_new t /\ IsZero (Task_CreatedAt t) = false /\ JobRow (task_owner t) ∈ N) ts ->
  calm N (ok (Forall task_typed)) (CreateTasks ts).
Proof.
  intros Hts. unfold CreateTasks. destruct ts as [|t ts]; [by apply calm_Ret; constructor|].
  apply calm_sql. intros now db Hn Hwf Hk. unfold create_tasks_tx.
  destruct (insert_tasks now (t :: ts) db) as [[db' ts']|e] eqn:Hi; [|by splits].
  destruct (wf_insert_tasks _ _ _ _ _ Hi) as (Hwf' & Hev & _ & Hts'); [|done|by splits].
  eapply Forall_impl; [exact Hts|]. intros x (Hty & Hz & Hin). split; [done|].
  unfold owner_at. rewrite Hz. exact (Hk _ Hin).
Qed.

(** Loading a task makes its number of retries known. *)
Definition loaded_typed (K : list fact) (r : res (Task * Job)) : Prop :=
  ok (fun '(t, j) => task_typed t /\ job_typed j /\ TaskRow (task_limit t) ∈ K) r.

Lemma safe_FindTaskWithJob `{UuidText} Q K id :
  (forall K' r, K ⊆ K' -> loaded_typed K' r -> Q K' r) -> safe Q (FindTaskWithJob id) K.
Proof.
  intros HQ. unfold FindTaskWithJob, try. apply safe_bind. cbn. split; [|by intros; apply HQ].
  intros now db _ Hwf Hk. splits; [done|done|].
  destruct (List.filter (task_has_id id) (db_tasks db)) as [|t l] eqn:Hf.
  { exists K. splits; [done|done|]. by apply HQ. }
  assert (In t (t :: l)) as Hin by (by left). rewrite <- Hf in Hin. apply filter_In in Hin as [Hin%list_elem_of_In _].
  assert (task_typed t) as Ht by (pose proof (wf_tasks _ Hwf) as H'; rewrite Forall_forall in H'; by apply H').
  exists (TaskRow (task_limit t) :: K). assert (K ⊆ TaskRow (task_limit t) :: K) as HKK by (intros k Hk'; by right).
  splits; [done| |].
  { intros f [->|Hf']%elem_of_cons; [|by apply Hk]. cbn. by apply list_elem_of_In, in_map, list_elem_of_In. }
  split; [|by intros; apply HQ]. intros now' db' _ Hwf' Hk'. splits; [done|done|].
  exists (TaskRow (task_limit t) :: K). splits; [done|done|].
  cbn. destruct (List.filter (job_of_task t) (db_jobs db')) as [|j js] eqn:Hj; cbn; apply HQ; try done.
  cbn. splits; [by destruct Ht; split| |left].
  assert (In j (j :: js)) as Hinj by (by left). rewrite <- Hj in Hinj. apply filter_In in Hinj as [Hinj%list_elem_of_In _].
  pose proof (wf_jobs _ Hwf') as Hty. rewrite Forall_forall in Hty. by apply Hty.
Qed.
