(* ===== verification/JobConfig.v ===== *)
(** * JobConfig: what a caller registers

    [internal/jobconfig]: the configuration records, the hook defaults and the
    validation functions.  An interface or function value the caller supplies is a
    [handle] behind an option ([None] is nil), except [Publisher], whose default
    implementation is in the repository: it is the record of its two methods. *)
From S2P Require Import Prelude Go Domain Effects.

(** ** Types *)

(** How a [kafkago.Writer] picks a partition: the hash of the key, or the caller's. *)
Inductive Balancer : Type :=
| Hash
| UserBalancer (x : nat).

(** The fields of a [kafkago.Writer] the source looks at; [Writer_Rest] stands for the
    others, which it passes on. *)
Record KafkaWriter : Type := mkKafkaWriter {
  Writer_Addr : option (list string);
  Writer_Balancer : option Balancer;
  Writer_Rest : nat;
}.

(** [kafkago.ReaderConfig] likewise. *)
Record ReaderConfig : Type := mkReaderConfig {
  Reader_Brokers : list string;
  Reader_GroupID : string;
  Reader_Topic : string;
  Reader_Rest : nat;
}.

Record KafkaConfig : Type := mkKafkaConfig {
  Kafka_Brokers : list string;
  Kafka_TaskTopic : string;
  Kafka_TaskRetryTopic : string;
  Kafka_TaskDLQTopic : string;
  Kafka_ConsumerGroup : string;
  Kafka_ConsumerConfig : ReaderConfig;
  Kafka_WriterConfig : option handle; (* a *kafkago.Writer *)
}.

Record RetryConfig : Type := mkRetryConfig {
  Retry_MaxRetries : Z;
  Retry_RetryDelay : duration;
}.

(** A hook field: nil, the no-op of [NopHooks], or the caller's function. *)
Inductive hook_func : Type := NopHook | UserHook (f : handle).

Record Hooks : Type := mkHooks {
  Hooks_OnTasksPublished : option hook_func;
  Hooks_OnTaskStarted : option hook_func;
  Hooks_OnTaskFinished : option hook_func;
  Hooks_OnJobFinished : option hook_func;
}.

(** The [Publisher] interface. *)
Record Publisher : Type := mkPublisher {
  PublishTasks : list Task -> string -> prog (res unit);
  PublishRetryTasks : list Task -> string -> duration -> prog (res unit);
}.

Record JobConfig : Type := mkJobConfig {
  Cfg_Name : string;
  Cfg_JobExecutor : option handle;
  Cfg_TaskExecutor : option handle;
  Cfg_Kafka : KafkaConfig;
  Cfg_Schedule : string;
  Cfg_Retry : RetryConfig;
  Cfg_CancelPrevious : bool;
  Cfg_Enabled : option handle;
  Cfg_Hooks : Hooks;
  Cfg_Publisher : option Publisher;
  Cfg_TaskReader : option handle;
  Cfg_RetryReader : option handle;
  Cfg_JobCompletionCron : string;
}.

Record SharedKafkaConfig : Type := mkSharedKafkaConfig {
  Shared_Kafka : KafkaConfig;
  Shared_TaskExecutor : option handle;
  Shared_Jobs : list JobConfig;
  Shared_Publisher : option Publisher;
  Shared_TaskReader : option handle;
  Shared_RetryReader : option handle;
}.

(** ** Hooks *)
Definition NopHooks : Hooks :=
  mkHooks (Some NopHook) (Some NopHook) (Some NopHook) (Some NopHook).

Definition MergeHooks (h : Hooks) : Hooks :=
  let over (x nop : option hook_func) := match x with Some _ => x | None => nop end in
  mkHooks (over (Hooks_OnTasksPublished h) (Hooks_OnTasksPublished NopHooks))
    (over (Hooks_OnTaskStarted h) (Hooks_OnTaskStarted NopHooks))
    (over (Hooks_OnTaskFinished h) (Hooks_OnTaskFinished NopHooks))
    (over (Hooks_OnJobFinished h) (Hooks_OnJobFinished NopHooks)).

(** ** Validation *)

Definition blank (s : string) : bool := bool_decide (TrimSpace s = "").
Definition is_nil {A} (x : option A) : bool := match x with None => true | Some _ => false end.
Definition is_empty {A} (l : list A) : bool := match l with [] => true | _ => false end.

(** A function that returns [errors.New(msg)] at the first failing guard. *)
Fixpoint guards (l : list (bool * string)) : option error :=
  match l with
  | [] => None
  | (bad, msg) :: l => if bad then Some (ErrText msg) else guards l
  end.

(** [IsEnabled]: calls [Enabled] only when it is set. *)
Definition IsEnabled (jc : JobConfig) : prog bool :=
  match Cfg_Enabled jc with
  | Some f => call (EEnabled f)
  | None => Ret true
  end.

Definition ValidateManual (cfg : JobConfig) : option error :=
  guards
    [(blank (Cfg_Name cfg), "job name cannot be empty");
     (is_nil (Cfg_JobExecutor cfg), "job executor cannot be nil");
     (is_nil (Cfg_TaskExecutor cfg), "task executor cannot be nil");
     (is_empty (Kafka_Brokers (Cfg_Kafka cfg)), "kafka brokers are required");
     (blank (Kafka_TaskTopic (Cfg_Kafka cfg)), "kafka task topic is required");
     (blank (Kafka_ConsumerGroup (Cfg_Kafka cfg)), "kafka consumer group is required");
     (blank (Cfg_JobCompletionCron cfg), "job completion cron cannot be empty")]%string.

Definition Validate (cfg : JobConfig) : option error :=
  match ValidateManual cfg with
  | Some e => Some e
  | None => guards [(blank (Cfg_Schedule cfg), "schedule cannot be empty")]%string
  end.

Definition kafkaConfigSet (k : KafkaConfig) : bool :=
  negb (is_empty (Kafka_Brokers k)) ||
  negb (blank (Kafka_TaskTopic k)) ||
  negb (blank (Kafka_TaskRetryTopic k)) ||
  negb (blank (Kafka_TaskDLQTopic k)) ||
  negb (blank (Kafka_ConsumerGroup k)) ||
  negb (is_nil (Kafka_WriterConfig k)).

Definition validateSharedJob (job : JobConfig) : option error :=
  guards
    [(blank (Cfg_Name job), "job name cannot be empty");
     (is_nil (Cfg_JobExecutor job), "job executor cannot be nil");
     (blank (Cfg_JobCompletionCron job), "job completion cron cannot be empty");
     (negb (is_nil (Cfg_TaskExecutor job)),
      "task executor must be set on the shared config, not on the job");
     (kafkaConfigSet (Cfg_Kafka job),
      "kafka config must be set on the shared config, not on the job");
     (negb (is_nil (Cfg_Publisher job)) || negb (is_nil (Cfg_TaskReader job)) ||
        negb (is_nil (Cfg_RetryReader job)),
      "publisher/reader must be set on the shared config, not on the job")]%string.

(** The loop of [ValidateShared]; [seen] is the set of names so far.  [%q] of a
    name is kept as the name between quotes. *)
Definition quote (s : string) : string :=
  String (Ascii.ascii_of_nat 34) (s ++ String (Ascii.ascii_of_nat 34) EmptyString).

Fixpoint validateSharedJobs (seen : gset string) (jobs : list JobConfig) : option error :=
  match jobs with
  | [] => None
  | job :: jobs =>
      match validateSharedJob job with
      | Some e => Some (ErrWrap ("shared job " ++ quote (TrimSpace (Cfg_Name job))) e)
      | None =>
          if decide (Cfg_Name job ∈ seen)
          then Some (ErrText ("duplicate job name " ++ quote (Cfg_Name job) ++ " in shared consumer"))
          else validateSharedJobs ({[Cfg_Name job]} ∪ seen) jobs
      end
  end.

Definition ValidateShared (cfg : SharedKafkaConfig) : option error :=
  match
    guards
      [(is_empty (Kafka_Brokers (Shared_Kafka cfg)), "kafka brokers are required");
       (blank (Kafka_TaskTopic (Shared_Kafka cfg)), "kafka task topic is required");
       (blank (Kafka_ConsumerGroup (Shared_Kafka cfg)), "kafka consumer group is required");
       (is_nil (Shared_TaskExecutor cfg), "shared task executor cannot be nil");
       (bool_decide (length (Shared_Jobs cfg) < 2)%nat, "shared consumer requires at least two jobs")]%string
  with
  | Some e => Some e
  | None => validateSharedJobs ∅ (Shared_Jobs cfg)
  end.

(** ** Specification *)

(** What a shared registration must satisfy. *)
Record shared_job_ok (job : JobConfig) : Prop := {
  shared_job_name : TrimSpace (Cfg_Name job) ≠ ""%string;
  shared_job_executor : is_Some (Cfg_JobExecutor job);
  shared_job_cron : TrimSpace (Cfg_JobCompletionCron job) ≠ ""%string;
  shared_job_no_task_executor : Cfg_TaskExecutor job = None;
  shared_job_no_kafka : kafkaConfigSet (Cfg_Kafka job) = false;
  shared_job_no_transport : Cfg_Publisher job = None /\ Cfg_TaskReader job = None /\ Cfg_RetryReader job = None;
}.

Record shared_ok (cfg : SharedKafkaConfig) : Prop := {
  shared_brokers : Kafka_Brokers (Shared_Kafka cfg) ≠ [];
  shared_topic : TrimSpace (Kafka_TaskTopic (Shared_Kafka cfg)) ≠ ""%string;
  shared_group : TrimSpace (Kafka_ConsumerGroup (Shared_Kafka cfg)) ≠ ""%string;
  shared_executor : is_Some (Shared_TaskExecutor cfg);
  shared_two : (2 <= length (Shared_Jobs cfg))%nat;
  shared_jobs : Forall shared_job_ok (Shared_Jobs cfg);
  shared_names : NoDup (map Cfg_Name (Shared_Jobs cfg));
}.

(** What [Validate] promises about a scheduled job. *)
Record job_ok (cfg : JobConfig) : Prop := {
  job_ok_name : TrimSpace (Cfg_Name cfg) ≠ ""%string;
  job_ok_executor : is_Some (Cfg_JobExecutor cfg);
  job_ok_task_executor : is_Some (Cfg_TaskExecutor cfg);
  job_ok_brokers : Kafka_Brokers (Cfg_Kafka cfg) ≠ [];
  job_ok_topic : TrimSpace (Kafka_TaskTopic (Cfg_Kafka cfg)) ≠ ""%string;
  job_ok_group : TrimSpace (Kafka_ConsumerGroup (Cfg_Kafka cfg)) ≠ ""%string;
  job_ok_cron : TrimSpace (Cfg_JobCompletionCron cfg) ≠ ""%string;
}.

(** ** Lemmas *)

Lemma guards_None l : guards l = None <-> Forall (fun g => g.1 = false) l.
Proof.
  induction l as [|[bad msg] l IH]; cbn; [by split; [constructor|]|].
  rewrite Forall_cons. destruct bad; cbn; [by split; [|intros []]|]. rewrite IH. by split; [|intros []].
Qed.

Lemma blank_false s : blank s = false <-> TrimSpace s ≠ ""%string.
Proof. apply bool_decide_eq_false. Qed.

Lemma is_nil_false {A} (x : option A) : is_nil x = false <-> is_Some x.
Proof. destruct x; cbn; [by split; eauto|]. by split; [|intros [? ?]]. Qed.

Lemma is_nil_true {A} (x : option A) : negb (is_nil x) = false <-> x = None.
Proof. by destruct x. Qed.

Lemma is_empty_false {A} (l : list A) : is_empty l = false <-> l ≠ [].
Proof. by destruct l. Qed.

Lemma ValidateManual_ok cfg : ValidateManual cfg = None <-> job_ok cfg.
Proof.
  unfold ValidateManual. rewrite guards_None, !Forall_cons. cbn [fst].
  rewrite !blank_false, !is_nil_false, is_empty_false. split.
  - intros (?&?&?&?&?&?&?&_). by split.
  - intros []. splits; first [done|constructor].
Qed.

Lemma validateSharedJob_ok job : validateSharedJob job = None <-> shared_job_ok job.
Proof.
  unfold validateSharedJob. rewrite guards_None, !Forall_cons. cbn [fst].
  rewrite !orb_false_iff, !is_nil_true, !blank_false, is_nil_false. split.
  - intros (?&?&?&?&?&[[]]&_). by split.
  - intros [? ? ? ? ? (?&?&?)]. splits; first [done|constructor].
Qed.

Lemma validateSharedJobs_ok seen jobs :
  validateSharedJobs seen jobs = None <->
  Forall shared_job_ok jobs /\ NoDup (map Cfg_Name jobs) /\ Forall (fun j => Cfg_Name j ∉ seen) jobs.
Proof.
  revert seen. induction jobs as [|job jobs IH]; intros seen; cbn [validateSharedJobs map].
  { split; [|done]. intros _. splits; constructor. }
  rewrite !Forall_cons, NoDup_cons. rewrite <- validateSharedJob_ok.
  destruct (validateSharedJob job); [by split; [|intros [[? _] _]]|].
  case_decide as Hseen; [by split; [|intros (_ & _ & ? & _)]|]. rewrite IH. rewrite !Forall_forall. split.
  - intros (Hok & Hnd & Hns). splits; try done.
    + rewrite list_elem_of_In, in_map_iff. intros (j & Hj & Hin%list_elem_of_In).
      apply (Hns j Hin). rewrite Hj. apply elem_of_union_l. by apply elem_of_singleton.
    + intros j Hj. by specialize (Hns j Hj) as [_ ?]%not_elem_of_union.
  - intros ((_ & Hok) & (Hn & Hnd) & _ & Hns). splits; try done. intros j Hj.
    apply not_elem_of_union. split; [|by apply Hns]. rewrite elem_of_singleton. intros Heq. apply Hn.
    rewrite <- Heq. by apply list_elem_of_In, in_map, list_elem_of_In.
Qed.

Lemma ValidateShared_ok (cfg : SharedKafkaConfig) : ValidateShared cfg = None <-> shared_ok cfg.
Proof.
  unfold ValidateShared.
  assert (Hg : forall l e, guards l = Some e -> ~ Forall (fun g => g.1 = false) l).
  { intros l e He Hall. apply guards_None in Hall. congruence. }
  assert (Hgs : Forall (fun g => g.1 = false)
      [(is_empty (Kafka_Brokers (Shared_Kafka cfg)), "kafka brokers are required");
       (blank (Kafka_TaskTopic (Shared_Kafka cfg)), "kafka task topic is required");
       (blank (Kafka_ConsumerGroup (Shared_Kafka cfg)), "kafka consumer group is required");
       (is_nil (Shared_TaskExecutor cfg), "shared task executor cannot be nil");
       (bool_decide (length (Shared_Jobs cfg) < 2)%nat, "shared consumer requires at least two jobs")]%string
     <-> Kafka_Brokers (Shared_Kafka cfg) ≠ [] /\ TrimSpace (Kafka_TaskTopic (Shared_Kafka cfg)) ≠ ""%string /\
         TrimSpace (Kafka_ConsumerGroup (Shared_Kafka cfg)) ≠ ""%string /\ is_Some (Shared_TaskExecutor cfg) /\
         (2 <= length (Shared_Jobs cfg))%nat).
  { rewrite !Forall_cons. cbn [fst]. rewrite is_empty_false, !blank_false, is_nil_false, bool_decide_eq_false.
    rewrite Nat.nlt_ge. split; [by intros (?&?&?&?&?&_)|]. intros (?&?&?&?&?). splits; first [done|constructor]. }
  case_match eqn:Hguards.
  - split; [done|]. intros []. exfalso. apply (Hg _ _ Hguards), Hgs. by splits.
  - apply guards_None, Hgs in Hguards as (?&?&?&?&?). rewrite validateSharedJobs_ok. split.
    + intros (?&?&_). by split.
    + intros []. splits; try done. apply Forall_true. intros j. apply not_elem_of_empty.
Qed.

(** ** Properties *)

(** [ValidateShared] accepts exactly the shared configurations that are
    complete (brokers, topic, group, executor), have at least two jobs, all with
    their own name, executor and completion cron and without transport settings of
    their own, under pairwise distinct names. *)
Theorem ValidateShared_exact (cfg : SharedKafkaConfig) : ValidateShared cfg = None <-> shared_ok cfg.
Proof. apply ValidateShared_ok. Qed.

(** [Validate] accepts exactly the complete configurations with a schedule:
    a name, both executors, brokers, task topic, consumer group, completion cron and
    schedule, none of them blank. *)
Theorem Validate_exact (cfg : JobConfig) :
  Validate cfg = None <-> job_ok cfg /\ TrimSpace (Cfg_Schedule cfg) ≠ ""%string.
Proof.
  unfold Validate. rewrite <- ValidateManual_ok.
  destruct (ValidateManual cfg); [by split; [|intros []]|].
  rewrite guards_None, Forall_cons. cbn [fst]. rewrite blank_false. split; [by intros []|].
  intros []. by split.
Qed.
