(* ===== verification/Transport.v ===== *)
(** * Transport: the Kafka producer and consumer

    [internal/transport]: the partition key, the default [Publisher], and the
    consumer that hands each message to the orchestration core.  The wire format
    ([encoding/json] through the marshalers of uuid and pgtype) is the class
    [Codec]. *)
From S2P Require Import Prelude Go Domain Effects JobConfig.

Record RetryMessage : Type := mkRetryMessage {
  RetryMessage_Task : Task;
  RetryMessage_ProcessAfter : time;
  RetryMessage_OriginalKey : string;
}.

(** [json.Marshal] and [json.Unmarshal] of a task and of a retry message. *)
Class Codec := {
  json_Marshal_Task : Task -> res string;
  json_Unmarshal_Task : string -> res Task;
  json_Marshal_RetryMessage : RetryMessage -> res string;
  json_Unmarshal_RetryMessage : string -> res RetryMessage;
}.

(** A time that JSON can carry: [time.Time] refuses years beyond 9999.  The last year is
    left out, since the year is that of the time's own zone. *)
Definition year_9999 : time := 3651694 * 86400 * 10 ^ 9.
Definition json_time (t : time) : bool := (0 <=? t) && (t <? year_9999).
Definition json_opt_time (t : option time) : bool :=
  match t with Some t => json_time t | None => true end.

(** Values whose times and documents have an encoding. *)
Definition json_job (j : Job) : bool :=
  json_time (Job_CreatedAt j) && json_time (Job_UpdatedAt j) && json_opt_time (Job_StartedAt j) &&
  json_opt_time (Job_FinishedAt j) && JSONB_document (Job_Metadata j).
Definition json_task (t : Task) : bool :=
  json_time (Task_CreatedAt t) && json_time (Task_UpdatedAt t) && json_opt_time (Task_StartedAt t) &&
  json_opt_time (Task_FinishedAt t) && JSONB_document (Task_Params t) && JSONB_document (Task_Result t) &&
  match Task_Job t with Some j => json_job j | None => true end.
Definition json_retry (m : RetryMessage) : bool :=
  json_task (RetryMessage_Task m) && json_time (RetryMessage_ProcessAfter m).

(** Documented behaviour: such values are encoded, the fields the consumer side relies on
    survive the round trip, and a task that was decoded can be encoded again. *)
Class CodecLaws `{Codec} : Prop := {
  json_Task_encodes : forall t, json_task t = true -> is_Ok (json_Marshal_Task t);
  json_RetryMessage_encodes : forall m, json_retry m = true -> is_Ok (json_Marshal_RetryMessage m);
  json_Task_id : forall t s,
    json_Marshal_Task t = Ok s ->
    exists t', json_Unmarshal_Task s = Ok t' /\ Task_ID t' = Task_ID t;
  json_RetryMessage_fields : forall m s,
    json_Marshal_RetryMessage m = Ok s ->
    exists m', json_Unmarshal_RetryMessage s = Ok m' /\
      Task_ID (RetryMessage_Task m') = Task_ID (RetryMessage_Task m) /\
      RetryMessage_ProcessAfter m' = RetryMessage_ProcessAfter m /\
      is_Ok (json_Marshal_Task (RetryMessage_Task m'));
}.

(** The clock reads times that JSON can carry, also when the retry delay is added. *)
Record json_clock (E : env) (cfg : JobConfig) : Prop := {
  clock_now : forall n, json_time (env_now E n) = true;
  clock_delay : forall n, json_time (Add (env_now E n) (Retry_RetryDelay (Cfg_Retry cfg))) = true;
}.

(** ** Publisher *)

Definition partitionKey (task : Task) : option string :=
  match Task_DistributionKey task with
  | Some k => if bool_decide (k = "") then None else Some k
  | None => None
  end.

(** The slice [WriteMessages] is called with, or nothing to write. *)
Definition write (messages : list Message) : prog (res unit) :=
  match messages with
  | [] => Ret (Ok ())
  | _ => call (EWriteMessages messages)
  end.

Section codec.
  Context `{Codec}.

(** The body of the loop: a task that does not marshal is skipped. *)
Definition task_message (topic : string) (task : Task) : option Message :=
  match json_Marshal_Task task with
  | Ok payload => Some (mkMessage topic (partitionKey task) payload)
  | Err _ => None
  end.

Definition publisher_PublishTasks (tasks : list Task) (topic : string) : prog (res unit) :=
  write (omap (task_message topic) tasks).

Fixpoint retry_messages (topic : string) (retryDelay : duration) (tasks : list Task) :
    prog (list Message) :=
  match tasks with
  | [] => Ret []
  | task :: tasks =>
      let key := partitionKey task in
      now ← Now;
      let retryMsg := mkRetryMessage task (Add now retryDelay) (default ""%string key) in
      rest ← retry_messages topic retryDelay tasks;
      match json_Marshal_RetryMessage retryMsg with
      | Ok payload => Ret (mkMessage topic key payload :: rest)
      | Err _ => Ret rest
      end
  end.

Definition publisher_PublishRetryTasks (tasks : list Task) (topic : string) (retryDelay : duration) :
    prog (res unit) :=
  messages ← retry_messages topic retryDelay tasks;
  write messages.

Definition NewTaskPublisher : Publisher :=
  mkPublisher publisher_PublishTasks publisher_PublishRetryTasks.

(** ** Consumer *)

(** [TaskRunner]. *)
Context (ExecuteTask : string -> prog (res unit)).

Definition processRetryMessage (value : string) : prog (res unit) :=
  match json_Unmarshal_RetryMessage value with
  | Err e => Ret (Err e)
  | Ok retryMsg =>
      now ← Now;
      let wait := Sub (RetryMessage_ProcessAfter retryMsg) now in
      _ ← (if 0 <? wait then call (ESleep wait) else Ret ());
      match json_Marshal_Task (RetryMessage_Task retryMsg) with
      | Err e => Ret (Err e)
      | Ok payload => ExecuteTask payload
      end
  end.

Definition processMessage (isRetry : bool) (msg : Message) : prog (res unit) :=
  if isRetry then processRetryMessage (Message_Value msg)
  else ExecuteTask (Message_Value msg).

(** One turn of the consumer's loop on a fetched message: whether the message
    is committed. *)
Definition consume (isRetry : bool) (msg : Message) : prog bool :=
  r ← processMessage isRetry msg;
  match r with
  | Ok _ => Ret true
  | Err _ => Ret false
  end.
End codec.

(** ** Lemmas *)

(** None of the tasks that can be encoded is skipped. *)
Lemma task_messages_all `{CodecLaws} topic ts :
  Forall (fun t => json_task t = true) ts -> map (task_message topic) ts = map Some (omap (task_message topic) ts).
Proof.
  induction 1 as [|t ts Ht _ IH]; [done|]. destruct (json_Task_encodes t Ht) as [s Hs].
  assert (task_message topic t = Some (mkMessage topic (partitionKey t) s)) as Hm by (unfold task_message; by rewrite Hs).
  cbn. rewrite Hm. cbn. by rewrite IH.
Qed.
