(* ===== verification/Instances.v ===== *)
(** * Instances: concrete stand-ins for the code outside the repository

    Each class of operations the model takes as a parameter has here one concrete
    implementation that satisfies the laws assumed of it, so that the theorems can
    be applied to closed inputs.  Nothing else depends on these choices. *)
From Stdlib Require Import Ascii.
From S2P Require Import Prelude Go Domain Effects JobConfig Transport.

(** ** A text form for numbers *)
Fixpoint pos_text (p : positive) (rest : string) : string :=
  match p with
  | xH => String "1" rest
  | xO p => String "o" (pos_text p rest)
  | xI p => String "i" (pos_text p rest)
  end%char.

Fixpoint text_pos (s : string) : option (positive * string) :=
  match s with
  | String "1" s => Some (xH, s)
  | String "o" s => prod_map xO id <$> text_pos s
  | String "i" s => prod_map xI id <$> text_pos s
  | _ => None
  end%char.

Definition N_text (n : N) (rest : string) : string :=
  match n with N0 => String "0" rest | Npos p => String "+" (pos_text p rest) end%char.
Definition text_N (s : string) : option (N * string) :=
  match s with
  | String "0" s => Some (N0, s)
  | String "+" s => prod_map Npos id <$> text_pos s
  | _ => None
  end%char.

Definition Z_text (z : Z) (rest : string) : string :=
  match z with
  | Z0 => String "0" rest
  | Zpos p => String "+" (pos_text p rest)
  | Zneg p => String "-" (pos_text p rest)
  end%char.
Definition text_Z (s : string) : option (Z * string) :=
  match s with
  | String "0" s => Some (Z0, s)
  | String "+" s => prod_map Zpos id <$> text_pos s
  | String "-" s => prod_map Zneg id <$> text_pos s
  | _ => None
  end%char.

(** ** The instances *)
Definition sample_uuid_text : UuidText := {|
  uuid_String u := N_text u "";
  uuid_Parse s := match text_N s with
                  | Some (u, EmptyString) => Ok u
                  | _ => Err "invalid UUID format"%string
                  end |}.

Definition sample_float_conv : FloatConv := {| float_to_int_out_of_range _ := min_int64 |}.

Definition sample_fsm : Fsm := {|
  fsm_Event evs current name :=
    match fsm_lookup evs current name with
    | Some dst => if bool_decide (dst = current) then FsmError ErrNoTransition else FsmEnter dst
    | None => FsmError (ErrForeign ("event " ++ name ++ " inappropriate in current state " ++ current))
    end |}.

Definition sample_pgtype : Pgtype := {|
  JSONB_Set m :=
    if json_encodable (gomap_value m) then Ok (mkJSONB Present (JDoc (json_norm (gomap_value m))))
    else Err (ErrForeign "json: unsupported value");
  JSONB_AssignTo j :=
    match JSONB_Status j with
    | Present => json_Unmarshal_map (JSONB_Bytes j)
    | Null => Ok None
    | Undefined => Err (ErrForeign "cannot assign undefined")
    end |}.

Definition sample_params : JSONB := mkJSONB Present (JDoc (VMap (Some []))).

Definition sample_task (id : uuid) : Task :=
  mkTask id 0 "" "" 0 0 0 None sample_params sample_params zero_time zero_time None None None None.

Definition unencodable : error := ErrForeign "Time.MarshalJSON: year outside of range [0,9999]".

Definition sample_codec : Codec := {|
  json_Marshal_Task t := if json_task t then Ok (N_text (Task_ID t) "") else Err unencodable;
  json_Unmarshal_Task s :=
    match text_N s with
    | Some (u, _) => Ok (sample_task u)
    | None => Err (ErrForeign "invalid character")
    end;
  json_Marshal_RetryMessage m :=
    if json_retry m
    then Ok (N_text (Task_ID (RetryMessage_Task m)) (Z_text (RetryMessage_ProcessAfter m) ""))
    else Err unencodable;
  json_Unmarshal_RetryMessage s :=
    match text_N s with
    | Some (u, s) =>
        match text_Z s with
        | Some (z, _) => Ok (mkRetryMessage (sample_task u) z "")
        | None => Err (ErrForeign "invalid character")
        end
    | None => Err (ErrForeign "invalid character")
    end |}.

(** An environment that answers every call; executor [x] of the caller splits
    into [split x] and runs a task as [exec n x] at call [n]. *)
Definition sample_env (split : handle -> res (list TaskData))
    (exec : nat -> handle -> gomap -> res gomap) : env :=
  mkEnv (fun n => Z.min (2 ^ 62) (1000000 * Z.of_nat n + 1000)) (fun n => N.of_nat (100 + n)) (fun _ => SqlDone)
    (fun _ => WriteDone) (fun _ x _ => split x) exec (fun _ _ => true).

(** Sample rows and configurations. *)
Definition sample_job (id : uuid) (status : string) : Job :=
  mkJob id None "job" status 3 (Some "ref"%string) 10 10 (Some 20) None None sample_params.

Definition sample_row (id jobID : uuid) (status : string) (attempt : Z) : Task :=
  mkTask id jobID "task" status attempt 3 (Z.of_N id) (Some "key"%string) sample_params sample_params
    10 10 None None None None.

Definition sample_cfg : JobConfig :=
  mkJobConfig "job" (Some 0%nat) (Some 0%nat)
    (mkKafkaConfig ["broker"%string] "tasks" "retries" "dlq" "group" (mkReaderConfig [] "" "" 0) None)
    "* * * * *" (mkRetryConfig 3 1000) false None NopHooks
    (Some (@NewTaskPublisher sample_codec)) None None "* * * * *".

Definition sample_jobs : gmap string JobConfig := {["job"%string := sample_cfg]}.

Definition sample_world (jobs : list Job) (tasks : list Task) : World :=
  mkWorld (mkDB jobs tasks) [] [] 0.

(** The caller's code succeeds, or fails, on every task. *)
Definition env_ok : env := sample_env (fun _ => Ok []) (fun _ _ _ => Ok (Some ∅)).
Definition env_failing : env :=
  sample_env (fun _ => Ok []) (fun _ _ _ => Err (ErrForeign "boom")).

(** ** The laws *)
Lemma text_pos_text p rest : text_pos (pos_text p rest) = Some (p, rest).
Proof. induction p as [p IH|p IH|]; cbn; by rewrite ?IH. Qed.

Lemma text_N_text n rest : text_N (N_text n rest) = Some (n, rest).
Proof. destruct n as [|p]; cbn; by rewrite ?text_pos_text. Qed.

Lemma text_Z_text z rest : text_Z (Z_text z rest) = Some (z, rest).
Proof. destruct z as [|p|p]; cbn; by rewrite ?text_pos_text. Qed.

#[export] Instance sample_uuid_text_laws : @UuidTextLaws sample_uuid_text.
Proof. split. intros u. cbn. by rewrite text_N_text. Qed.

#[export] Instance sample_fsm_laws : @FsmLaws sample_fsm.
Proof.
  split; intros evs cur name.
  - intros dst Hl Hne. cbn. by rewrite Hl, bool_decide_eq_false_2.
  - intros Hl. cbn. by rewrite Hl, bool_decide_eq_true_2.
  - intros Hl. cbn. rewrite Hl. by eexists.
Qed.

#[export] Instance sample_pgtype_laws : @PgtypeLaws sample_pgtype.
Proof.
  split.
  - intros m Hm. unfold JSONB_Set, sample_pgtype. by rewrite Hm.
  - intros m b. unfold JSONB_Set, sample_pgtype. case_match; [|done]. by intros [= <-].
  - done.
Qed.

#[export] Instance sample_codec_laws : @CodecLaws sample_codec.
Proof.
  split.
  - intros t Ht. cbn. rewrite Ht. by eexists.
  - intros m Hm. cbn. rewrite Hm. by eexists.
  - intros t s. cbn. case_match; [|done]. intros [= <-]. rewrite text_N_text. by eexists.
  - intros m s. cbn. case_match; [|done]. intros [= <-]. rewrite text_N_text, text_Z_text.
    eexists. splits; [done|done|done|]. by eexists.
Qed.

Lemma json_time_range t : 0 <= t < year_9999 -> json_time t = true.
Proof. intros Ht. apply andb_true_iff. split; [apply Z.leb_le|apply Z.ltb_lt]; lia. Qed.

Lemma sample_env_clock split exec : json_clock (sample_env split exec) sample_cfg.
Proof.
  assert (2 ^ 62 + 1000 < year_9999) as Hy by done.
  split; intros n; apply json_time_range; cbn [env_now sample_env sample_cfg Cfg_Retry Retry_RetryDelay]; unfold Add; lia.
Qed.

Lemma sample_jobs_cfg : sample_jobs !! "job"%string = Some sample_cfg.
Proof. apply lookup_singleton_eq. Qed.

Lemma sample_env_reliable split exec : reliable (sample_env split exec).
Proof. done. Qed.

Lemma env_ok_reliable : reliable env_ok.
Proof. done. Qed.
Lemma env_failing_reliable : reliable env_failing.
Proof. done. Qed.
