(* ===== verification/Queries.v ===== *)
(** * Queries: what the cancelling transactions promise

    The postconditions of [TerminateJob] and [CancelPreviousJobs] of
    [internal/repository/repository.go], in terms of the rows before and after. *)
From S2P Require Import Prelude Go Domain Effects Repository JobConfig Transport Instances.

(** Rows of a table before and after, position by position. *)
Definition tasks_change (P : Task -> Prop) (f : Task -> Task) (db db' : DB) : Prop :=
  Forall2 (fun a b => (P a -> b = f a) /\ (~ P a -> b = a)) (db_tasks db) (db_tasks db').
Definition jobs_change (P : Job -> Prop) (f : Job -> Job) (db db' : DB) : Prop :=
  Forall2 (fun a b => (P a -> b = f a) /\ (~ P a -> b = a)) (db_jobs db) (db_jobs db').

(** A job that can still be cancelled. *)
Definition open_job (j : Job) : Prop := Job_Status j = JobStatusPending \/ Job_Status j = JobStatusRunning.

(** ** Lemmas *)

Lemma update_where_change {A} (P : A -> Prop) p f l :
  (forall x, p x = true <-> P x) ->
  Forall2 (fun a b => (P a -> b = f a) /\ (~ P a -> b = a)) l (update_where p f l).
Proof.
  intros Hp. induction l as [|x l IH]; cbn; constructor; [|exact IH].
  destruct (p x) eqn:Hx.
  - apply Hp in Hx. by split.
  - split; [|done]. intros Hx'. apply Hp in Hx'. congruence.
Qed.

Lemma job_open_true j : job_status_in [JobStatusPending; JobStatusRunning] j = true <-> open_job j.
Proof.
  unfold job_status_in, open_job. rewrite contains_spec, elem_of_cons, list_elem_of_singleton. done.
Qed.

Lemma task_status_one s t : task_status_in [s] t = true <-> Task_Status t = s.
Proof. unfold task_status_in. by rewrite contains_spec, list_elem_of_singleton. Qed.

(** [TerminateJob]'s transaction, by whether the job is open. *)
Lemma terminate_tx_cases id now db :
  (exists j, j ∈ db_jobs db /\ Job_ID j = id /\ open_job j /\ (terminate_tx id now db).2 = Ok () /\
     jobs_change (fun j => Job_ID j = id /\ open_job j) (Job_UpdateStatus JobStatusCancelled now) db
       (terminate_tx id now db).1 /\
     tasks_change (fun t => Task_JobID t = id /\ Task_Status t = TaskStatusPending)
       (Task_UpdateStatus TaskStatusCancelled now) db (terminate_tx id now db).1) \/
  ((forall j, j ∈ db_jobs db -> Job_ID j = id -> ~ open_job j) /\
     terminate_tx id now db = (db, Err ErrJobAlreadyTerminal)).
Proof.
  unfold terminate_tx. destruct (existsb _ (db_jobs db)) eqn:Hex; cbn [fst snd].
  - left. apply existsb_exists in Hex as (j & Hj & [Hid Hopen]%andb_true_iff).
    exists j. splits; [by apply list_elem_of_In|by apply job_has_id_true|by apply job_open_true|done| |].
    + apply (update_where_change _ _ (Job_UpdateStatus JobStatusCancelled now)).
      intros x. by rewrite andb_true_iff, job_has_id_true, job_open_true.
    + apply (update_where_change _ _ (Task_UpdateStatus TaskStatusCancelled now)).
      intros x. rewrite andb_true_iff, task_status_one. unfold task_of_job. by rewrite N.eqb_eq.
  - right. split; [|done]. intros j Hj Hid Hopen.
    assert (existsb (fun j => job_has_id id j && job_status_in [JobStatusPending; JobStatusRunning] j)
              (db_jobs db) = true) as Hex'; [|congruence].
    apply existsb_exists. exists j. split; [by apply list_elem_of_In|].
    by rewrite andb_true_iff, job_has_id_true, job_open_true.
Qed.

(** ** Properties *)

(** C22: [TerminateJob] on a job that is PENDING or RUNNING cancels it and exactly
    its PENDING tasks, leaving its other tasks and every other row as they were; on
    a job that is over, or that does not exist, it changes nothing and answers
    [ErrJobAlreadyTerminal]. *)
Theorem TerminateJob_spec E w id :
  reliable E ->
  let '(w', r) := run E (TerminateJob id) w in
  w_kafka w' = w_kafka w /\ w_hooks w' = w_hooks w /\
  ((exists j now, j ∈ db_jobs (w_db w) /\ Job_ID j = id /\ open_job j /\ r = Ok () /\
      jobs_change (fun j => Job_ID j = id /\ open_job j) (Job_UpdateStatus JobStatusCancelled now) (w_db w) (w_db w') /\
      tasks_change (fun t => Task_JobID t = id /\ Task_Status t = TaskStatusPending)
        (Task_UpdateStatus TaskStatusCancelled now) (w_db w) (w_db w')) \/
   ((forall j, j ∈ db_jobs (w_db w) -> Job_ID j = id -> ~ open_job j) /\
      r = Err ErrJobAlreadyTerminal /\ w_db w' = w_db w)).
Proof.
  intros HE. unfold TerminateJob. rewrite run_sql_reliable by done. cbn [tick with_db w_kafka w_hooks w_db].
  split; [done|]. split; [done|].
  destruct (terminate_tx_cases id (env_now E (w_tick w)) (w_db w))
    as [(j & Hj & Hid & Hopen & Hr & Hjobs & Htasks)|[Hnone Hr]].
  - left. exists j, (env_now E (w_tick w)). by rewrite Hr.
  - right. by rewrite Hr.
Qed.

Theorem TerminateJob_spec_witness :
  let w := sample_world [sample_job 1 JobStatusRunning]
             [sample_row 2 1 TaskStatusPending 1; sample_row 3 1 TaskStatusRunning 1] in
  let '(w', r) := run env_ok (TerminateJob 1) w in
  map Job_Status (db_jobs (w_db w')) = [JobStatusCancelled] /\
  map Task_Status (db_tasks (w_db w')) = [TaskStatusCancelled; TaskStatusRunning] /\
  w_kafka w' = [] /\ (r = Ok () \/ r = Err ErrJobAlreadyTerminal).
Proof.
  intros w. pose proof (TerminateJob_spec env_ok w 1 env_ok_reliable) as Hspec.
  destruct (run env_ok (TerminateJob 1) w) as [w' r] eqn:Hrun.
  destruct Hspec as (Hk & _ & Hcases).
  splits; [by vm_compute in Hrun; injection Hrun as <- _|by vm_compute in Hrun; injection Hrun as <- _|exact Hk|].
  destruct Hcases as [(j & now & _ & _ & _ & Hr & _)|(_ & Hr & _)]; [by left|by right].
Defined.

(** C23: [CancelPreviousJobs] leaves no other open job of the name: every PENDING
    or RUNNING job of that name but the current one becomes CANCELLED, together with
    exactly those of its tasks that are PENDING, RUNNING or FAILED; the current job,
    the jobs of other names and all other tasks are left as they were. *)
Theorem CancelPreviousJobs_spec E w name id :
  reliable E ->
  let previous j := Job_Name j = name /\ Job_ID j ≠ id /\ open_job j in
  let '(w', r) := run E (CancelPreviousJobs name id) w in
  r = Ok () /\ w_kafka w' = w_kafka w /\ w_hooks w' = w_hooks w /\
  exists now,
    jobs_change previous (Job_UpdateStatus JobStatusCancelled now) (w_db w) (w_db w') /\
    tasks_change
      (fun t => (exists j, j ∈ db_jobs (w_db w) /\ previous j /\ Task_JobID t = Job_ID j) /\
                Task_Status t ∈ [TaskStatusPending; TaskStatusRunning; TaskStatusFailed])
      (Task_UpdateStatus TaskStatusCancelled now) (w_db w) (w_db w').
Proof.
  intros HE previous. unfold CancelPreviousJobs. rewrite run_sql_reliable by done.
  cbn [tick with_db w_kafka w_hooks w_db].
  set (p := fun j => bool_decide (Job_Name j = name) && negb (job_has_id id j) &&
                     job_status_in [JobStatusPending; JobStatusRunning] j).
  assert (Hp : forall j, p j = true <-> previous j).
  { intros j. unfold p, previous. rewrite !andb_true_iff, bool_decide_eq_true, negb_true_iff, job_has_id_false, job_open_true.
    tauto. }
  assert (Hsel : forall j, j ∈ List.filter p (db_jobs (w_db w)) <-> j ∈ db_jobs (w_db w) /\ previous j).
  { intros j. rewrite list_elem_of_In, filter_In, Hp, <- list_elem_of_In. done. }
  unfold cancel_previous_tx. fold p.
  set (now := env_now E (w_tick w)).
  assert (Hjobs : jobs_change previous (Job_UpdateStatus JobStatusCancelled now) (w_db w)
                    (update_jobs p (Job_UpdateStatus JobStatusCancelled now) (w_db w))).
  { by apply update_where_change. }
  destruct (List.filter p (db_jobs (w_db w))) as [|j0 js] eqn:Hf; cbn [fst snd]; (splits; [done..|]); exists now.
  - assert (Hnone : forall j, j ∈ db_jobs (w_db w) -> ~ previous j).
    { intros j Hj Hprev. apply (not_elem_of_nil j). by apply Hsel. }
    split.
    + unfold jobs_change. apply Forall_Forall2_diag, Forall_forall. intros j Hj. split; [|done].
      intros Hprev. by destruct (Hnone j Hj).
    + unfold tasks_change. apply Forall_Forall2_diag, Forall_true. intros t. split; [|done].
      intros [(j & Hj & Hprev & _) _]. by destruct (Hnone j Hj).
  - split; [exact Hjobs|].
    apply (update_where_change _ _ (Task_UpdateStatus TaskStatusCancelled now)).
    intros t. rewrite andb_true_iff. unfold task_status_in. rewrite !contains_spec.
    rewrite list_elem_of_In, in_map_iff. split.
    + intros [(j & Hid & Hj%list_elem_of_In) Hst]. split; [|done]. exists j.
      apply Hsel in Hj as [? ?]. by splits.
    + intros [(j & Hj & Hprev & Hid) Hst]. split; [|done]. exists j. split; [done|].
      apply list_elem_of_In. by apply Hsel.
Qed.

Theorem CancelPreviousJobs_spec_witness :
  let w := sample_world [sample_job 1 JobStatusRunning; sample_job 4 JobStatusPending]
             [sample_row 2 1 TaskStatusFailed 1; sample_row 3 4 TaskStatusPending 1] in
  let '(w', r) := run env_ok (CancelPreviousJobs "job" 4) w in
  map Job_Status (db_jobs (w_db w')) = [JobStatusCancelled; JobStatusPending] /\
  map Task_Status (db_tasks (w_db w')) = [TaskStatusCancelled; TaskStatusPending] /\
  r = Ok () /\ w_kafka w' = [].
Proof.
  intros w. pose proof (CancelPreviousJobs_spec env_ok w "job" 4 env_ok_reliable) as Hspec.
  cbv zeta in Hspec. destruct (run env_ok (CancelPreviousJobs "job" 4) w) as [w' r] eqn:Hrun.
  destruct Hspec as (Hr & Hk & _).
  splits; [by vm_compute in Hrun; injection Hrun as <- _|by vm_compute in Hrun; injection Hrun as <- _|exact Hr|exact Hk].
Defined.
