(* ===== verification/Lifecycle.v ===== *)
(** * Lifecycle: the methods that drive the state machines

    [internal/domain/job.go], [task.go] and [state.go]: each method makes a
    machine in the current status and sends it one event; the [enter_state]
    callback writes the new status and the time. *)
From S2P Require Import Prelude Go Domain Effects JobConfig Transport Instances.

Section machines.
  Context `{Fsm}.

(** [job.stateMachine().Event(ctx, action)]. *)
Definition Job_Event (action : string) (job : Job) : prog (Job * option error) :=
  match fsm_Event jobTransitions (Job_Status job) action with
  | FsmEnter dst => now ← Now; Ret (Job_UpdateStatus dst now job, None)
  | FsmError e => Ret (job, Some e)
  end.

Definition Job_Start : Job -> prog (Job * option error) := Job_Event JobActionStart.
Definition Job_Complete : Job -> prog (Job * option error) := Job_Event JobActionComplete.
Definition Job_Fail : Job -> prog (Job * option error) := Job_Event JobActionFail.
Definition Job_PartialFail : Job -> prog (Job * option error) := Job_Event JobActionPartialFail.
Definition Job_Cancel : Job -> prog (Job * option error) := Job_Event JobActionCancel.

Definition Task_Event (action : string) (task : Task) : prog (Task * option error) :=
  match fsm_Event taskTransitions (Task_Status task) action with
  | FsmEnter dst => now ← Now; Ret (Task_UpdateStatus dst now task, None)
  | FsmError e => Ret (task, Some e)
  end.

Definition Task_Start : Task -> prog (Task * option error) := Task_Event TaskActionStart.
Definition Task_Complete : Task -> prog (Task * option error) := Task_Event TaskActionComplete.
Definition Task_Retry : Task -> prog (Task * option error) := Task_Event TaskActionRetry.
Definition Task_ExhaustRetries : Task -> prog (Task * option error) :=
  Task_Event TaskActionExhaustRetries.
End machines.

(** One edge of a table, the specification of a machine. *)
Definition edge (evs : list EventDesc) (src dst : string) : Prop :=
  exists name, fsm_lookup evs src name = Some dst.

(** The edges of a table as a list, to decide questions about it. *)
Definition edges (evs : list EventDesc) : list (string * string) :=
  concat (map (fun d => map (fun s => (s, Event_Dst d)) (Event_Src d)) evs).

(** Sending a list of events in turn; counts the ones that were accepted. *)
Fixpoint Job_Events `{Fsm} (actions : list string) (job : Job) : prog (Job * nat) :=
  match actions with
  | [] => Ret (job, 0%nat)
  | action :: actions =>
      '(job, err) ← Job_Event action job;
      '(job, n) ← Job_Events actions job;
      Ret (job, match err with None => S n | Some _ => n end)
  end.

(** How many transitions a job in a status can still make. *)
Definition job_rank (s : string) : nat :=
  if decide (s = JobStatusPending) then 2
  else if decide (s = JobStatusRunning) then 1 else 0.

(** ** Lemmas *)

Lemma fsm_lookup_edges evs src name dst :
  fsm_lookup evs src name = Some dst -> (src, dst) ∈ edges evs.
Proof.
  unfold fsm_lookup, edges. intros Hl.
  apply last_Some_elem_of, list_elem_of_omap in Hl as (d & Hd & Heq).
  case_match eqn:Hc; [|done]. simplify_eq.
  apply andb_true_iff in Hc as [_ Hsrc]. apply contains_spec in Hsrc.
  rewrite list_elem_of_In, in_concat. eexists. split.
  - apply in_map. by apply list_elem_of_In.
  - apply in_map_iff. eexists; split; [done|]. by apply list_elem_of_In.
Qed.

(** A machine never leaves a state without outgoing edges, whatever the event. *)
Lemma edge_final evs src :
  forallb (fun e => negb (bool_decide (e.1 = src))) (edges evs) = true ->
  forall name, fsm_lookup evs src name = None.
Proof.
  intros Hall name. destruct (fsm_lookup evs src name) as [dst|] eqn:Hl; [|done].
  apply fsm_lookup_edges, list_elem_of_In in Hl.
  rewrite forallb_forall in Hall. specialize (Hall _ Hl). cbn in Hall.
  by rewrite bool_decide_eq_true_2 in Hall.
Qed.

(** Decide a question about every edge of a table. *)
Ltac by_edges H :=
  apply fsm_lookup_edges in H;
  let b := eval vm_compute in (edges jobTransitions) in
  let t := eval vm_compute in (edges taskTransitions) in
  change (edges jobTransitions) with b in H;
  change (edges taskTransitions) with t in H;
  repeat (apply elem_of_cons in H as [H|H]; [simplify_eq|]);
  try (by apply not_elem_of_nil in H).

Section laws.
  Context `{FsmLaws}.

  (** The three outcomes of an event, from the table alone. *)
Lemma run_Job_Event E w action job :
  run E (Job_Event action job) w =
  match fsm_lookup jobTransitions (Job_Status job) action with
  | Some dst =>
      if decide (dst = Job_Status job) then (w, (job, Some ErrNoTransition))
      else (tick w, (Job_UpdateStatus dst (env_now E (w_tick w)) job, None))
  | None => (w, (job, (run E (Job_Event action job) w).2.2))
  end.
Proof.
  unfold Job_Event. destruct (fsm_lookup _ _ _) as [dst|] eqn:Hl.
  - destruct (decide (dst = Job_Status job)) as [->|Hne].
    + by rewrite (fsm_Event_same _ _ _ Hl).
    + by rewrite (fsm_Event_enter _ _ _ _ Hl Hne).
  - destruct (fsm_Event_invalid _ _ _ Hl) as [msg ->]. done.
Qed.

Lemma run_Task_Event E w action task :
  run E (Task_Event action task) w =
  match fsm_lookup taskTransitions (Task_Status task) action with
  | Some dst =>
      if decide (dst = Task_Status task) then (w, (task, Some ErrNoTransition))
      else (tick w, (Task_UpdateStatus dst (env_now E (w_tick w)) task, None))
  | None => (w, (task, (run E (Task_Event action task) w).2.2))
  end.
Proof.
  unfold Task_Event. destruct (fsm_lookup _ _ _) as [dst|] eqn:Hl.
  - destruct (decide (dst = Task_Status task)) as [->|Hne].
    + by rewrite (fsm_Event_same _ _ _ Hl).
    + by rewrite (fsm_Event_enter _ _ _ _ Hl Hne).
  - destruct (fsm_Event_invalid _ _ _ Hl) as [msg ->]. done.
Qed.

Lemma Job_Event_invalid E w action job :
  fsm_lookup jobTransitions (Job_Status job) action = None ->
  exists msg, run E (Job_Event action job) w = (w, (job, Some (ErrForeign msg))).
Proof.
  intros Hl. unfold Job_Event. destruct (fsm_Event_invalid _ _ _ Hl) as [msg ->].
  by exists msg.
Qed.

Lemma Task_Event_invalid E w action task :
  fsm_lookup taskTransitions (Task_Status task) action = None ->
  exists msg, run E (Task_Event action task) w = (w, (task, Some (ErrForeign msg))).
Proof.
  intros Hl. unfold Task_Event. destruct (fsm_Event_invalid _ _ _ Hl) as [msg ->].
  by exists msg.
Qed.
End laws.


Lemma job_edge_rank src name dst :
  fsm_lookup jobTransitions src name = Some dst -> (job_rank dst < job_rank src)%nat.
Proof. intros Hl. by_edges Hl; vm_compute; lia. Qed.

Lemma job_edge_states src name dst :
  fsm_lookup jobTransitions src name = Some dst -> src ∈ NonTerminalJobStates /\ dst ∈ JobStates.
Proof. intros Hl. by_edges Hl; split; by apply contains_spec. Qed.

Lemma task_edge_states src name dst :
  fsm_lookup taskTransitions src name = Some dst -> (src ∉ TerminalTaskStates) /\ (dst ∈ TaskStates).
Proof.
  intros Hl. by_edges Hl; (split; [|by apply contains_spec]);
    rewrite <- contains_spec; by vm_compute.
Qed.

Lemma job_event_cases `{FsmLaws} E w action job :
  let '(w', (job', err)) := run E (Job_Event action job) w in
  match err with
  | Some _ => job' = job /\ w' = w
  | None =>
      fsm_lookup jobTransitions (Job_Status job) action = Some (Job_Status job') /\
      Job_Status job ∈ NonTerminalJobStates /\ Job_Status job' ∈ JobStates /\
      job' = Job_UpdateStatus (Job_Status job') (env_now E (w_tick w)) job
  end.
Proof.
  destruct (fsm_lookup jobTransitions (Job_Status job) action) as [dst|] eqn:Hl.
  - rewrite run_Job_Event, Hl. case_decide; [done|]. cbn.
    by pose proof (job_edge_states _ _ _ Hl) as [].
  - by destruct (Job_Event_invalid E w _ _ Hl) as [msg ->].
Qed.

(** ** Properties *)

(** An event on a job either is refused, and then neither the job nor the
    world changes, or moves the job along an edge of [jobTransitions] from a
    non-terminal status, stamping [UpdatedAt] with the time of the move; so a job
    in a terminal status refuses every event. *)
Theorem job_event_sound `{FsmLaws} E w action job :
  let '(w', (job', err)) := run E (Job_Event action job) w in
  match err with
  | Some _ => job' = job /\ w' = w
  | None =>
      fsm_lookup jobTransitions (Job_Status job) action = Some (Job_Status job') /\
      Job_Status job ∈ NonTerminalJobStates /\ Job_Status job' ∈ JobStates /\
      job' = Job_UpdateStatus (Job_Status job') (env_now E (w_tick w)) job
  end.
Proof. apply job_event_cases. Qed.

Theorem job_event_sound_witness :
  let j := Job_set_Status JobStatusPending
             (mkJob 1 None "n" "" 3 None 5 5 None None None JSONB_zero) in
  let E := sample_env (fun _ => Ok []) (fun _ _ _ => Ok None) in
  let w := mkWorld (mkDB [] []) [] [] 0 in
  let '(w', (job', err)) := run E (@Job_Event sample_fsm JobActionStart j) w in
  match err with
  | Some _ => job' = j /\ w' = w
  | None =>
      fsm_lookup jobTransitions (Job_Status j) JobActionStart = Some (Job_Status job') /\
      Job_Status j ∈ NonTerminalJobStates /\ Job_Status job' ∈ JobStates /\
      job' = Job_UpdateStatus (Job_Status job') (env_now E (w_tick w)) j
  end.
Proof.
  intros j E w.
  exact (@job_event_sound sample_fsm sample_fsm_laws E w JobActionStart j).
Defined.

(** Whatever the events, a job makes at most two transitions, and at most
    as many as its status allows (none once it is terminal). *)
Theorem job_transitions_bounded `{FsmLaws} E w actions job :
  ((run E (Job_Events actions job) w).2.2 <= job_rank (Job_Status job) <= 2)%nat.
Proof.
  split.
  - revert w job. induction actions as [|action actions IH]; intros w job; cbn; [lia|].
    rewrite run_bind.
    pose proof (job_event_cases E w action job) as Hev.
    destruct (run E (Job_Event action job) w) as [w' [job' err]]. cbn.
    rewrite run_bind. specialize (IH w' job').
    destruct (run E (Job_Events actions job') w') as [w'' [job'' n]]. cbn in *.
    destruct err as [e|]; [by destruct Hev as [-> ->]|].
    destruct Hev as [Hl _]. apply job_edge_rank in Hl. lia.
  - unfold job_rank. repeat case_decide; lia.
Qed.

Theorem job_transitions_bounded_witness :
  let j := mkJob 1 None "n" JobStatusPending 3 None 5 5 None None None JSONB_zero in
  let E := sample_env (fun _ => Ok []) (fun _ _ _ => Ok None) in
  let p := @Job_Events sample_fsm [JobActionStart; JobActionStart; JobActionComplete; JobActionFail] j in
  (run E p (mkWorld (mkDB [] []) [] [] 0)).2.2 = 2%nat /\
  ((run E p (mkWorld (mkDB [] []) [] [] 0)).2.2 <= job_rank (Job_Status j) <= 2)%nat.
Proof.
  intros j E p. split; [by vm_compute|].
  exact (@job_transitions_bounded sample_fsm sample_fsm_laws E _ _ j).
Defined.

(** An event on a task either is refused without any change, or moves the
    task along an edge of [taskTransitions], never out of a terminal status. *)
Theorem task_event_sound `{FsmLaws} E w action task :
  let '(w', (task', err)) := run E (Task_Event action task) w in
  match err with
  | Some _ => task' = task /\ w' = w
  | None =>
      fsm_lookup taskTransitions (Task_Status task) action = Some (Task_Status task') /\
      Task_IsTerminal task = false /\ Task_Status task' ∈ TaskStates /\
      task' = Task_UpdateStatus (Task_Status task') (env_now E (w_tick w)) task
  end.
Proof.
  destruct (fsm_lookup taskTransitions (Task_Status task) action) as [dst|] eqn:Hl.
  - rewrite run_Task_Event, Hl. case_decide; [done|]. cbn.
    pose proof (task_edge_states _ _ _ Hl) as [Ht ?]. splits; try done.
    by apply bool_decide_eq_false_2.
  - by destruct (Task_Event_invalid E w _ _ Hl) as [msg ->].
Qed.

Theorem task_event_sound_witness :
  let t := Task_set_Status TaskStatusFailed (sample_task 7) in
  let E := sample_env (fun _ => Ok []) (fun _ _ _ => Ok None) in
  let w := mkWorld (mkDB [] []) [] [] 0 in
  let '(w', (task', err)) := run E (@Task_Event sample_fsm TaskActionRetry t) w in
  match err with
  | Some _ => task' = t /\ w' = w
  | None =>
      fsm_lookup taskTransitions (Task_Status t) TaskActionRetry = Some (Task_Status task') /\
      Task_IsTerminal t = false /\ Task_Status task' ∈ TaskStates /\
      task' = Task_UpdateStatus (Task_Status task') (env_now E (w_tick w)) t
  end.
Proof.
  intros t E w.
  exact (@task_event_sound sample_fsm sample_fsm_laws E w TaskActionRetry t).
Defined.
