(* ===== verification/Finalizer.v ===== *)
(** * Finalizer: when a job is over

    [internal/executor/job_finalizer.go]: the job status computed from its tasks,
    in memory and from the aggregate query, and the completion check that moves a
    RUNNING job to its final status with a compare-and-set. *)
From S2P Require Import Prelude Go Domain Effects Repository WellFormed JobConfig Transport Instances Lifecycle.

Definition isTaskTerminal (status : string) : bool := contains settledTaskStates status.

(** The counting loop; [None] is its early [return "", false]. *)
Fixpoint tally (completed failed : Z) (tasks : list Task) : option (Z * Z) :=
  match tasks with
  | [] => Some (completed, failed)
  | task :: tasks =>
      if negb (isTaskTerminal (Task_Status task)) then None
      else if bool_decide (Task_Status task = TaskStatusCompleted)
           then tally (completed + 1) failed tasks
           else tally completed (failed + 1) tasks
  end.

(** The final [switch] of both functions. *)
Definition terminal_status (completed failed : Z) : string :=
  if failed =? 0 then JobStatusCompleted
  else if completed =? 0 then JobStatusFailed
  else JobStatusPartialFailed.

(** [None] is not ready. *)
Definition resolveJobTerminalStatus (tasks : list Task) : option string :=
  match tasks with
  | [] => Some JobStatusCompleted
  | _ => match tally 0 0 tasks with
         | None => None
         | Some (completed, failed) => Some (terminal_status completed failed)
         end
  end.

Definition resolveJobTerminalStatusFromSummary (s : TaskStatusSummary) : option string :=
  if Summary_Total s =? 0 then Some JobStatusCompleted
  else if 0 <? Summary_NonTerminal s then None
  else Some (terminal_status (Summary_Completed s) (Summary_Total s - Summary_Completed s)).

Definition jobStatusToAction (status : string) : string :=
  if bool_decide (status = JobStatusCompleted) then JobActionComplete
  else if bool_decide (status = JobStatusFailed) then JobActionFail
  else if bool_decide (status = JobStatusPartialFailed) then JobActionPartialFail
  else "".

Definition job_defaultCompletionCheckBatchSize : Z := 200.

Definition CompletionCheckTaskType (jobName : string) : string :=
  (jobName ++ ":completion-check")%string.

Section finalizer.
  Context `{UuidText} `{Fsm}.

Definition applyJobAction (job : Job) (action : string) : prog (Job * option error) :=
  if bool_decide (action = JobActionStart) then Job_Start job
  else if bool_decide (action = JobActionComplete) then Job_Complete job
  else if bool_decide (action = JobActionFail) then Job_Fail job
  else if bool_decide (action = JobActionPartialFail) then Job_PartialFail job
  else if bool_decide (action = JobActionCancel) then Job_Cancel job
  else Ret (job, Some (ErrText ("unknown job action: " ++ action))).

Definition transition_error (job : Job) (action : string) (e : error) : error :=
  ErrWrap ("job " ++ uuid_String (Job_ID job) ++ " transition " ++ action) e.

Definition jobTimingUpdates (job : Job) (action : string) : prog (Job * list job_column) :=
  let updates := [JobCol_status (Job_Status job)] in
  now ← Now;
  if bool_decide (action = JobActionStart) then
    Ret (Job_set_StartedAt (Some now) job, updates ++ [JobCol_started_at now])
  else if contains [JobActionComplete; JobActionFail; JobActionPartialFail; JobActionCancel] action then
    let job := Job_set_FinishedAt (Some now) job in
    let updates := updates ++ [JobCol_finished_at now] in
    match Job_StartedAt job with
    | Some started =>
        let d := Milliseconds (Sub now started) in
        Ret (Job_set_DurationMs (Some d) job, updates ++ [JobCol_duration_ms d])
    | None => Ret (job, updates)
    end
  else Ret (job, updates).

(** Returns the job as the pointer's target is left. *)
Definition transitionJob (job : Job) (action : string) : prog (Job * option error) :=
  '(job, err) ← applyJobAction job action;
  match err with
  | Some e => Ret (job, Some (transition_error job action e))
  | None =>
      '(job, updates) ← jobTimingUpdates job action;
      r ← UpdateJob (Job_ID job) updates;
      Ret (job, result_err r)
  end.

Definition finalizeRunningJob (job : Job) (action : string) : prog (Job * res bool) :=
  '(job, err) ← applyJobAction job action;
  match err with
  | Some e => Ret (job, Err (transition_error job action e))
  | None =>
      '(job, updates) ← jobTimingUpdates job action;
      r ← UpdateJobIfStatus (Job_ID job) JobStatusRunning updates;
      Ret (job, r)
  end.

(** The registered jobs, keyed by name. *)
Context (jobs : gmap string JobConfig).

Definition maybeFinalizeJob (jobID : uuid) : prog (option error) :=
  found ← FindJobByID jobID;
  match found with
  | Err e => Ret (Some (ErrWrap "find job for finalize" e))
  | Ok job =>
  if negb (Job_IsRunning job) then Ret None else
  sum ← GetTaskStatusSummary jobID;
  match sum with
  | Err e => Ret (Some (ErrWrap "get task summary for finalize" e))
  | Ok summary =>
  match resolveJobTerminalStatusFromSummary summary with
  | None => Ret None
  | Some status =>
  let action := jobStatusToAction status in
  if bool_decide (action = "") then
    Ret (Some (ErrText ("unsupported terminal job status: " ++ status))) else
  '(job, r) ← finalizeRunningJob job action;
  match r with
  | Err e => Ret (Some e)
  | Ok false => Ret None
  | Ok true =>
      let refID := default ""%string (Job_UniqueReferenceID job) in
      match jobs !! Job_Name job with
      | Some _ =>
          _ ← hook (OnJobFinished (Job_Name job) refID (Job_Status job) 0);
          Ret None
      | None => Ret None
      end
  end end end end.

(** The loop: an error of one job does not stop the others. *)
Fixpoint finalizeAll (jobIDs : list uuid) : prog unit :=
  match jobIDs with
  | [] => Ret ()
  | jobID :: jobIDs => _ ← maybeFinalizeJob jobID; finalizeAll jobIDs
  end.

Definition checkJobCompletions (jobName : string) : prog (option error) :=
  r ← FindCompletableJobIDs jobName job_defaultCompletionCheckBatchSize;
  match r with
  | Err e => Ret (Some (ErrWrap ("find completable jobs for " ++ jobName) e))
  | Ok jobIDs => _ ← finalizeAll jobIDs; Ret None
  end.

Definition CheckJobCompletions : string -> prog (option error) := checkJobCompletions.
End finalizer.

(** ** Specification *)

(** The rows of a job in the task table. *)
Definition tasks_of (jobID : uuid) (db : DB) : list Task :=
  List.filter (task_of_job jobID) (db_tasks db).

(** A job row after its finalization at [fin], written at [upd]. *)
Definition finalized (status : string) (fin upd : time) (j : Job) : Job :=
  Job_set_UpdatedAt upd
    (Job_set_DurationMs
       (match Job_StartedAt j with
        | Some started => Some (Milliseconds (Sub fin started))
        | None => Job_DurationMs j
        end)
       (Job_set_FinishedAt (Some fin) (Job_set_Status status j))).

(** What a completion check promises: the status a job gets, if any. *)
Definition finalization (db : DB) (job : Job) : option string :=
  if Job_IsRunning job then resolveJobTerminalStatus (tasks_of (Job_ID job) db) else None.

(** The call of OnJobFinished a finalized job leads to. *)
Definition finish_hooks (jobs : gmap string JobConfig) (db : DB) (job : Job) : list hook_call :=
  match finalization db job, jobs !! Job_Name job with
  | Some status, Some _ =>
      [OnJobFinished (Job_Name job) (default ""%string (Job_UniqueReferenceID job)) status 0]
  | _, _ => []
  end.

(** The jobs a tick of the completion cron may finalize, and the ones it takes:
    at most 200, least recently updated first. *)
Definition completable (jobName : string) (db : DB) (j : Job) : bool :=
  bool_decide (Job_Name j = jobName) && bool_decide (is_Some (finalization db j)).

Definition completable_batch (jobName : string) (db : DB) : list Job :=
  take 200 (merge_sort updated_le (List.filter (completable jobName db) (db_jobs db))).

(** ** Lemmas *)

Lemma tally_spec completed failed l :
  tally completed failed l =
  if 0 <? count (fun t => negb (task_status_in settledTaskStates t)) l then None
  else Some (completed + count (task_status_in [TaskStatusCompleted]) l,
             failed + (count (fun _ => true) l - count (task_status_in [TaskStatusCompleted]) l)).
Proof.
  revert completed failed. induction l as [|t l IH]; intros c f; cbn [tally].
  { cbn. by rewrite !Z.add_0_r. }
  rewrite !count_cons. unfold isTaskTerminal, task_status_in.
  destruct (contains settledTaskStates (Task_Status t)); cbn [negb].
  - rewrite !Z.add_0_l.
    assert (contains [TaskStatusCompleted] (Task_Status t) =
            bool_decide (Task_Status t = TaskStatusCompleted)) as ->.
    { apply bool_decide_ext. rewrite list_elem_of_singleton. done. }
    case_bool_decide; rewrite IH; clear IH; unfold task_status_in; (case_match; [done|]); f_equal; f_equal; lia.
  - pose proof (count_nonneg (fun t => negb (contains settledTaskStates (Task_Status t))) l).
    clear IH; case_match; [done|]; unfold task_status_in in *; lia.
Qed.

Lemma count_all {A} (l : list A) : count (fun _ => true) l = Z.of_nat (length l).
Proof. induction l as [|x l IH]; [done|]. rewrite count_cons, IH. cbn. lia. Qed.

Lemma resolve_summarize l :
  resolveJobTerminalStatusFromSummary (summarize l) = resolveJobTerminalStatus l.
Proof.
  unfold resolveJobTerminalStatusFromSummary, resolveJobTerminalStatus, summarize. cbn.
  destruct l as [|t l]; [done|].
  rewrite tally_spec, !count_all. cbn [length].
  destruct (Z.eqb_spec (Z.of_nat (S (length l))) 0); [lia|].
  case_match; [done|]. by rewrite !Z.add_0_l.
Qed.

Lemma terminal_status_cases c f :
  terminal_status c f ∈ [JobStatusCompleted; JobStatusFailed; JobStatusPartialFailed].
Proof. apply contains_spec. unfold terminal_status. by repeat case_match. Qed.

Lemma resolve_cases l status :
  resolveJobTerminalStatus l = Some status ->
  status ∈ [JobStatusCompleted; JobStatusFailed; JobStatusPartialFailed].
Proof.
  unfold resolveJobTerminalStatus. destruct l; [intros [= <-]; left|].
  case_match; [|done]. case_match. intros [= <-]. apply terminal_status_cases.
Qed.

(** What a final status leads to in the table, from RUNNING. *)
Lemma final_status_action status :
  status ∈ [JobStatusCompleted; JobStatusFailed; JobStatusPartialFailed] ->
  jobStatusToAction status ≠ "" /\
  jobStatusToAction status ≠ JobActionStart /\
  contains [JobActionComplete; JobActionFail; JobActionPartialFail; JobActionCancel]
    (jobStatusToAction status) = true /\
  fsm_lookup jobTransitions JobStatusRunning (jobStatusToAction status) = Some status /\
  status ≠ JobStatusRunning.
Proof.
  intros Hs. repeat (apply elem_of_cons in Hs as [->|Hs]; [by vm_compute|]).
  by apply not_elem_of_nil in Hs.
Qed.

Lemma resolved_action l status :
  resolveJobTerminalStatus l = Some status ->
  jobStatusToAction status ≠ "" /\
  jobStatusToAction status ≠ JobActionStart /\
  contains [JobActionComplete; JobActionFail; JobActionPartialFail; JobActionCancel]
    (jobStatusToAction status) = true /\
  fsm_lookup jobTransitions JobStatusRunning (jobStatusToAction status) = Some status /\
  status ≠ JobStatusRunning.
Proof. intros Hs%resolve_cases. by apply final_status_action. Qed.

Lemma resolve_summary_cases s status :
  resolveJobTerminalStatusFromSummary s = Some status ->
  status ∈ [JobStatusCompleted; JobStatusFailed; JobStatusPartialFailed].
Proof.
  unfold resolveJobTerminalStatusFromSummary. case_match; [intros [= <-]; left|].
  case_match; [done|]. intros [= <-]. apply terminal_status_cases.
Qed.

Section run_lemmas.
  Context `{UuidText} `{FsmLaws}.

Lemma applyJobAction_event job action :
  contains [JobActionStart; JobActionComplete; JobActionFail; JobActionPartialFail; JobActionCancel]
    action = true ->
  applyJobAction job action = Job_Event action job.
Proof.
  intros Ha%contains_spec.
  repeat (apply elem_of_cons in Ha as [->|Ha]; [done|]). by apply not_elem_of_nil in Ha.
Qed.

Lemma run_jobTimingUpdates E w job action :
  action ≠ JobActionStart ->
  contains [JobActionComplete; JobActionFail; JobActionPartialFail; JobActionCancel] action = true ->
  exists job' updates,
    run E (jobTimingUpdates job action) w = (tick w, (job', updates)) /\
    Job_ID job' = Job_ID job /\ Job_Status job' = Job_Status job /\
    Job_Name job' = Job_Name job /\
    Job_UniqueReferenceID job' = Job_UniqueReferenceID job /\
    updates ≠ [] /\
    forall upd j, Job_StartedAt j = Job_StartedAt job ->
      set_job_columns (updates ++ [JobCol_updated_at upd]) j =
      finalized (Job_Status job) (env_now E (w_tick w)) upd j.
Proof.
  intros Hns Ha. unfold jobTimingUpdates. rewrite run_bind, run_Now. cbn [fst snd].
  rewrite bool_decide_eq_false_2 by done. rewrite Ha.
  cbn [Job_StartedAt Job_set_FinishedAt].
  destruct (Job_StartedAt job) as [started|] eqn:Hst; do 2 eexists; splits;
    try done; intros upd j Hj; unfold finalized; by rewrite Hj.
Qed.

Lemma count_unique (p q : Job -> bool) l job :
  List.filter p l = [job] -> (forall j, q j = true -> p j = true) -> q job = true ->
  count q l = 1.
Proof.
  intros Hf Hqp Hq. unfold count.
  assert (List.filter q l = List.filter q (List.filter p l)) as ->.
  { clear -Hqp. induction l as [|x l IH]; [done|]. cbn.
    specialize (Hqp x). destruct (q x) eqn:Hqx.
    - rewrite Hqp by done. cbn. by rewrite Hqx, IH.
    - destruct (p x); cbn; [by rewrite Hqx|done]. }
  rewrite Hf. cbn. by rewrite Hq.
Qed.

Lemma update_where_unique (p q : Job -> bool) f g l job :
  List.filter p l = [job] -> (forall j, q j = true -> p j = true) -> q job = true ->
  f job = g job -> update_where q f l = update_where p g l.
Proof.
  intros Hf Hqp Hq Hfg. apply map_ext_in. intros x Hx.
  destruct (p x) eqn:Hp.
  - assert (x = job) as ->; [|by rewrite Hq].
    assert (In x (List.filter p l)) as Hin by (by apply filter_In).
    rewrite Hf in Hin. by destruct Hin.
  - destruct (q x) eqn:Hqx; [|done]. by rewrite Hqp in Hp.
Qed.
End run_lemmas.

(** [updates] is not empty, so the update is sent. *)
Lemma run_UpdateJobIfStatus E w jobID st updates :
  reliable E -> updates ≠ [] ->
  run E (UpdateJobIfStatus jobID st updates) w =
  let q j := job_has_id jobID j && bool_decide (Job_Status j = st) in
  (mkWorld (update_jobs q (set_job_columns (updates ++ [JobCol_updated_at (env_now E (w_tick w))])) (w_db w))
     (w_kafka w) (w_hooks w) (S (S (w_tick w))),
   Ok (count q (db_jobs (w_db w)) =? 1)).
Proof.
  intros HE Hne. unfold UpdateJobIfStatus. destruct updates as [|u us]; [done|].
  run_go HE. done.
Qed.

Section finalize.
  Context `{UuidText} `{FsmLaws} (jobs : gmap string JobConfig).

Lemma run_finalizeRunningJob E w job l status :
  reliable E ->
  Job_Status job = JobStatusRunning ->
  resolveJobTerminalStatus l = Some status ->
  List.filter (job_has_id (Job_ID job)) (db_jobs (w_db w)) = [job] ->
  exists job' fin upd,
    run E (finalizeRunningJob job (jobStatusToAction status)) w =
    (mkWorld (update_jobs (job_has_id (Job_ID job)) (finalized status fin upd) (w_db w))
       (w_kafka w) (w_hooks w) (4 + w_tick w), (job', Ok true)) /\
    Job_Status job' = status /\ Job_Name job' = Job_Name job /\
    Job_UniqueReferenceID job' = Job_UniqueReferenceID job.
Proof.
  intros HE Hst (Hne & Hns & Ha & Hl & Hnr)%resolved_action Huniq.
  unfold finalizeRunningJob.
  rewrite applyJobAction_event; last first.
  { apply contains_spec in Ha. apply contains_spec. by right. }
  rewrite run_bind, run_Job_Event, Hst, Hl. rewrite decide_False by done. cbn [fst snd].
  set (job1 := Job_UpdateStatus _ _ _).
  destruct (run_jobTimingUpdates E (tick w) job1 (jobStatusToAction status))
    as (job' & updates & Hrun & Hid & Hs & Hn & Hr & Hnil & Hset); [done..|].
  rewrite run_bind, Hrun. cbn [fst snd].
  rewrite run_bind, run_UpdateJobIfStatus by done. cbn [fst snd w_db tick w_kafka w_hooks w_tick].
  exists job', (env_now E (S (w_tick w))), (env_now E (S (S (w_tick w)))).
  rewrite Hid, Hs, Hn, Hr.
  assert (Hq : forall j, job_has_id (Job_ID job) j && bool_decide (Job_Status j = JobStatusRunning) = true ->
               job_has_id (Job_ID job) j = true) by (by intros j [? _]%andb_true_iff).
  assert (Hjob : job_has_id (Job_ID job) job && bool_decide (Job_Status job = JobStatusRunning) = true).
  { unfold job_has_id. by rewrite N.eqb_refl, Hst. }
  splits; try done. cbn. f_equal; [|f_equal; f_equal].
  - f_equal. unfold update_jobs. f_equal.
    eapply update_where_unique; try done. by rewrite Hset.
  - by rewrite (count_unique _ _ _ _ Huniq Hq Hjob).
Qed.
End finalize.

Lemma maybeFinalizeJob_spec_lemma `{UuidText} `{FsmLaws} jobs E w job :
  reliable E ->
  List.filter (job_has_id (Job_ID job)) (db_jobs (w_db w)) = [job] ->
  let '(w', err) := run E (maybeFinalizeJob jobs (Job_ID job)) w in
  err = None /\ w_kafka w' = w_kafka w /\
  match finalization (w_db w) job with
  | None => w_db w' = w_db w /\ w_hooks w' = w_hooks w
  | Some status =>
      (exists fin upd,
        w_db w' = update_jobs (job_has_id (Job_ID job)) (finalized status fin upd) (w_db w)) /\
      w_hooks w' = w_hooks w ++
        match jobs !! Job_Name job with
        | Some _ => [OnJobFinished (Job_Name job) (default ""%string (Job_UniqueReferenceID job)) status 0]
        | None => []
        end
  end.
Proof.
  intros HE Huniq. unfold maybeFinalizeJob, FindJobByID, GetTaskStatusSummary, finalization.
  run_step HE. run_step HE. unfold select_job_by_id at 1 2. rewrite Huniq. cbn [fst snd].
  unfold Job_IsRunning. case_bool_decide as Hst; cbn [negb]; [|done].
  run_step HE. run_step HE. cbn. rewrite resolve_summarize. fold (tasks_of (Job_ID job) (w_db w)).
  destruct (resolveJobTerminalStatus _) as [status|] eqn:Hres; [|done].
  pose proof (resolved_action _ _ Hres) as (Hne & _).
  rewrite bool_decide_eq_false_2 by done. rewrite run_bind.
  edestruct (run_finalizeRunningJob E) as (job' & fin & upd & -> & Hs & Hn & Hr); try done.
  cbn [fst snd]. rewrite Hn, Hr.
  destruct (jobs !! Job_Name job); cbn; splits; eauto; by rewrite ?Hs, ?app_nil_r.
Qed.

Section finalize_all.
  Context `{UuidText} `{FsmLaws} (jobs : gmap string JobConfig).

Lemma finalizeAll_spec E w js :
  reliable E -> unique_jobs (w_db w) -> NoDup (map Job_ID js) ->
  (forall j, j ∈ js -> j ∈ db_jobs (w_db w) /\ is_Some (finalization (w_db w) j)) ->
  let w' := (run E (finalizeAll jobs (map Job_ID js)) w).1 in
  db_tasks (w_db w') = db_tasks (w_db w) /\ w_kafka w' = w_kafka w /\
  w_hooks w' = w_hooks w ++ concat (map (finish_hooks jobs (w_db w)) js) /\
  map job_identity (db_jobs (w_db w')) = map job_identity (db_jobs (w_db w)) /\
  (forall j, j ∈ db_jobs (w_db w) -> j ∉ js -> j ∈ db_jobs (w_db w')) /\
  (forall j, j ∈ js -> exists status fin upd, finalization (w_db w) j = Some status /\
     finalized status fin upd j ∈ db_jobs (w_db w')).
Proof.
  intros HE. revert w. induction js as [|j js IH]; intros w Hu Hnd Hjs.
  { cbn. rewrite app_nil_r. splits; try done. intros j Hj. by apply not_elem_of_nil in Hj. }
  cbn in Hnd. apply NoDup_cons in Hnd as [Hj Hnd].
  destruct (Hjs j) as [Hin [status Hfin]]; [left|].
  cbn [map finalizeAll]. rewrite run_bind.
  pose proof (maybeFinalizeJob_spec_lemma jobs E w j HE (filter_job_unique _ _ Hu Hin)) as Hspec.
  destruct (run E (maybeFinalizeJob jobs (Job_ID j)) w) as [w1 err].
  rewrite Hfin in Hspec. destruct Hspec as (-> & Hk & (fin & upd & Hdb) & Hh). cbn [fst snd].
  assert (Hother : forall x, x ∈ db_jobs (w_db w) -> x ≠ j -> x ∈ db_jobs (w_db w1)).
  { intros x Hx Hne. rewrite Hdb. apply update_where_other; [done|].
    apply job_has_id_false. intros Heq. apply Hne. by apply (unique_jobs_inj (w_db w)). }
  assert (Hnj : forall x, x ∈ js -> x ≠ j).
  { intros x Hx ->. apply Hj. by apply list_elem_of_In, in_map, list_elem_of_In. }
  assert (Hf1 : forall x, finalization (w_db w1) x = finalization (w_db w) x) by (by rewrite Hdb).
  destruct (IH w1) as (Ht & Hk' & Hh' & Hids & Hkeep & Hhit); try done.
  { rewrite Hdb. by apply update_jobs_unique. }
  { intros x Hx. rewrite Hf1. destruct (Hjs x) as [? ?]; [by right|]. eauto. }
  splits.
  - rewrite Ht. by rewrite Hdb.
  - congruence.
  - assert (map (finish_hooks jobs (w_db w1)) js = map (finish_hooks jobs (w_db w)) js) as Hmap.
    { apply map_ext. intros x. unfold finish_hooks. by rewrite Hf1. }
    rewrite Hh', Hh, Hmap. cbn [map concat]. unfold finish_hooks at 2.
    rewrite Hfin. by rewrite (app_assoc (w_hooks w)).
  - rewrite Hids, Hdb. cbn. by apply update_where_map_inv.
  - intros x Hx Hxs. apply not_elem_of_cons in Hxs as [? ?]. apply Hkeep; [by apply Hother|done].
  - intros x [->|Hx]%elem_of_cons.
    + exists status, fin, upd. split; [done|]. apply Hkeep.
      * rewrite Hdb. apply update_where_hit; [done|]. by apply job_has_id_true.
      * intros Hx. apply Hj. change (Job_ID j) with (Job_ID (finalized status fin upd j)).
        by apply list_elem_of_In, in_map, list_elem_of_In.
    + rewrite <- Hf1. by apply Hhit.
Qed.
End finalize_all.

Lemma all_settled_count jobID db :
  all_settled jobID db =
  (count (fun t => negb (task_status_in settledTaskStates t)) (tasks_of jobID db) =? 0).
Proof.
  unfold all_settled, tasks_of, count. induction (db_tasks db) as [|t l IH]; [done|].
  cbn. destruct (task_of_job jobID t); cbn; [|done].
  by destruct (task_status_in settledTaskStates t); cbn.
Qed.

Lemma resolve_ready l :
  is_Some (resolveJobTerminalStatus l) <->
  count (fun t => negb (task_status_in settledTaskStates t)) l = 0.
Proof.
  unfold resolveJobTerminalStatus. destruct l as [|t l]; [by split; eauto|].
  rewrite tally_spec.
  pose proof (count_nonneg (fun t => negb (task_status_in settledTaskStates t)) (t :: l)).
  destruct (Z.ltb_spec 0 (count (fun t => negb (task_status_in settledTaskStates t)) (t :: l))).
  - split; [by intros [? ?]|lia].
  - split; [lia|eauto].
Qed.

(** The query selects the jobs the check would finalize. *)
Lemma completable_query jobName db j :
  bool_decide (Job_Name j = jobName) && job_status_in [JobStatusRunning] j && all_settled (Job_ID j) db =
  completable jobName db j.
Proof.
  unfold completable, finalization. rewrite <- andb_assoc. f_equal.
  unfold job_status_in, contains, Job_IsRunning.
  assert (bool_decide (Job_Status j ∈ [JobStatusRunning]) = bool_decide (Job_Status j = JobStatusRunning)) as ->
    by (apply bool_decide_ext; apply list_elem_of_singleton).
  case_bool_decide; cbn [andb]; [|symmetry; apply bool_decide_eq_false_2; by intros []].
  rewrite all_settled_count. symmetry.
  destruct (Z.eqb_spec (count (fun t => negb (task_status_in settledTaskStates t)) (tasks_of (Job_ID j) db)) 0).
  - apply bool_decide_eq_true_2. by apply resolve_ready.
  - apply bool_decide_eq_false_2. by rewrite resolve_ready.
Qed.

Lemma select_completable_batch now jobName db :
  select_completable jobName 200 now db = (db, Ok (map Job_ID (completable_batch jobName db))).
Proof.
  unfold select_completable, completable_batch.
  assert (List.filter (fun j => bool_decide (Job_Name j = jobName) && job_status_in [JobStatusRunning] j &&
            all_settled (Job_ID j) db) (db_jobs db) = List.filter (completable jobName db) (db_jobs db)) as ->
    by (apply filter_ext; intros j; apply completable_query).
  done.
Qed.

Lemma completable_batch_elem jobName db j :
  j ∈ completable_batch jobName db -> j ∈ db_jobs db /\ completable jobName db j = true.
Proof.
  unfold completable_batch. intros Hj%elem_of_take_inv.
  rewrite merge_sort_Permutation in Hj. apply list_elem_of_In, filter_In in Hj as [? ?].
  by rewrite list_elem_of_In.
Qed.

Lemma completable_batch_nodup jobName db :
  unique_jobs db -> NoDup (map Job_ID (completable_batch jobName db)).
Proof.
  intros Hu. unfold completable_batch.
  set (l := merge_sort _ _).
  assert (NoDup (map Job_ID l)) as Hl.
  { subst l. rewrite merge_sort_Permutation. by apply nodup_map_filter. }
  rewrite <- (take_drop 200 l), map_app in Hl. by apply NoDup_app in Hl as [? _].
Qed.

Lemma checkJobCompletions_lemma `{UuidText} `{FsmLaws} jobs E w jobName :
  reliable E -> unique_jobs (w_db w) ->
  let '(w', err) := run E (checkJobCompletions jobs jobName) w in
  let batch := completable_batch jobName (w_db w) in
  err = None /\ db_tasks (w_db w') = db_tasks (w_db w) /\ w_kafka w' = w_kafka w /\
  w_hooks w' = w_hooks w ++ concat (map (finish_hooks jobs (w_db w)) batch) /\
  (forall j, j ∈ db_jobs (w_db w) -> j ∉ batch -> j ∈ db_jobs (w_db w')) /\
  (forall j, j ∈ batch -> exists status fin upd, finalization (w_db w) j = Some status /\
     finalized status fin upd j ∈ db_jobs (w_db w')) /\
  ((length (List.filter (completable jobName (w_db w)) (db_jobs (w_db w))) <= 200)%nat ->
   forall j, j ∈ batch <-> j ∈ db_jobs (w_db w) /\ completable jobName (w_db w) j = true).
Proof.
  intros HE Hu. unfold checkJobCompletions, FindCompletableJobIDs.
  change (if job_defaultCompletionCheckBatchSize <=? 0 then repo_defaultCompletionCheckBatchSize
          else job_defaultCompletionCheckBatchSize) with 200.
  rewrite run_bind, (run_sql_reliable _ _ _ HE), select_completable_batch. cbn [fst snd].
  rewrite run_bind.
  set (w1 := tick (with_db (w_db w) w)).
  destruct (finalizeAll_spec jobs E w1 (completable_batch jobName (w_db w)) HE)
    as (Ht & Hk & Hh & _ & Hkeep & Hhit).
  - done.
  - by apply completable_batch_nodup.
  - intros j Hj. apply completable_batch_elem in Hj as [Hj Hc]. split; [done|].
    by apply andb_true_iff in Hc as [_ ?%bool_decide_eq_true].
  - cbv zeta in Ht, Hk, Hh, Hkeep, Hhit.
    destruct (run E (finalizeAll jobs _) w1) as [w' []]. cbn in *. splits; try done.
    intros Hlen j. split; [apply completable_batch_elem|]. intros [Hj Hc].
    unfold completable_batch. rewrite take_ge by (by rewrite merge_sort_Permutation).
    rewrite merge_sort_Permutation. apply list_elem_of_In, filter_In. by rewrite <- list_elem_of_In.
Qed.

(** The check writes no column of the identity of a row. *)
Lemma checkJobCompletions_identity `{UuidText} `{FsmLaws} jobs E w jobName :
  reliable E -> unique_jobs (w_db w) ->
  map job_identity (db_jobs (w_db (run E (checkJobCompletions jobs jobName) w).1)) = map job_identity (db_jobs (w_db w)).
Proof.
  intros HE Hu. unfold checkJobCompletions, FindCompletableJobIDs.
  change (if job_defaultCompletionCheckBatchSize <=? 0 then repo_defaultCompletionCheckBatchSize
          else job_defaultCompletionCheckBatchSize) with 200.
  rewrite run_bind, (run_sql_reliable _ _ _ HE), select_completable_batch. cbn [fst snd].
  rewrite run_bind. set (w1 := tick (with_db (w_db w) w)).
  destruct (finalizeAll_spec jobs E w1 (completable_batch jobName (w_db w)) HE)
    as (_ & _ & _ & Hid & _); [done|by apply completable_batch_nodup| |].
  - intros j Hj. apply completable_batch_elem in Hj as [Hj Hc]. split; [done|].
    by apply andb_true_iff in Hc as [_ ?%bool_decide_eq_true].
  - by destruct (run E (finalizeAll jobs _) w1) as [w' []].
Qed.

(** *** Checks one after the other *)
Definition completables (jobName : string) (db : DB) : list Job := List.filter (completable jobName db) (db_jobs db).

Lemma completables_elem jobName db j : j ∈ completables jobName db <-> j ∈ db_jobs db /\ completable jobName db j = true.
Proof. unfold completables. by rewrite list_elem_of_In, filter_In, <- list_elem_of_In. Qed.

Lemma completable_tasks jobName db db' j : db_tasks db' = db_tasks db -> completable jobName db' j = completable jobName db j.
Proof. intros Ht. unfold completable, finalization, tasks_of. by rewrite Ht. Qed.

Lemma completable_running jobName db j : completable jobName db j = true -> Job_IsRunning j = true.
Proof.
  intros Hc. apply andb_true_iff in Hc as [_ [st Hf]%bool_decide_eq_true]. unfold finalization in Hf. by destruct (Job_IsRunning j).
Qed.

Lemma finalization_over status fin upd j db : finalization db j = Some status -> Job_IsRunning (finalized status fin upd j) = false.
Proof.
  unfold finalization. case_match; [|done]. intros Hres. apply resolved_action in Hres as (_ & _ & _ & _ & Hne).
  unfold Job_IsRunning. by apply bool_decide_eq_false.
Qed.

Lemma completable_batch_length jobName db :
  length (completable_batch jobName db) = Nat.min 200 (length (completables jobName db)).
Proof. unfold completable_batch. by rewrite length_take, merge_sort_Permutation. Qed.

Lemma completable_batch_dec jobName db j :
  unique_jobs db -> j ∈ db_jobs db -> j ∈ completable_batch jobName db \/ j ∉ completable_batch jobName db.
Proof.
  intros Hu Hj. destruct (decide (Job_ID j ∈ map Job_ID (completable_batch jobName db))) as [Hin|Hni].
  - left. apply list_elem_of_In, in_map_iff in Hin as (k & Hk & Hb%list_elem_of_In).
    assert (k = j) as <-; [|done]. apply (unique_jobs_inj db); try done. by apply completable_batch_elem in Hb as [? _].
  - right. intros Hb. apply Hni. by apply list_elem_of_In, in_map, list_elem_of_In.
Qed.

(** A check leaves what it did not take. *)
Lemma check_leaves `{UuidText} `{FsmLaws} jobs E w jobName :
  reliable E -> unique_jobs (w_db w) ->
  let w' := (run E (checkJobCompletions jobs jobName) w).1 in
  unique_jobs (w_db w') /\ db_tasks (w_db w') = db_tasks (w_db w) /\
  (forall j, j ∈ completables jobName (w_db w') -> j ∈ completables jobName (w_db w) /\ j ∉ completable_batch jobName (w_db w)) /\
  (forall j, j ∈ db_jobs (w_db w) -> j ∉ completable_batch jobName (w_db w) -> j ∈ db_jobs (w_db w')) /\
  (forall j, j ∈ completable_batch jobName (w_db w) -> exists status fin upd, finalization (w_db w) j = Some status /\
     finalized status fin upd j ∈ db_jobs (w_db w')).
Proof.
  intros HE Hu. cbv zeta. pose proof (checkJobCompletions_identity jobs E w jobName HE Hu) as Hid.
  pose proof (checkJobCompletions_lemma jobs E w jobName HE Hu) as Hc.
  destruct (run E (checkJobCompletions jobs jobName) w) as [w' err]. cbn [fst] in *.
  destruct Hc as (_ & Ht & _ & _ & Hkeep & Hhit & _).
  assert (Hids : map Job_ID (db_jobs (w_db w')) = map Job_ID (db_jobs (w_db w))).
  { by rewrite !map_Job_ID, Hid. }
  assert (Hu' : unique_jobs (w_db w')) by (unfold unique_jobs; by rewrite Hids).
  splits; [done|done| |done|done].
  intros j [Hj Hcomp]%completables_elem. rewrite (completable_tasks _ _ _ _ Ht) in Hcomp.
  assert (Job_ID j ∈ map Job_ID (db_jobs (w_db w))) as Hin by (rewrite <- Hids; by apply list_elem_of_In, in_map, list_elem_of_In).
  apply list_elem_of_In, in_map_iff in Hin as (j0 & Hj0 & Hin%list_elem_of_In).
  destruct (completable_batch_dec jobName (w_db w) j0 Hu Hin) as [Hb|Hb].
  - exfalso. destruct (Hhit j0 Hb) as (status & fin & upd & Hf & Hfin).
    assert (j = finalized status fin upd j0) as -> by (by apply (unique_jobs_inj (w_db w'))).
    apply completable_running in Hcomp. by rewrite (finalization_over _ _ _ _ _ Hf) in Hcomp.
  - assert (j = j0) as ->; [|by rewrite completables_elem].
    apply (unique_jobs_inj (w_db w')); [done|done|by apply Hkeep|done].
Qed.

(** The completion cron's ticks, one after the other. *)
Fixpoint check_times `{UuidText} `{Fsm} (jobs : gmap string JobConfig) (jobName : string) (n : nat) : prog unit :=
  match n with
  | O => Ret ()
  | S n => _ ← checkJobCompletions jobs jobName; check_times jobs jobName n
  end.

(** A tick takes 200 of the jobs that are due, or all. *)
Lemma check_fewer `{UuidText} `{FsmLaws} jobs E w jobName :
  reliable E -> unique_jobs (w_db w) ->
  let w' := (run E (checkJobCompletions jobs jobName) w).1 in
  (length (completables jobName (w_db w')) <= length (completables jobName (w_db w)) - 200)%nat.
Proof.
  intros HE Hu. cbv zeta. destruct (check_leaves jobs E w jobName HE Hu) as (Hu' & _ & Hsub & _ & _).
  set (w' := (run E (checkJobCompletions jobs jobName) w).1) in *.
  assert (Hnd : forall db, unique_jobs db -> NoDup (completables jobName db)).
  { intros db Hdb. unfold completables. apply NoDup_ListNoDup, List.NoDup_filter, NoDup_ListNoDup.
    by apply NoDup_fmap_1 in Hdb. }
  assert (Hb : NoDup (completable_batch jobName (w_db w))).
  { by apply NoDup_fmap_1 with Job_ID, completable_batch_nodup. }
  assert (Hincl : completables jobName (w_db w') ++ completable_batch jobName (w_db w) ⊆+ completables jobName (w_db w)).
  { apply NoDup_submseteq.
    - apply NoDup_app. splits; [by apply Hnd| |done]. intros j Hj. by apply Hsub.
    - intros j [Hj|Hj]%elem_of_app; [by apply Hsub|]. apply completables_elem. by apply completable_batch_elem. }
  apply submseteq_length in Hincl. rewrite length_app, completable_batch_length in Hincl. lia.
Qed.

Lemma checks_spec `{UuidText} `{FsmLaws} jobs E jobName n w :
  reliable E -> unique_jobs (w_db w) ->
  let w' := (run E (check_times jobs jobName n) w).1 in
  db_tasks (w_db w') = db_tasks (w_db w) /\
  (length (completables jobName (w_db w')) <= length (completables jobName (w_db w)) - 200 * n)%nat /\
  (forall j, j ∈ db_jobs (w_db w) -> completable jobName (w_db w) j = false -> j ∈ db_jobs (w_db w')) /\
  (forall j, j ∈ completables jobName (w_db w) -> j ∈ completables jobName (w_db w') \/
     exists status fin upd, finalization (w_db w) j = Some status /\ finalized status fin upd j ∈ db_jobs (w_db w')).
Proof.
  intros HE. revert w. induction n as [|n IH]; intros w Hu; cbv zeta; cbn [check_times].
  { splits; [done|cbn; lia|done|by left]. }
  rewrite run_bind. set (w1 := (run E (checkJobCompletions jobs jobName) w).1).
  pose proof (check_fewer jobs E w jobName HE Hu) as Hlen. fold w1 in Hlen.
  destruct (check_leaves jobs E w jobName HE Hu) as (Hu1 & Ht1 & _ & Hkeep1 & Hhit1). fold w1 in Hu1, Ht1, Hkeep1, Hhit1.
  assert (Hf1 : forall j, finalization (w_db w1) j = finalization (w_db w) j).
  { intros j. unfold finalization, tasks_of. by rewrite Ht1. }
  destruct (IH w1 Hu1) as (Ht & Hlen' & Hkeep & Hhit).
  splits.
  - by rewrite Ht.
  - cbv zeta in Hlen. lia.
  - intros j Hj Hcomp. apply Hkeep; [|by rewrite (completable_tasks _ _ _ _ Ht1)].
    apply Hkeep1; [done|]. intros [_ Hc]%completable_batch_elem. congruence.
  - intros j Hj. destruct (completable_batch_dec jobName (w_db w) j Hu) as [Hb|Hb]; [by apply completables_elem in Hj as [? _]|..].
    + right. destruct (Hhit1 j Hb) as (status & fin & upd & Hf & Hin). exists status, fin, upd. split; [done|].
      apply Hkeep; [done|]. apply not_true_iff_false. intros Hc%completable_running.
      by rewrite (finalization_over _ _ _ _ _ Hf) in Hc.
    + assert (j ∈ completables jobName (w_db w1)) as Hj1.
      { apply completables_elem in Hj as [Hj Hc]. apply completables_elem. split; [by apply Hkeep1|].
        by rewrite (completable_tasks _ _ _ _ Ht1). }
      destruct (Hhit j Hj1) as [?|(status & fin & upd & Hf & Hin)]; [by left|]. right.
      exists status, fin, upd. by rewrite <- Hf1.
Qed.

(** ** Properties *)

(** C34: the aggregate query used by the completion check decides exactly what
    the loop over the task rows decides. *)
Theorem summary_equiv_rows (tasks : list Task) :
  resolveJobTerminalStatusFromSummary (summarize tasks) = resolveJobTerminalStatus tasks.
Proof. apply resolve_summarize. Qed.

(** C3: a completion check of a job in a reliable environment finalizes it
    exactly when it is RUNNING and all its tasks are settled: it writes the status
    the tasks determine, with the finish time, the duration and the update time,
    touches no other row, publishes nothing, and calls OnJobFinished once, for a
    registered job; otherwise it changes nothing. *)
Theorem maybeFinalizeJob_spec `{UuidText} `{FsmLaws} jobs E w job :
  reliable E ->
  List.filter (job_has_id (Job_ID job)) (db_jobs (w_db w)) = [job] ->
  let '(w', err) := run E (maybeFinalizeJob jobs (Job_ID job)) w in
  err = None /\ w_kafka w' = w_kafka w /\
  match finalization (w_db w) job with
  | None => w_db w' = w_db w /\ w_hooks w' = w_hooks w
  | Some status =>
      (exists fin upd,
        w_db w' = update_jobs (job_has_id (Job_ID job)) (finalized status fin upd) (w_db w)) /\
      w_hooks w' = w_hooks w ++
        match jobs !! Job_Name job with
        | Some _ => [OnJobFinished (Job_Name job) (default ""%string (Job_UniqueReferenceID job)) status 0]
        | None => []
        end
  end.
Proof. apply maybeFinalizeJob_spec_lemma. Qed.

Theorem maybeFinalizeJob_spec_witness :
  let job := sample_job 1 JobStatusRunning in
  let w := sample_world [job] [sample_row 2 1 TaskStatusCompleted 1; sample_row 3 1 TaskStatusMaxRetriesExhausted 3] in
  let '(w', err) := run env_ok (@maybeFinalizeJob sample_uuid_text sample_fsm sample_jobs 1%N) w in
  finalization (w_db w) job = Some JobStatusPartialFailed /\
  err = None /\ w_kafka w' = w_kafka w /\
  match finalization (w_db w) job with
  | None => w_db w' = w_db w /\ w_hooks w' = w_hooks w
  | Some status =>
      (exists fin upd,
        w_db w' = update_jobs (job_has_id (Job_ID job)) (finalized status fin upd) (w_db w)) /\
      w_hooks w' = w_hooks w ++
        match sample_jobs !! Job_Name job with
        | Some _ => [OnJobFinished (Job_Name job) (default ""%string (Job_UniqueReferenceID job)) status 0]
        | None => []
        end
  end.
Proof.
  intros job w.
  pose proof (@maybeFinalizeJob_spec sample_uuid_text sample_fsm sample_fsm_laws sample_jobs
                env_ok w job env_ok_reliable eq_refl) as Hspec.
  cbv zeta in Hspec |- *.
  destruct (run env_ok _ w) as [w' err] eqn:Hrun.
  split; [by vm_compute | exact Hspec].
Defined.

(** C18: one tick of the completion cron takes up to 200 of the job's RUNNING
    instances whose tasks are all settled, the least recently updated first, and
    finalizes every one of them with the status its tasks determine; all other jobs,
    every task and Kafka are left alone, and OnJobFinished is called once for each
    finalized job of a registered name. *)
Theorem checkJobCompletions_spec `{UuidText} `{FsmLaws} jobs E w jobName :
  reliable E -> unique_jobs (w_db w) ->
  let '(w', err) := run E (checkJobCompletions jobs jobName) w in
  let batch := completable_batch jobName (w_db w) in
  err = None /\ db_tasks (w_db w') = db_tasks (w_db w) /\ w_kafka w' = w_kafka w /\
  w_hooks w' = w_hooks w ++ concat (map (finish_hooks jobs (w_db w)) batch) /\
  (forall j, j ∈ db_jobs (w_db w) -> j ∉ batch -> j ∈ db_jobs (w_db w')) /\
  (forall j, j ∈ batch -> exists status fin upd, finalization (w_db w) j = Some status /\
     finalized status fin upd j ∈ db_jobs (w_db w')) /\
  ((length (List.filter (completable jobName (w_db w)) (db_jobs (w_db w))) <= 200)%nat ->
   forall j, j ∈ batch <-> j ∈ db_jobs (w_db w) /\ completable jobName (w_db w) j = true).
Proof. apply checkJobCompletions_lemma. Qed.

Theorem checkJobCompletions_spec_witness :
  let w := sample_world [sample_job 1 JobStatusRunning; sample_job 5 JobStatusRunning]
             [sample_row 2 1 TaskStatusCompleted 1; sample_row 3 5 TaskStatusRunning 3] in
  let '(w', err) := run env_ok (@checkJobCompletions sample_uuid_text sample_fsm sample_jobs "job") w in
  map Job_Status (db_jobs (w_db w')) = [JobStatusCompleted; JobStatusRunning] /\
  err = None /\ db_tasks (w_db w') = db_tasks (w_db w).
Proof.
  intros w.
  assert (unique_jobs (w_db w)) as Hu by (apply (bool_decide_unpack _); by vm_compute).
  pose proof (@checkJobCompletions_spec sample_uuid_text sample_fsm sample_fsm_laws sample_jobs
                env_ok w "job" env_ok_reliable Hu) as Hspec.
  destruct (run env_ok _ w) as [w' err] eqn:Hrun. cbv zeta in Hspec.
  destruct Hspec as (He & Ht & _).
  splits; [|exact He|exact Ht].
  vm_compute in Hrun. by injection Hrun as <- _.
Defined.

(** C19: the completion cron catches up.  A tick finalizes at most 200 jobs, but in a
    reliable environment [n] ticks in a row finalize every job that is due, with the status
    its tasks determine, when there are at most [200 * n] of them; the other jobs and the
    tasks stay as they are, and nothing is due afterwards. *)
Theorem checks_catch_up `{UuidText} `{FsmLaws} jobs E w jobName n :
  reliable E -> unique_jobs (w_db w) -> (length (completables jobName (w_db w)) <= 200 * n)%nat ->
  let w' := (run E (check_times jobs jobName n) w).1 in
  completables jobName (w_db w') = [] /\ db_tasks (w_db w') = db_tasks (w_db w) /\
  (forall j, j ∈ db_jobs (w_db w) -> completable jobName (w_db w) j = false -> j ∈ db_jobs (w_db w')) /\
  (forall j, j ∈ db_jobs (w_db w) -> completable jobName (w_db w) j = true ->
     exists status fin upd, finalization (w_db w) j = Some status /\ finalized status fin upd j ∈ db_jobs (w_db w')).
Proof.
  intros HE Hu Hn. cbv zeta. destruct (checks_spec jobs E jobName n w HE Hu) as (Ht & Hlen & Hkeep & Hhit).
  assert (Hnil : completables jobName (w_db (run E (check_times jobs jobName n) w).1) = []).
  { apply length_zero_iff_nil. lia. }
  splits; [done|done|exact Hkeep|].
  intros j Hj Hc. destruct (Hhit j) as [Hin|?]; [by apply completables_elem| |done].
  rewrite Hnil in Hin. by apply elem_of_nil in Hin.
Qed.

Theorem checks_catch_up_witness :
  let w := sample_world [sample_job 1 JobStatusRunning; sample_job 2 JobStatusRunning]
             [sample_row 3 1 TaskStatusCompleted 1; sample_row 4 2 TaskStatusPending 1] in
  let w' := (run env_ok (@check_times sample_uuid_text sample_fsm sample_jobs "job" 1) w).1 in
  completables "job" (w_db w') = [] /\
  (exists fin upd, finalized JobStatusCompleted fin upd (sample_job 1 JobStatusRunning) ∈ db_jobs (w_db w')) /\
  sample_job 2 JobStatusRunning ∈ db_jobs (w_db w').
Proof.
  intros w w'.
  destruct (@checks_catch_up sample_uuid_text sample_fsm sample_fsm_laws sample_jobs env_ok w "job" 1 env_ok_reliable)
    as (Hnil & _ & Hkeep & Hhit).
  - apply (bool_decide_unpack _). by vm_compute.
  - vm_compute. lia.
  - splits; [exact Hnil| |].
    + destruct (Hhit (sample_job 1 JobStatusRunning)) as (st & fin & upd & Hf & Hin); [left|by vm_compute|].
      assert (finalization (w_db w) (sample_job 1 JobStatusRunning) = Some JobStatusCompleted) as Hc by by vm_compute.
      rewrite Hc in Hf. injection Hf as <-. exists fin, upd. exact Hin.
    + apply Hkeep; [right; left|by vm_compute].
Defined.
