(* ===== verification/TriggerFailure.v ===== *)
(** * TriggerFailure: recording a trigger that failed before it had tasks

    [internal/executor/trigger_failure.go], up to [persistTriggerFailure];
    [retryTriggerJob], which runs a job again, is in [Retry.v]. *)
From S2P Require Import Prelude Go Domain Effects Repository JobConfig.

Definition metadataTriggerFailure : string := "trigger_failure".
Definition metadataFailurePhase : string := "failure_phase".
Definition metadataFailureError : string := "error".
Definition metadataAsynqTaskID : string := "asynq_task_id".
Definition metadataAsynqRetryCnt : string := "asynq_retry_count".
Definition metadataAsynqMaxRetry : string := "asynq_max_retry".

(** [meta[k].(bool)], false when it is absent or not a bool. *)
Definition lookup_true (meta : gomap) (k : string) : bool :=
  match gomap_lookup meta k with Some (VBool b) => b | _ => false end.

Definition IsTriggerFailureJob (job : option Job) : bool :=
  match job with
  | None => false
  | Some job =>
      match Job_MetadataMap job with
      | Ok (Some meta) => lookup_true (Some meta) metadataTriggerFailure
      | _ => false
      end
  end.

Section metadata.
  Context `{FloatConv}.

Definition metadataInt (metadata : gomap) (key : string) : option Z :=
  match gomap_lookup metadata key with
  | Some (VInt n) | Some (VInt64 n) => Some n
  | Some (VFloat64 f) => Some (float_to_int f)
  | _ => None
  end.

Definition shouldPersistTriggerFailure (metadata : gomap) : bool :=
  match metadataInt metadata metadataAsynqMaxRetry with
  | None => true
  | Some maxRetry =>
      let retryCount := default 0 (metadataInt metadata metadataAsynqRetryCnt) in
      maxRetry <=? retryCount
  end.
End metadata.

(** The map [persistTriggerFailure] stores. *)
Definition triggerFailureMetadata (metadata : gomap) (refID phase : string) (execErr : error) :
    gmap string value :=
  let meta := default ∅ metadata in
  let meta := <[metadataTriggerFailure := VBool true]> meta in
  let meta := <[metadataFailurePhase := VString phase]> meta in
  let meta := <[metadataFailureError := VString (error_string execErr)]> meta in
  match meta !! metadataAsynqTaskID with
  | Some _ => meta
  | None => <[metadataAsynqTaskID := VString refID]> meta
  end.

Section persist.
  Context `{Pgtype}.

Definition persistTriggerFailure (job : Job) (refID : string) (metadata : gomap)
    (phase : string) (execErr : error) : prog (res unit) :=
  try (FindJobWithTasksByUniqueReferenceID refID) (ErrWrap "check existing trigger failure")
  (fun existing =>
    match existing with
    | Some _ => Ret (Ok ())
    | None =>
        match Job_SetMetadata (Some (triggerFailureMetadata metadata refID phase execErr)) job with
        | Err e => Ret (Err (ErrWrap "set trigger failure metadata" e))
        | Ok job =>
            now ← Now;
            let job := Job_set_StartedAt (Some now) job in
            let job := Job_set_FinishedAt (Some now) job in
            let job := Job_set_DurationMs (Some 0) job in
            let job := Job_set_Status JobStatusFailed job in
            try (CreateJobAndTasks job []) (ErrWrap "create trigger failure job")
              (fun _ => Ret (Ok ()))
        end
    end).
End persist.
