(* ===== verification/JobExecutor.v ===== *)
(** * JobExecutor: running a job's splitter and publishing its tasks

    [internal/executor/job_executor.go].  A job is passed by pointer and mutated,
    so a function that changes it returns it.  A nil [JobExecutor] or [Publisher]
    would panic; registration refuses or fills them, and the model answers with an
    error instead. *)
From S2P Require Import Prelude Go Domain Effects Repository JobConfig Transport Instances Lifecycle.
From S2P Require Import Finalizer TriggerFailure.

Definition nil_dereference : error := ErrForeign "invalid memory address or nil pointer dereference".

Definition cfg_PublishTasks (jobCfg : JobConfig) (tasks : list Task) (topic : string) :
    prog (res unit) :=
  match Cfg_Publisher jobCfg with
  | Some p => PublishTasks p tasks topic
  | None => Ret (Err nil_dereference)
  end.

Definition cfg_PublishRetryTasks (jobCfg : JobConfig) (tasks : list Task) (topic : string)
    (d : duration) : prog (res unit) :=
  match Cfg_Publisher jobCfg with
  | Some p => PublishRetryTasks p tasks topic d
  | None => Ret (Err nil_dereference)
  end.

Definition cfg_JobExecute (jobCfg : JobConfig) (metadata : gomap) : prog (res (list TaskData)) :=
  match Cfg_JobExecutor jobCfg with
  | Some x => call (EJobExecute x metadata)
  | None => Ret (Err nil_dereference)
  end.

Definition setInitialJobStatus (job : Job) (enabled : bool) : Job :=
  let job := Job_set_Status JobStatusPending job in
  if negb enabled then Job_set_Status JobStatusRejected job else job.

Definition setInitialTaskStatus (task : Task) (job : Job) : Task :=
  if Job_IsExecutionPending job then Task_set_Status TaskStatusPending task
  else if Job_IsRejected job then Task_set_Status TaskStatusRejected task
  else if Job_IsCancelled job then Task_set_Status TaskStatusCancelled task
  else task.

(** [l] in pieces of [n] elements, the slices [tasks[i:end]] of the loop. *)
Fixpoint chunks_fuel {A} (fuel n : nat) (l : list A) : list (list A) :=
  match fuel, l with
  | S fuel, _ :: _ => take n l :: chunks_fuel fuel n (drop n l)
  | _, _ => []
  end.
Definition chunks {A} (n : nat) (l : list A) : list (list A) := chunks_fuel (length l) n l.

Definition new_Job (id : uuid) (name : string) (maxRetries : Z) (refID : string) : Job :=
  mkJob id None name "" maxRetries (Some refID) zero_time zero_time None None None JSONB_zero.

Section execute.
  Context `{UuidText} `{Fsm} `{Pgtype} `{FloatConv}.
  Context (jobs : gmap string JobConfig).

(** The task of position [i]. *)
Definition buildTask (job : Job) (i : Z) (data : TaskData) (taskID : uuid) : res Task :=
  let task := mkTask taskID (Job_ID job) (TaskData_Name data) "" 1 (Job_MaxRetries job) i
                (if bool_decide (TaskData_DistributionKey data = ""%string) then None
                 else Some (TaskData_DistributionKey data))
                JSONB_zero JSONB_zero zero_time zero_time None None None None in
  let task := setInitialTaskStatus task job in
  match Task_SetParams (TaskData_Params data) task with
  | Err e => Err (ErrWrap "set task params" e)
  | Ok task =>
      match Task_SetResult (Some ∅) task with
      | Err e => Err (ErrWrap "set task result" e)
      | Ok task => Ok task
      end
  end.

Fixpoint buildTasks_from (job : Job) (i : Z) (taskData : list TaskData) : prog (res (list Task)) :=
  match taskData with
  | [] => Ret (Ok [])
  | data :: taskData =>
      taskID ← NewUUID;
      match buildTask job i data taskID with
      | Err e => Ret (Err e)
      | Ok task =>
          try (buildTasks_from job (i + 1) taskData) id (fun tasks => Ret (Ok (task :: tasks)))
      end
  end.

Definition buildTasks (job : Job) (taskData : list TaskData) : prog (res (list Task)) :=
  buildTasks_from job 0 taskData.

(** The two failure branches of [prepareJobAndTasks]. *)
Definition triggerFailed (job : Job) (refID : string) (metadata : gomap) (phase : string)
    (err : error) : prog (res (Job * list Task)) :=
  if shouldPersistTriggerFailure metadata then
    _ ← persistTriggerFailure job refID metadata phase err; Ret (Err err)
  else Ret (Err err).

Definition prepareJobAndTasks (jobCfg : JobConfig) (metadata : gomap) (refID : string) :
    prog (res (Job * list Task)) :=
  try (FindJobWithTasksByUniqueReferenceID refID) (ErrWrap "check existing job") (fun existing =>
  match existing with
  | Some (existingJob, existingTasks) => Ret (Ok (existingJob, existingTasks))
  | None =>
  jobID ← NewUUID;
  let job := new_Job jobID (Cfg_Name jobCfg) (Retry_MaxRetries (Cfg_Retry jobCfg)) refID in
  enabled ← IsEnabled jobCfg;
  let job := setInitialJobStatus job enabled in
  match Job_SetMetadata metadata job with
  | Err e => Ret (Err (ErrWrap "set job metadata" e))
  | Ok job =>
  split ← cfg_JobExecute jobCfg metadata;
  match split with
  | Err e => triggerFailed job refID metadata "job_executor" e
  | Ok taskData =>
  built ← buildTasks job taskData;
  match built with
  | Err e => triggerFailed job refID metadata "build_tasks" e
  | Ok tasks => try (CreateJobAndTasks job tasks) (ErrWrap "create job and tasks") (fun x => Ret (Ok x))
  end end end end).

(** The publishing loop over batches. *)
Fixpoint publishBatches (jobCfg : JobConfig) (batches : list (list Task)) : prog (res unit) :=
  match batches with
  | [] => Ret (Ok ())
  | batch :: batches =>
      try (cfg_PublishTasks jobCfg batch (Kafka_TaskTopic (Cfg_Kafka jobCfg))) id
        (fun _ => publishBatches jobCfg batches)
  end.

Definition publishTasks (tasks : list Task) (jobCfg : JobConfig) : prog (res unit) :=
  match tasks with
  | [] => Ret (Ok ())
  | _ =>
      try (publishBatches jobCfg (chunks (Z.to_nat TaskInsertBatchSize) tasks)) id (fun _ =>
        _ ← hook (OnTasksPublished (Cfg_Name jobCfg) (Z.of_nat (length tasks)));
        Ret (Ok ()))
  end.

Definition executeJobFlow (job : Job) (tasks : list Task) (jobCfg : JobConfig) :
    prog (Job * option error) :=
  if negb (Job_IsExecutionPending job) then
    _ ← UpdateTasksStatusByJobID (Job_ID job) (Job_Status job);
    Ret (job, None)
  else if Job_IsRunning job then Ret (job, None)
  else
  published ← publishTasks tasks jobCfg;
  match published with
  | Err e =>
      '(job, _) ← transitionJob job JobActionFail;
      Ret (job, Some e)
  | Ok _ =>
  _ ← (if Cfg_CancelPrevious jobCfg then CancelPreviousJobs (Job_Name job) (Job_ID job)
       else Ret (Ok ()));
  '(job, err) ← transitionJob job JobActionStart;
  match err with
  | Some e => Ret (job, Some (ErrWrap "start job" e))
  | None =>
  _ ← (match tasks with
       | [] => maybeFinalizeJob jobs (Job_ID job)
       | _ => Ret None
       end);
  Ret (job, None)
  end end.

Definition executeJob (jobName refID : string) (metadata : gomap) : prog (option error) :=
  start ← Now;
  match jobs !! jobName with
  | None => Ret (Some (ErrText ("no job config registered for job type: " ++ jobName)))
  | Some jobCfg =>
  prepared ← prepareJobAndTasks jobCfg metadata refID;
  match prepared with
  | Err e =>
      d ← Since start;
      _ ← hook (OnJobFinished jobName refID JobStatusFailed d);
      Ret (Some e)
  | Ok (job, tasks) =>
  '(job, err) ← executeJobFlow job tasks jobCfg;
  let status :=
    match err with
    | Some _ => JobStatusFailed
    | None => if negb (Job_IsExecutionPending job) then Job_Status job else JobStatusRunning
    end in
  d ← Since start;
  _ ← hook (OnJobFinished jobName refID status d);
  Ret err
  end end.

Definition ExecuteJob : string -> string -> gomap -> prog (option error) := executeJob.
End execute.

(** [updateTasksStatus], used by the task executor; its error is only logged. *)
Definition updateTasksStatus (tasks : list Task) (status : string) : prog unit :=
  match tasks with
  | [] => Ret ()
  | _ => _ ← UpdateTasksStatus (map Task_ID tasks) status; Ret ()
  end.

(** ** Specification *)

(** Task [t] carries item [i] of the split of [job]. *)
Record task_for `{Pgtype} (job : Job) (status : string) (i : Z) (d : TaskData) (t : Task) : Prop := {
  task_for_job : Task_JobID t = Job_ID job;
  task_for_created : Task_CreatedAt t = Job_CreatedAt job;
  task_for_name : Task_Name t = TaskData_Name d;
  task_for_status : Task_Status t = status;
  task_for_attempt : Task_Attempt t = 1;
  task_for_retries : Task_MaxRetries t = Job_MaxRetries job;
  task_for_sequence : Task_SequenceNumber t = i;
  task_for_key : default ""%string (Task_DistributionKey t) = TaskData_DistributionKey d;
  task_for_params : JSONB_Set (TaskData_Params d) = Ok (Task_Params t);
}.

Fixpoint tasks_for `{Pgtype} (job : Job) (status : string) (i : Z) (data : list TaskData)
    (tasks : list Task) : Prop :=
  match data, tasks with
  | [], [] => True
  | d :: data, t :: tasks => task_for job status i d t /\ tasks_for job status (i + 1) data tasks
  | _, _ => False
  end.

(** Parameters that pgtype accepts. *)
Definition encodable `{Pgtype} (d : TaskData) : Prop := is_Ok (JSONB_Set (TaskData_Params d)).

(** A job row after its start. *)
Definition row_started (started upd : time) (j : Job) : Job :=
  Job_set_UpdatedAt upd (Job_set_StartedAt (Some started) (Job_set_Status JobStatusRunning j)).

(** The tables after the cancellation of the previous runs, if it is configured. *)
Definition after_cancel (cfg : JobConfig) (job : Job) (now : time) (db : DB) : DB :=
  if Cfg_CancelPrevious cfg then (cancel_previous_tx (Job_Name job) (Job_ID job) now db).1 else db.

(** The answer of the configuration's [Enabled] function. *)
Definition switched (E : env) (cfg : JobConfig) (b : bool) : Prop :=
  match Cfg_Enabled cfg with Some f => forall n, env_enabled E n f = b | None => b = true end.

(** Values that fit the columns of the rows a trigger makes. *)
Definition job_columns (cfg : JobConfig) (name ref : string) : bool :=
  pg_varchar 255 name && pg_varchar 255 ref && pg_integer (Retry_MaxRetries (Cfg_Retry cfg)).
Definition item_columns (d : TaskData) : bool :=
  pg_varchar 255 (TaskData_Name d) && pg_text (TaskData_DistributionKey d).

(** The state in which a trigger makes a new job from the split [data]. *)
Record triggerable `{Pgtype} `{Codec} (E : env) (jobs : gmap string JobConfig) (db : DB) (name ref : string)
    (metadata : gomap) (cfg : JobConfig) (data : list TaskData) : Prop := {
  trigger_fresh : fresh_uuids E db;
  trigger_cfg : jobs !! name = Some cfg;
  trigger_name : Cfg_Name cfg = name;
  trigger_publisher : Cfg_Publisher cfg = Some NewTaskPublisher;
  trigger_new : List.filter (has_ref ref) (db_jobs db) = [];
  trigger_metadata : is_Ok (JSONB_Set metadata);
  trigger_split : exists x, Cfg_JobExecutor cfg = Some x /\ forall n, env_job_execute E n x metadata = Ok data;
  trigger_params : Forall encodable data;
  trigger_result : is_Ok (JSONB_Set (Some ∅));
  trigger_columns : job_columns cfg name ref = true;
  trigger_items : Forall (fun d => item_columns d = true) data;
  trigger_count : Z.of_nat (length data) <= 2 ^ 31;
}.

(** The row a trigger inserts. *)
Record new_row `{Pgtype} (db : DB) (name ref status : string) (metadata : gomap) (cfg : JobConfig)
    (j : Job) : Prop := {
  new_row_id : Job_ID j ∉ map Job_ID (db_jobs db);
  new_row_name : Job_Name j = name;
  new_row_ref : Job_UniqueReferenceID j = Some ref;
  new_row_status : Job_Status j = status;
  new_row_metadata : JSONB_Set metadata = Ok (Job_Metadata j);
  new_row_retries : Job_MaxRetries j =
    if Retry_MaxRetries (Cfg_Retry cfg) =? 0 then 3 else Retry_MaxRetries (Cfg_Retry cfg);
  new_row_parent : Job_ParentJobID j = None;
}.

(** The rows a trigger makes fit their columns and, while the clock reads years that JSON
    knows, have an encoding. *)
Record rows_ok (E : env) (job : Job) (ts : list Task) : Prop := {
  rows_job : job_fits job = true;
  rows_tasks : Forall (fun t => task_fits t = true) ts;
  rows_json : (forall n, json_time (env_now E n) = true) ->
    json_job job = true /\ Forall (fun t => json_task t = true) ts;
}.

(** ** Lemmas *)

Lemma chunks_fuel_concat {A} fuel n (l : list A) :
  (0 < n)%nat -> (length l <= fuel)%nat -> concat (chunks_fuel fuel n l) = l.
Proof.
  intros Hn. revert l. induction fuel as [|fuel IH]; intros l Hl.
  { by destruct l; [|cbn in Hl; lia]. }
  destruct l as [|x l]; [done|]. cbn [chunks_fuel concat]. rewrite IH; [by rewrite take_drop|].
  rewrite length_drop. cbn in *. lia.
Qed.

Lemma chunks_concat {A} n (l : list A) : (0 < n)%nat -> concat (chunks n l) = l.
Proof. intros Hn. by apply chunks_fuel_concat. Qed.

(** The same world, [n] calls later. *)
Definition ticks (n : nat) (w : World) : World :=
  mkWorld (w_db w) (w_kafka w) (w_hooks w) (n + w_tick w).

Lemma json_task_defaults now t : json_time now = true -> json_task t = true -> json_task (task_defaults now t) = true.
Proof.
  intros Hn. unfold task_defaults, json_task. rewrite !andb_true_iff. intros H0. destruct_and! H0.
  destruct (Task_MaxRetries t =? 0), t; cbn in *; destruct (IsZero _), (IsZero _); by split_and!.
Qed.

Lemma json_job_defaults now j : json_time now = true -> json_job j = true -> json_job (job_defaults now j) = true.
Proof.
  intros Hn. unfold job_defaults, json_job. rewrite !andb_true_iff. intros H0. destruct_and! H0.
  case_bool_decide; (destruct (Job_MaxRetries _ =? 0)); destruct j; cbn in *; destruct (IsZero _), (IsZero _); by split_and!.
Qed.

Section run_lemmas.
Context `{UuidText} `{FsmLaws} `{PgtypeLaws} `{FloatConv}.

Lemma run_write E w msgs :
  reliable E ->
  exists n, run E (write msgs) w = (mkWorld (w_db w) (w_kafka w ++ msgs) (w_hooks w) n, Ok ()).
Proof.
  intros HE. destruct msgs as [|m ms].
  - exists (w_tick w). rewrite app_nil_r. by destruct w.
  - eexists. unfold write. by rewrite run_write_reliable.
Qed.

Lemma buildTask_spec job i d id r :
  Job_Status job = JobStatusPending \/ Job_Status job = JobStatusRejected ->
  encodable d -> JSONB_Set (Some ∅) = Ok r -> Job_CreatedAt job = zero_time ->
  pg_integer (Job_MaxRetries job) = true -> item_columns d = true -> pg_integer i = true ->
  exists t, buildTask job i d id = Ok t /\ Task_ID t = id /\ Task_UpdatedAt t = zero_time /\
    (task_fits t = true /\ json_task t = true) /\ task_for job (Job_Status job) i d t.
Proof.
  intros Hst [p Hp] Hr Hz Hmax [Hn Hk]%andb_true_iff Hi. unfold buildTask, setInitialTaskStatus, Task_SetParams, Task_SetResult.
  rewrite Hp, Hr. pose proof (JSONB_Set_document _ _ Hp) as Hdp. pose proof (JSONB_Set_document _ _ Hr) as Hdr.
  destruct Hst as [Hst|Hst]; unfold Job_IsExecutionPending, Job_IsRejected, Job_IsCancelled; rewrite Hst;
    eexists; (splits; [done|done|done| | |]).
  1, 4: unfold task_fits; rewrite !andb_true_iff; cbn; split_and!; try done; case_bool_decide; done.
  1, 3: unfold json_task; rewrite !andb_true_iff; cbn; by split_and!.
  all: split; try done; cbn; try (by case_bool_decide).
Qed.

Lemma run_buildTasks E w job i data r :
  Job_Status job = JobStatusPending \/ Job_Status job = JobStatusRejected ->
  Forall encodable data -> JSONB_Set (Some ∅) = Ok r -> Job_CreatedAt job = zero_time ->
  pg_integer (Job_MaxRetries job) = true -> Forall (fun d => item_columns d = true) data ->
  0 <= i -> i + Z.of_nat (length data) <= 2 ^ 31 ->
  exists ts, run E (buildTasks_from job i data) w = (ticks (length data) w, Ok ts) /\
    tasks_for job (Job_Status job) i data ts /\
    map Task_ID ts = map (env_uuid E) (seq (w_tick w) (length data)) /\
    Forall (fun t => task_fits t = true /\ json_task t = true) ts.
Proof.
  intros Hst Hdata Hr Hz Hmax Hcol. revert i w. induction Hdata as [|d data Hd Hdata IH]; intros i w Hi Hlen.
  { exists []. cbn. by destruct w. }
  apply Forall_cons in Hcol as [Hc Hcol]. cbn [length] in Hlen.
  cbn [buildTasks_from]. rewrite run_bind, run_NewUUID. cbn [fst snd].
  destruct (buildTask_spec job i d (env_uuid E (w_tick w)) r Hst Hd Hr Hz) as (t & -> & Hid & Hu & Hok & Ht); [done|done| |].
  { apply pg_integer_spec. lia. }
  rewrite run_try. destruct (IH Hcol (i + 1) (tick w)) as (ts & -> & Hts & Hids & Hus); [lia|lia|].
  cbn [fst snd run]. exists (t :: ts). splits.
  - unfold ticks, tick. cbn. do 2 f_equal. lia.
  - by split.
  - cbn. by rewrite Hid, Hids.
  - by constructor.
Qed.

Lemma tasks_for_defaults job status now i data ts :
  tasks_for job status i data ts -> Job_CreatedAt job = zero_time -> Job_Status job ≠ "" ->
  tasks_for (job_defaults now job) status i data (map (task_defaults now) ts).
Proof.
  revert i ts. induction data as [|d data IH]; intros i [|t ts]; try done. cbn.
  intros [Ht Hts] Hz Hs. split; [|by apply IH]. destruct Ht as [Hf1 Hf2 Hf3 Hf4 Hf5 Hf6 Hf7 Hf8 Hf9].
  destruct (task_defaults_fields now t) as (H1' & H2' & H3' & H4' & H5' & H6' & H7' & H8' & H9').
  destruct (job_defaults_fields now job) as (_ & _ & _ & _ & _ & _ & Hj1 & Hj2).
  rewrite Hf2, Hz in H9'. rewrite Hz in Hj2. cbn in H9', Hj2. rewrite Hf6 in H8'.
  split; rewrite ?job_defaults_ID; rewrite ?H6', ?H7', ?H8', ?Hj1; congruence.
Qed.

Lemma run_publishBatches `{Codec} E w cfg bs :
  reliable E -> Cfg_Publisher cfg = Some NewTaskPublisher ->
  exists n, run E (publishBatches cfg bs) w =
    (mkWorld (w_db w)
       (w_kafka w ++ omap (task_message (Kafka_TaskTopic (Cfg_Kafka cfg))) (concat bs)) (w_hooks w) n, Ok ()).
Proof.
  intros HE Hp. revert w. induction bs as [|b bs IH]; intros w; cbn [publishBatches concat].
  { exists (w_tick w). cbn. rewrite app_nil_r. by destruct w. }
  rewrite run_try. unfold cfg_PublishTasks. rewrite Hp. cbn [PublishTasks NewTaskPublisher].
  destruct (run_write E w (omap (task_message (Kafka_TaskTopic (Cfg_Kafka cfg))) b) HE) as [n Hn].
  unfold publisher_PublishTasks. rewrite Hn. cbn [fst snd].
  destruct (IH (mkWorld (w_db w) (w_kafka w ++ omap (task_message (Kafka_TaskTopic (Cfg_Kafka cfg))) b)
                  (w_hooks w) n)) as [n' ->].
  exists n'. cbn [w_kafka w_db w_hooks]. by rewrite omap_app, app_assoc.
Qed.

Lemma run_publishTasks `{Codec} E w cfg ts :
  reliable E -> Cfg_Publisher cfg = Some NewTaskPublisher -> ts ≠ [] ->
  exists n, run E (publishTasks ts cfg) w =
    (mkWorld (w_db w)
       (w_kafka w ++ omap (task_message (Kafka_TaskTopic (Cfg_Kafka cfg))) ts)
       (w_hooks w ++ [OnTasksPublished (Cfg_Name cfg) (Z.of_nat (length ts))]) n, Ok ()).
Proof.
  intros HE Hp Hne. unfold publishTasks. destruct ts as [|t ts]; [done|].
  rewrite run_try.
  destruct (run_publishBatches E w cfg (chunks (Z.to_nat TaskInsertBatchSize) (t :: ts)) HE Hp) as [n ->].
  rewrite chunks_concat by (vm_compute; lia). cbn [fst snd].
  rewrite run_bind, run_hook, run_Ret. by eexists.
Qed.

Lemma run_transition_start E w job :
  reliable E -> Job_Status job = JobStatusPending ->
  exists job' started upd n,
    run E (transitionJob job JobActionStart) w =
    (mkWorld (update_jobs (job_has_id (Job_ID job)) (row_started started upd) (w_db w))
       (w_kafka w) (w_hooks w) n, (job', None)) /\
    Job_Status job' = JobStatusRunning /\ Job_ID job' = Job_ID job /\ Job_Name job' = Job_Name job /\
    reading E started /\ reading E upd.
Proof.
  intros HE Hst. unfold transitionJob. rewrite applyJobAction_event by done.
  rewrite run_bind, run_Job_Event, Hst.
  replace (fsm_lookup jobTransitions JobStatusPending JobActionStart) with (Some JobStatusRunning) by done.
  rewrite decide_False by done. cbn [fst snd].
  unfold jobTimingUpdates. rewrite !run_bind, run_Now. cbn [fst snd].
  rewrite bool_decide_eq_true_2 by done. rewrite run_Ret. cbn [fst snd].
  rewrite run_bind, run_UpdateJob by done. cbn [fst snd]. rewrite run_Ret.
  do 4 eexists. splits; [done|done|done|done|by eexists..].
Qed.

Lemma run_find_ref_none E w ref :
  reliable E -> List.filter (has_ref ref) (db_jobs (w_db w)) = [] ->
  run E (FindJobWithTasksByUniqueReferenceID ref) w = (tick w, Ok None).
Proof.
  intros HE Hf. unfold FindJobWithTasksByUniqueReferenceID.
  rewrite run_try, (run_query E _ w (Ok None) HE); [done|].
  intros now. unfold select_job_by_ref. by rewrite Hf.
Qed.

Lemma run_find_ref_some E w ref j :
  reliable E -> pick newest_first (List.filter (has_ref ref) (db_jobs (w_db w))) = Some j ->
  run E (FindJobWithTasksByUniqueReferenceID ref) w =
  (tick (tick w), Ok (Some (j, List.filter (task_of_job (Job_ID j)) (db_tasks (w_db w))))).
Proof.
  intros HE Hf. unfold FindJobWithTasksByUniqueReferenceID.
  rewrite run_try, (run_query E _ w (Ok (Some j)) HE); cbn [fst snd].
  - rewrite run_try, (run_query E _ (tick w) (Ok (List.filter (task_of_job (Job_ID j)) (db_tasks (w_db w)))) HE);
      [done|].
    intros now. unfold select_tasks. do 2 f_equal. apply List.filter_ext. intros t. by rewrite andb_true_r.
  - intros now. unfold select_job_by_ref. by rewrite Hf.
Qed.

Lemma run_IsEnabled E w cfg b :
  switched E cfg b -> exists n, run E (IsEnabled cfg) w = (ticks n w, b).
Proof.
  unfold switched, IsEnabled. destruct (Cfg_Enabled cfg) as [f|].
  - intros Hf. exists 1%nat. rewrite run_call. cbn. by rewrite Hf.
  - intros ->. exists 0%nat. by destruct w.
Qed.

Lemma fresh_seq E db m n :
  fresh_uuids E db -> NoDup (map (env_uuid E) (seq m n)).
Proof.
  intros [Hinj _ _ _]. revert m. induction n as [|n IH]; intros m; cbn; constructor; [|apply IH].
  rewrite list_elem_of_In, in_map_iff. intros (x & Hx & Hin). apply Hinj in Hx as ->.
  apply in_seq in Hin. lia.
Qed.

Lemma run_prepareJobAndTasks `{Codec} E w jobs name ref metadata cfg data b :
  reliable E -> triggerable E jobs (w_db w) name ref metadata cfg data -> switched E cfg b ->
  let status := if b then JobStatusPending else JobStatusRejected in
  exists job ts n,
    run E (prepareJobAndTasks cfg metadata ref) w =
    (mkWorld (mkDB (db_jobs (w_db w) ++ [job]) (db_tasks (w_db w) ++ ts)) (w_kafka w) (w_hooks w) n,
     Ok (job, ts)) /\
    new_row (w_db w) name ref status metadata cfg job /\ tasks_for job status 0 data ts /\
    (exists m, Job_ID job = env_uuid E m) /\
    NoDup (map Task_ID ts) /\ (forall t, t ∈ ts -> Task_ID t ∉ map Task_ID (db_tasks (w_db w))) /\
    rows_ok E job ts.
Proof.
  intros HE [Hfresh Hcfg Hname _ Hnew [meta Hmeta] (x & Hx & Hsplit) Hparams [r Hr] Hcols Hitems Hcount] Hb. cbv zeta.
  apply andb_true_iff in Hcols as [[Hcn Hcr]%andb_true_iff Hcm].
  unfold prepareJobAndTasks. rewrite run_try, run_find_ref_none by done. cbn [fst snd].
  rewrite run_bind, run_NewUUID. cbn [fst snd]. set (id := env_uuid E _).
  rewrite run_bind. destruct (run_IsEnabled E (tick (tick w)) cfg b Hb) as [n ->]. cbn [fst snd].
  set (job0 := setInitialJobStatus _ b). unfold Job_SetMetadata. rewrite Hmeta.
  set (job1 := Job_set_Metadata meta job0).
  unfold cfg_JobExecute. rewrite Hx, run_bind, run_call. cbn [interp fst snd]. rewrite Hsplit.
  set (w1 := tick (ticks n (tick (tick w)))).
  assert (Hst : Job_Status job1 = if b then JobStatusPending else JobStatusRejected) by by destruct b.
  assert (Hpr : Job_Status job1 = JobStatusPending \/ Job_Status job1 = JobStatusRejected)
    by (rewrite Hst; destruct b; [by left|by right]).
  destruct (run_buildTasks E w1 job1 0 data r Hpr Hparams Hr) as (ts & Hrun & Hts & Hids & Hok);
    [by destruct b|by destruct b|done|done|done|].
  assert (Hjfit : forall now, job_fits (job_defaults now job1) = true).
  { intros now. apply job_fits_defaults. rewrite Hst. pose proof (JSONB_Set_document _ _ Hmeta) as Hdoc.
    rewrite <- Hname in Hcn. unfold job_fits. rewrite !andb_true_iff. by destruct b; split_and!. }
  assert (Hjjson : json_job job1 = true).
  { pose proof (JSONB_Set_document _ _ Hmeta) as Hdoc. unfold json_job. rewrite !andb_true_iff. by destruct b; split_and!. }
  rewrite run_bind. unfold buildTasks. rewrite Hrun. cbn [fst snd]. rewrite run_try.
  assert (Hjid : Job_ID job1 = id) by by destruct b.
  assert (Hnd : NoDup (map Task_ID ts)) by (rewrite Hids; by eapply fresh_seq).
  assert (Hnew' : forall t, t ∈ ts -> Task_ID t ∉ map Task_ID (db_tasks (w_db w))).
  { intros t Ht. assert (Task_ID t ∈ map Task_ID ts) as Hin by (by apply list_elem_of_In, in_map, list_elem_of_In).
    rewrite Hids in Hin. apply list_elem_of_In, in_map_iff in Hin as (m & <- & _). apply Hfresh. }
  edestruct (run_CreateJobAndTasks_now E (ticks (length data) w1) job1 ts HE) as (now & Hnow & ->).
  { exact Hjfit. }
  { eapply Forall_impl; [exact Hok|]. by intros t [? _]. }
  { rewrite Hjid. apply Hfresh. }
  { exact Hnd. }
  { exact Hnew'. }
  cbn [fst snd run]. do 3 eexists. split; [done|].
  destruct (job_defaults_fields now job1) as (Hn & Hu & Hp & Hm & _ & Hs & Hmr & _).
  assert (Job_Status (job_defaults now job1) = if b then JobStatusPending else JobStatusRejected) as Hst'.
  { rewrite Hs, Hst. by destruct b. }
  assert (map Task_ID (map (task_defaults now) ts) = map Task_ID ts) as Hidd.
  { rewrite map_map. apply map_ext. apply task_defaults_ID. }
  split; [split|split; [|split; [|split; [|split]]]].
  - rewrite job_defaults_ID, Hjid. apply Hfresh.
  - rewrite Hn, <- Hname. by destruct b.
  - rewrite Hu. by destruct b.
  - done.
  - rewrite Hm. by destruct b.
  - rewrite Hmr. by destruct b.
  - rewrite Hp. by destruct b.
  - rewrite <- Hst. apply tasks_for_defaults; [done|by destruct b|by destruct b].
  - rewrite job_defaults_ID, Hjid. by eexists.
  - by rewrite Hidd.
  - intros t (t0 & <- & Ht0%list_elem_of_In)%list_elem_of_In%in_map_iff. rewrite task_defaults_ID. by apply Hnew'.
  - split.
    + apply Hjfit.
    + apply Forall_map. eapply Forall_impl; [exact Hok|]. intros t [Hf _]. by apply task_fits_defaults.
    + intros Hclock. split; [apply json_job_defaults; [by rewrite Hnow|done]|].
      apply Forall_map. eapply Forall_impl; [exact Hok|]. intros t [_ Hj]. apply json_task_defaults; [by rewrite Hnow|done].
Qed.

(** The flow of a PENDING job up to its start. *)
Lemma run_cancel_then_start E w cfg job :
  reliable E -> Job_Status job = JobStatusPending ->
  exists job' started upd now n,
    run E (_ ← (if Cfg_CancelPrevious cfg then CancelPreviousJobs (Job_Name job) (Job_ID job)
                else Ret (Ok ()));
           transitionJob job JobActionStart) w =
    (mkWorld (update_jobs (job_has_id (Job_ID job)) (row_started started upd) (after_cancel cfg job now (w_db w)))
       (w_kafka w) (w_hooks w) n, (job', None)) /\
    Job_Status job' = JobStatusRunning /\ Job_ID job' = Job_ID job /\ Job_Name job' = Job_Name job /\
    reading E started /\ reading E upd.
Proof.
  intros HE Hst. rewrite run_bind. unfold after_cancel, CancelPreviousJobs.
  destruct (Cfg_CancelPrevious cfg); [rewrite run_sql_reliable by done|rewrite run_Ret]; cbn [fst snd];
    match goal with |- context [run E (transitionJob _ _) ?w0] =>
      destruct (run_transition_start E w0 job HE Hst) as (job' & s & u & n & -> & ? & ? & ? & ? & ?) end.
  - by exists job', s, u, (env_now E (w_tick w)), n.
  - by exists job', s, u, 0, n.
Qed.

Lemma run_executeJobFlow_tasks `{Codec} jobs E w cfg job ts :
  reliable E -> Cfg_Publisher cfg = Some NewTaskPublisher -> Job_Status job = JobStatusPending -> ts ≠ [] ->
  exists job' started upd now n,
    run E (executeJobFlow jobs job ts cfg) w =
    (mkWorld (update_jobs (job_has_id (Job_ID job)) (row_started started upd) (after_cancel cfg job now (w_db w)))
       (w_kafka w ++ omap (task_message (Kafka_TaskTopic (Cfg_Kafka cfg))) ts)
       (w_hooks w ++ [OnTasksPublished (Cfg_Name cfg) (Z.of_nat (length ts))]) n, (job', None)) /\
    Job_Status job' = JobStatusRunning /\ reading E started /\ reading E upd.
Proof.
  intros HE Hp Hst Hne. unfold executeJobFlow, Job_IsExecutionPending, Job_IsRunning.
  rewrite Hst. cbn [negb].
  change (contains NonTerminalJobStates JobStatusPending) with true.
  change (bool_decide (JobStatusPending = JobStatusRunning)) with false. cbn [negb].
  rewrite run_bind. destruct (run_publishTasks E w cfg ts HE Hp Hne) as [n ->]. cbn [fst snd].
  set (w1 := mkWorld _ _ _ n).
  destruct (run_cancel_then_start E w1 cfg job HE Hst) as (job' & s & u & now & n' & Hrun & Hs' & _ & _ & Hrd).
  rewrite run_bind in Hrun |- *. rewrite run_bind, Hrun. cbn [fst snd].
  destruct ts as [|t ts]; [done|]. rewrite run_bind, !run_Ret. by exists job', s, u, now, n'.
Qed.

Lemma tasks_for_length job status i data ts : tasks_for job status i data ts -> length ts = length data.
Proof.
  revert i ts. induction data as [|d data IH]; intros i [|t ts]; try done. cbn. intros [_ Hts].
  f_equal. by eapply IH.
Qed.

Lemma after_cancel_self cfg job now db :
  List.filter (job_has_id (Job_ID job)) (db_jobs (after_cancel cfg job now db)) =
  List.filter (job_has_id (Job_ID job)) (db_jobs db).
Proof.
  unfold after_cancel, cancel_previous_tx. destruct (Cfg_CancelPrevious cfg); [|done].
  case_match; [done|]. cbn. apply filter_update_other; [|done].
  intros x [[_ Hx]%andb_true_iff _]%andb_true_iff. by apply negb_true_iff in Hx.
Qed.

Lemma after_cancel_no_tasks cfg job now db id :
  tasks_of id db = [] -> tasks_of id (after_cancel cfg job now db) = [].
Proof.
  unfold after_cancel, cancel_previous_tx, tasks_of. destruct (Cfg_CancelPrevious cfg); [|done].
  case_match; [done|]. cbn. by apply filter_update_nil.
Qed.

(** A started job without tasks is finalized COMPLETED. *)
Lemma run_finalize_started jobs E w db job cfg s u :
  reliable E -> jobs !! Job_Name job = Some cfg ->
  List.filter (job_has_id (Job_ID job)) (db_jobs db) = [job] -> tasks_of (Job_ID job) db = [] ->
  w_db w = update_jobs (job_has_id (Job_ID job)) (row_started s u) db ->
  exists fin upd n,
    run E (maybeFinalizeJob jobs (Job_ID job)) w =
    (mkWorld (update_jobs (job_has_id (Job_ID job))
                (fun j => finalized JobStatusCompleted fin upd (row_started s u j)) db)
       (w_kafka w)
       (w_hooks w ++ [OnJobFinished (Job_Name job) (default ""%string (Job_UniqueReferenceID job)) JobStatusCompleted 0])
       n, None).
Proof.
  intros HE Hcfg Hone Hnil Hw.
  assert (Hrow : List.filter (job_has_id (Job_ID (row_started s u job))) (db_jobs (w_db w)) = [row_started s u job]).
  { rewrite Hw. cbn [update_jobs db_jobs]. change (Job_ID (row_started s u job)) with (Job_ID job).
    unfold job_has_id in *. by rewrite filter_update_hit, Hone. }
  pose proof (maybeFinalizeJob_spec_lemma jobs E w (row_started s u job) HE Hrow) as Hfin.
  change (Job_ID (row_started s u job)) with (Job_ID job) in Hfin.
  destruct (run E (maybeFinalizeJob jobs (Job_ID job)) w) as [w2 err].
  assert (finalization (w_db w) (row_started s u job) = Some JobStatusCompleted) as Hf.
  { unfold finalization. change (Job_IsRunning (row_started s u job)) with true.
    change (Job_ID (row_started s u job)) with (Job_ID job). rewrite Hw.
    change (tasks_of (Job_ID job) _) with (tasks_of (Job_ID job) db). by rewrite Hnil. }
  rewrite Hf in Hfin. destruct Hfin as (-> & Hk & (fin & upd & Hdb) & Hh).
  exists fin, upd, (w_tick w2). destruct w2 as [db2 k2 h2 n2]. cbn in *. subst. rewrite Hcfg, Hw. do 2 f_equal.
  unfold update_jobs, update_where. cbn. f_equal. rewrite map_map. apply map_ext. intros j.
  destruct (job_has_id (Job_ID job) j) eqn:Hj; [|by rewrite Hj].
  change (job_has_id (Job_ID job) (row_started s u j)) with (job_has_id (Job_ID job) j). by rewrite Hj.
Qed.

Lemma run_executeJobFlow_empty jobs E w cfg job :
  reliable E -> Job_Status job = JobStatusPending -> jobs !! Job_Name job = Some cfg ->
  List.filter (job_has_id (Job_ID job)) (db_jobs (w_db w)) = [job] -> tasks_of (Job_ID job) (w_db w) = [] ->
  exists job' started upd now fin upd' n,
    run E (executeJobFlow jobs job [] cfg) w =
    (mkWorld (update_jobs (job_has_id (Job_ID job))
                (fun j => finalized JobStatusCompleted fin upd' (row_started started upd j))
                (after_cancel cfg job now (w_db w)))
       (w_kafka w)
       (w_hooks w ++ [OnJobFinished (Job_Name job) (default ""%string (Job_UniqueReferenceID job)) JobStatusCompleted 0]) n,
     (job', None)) /\
    Job_Status job' = JobStatusRunning.
Proof.
  intros HE Hst Hcfg Hone Hnil. unfold executeJobFlow, Job_IsExecutionPending, Job_IsRunning.
  rewrite Hst. cbn [negb].
  change (contains NonTerminalJobStates JobStatusPending) with true.
  change (bool_decide (JobStatusPending = JobStatusRunning)) with false. cbn [negb].
  rewrite run_bind. unfold publishTasks at 1 2. rewrite run_Ret. cbn [fst snd].
  destruct (run_cancel_then_start E w cfg job HE Hst) as (job' & s & u & now & n & Hrun & Hs & Hid & _).
  rewrite run_bind in Hrun |- *. rewrite run_bind, Hrun. cbn [fst snd].
  rewrite run_bind, Hid.
  edestruct (run_finalize_started jobs E) as (fin & upd' & n' & ->);
    [done|done| | |reflexivity|]; cbn [fst snd w_db w_kafka w_hooks].
  { by rewrite after_cancel_self. }
  { by apply after_cancel_no_tasks. }
  rewrite run_Ret. by exists job', s, u, now, fin, upd', n'.
Qed.
End run_lemmas.

(** [executeJob] around its flow. *)
Lemma run_executeJob `{UuidText} `{Fsm} `{Pgtype} `{FloatConv} jobs E w name ref metadata cfg job ts w1 :
  jobs !! name = Some cfg ->
  run E (prepareJobAndTasks cfg metadata ref) (tick w) = (w1, Ok (job, ts)) ->
  run E (executeJob jobs name ref metadata) w =
  let '(w2, (job', err)) := run E (executeJobFlow jobs job ts cfg) w1 in
  let status :=
    match err with
    | Some _ => JobStatusFailed
    | None => if negb (Job_IsExecutionPending job') then Job_Status job' else JobStatusRunning
    end in
  (mkWorld (w_db w2) (w_kafka w2)
     (w_hooks w2 ++ [OnJobFinished name ref status (Sub (env_now E (w_tick w2)) (env_now E (w_tick w)))])
     (2 + w_tick w2), err).
Proof.
  intros Hcfg Hprep. unfold executeJob. rewrite run_bind, run_Now. cbn [fst snd].
  rewrite Hcfg, run_bind, Hprep. cbn [fst snd]. rewrite run_bind.
  by destruct (run E (executeJobFlow jobs job ts cfg) w1) as [w2 [job' err]].
Qed.

Lemma tick_triggerable `{Pgtype} `{Codec} E jobs w name ref metadata cfg data :
  triggerable E jobs (w_db w) name ref metadata cfg data ->
  triggerable E jobs (w_db (tick w)) name ref metadata cfg data.
Proof. done. Qed.

Lemma IsTriggerFailureJob_stored `{PgtypeLaws} metadata ref phase e b job :
  let m := triggerFailureMetadata metadata ref phase e in
  json_encodable (gomap_value (Some m)) = true -> JSONB_Set (Some m) = Ok b -> Job_Metadata job = b ->
  IsTriggerFailureJob (Some job) = true.
Proof.
  intros m Henc Hset Hmeta. rewrite (JSONB_Set_Present _ Henc) in Hset.
  assert (mkJSONB Present (JDoc (json_norm (gomap_value (Some m)))) = b) as <- by congruence. clear Hset.
  assert (Hm : m !! metadataTriggerFailure = Some (VBool true)).
  { subst m. unfold triggerFailureMetadata. case_match; by simplify_map_eq. }
  unfold IsTriggerFailureJob, Job_MetadataMap. rewrite Hmeta. cbn [JSONB_Status JSONB_Bytes].
  change (bool_decide (Present = Present)) with true. cbn [negb orb].
  destruct (json_Unmarshal_map (JDoc (json_norm (gomap_value (Some m))))) as [m'|] eqn:Hun; [|done].
  pose proof (json_Unmarshal_norm_lookup m metadataTriggerFailure (VBool true) m' Hm Hun) as Hl.
  destruct m' as [m'|]; [|done].
  change (lookup_true (Some m') metadataTriggerFailure = true). unfold lookup_true. by rewrite Hl.
Qed.

Lemma run_triggerFailed `{UuidText} `{Fsm} `{Pgtype} `{FloatConv} E w job ref metadata phase e b :
  reliable E -> List.filter (has_ref ref) (db_jobs (w_db w)) = [] ->
  Job_ID job ∉ map Job_ID (db_jobs (w_db w)) ->
  JSONB_Set (Some (triggerFailureMetadata metadata ref phase e)) = Ok b ->
  job_fits (Job_set_Status JobStatusFailed (Job_set_Metadata b job)) = true ->
  exists row n,
    run E (triggerFailed job ref metadata phase e) w =
    (mkWorld (mkDB (db_jobs (w_db w) ++ if shouldPersistTriggerFailure metadata then [row] else [])
                (db_tasks (w_db w))) (w_kafka w) (w_hooks w) n, Err e) /\
    Job_ID row = Job_ID job /\ Job_Name row = Job_Name job /\
    Job_UniqueReferenceID row = Job_UniqueReferenceID job /\ Job_Status row = JobStatusFailed /\
    Job_Metadata row = b.
Proof.
  intros HE Hnone Hid Hb Hfit. unfold triggerFailed. destruct (shouldPersistTriggerFailure metadata).
  - unfold persistTriggerFailure. rewrite run_bind, run_try, run_find_ref_none by done. cbn [fst snd].
    unfold Job_SetMetadata. rewrite Hb, run_bind, run_Now. cbn [fst snd]. rewrite run_try.
    set (job' := Job_set_Status _ _).
    edestruct (run_CreateJobAndTasks E (tick (tick w)) job' [] HE) as (now & ->);
      [intros; by apply job_fits_defaults|constructor|done|constructor|by intros t ?%elem_of_nil|].
    cbn [fst snd run]. do 2 eexists. split; [by rewrite app_nil_r|].
    destruct (job_defaults_fields now job') as (Hn & Hu & _ & Hm & _ & Hs & _ & _).
    by rewrite job_defaults_ID, Hn, Hu, Hs, Hm.
  - exists (Job_set_Status JobStatusFailed (Job_set_Metadata b job)), (w_tick w). rewrite app_nil_r.
    split; [|by destruct job]. cbn. by destruct w as [[] ? ? ?].
Qed.

Lemma run_prepare_failing `{UuidText} `{Fsm} `{PgtypeLaws} `{FloatConv} E w cfg ref metadata b x e :
  reliable E -> fresh_uuids E (w_db w) -> List.filter (has_ref ref) (db_jobs (w_db w)) = [] ->
  is_Ok (JSONB_Set metadata) -> switched E cfg b ->
  Cfg_JobExecutor cfg = Some x -> (forall n, env_job_execute E n x metadata = Err e) ->
  json_encodable (gomap_value (Some (triggerFailureMetadata metadata ref "job_executor" e))) = true ->
  job_columns cfg (Cfg_Name cfg) ref = true ->
  exists row n,
    run E (prepareJobAndTasks cfg metadata ref) w =
    (mkWorld (mkDB (db_jobs (w_db w) ++ if shouldPersistTriggerFailure metadata then [row] else [])
                (db_tasks (w_db w))) (w_kafka w) (w_hooks w) n, Err e) /\
    Job_Name row = Cfg_Name cfg /\ Job_UniqueReferenceID row = Some ref /\
    Job_Status row = JobStatusFailed /\ IsTriggerFailureJob (Some row) = true.
Proof.
  intros HE Hfresh Hnone [meta Hmeta] Hb Hx Hfail Henc [[Hcn Hcr]%andb_true_iff Hcm]%andb_true_iff.
  unfold prepareJobAndTasks. rewrite run_try, run_find_ref_none by done. cbn [fst snd].
  rewrite run_bind, run_NewUUID. cbn [fst snd]. set (id := env_uuid E _).
  rewrite run_bind. destruct (run_IsEnabled E (tick (tick w)) cfg b Hb) as [n ->]. cbn [fst snd].
  set (job0 := setInitialJobStatus _ b). unfold Job_SetMetadata. rewrite Hmeta.
  set (job1 := Job_set_Metadata meta job0).
  unfold cfg_JobExecute. rewrite Hx, run_bind, run_call. cbn [interp fst snd]. rewrite Hfail.
  set (w1 := tick (ticks n (tick (tick w)))).
  pose proof (JSONB_Set_Present _ Henc) as Hset.
  assert (Hjid : Job_ID job1 ∉ map Job_ID (db_jobs (w_db w1))).
  { assert (Job_ID job1 = id) as -> by by destruct b. apply Hfresh. }
  destruct (run_triggerFailed E w1 job1 ref metadata "job_executor" e _ HE Hnone Hjid Hset)
    as (row & n2 & -> & _ & Hn & Hr & Hs & Hm).
  { unfold job_fits. rewrite !andb_true_iff. by destruct b; split_and!. }
  exists row, n2. splits; [done| | |done|].
  - rewrite Hn. by destruct b.
  - rewrite Hr. by destruct b.
  - by eapply IsTriggerFailureJob_stored.
Qed.

Lemma executeJob_trigger_failure_lemma `{UuidText} `{FsmLaws} `{PgtypeLaws} `{FloatConv} E w jobs name ref metadata cfg x e :
  reliable E -> fresh_uuids E (w_db w) -> jobs !! name = Some cfg -> Cfg_Name cfg = name ->
  List.filter (has_ref ref) (db_jobs (w_db w)) = [] -> is_Ok (JSONB_Set metadata) ->
  (exists b, switched E cfg b) ->
  Cfg_JobExecutor cfg = Some x -> (forall n, env_job_execute E n x metadata = Err e) ->
  json_encodable (gomap_value (Some (triggerFailureMetadata metadata ref "job_executor" e))) = true ->
  job_columns cfg name ref = true ->
  exists row d,
    let '(w', err) := run E (executeJob jobs name ref metadata) w in
    err = Some e /\ w_kafka w' = w_kafka w /\
    w_db w' = mkDB (db_jobs (w_db w) ++ if shouldPersistTriggerFailure metadata then [row] else []) (db_tasks (w_db w)) /\
    Job_Status row = JobStatusFailed /\ Job_Name row = name /\ Job_UniqueReferenceID row = Some ref /\
    IsTriggerFailureJob (Some row) = true /\
    w_hooks w' = w_hooks w ++ [OnJobFinished name ref JobStatusFailed d].
Proof.
  intros HE Hfresh Hcfg Hname Hnone [meta Hmeta] [b Hb] Hx Hfail Henc Hcol. rewrite <- Hname in Hcol.
  unfold executeJob. rewrite run_bind, run_Now. cbn [fst snd]. rewrite Hcfg, run_bind.
  destruct (run_prepare_failing E (tick w) cfg ref metadata b x e HE Hfresh Hnone (ex_intro _ meta Hmeta) Hb Hx Hfail Henc Hcol)
    as (row & n2 & -> & Hn & Hr & Hs & Hm).
  cbn [fst snd]. rewrite run_bind, run_Since. cbn [fst snd]. rewrite run_bind, run_hook, run_Ret.
  exists row. eexists. cbn [w_db w_kafka w_hooks]. splits; try done. by rewrite Hn.
Qed.

(** A trigger with at least one item, with the identifiers of the rows it inserts. *)
Lemma executeJob_starts_lemma `{UuidText} `{FsmLaws} `{PgtypeLaws} `{FloatConv} `{Codec} E w jobs name ref metadata cfg data :
  reliable E -> triggerable E jobs (w_db w) name ref metadata cfg data -> switched E cfg true ->
  data ≠ [] ->
  exists job ts started upd now d,
    let '(w', err) := run E (executeJob jobs name ref metadata) w in
    err = None /\
    new_row (w_db w) name ref JobStatusPending metadata cfg job /\
    tasks_for job TaskStatusPending 0 data ts /\
    ((exists m, Job_ID job = env_uuid E m) /\ NoDup (map Task_ID ts) /\
     forall t, t ∈ ts -> Task_ID t ∉ map Task_ID (db_tasks (w_db w))) /\
    (rows_ok E job ts /\ reading E started /\ reading E upd) /\
    w_db w' = update_jobs (job_has_id (Job_ID job)) (row_started started upd)
                (after_cancel cfg job now (mkDB (db_jobs (w_db w) ++ [job]) (db_tasks (w_db w) ++ ts))) /\
    w_kafka w' = w_kafka w ++ omap (task_message (Kafka_TaskTopic (Cfg_Kafka cfg))) ts /\
    w_hooks w' = w_hooks w ++
      [OnTasksPublished name (Z.of_nat (length data)); OnJobFinished name ref JobStatusRunning d].
Proof.
  intros HE Htr Hb Hne.
  destruct (run_prepareJobAndTasks E (tick w) jobs name ref metadata cfg data true HE
              (tick_triggerable _ _ _ _ _ _ _ _ Htr) Hb) as (job & ts & n & Hprep & Hrow & Hts & Hm & Hnd & Hnew & Hok).
  pose proof (tasks_for_length _ _ _ _ _ Hts) as Hlen.
  set (w1 := mkWorld _ _ _ n) in Hprep.
  destruct (run_executeJobFlow_tasks jobs E w1 cfg job ts HE (trigger_publisher _ _ _ _ _ _ _ _ Htr)
              (new_row_status _ _ _ _ _ _ _ Hrow)) as (job' & s & u & now & n2 & Hflow & Hst & Hrd).
  { intros ->. by destruct data. }
  rewrite (run_executeJob jobs E w name ref metadata cfg job ts w1 (trigger_cfg _ _ _ _ _ _ _ _ Htr) Hprep).
  rewrite Hflow. cbn [w_db w_kafka w_hooks w_tick].
  exists job, ts, s, u, now. eexists. split; [done|]. split; [exact Hrow|]. split; [exact Hts|].
  split; [done|]. split; [done|]. splits; [done|done|].
  unfold Job_IsExecutionPending. rewrite Hst, Hlen, (trigger_name _ _ _ _ _ _ _ _ Htr), <- app_assoc. done.
Qed.

(** The sample trigger the witnesses use. *)
Definition trigger_env (data : list TaskData) : env := sample_env (fun _ => Ok data) (fun _ _ _ => Ok None).

Lemma sample_triggerable data exec jobs tasks :
  (forall j, j ∈ jobs -> (Job_ID j < 100)%N) ->
  (forall t, t ∈ tasks -> (Task_ID t < 100)%N /\ (Task_JobID t < 100)%N) ->
  List.filter (has_ref "new") jobs = [] ->
  Forall (@encodable sample_pgtype) data -> Forall (fun d => item_columns d = true) data ->
  Z.of_nat (length data) <= 2 ^ 31 ->
  @triggerable sample_pgtype sample_codec (sample_env (fun _ => Ok data) exec) sample_jobs (mkDB jobs tasks)
    "job" "new" None sample_cfg data.
Proof.
  intros Hj Ht Hnew Hdata Hitems Hcount.
  assert (Hout : forall {A} (key : A -> uuid) l n, (forall x, x ∈ l -> (key x < 100)%N) ->
            N.of_nat (100 + n) ∉ map key l).
  { intros A key l n Hl Hin. apply list_elem_of_In, in_map_iff in Hin as (x & Hx & Hin).
    apply list_elem_of_In, Hl in Hin. lia. }
  split; try done.
  - split; cbn [env_uuid trigger_env sample_env db_jobs db_tasks].
    + lia.
    + intros n. by apply Hout.
    + intros n. apply Hout. intros t Hin. by apply Ht.
    + intros n. apply Hout. intros t Hin. by apply Ht.
  - by eexists.
  - exists 0%nat. by split.
  - by eexists.
Qed.

(** ** Properties *)

(** A trigger whose split is empty leaves the job COMPLETED, but reports it
    twice: first COMPLETED, by the completion check, then RUNNING. *)
Theorem executeJob_empty `{UuidText} `{FsmLaws} `{PgtypeLaws} `{FloatConv} `{Codec} E w jobs name ref metadata cfg :
  reliable E -> triggerable E jobs (w_db w) name ref metadata cfg [] -> switched E cfg true ->
  exists job started upd now fin upd' d,
    let '(w', err) := run E (executeJob jobs name ref metadata) w in
    err = None /\
    new_row (w_db w) name ref JobStatusPending metadata cfg job /\
    w_db w' = update_jobs (job_has_id (Job_ID job))
                (fun j => finalized JobStatusCompleted fin upd' (row_started started upd j))
                (after_cancel cfg job now (mkDB (db_jobs (w_db w) ++ [job]) (db_tasks (w_db w)))) /\
    w_kafka w' = w_kafka w /\
    w_hooks w' = w_hooks w ++
      [OnJobFinished name ref JobStatusCompleted 0; OnJobFinished name ref JobStatusRunning d].
Proof.
  intros HE Htr Hb.
  destruct (run_prepareJobAndTasks E (tick w) jobs name ref metadata cfg [] true HE
              (tick_triggerable _ _ _ _ _ _ _ _ Htr) Hb) as (job & ts & n & Hprep & Hrow & Hts & (m & Hm) & _).
  destruct ts as [|]; [|done]. rewrite app_nil_r in Hprep.
  set (w1 := mkWorld _ _ _ n) in Hprep.
  destruct Htr as [Hfresh Hcfg _ _ _ _ _ _ _ _ _ _].
  destruct (run_executeJobFlow_empty jobs E w1 cfg job HE (new_row_status _ _ _ _ _ _ _ Hrow))
    as (job' & s & u & now & fin & u' & n2 & Hflow & Hst).
  { by rewrite (new_row_name _ _ _ _ _ _ _ Hrow). }
  { subst w1. cbn [w_db db_jobs]. rewrite List.filter_app. cbn.
    rewrite (proj2 (job_has_id_true _ _)) by done.
    assert (List.filter (job_has_id (Job_ID job)) (db_jobs (w_db w)) = []) as ->; [|done].
    apply filter_none. intros j Hj. apply job_has_id_false. intros Heq.
    apply (new_row_id _ _ _ _ _ _ _ Hrow). cbn. rewrite <- Heq. by apply list_elem_of_In, in_map, list_elem_of_In. }
  { subst w1. unfold tasks_of. cbn. apply filter_none. intros t Ht. apply N.eqb_neq. rewrite Hm. intros Heq.
    apply (fresh_owner _ _ Hfresh m). rewrite <- Heq. by apply list_elem_of_In, in_map, list_elem_of_In. }
  rewrite (run_executeJob jobs E w name ref metadata cfg job [] w1 Hcfg Hprep).
  rewrite Hflow. cbn [w_db w_kafka w_hooks w_tick].
  exists job, s, u, now, fin, u'. eexists. splits; [done|exact Hrow|done|done|].
  unfold Job_IsExecutionPending. rewrite Hst, (new_row_name _ _ _ _ _ _ _ Hrow), (new_row_ref _ _ _ _ _ _ _ Hrow).
  by rewrite <- app_assoc.
Qed.

Theorem executeJob_empty_witness :
  exists job started upd fin upd' d,
    let '(w', err) := run (trigger_env []) (@executeJob sample_uuid_text sample_fsm sample_pgtype
                             sample_float_conv sample_jobs "job" "new" None) (sample_world [] []) in
    err = None /\
    w_db w' = update_jobs (job_has_id (Job_ID job))
                (fun j => finalized JobStatusCompleted fin upd' (row_started started upd j)) (mkDB [job] []) /\
    w_hooks w' = [OnJobFinished "job" "new" JobStatusCompleted 0; OnJobFinished "job" "new" JobStatusRunning d].
Proof.
  assert (@triggerable sample_pgtype sample_codec (trigger_env []) sample_jobs (mkDB [] []) "job" "new" None
            sample_cfg []) as Htr.
  { apply sample_triggerable; [| |done|constructor|constructor|done]; intros ? []%elem_of_nil. }
  destruct (@executeJob_empty sample_uuid_text sample_fsm sample_fsm_laws sample_pgtype sample_pgtype_laws sample_float_conv
              sample_codec (trigger_env []) (sample_world [] []) sample_jobs "job" "new" None sample_cfg
              (sample_env_reliable _ _) Htr eq_refl)
    as (job & s & u & now & fin & u' & d & Hspec).
  exists job, s, u, fin, u', d. destruct (run _ _ _) as [w' err].
  destruct Hspec as (He & _ & Hdb & _ & Hh). by splits.
Defined.

(** A trigger of a disabled job records the job and its tasks as REJECTED and
    publishes nothing. *)
Theorem executeJob_disabled `{UuidText} `{FsmLaws} `{PgtypeLaws} `{FloatConv} `{Codec} E w jobs name ref metadata cfg data :
  reliable E -> triggerable E jobs (w_db w) name ref metadata cfg data -> switched E cfg false ->
  exists job ts upd d,
    let '(w', err) := run E (executeJob jobs name ref metadata) w in
    err = None /\
    new_row (w_db w) name ref JobStatusRejected metadata cfg job /\
    tasks_for job TaskStatusRejected 0 data ts /\
    w_db w' = update_tasks (task_of_job (Job_ID job)) (Task_UpdateStatus TaskStatusRejected upd)
                (mkDB (db_jobs (w_db w) ++ [job]) (db_tasks (w_db w) ++ ts)) /\
    w_kafka w' = w_kafka w /\
    w_hooks w' = w_hooks w ++ [OnJobFinished name ref JobStatusRejected d].
Proof.
  intros HE Htr Hb.
  destruct (run_prepareJobAndTasks E (tick w) jobs name ref metadata cfg data false HE
              (tick_triggerable _ _ _ _ _ _ _ _ Htr) Hb) as (job & ts & n & Hprep & Hrow & Hts & _).
  rewrite (run_executeJob jobs E w name ref metadata cfg job ts _ (trigger_cfg _ _ _ _ _ _ _ _ Htr) Hprep).
  unfold executeJobFlow, Job_IsExecutionPending. rewrite (new_row_status _ _ _ _ _ _ _ Hrow).
  change (contains NonTerminalJobStates JobStatusRejected) with false. cbn [negb].
  unfold UpdateTasksStatusByJobID. run_go HE. cbn [exec_update_tasks fst snd].
  rewrite (new_row_status _ _ _ _ _ _ _ Hrow).
  change (contains NonTerminalJobStates JobStatusRejected) with false. cbn [negb].
  exists job, ts. do 2 eexists. by splits.
Qed.

Definition disabled_cfg : JobConfig :=
  mkJobConfig "job" (Some 0%nat) (Some 0%nat) (Cfg_Kafka sample_cfg) "* * * * *" (mkRetryConfig 3 1000) false
    (Some 7%nat) NopHooks (Some (@NewTaskPublisher sample_codec)) None None "* * * * *".

Definition disabled_env (data : list TaskData) : env :=
  mkEnv (env_now (trigger_env data)) (env_uuid (trigger_env data)) (fun _ => SqlDone) (fun _ => WriteDone)
    (fun _ _ _ => Ok data) (fun _ _ _ => Ok None) (fun _ _ => false).

Theorem executeJob_disabled_witness :
  let data := [mkTaskData "a" None "k"] in
  let jobs := {["job"%string := disabled_cfg]} in
  exists job ts upd d,
    let '(w', err) := run (disabled_env data) (@executeJob sample_uuid_text sample_fsm sample_pgtype
                             sample_float_conv jobs "job" "new" None) (sample_world [] []) in
    err = None /\ Job_Status job = JobStatusRejected /\ length ts = 1%nat /\
    w_db w' = update_tasks (task_of_job (Job_ID job)) (Task_UpdateStatus TaskStatusRejected upd) (mkDB [job] ts) /\
    w_hooks w' = [OnJobFinished "job" "new" JobStatusRejected d].
Proof.
  intros data jobs.
  assert (@triggerable sample_pgtype sample_codec (disabled_env data) jobs (mkDB [] []) "job" "new" None
            disabled_cfg data) as Htr.
  { destruct (sample_triggerable data (fun _ _ _ => Ok None) [] []) as [Hf _ _ _ _ _ _ Hp _ Hcol Hit _];
      [by intros ? []%elem_of_nil|by intros ? []%elem_of_nil|done|repeat constructor; by eexists|by repeat constructor|done|].
    split; try done.
    - destruct Hf. by split.
    - by eexists.
    - exists 0%nat. by split.
    - by eexists. }
  destruct (@executeJob_disabled sample_uuid_text sample_fsm sample_fsm_laws sample_pgtype sample_pgtype_laws sample_float_conv
              sample_codec (disabled_env data) (sample_world [] []) jobs "job" "new" None disabled_cfg data
              ltac:(done) Htr ltac:(done))
    as (job & ts & upd & d & Hspec).
  exists job, ts, upd, d. destruct (run _ _ _) as [w' err].
  destruct Hspec as (He & Hrow & Hts & Hdb & _ & Hh). splits; [exact He| | |exact Hdb|exact Hh].
  - exact (new_row_status _ _ _ _ _ _ _ Hrow).
  - exact (tasks_for_length _ _ _ _ _ Hts).
Defined.

(** A trigger that finds its reference on a job that is over. *)
Lemma run_executeJob_over `{UuidText} `{FsmLaws} `{Pgtype} `{FloatConv} E w jobs name ref metadata cfg job :
  reliable E -> jobs !! name = Some cfg ->
  pick newest_first (List.filter (has_ref ref) (db_jobs (w_db w))) = Some job -> Job_IsExecutionPending job = false ->
  exists upd d n,
    run E (executeJob jobs name ref metadata) w =
    (mkWorld (update_tasks (task_of_job (Job_ID job)) (Task_UpdateStatus (Job_Status job) upd) (w_db w))
       (w_kafka w) (w_hooks w ++ [OnJobFinished name ref (Job_Status job) d]) n, None).
Proof.
  intros HE Hcfg Hpick Hover.
  assert (Hprep : run E (prepareJobAndTasks cfg metadata ref) (tick w) =
                  (ticks 3 w, Ok (job, tasks_of (Job_ID job) (w_db w)))).
  { unfold prepareJobAndTasks. by rewrite run_try, (run_find_ref_some E (tick w) ref job HE Hpick). }
  rewrite (run_executeJob jobs E w name ref metadata cfg job _ _ Hcfg Hprep).
  unfold executeJobFlow. rewrite Hover. cbn [negb]. unfold UpdateTasksStatusByJobID. run_go HE.
  cbn [exec_update_tasks fst snd]. rewrite Hover. cbn [negb]. by eexists _, _, _.
Qed.

(** C27: a trigger repeated with a reference that already has a job makes no second
    job.  A RUNNING job is left as it is (and reported RUNNING once more); a job that
    is over is reported with its status, and every one of its tasks, COMPLETED ones
    included, gets the job's status; a PENDING job, whose first trigger did not get to
    its start, has its tasks published again and is started. *)
Theorem executeJob_existing `{UuidText} `{FsmLaws} `{Pgtype} `{FloatConv} `{Codec} E w jobs name ref metadata cfg job :
  reliable E -> jobs !! name = Some cfg -> Cfg_Publisher cfg = Some NewTaskPublisher ->
  pick newest_first (List.filter (has_ref ref) (db_jobs (w_db w))) = Some job ->
  let ts := tasks_of (Job_ID job) (w_db w) in
  (Job_Status job = JobStatusPending -> ts ≠ []) ->
  exists started upd now d,
    let '(w', err) := run E (executeJob jobs name ref metadata) w in
    err = None /\
    if Job_IsRunning job then
      w_db w' = w_db w /\ w_kafka w' = w_kafka w /\
      w_hooks w' = w_hooks w ++ [OnJobFinished name ref JobStatusRunning d]
    else if Job_IsPending job then
      w_db w' = update_jobs (job_has_id (Job_ID job)) (row_started started upd) (after_cancel cfg job now (w_db w)) /\
      w_kafka w' = w_kafka w ++ omap (task_message (Kafka_TaskTopic (Cfg_Kafka cfg))) ts /\
      w_hooks w' = w_hooks w ++
        [OnTasksPublished (Cfg_Name cfg) (Z.of_nat (length ts)); OnJobFinished name ref JobStatusRunning d]
    else
      w_db w' = update_tasks (task_of_job (Job_ID job)) (Task_UpdateStatus (Job_Status job) upd) (w_db w) /\
      w_kafka w' = w_kafka w /\
      w_hooks w' = w_hooks w ++ [OnJobFinished name ref (Job_Status job) d].
Proof.
  intros HE Hcfg Hp Hpick ts Hne.
  assert (Hprep : run E (prepareJobAndTasks cfg metadata ref) (tick w) = (ticks 3 w, Ok (job, ts))).
  { unfold prepareJobAndTasks. by rewrite run_try, (run_find_ref_some E (tick w) ref job HE Hpick). }
  rewrite (run_executeJob jobs E w name ref metadata cfg job ts _ Hcfg Hprep).
  unfold Job_IsRunning, Job_IsPending. case_bool_decide as Hr; [|case_bool_decide as Hpd].
  - assert (Job_IsExecutionPending job = true) as Hpend by (unfold Job_IsExecutionPending; by rewrite Hr).
    unfold executeJobFlow, Job_IsRunning. rewrite Hpend, bool_decide_eq_true_2 by done.
    cbn [negb run]. rewrite Hpend. exists 0, 0, 0. eexists. by splits.
  - destruct (run_executeJobFlow_tasks jobs E (ticks 3 w) cfg job ts HE Hp Hpd (Hne Hpd))
      as (job' & s & u & now & n & -> & Hst & _).
    exists s, u, now. eexists. unfold Job_IsExecutionPending. rewrite Hst. cbn.
    by rewrite <- app_assoc.
  - assert (Job_IsExecutionPending job = false) as Hover.
    { unfold Job_IsExecutionPending. apply bool_decide_eq_false_2. intros [?|?%list_elem_of_singleton]%elem_of_cons; done. }
    destruct (run_executeJob_over E w jobs name ref metadata cfg job HE Hcfg Hpick Hover) as (upd & d & n & Hrun).
    rewrite <- (run_executeJob jobs E w name ref metadata cfg job ts _ Hcfg Hprep), Hrun.
    exists 0, upd, 0, d. by splits.
Qed.

Theorem executeJob_existing_witness :
  let job := sample_job 1 JobStatusPartialFailed in
  let w := sample_world [job] [sample_row 2 1 TaskStatusCompleted 1; sample_row 3 1 TaskStatusMaxRetriesExhausted 3] in
  exists upd d,
    let '(w', err) := run env_ok (@executeJob sample_uuid_text sample_fsm sample_pgtype
                             sample_float_conv sample_jobs "job" "ref" None) w in
    err = None /\
    w_db w' = update_tasks (task_of_job 1) (Task_UpdateStatus JobStatusPartialFailed upd) (w_db w) /\
    map Task_Status (db_tasks (w_db w')) = [JobStatusPartialFailed; JobStatusPartialFailed] /\
    w_hooks w' = [OnJobFinished "job" "ref" JobStatusPartialFailed d].
Proof.
  intros job w.
  destruct (@executeJob_existing sample_uuid_text sample_fsm sample_fsm_laws sample_pgtype sample_float_conv
              sample_codec env_ok w sample_jobs "job" "ref" None sample_cfg job env_ok_reliable eq_refl eq_refl
              eq_refl ltac:(done)) as (s & upd & now & d & Hspec).
  exists upd, d. destruct (run _ _ _) as [w' err].
  destruct Hspec as (He & Hdb & _ & Hh). splits; [exact He|exact Hdb| |exact Hh].
  by rewrite Hdb.
Defined.

(** The values [asynq.GetRetryCount] and [asynq.GetMaxRetry] in a trigger's metadata: how
    often the trigger was retried so far, and how often it is at most. *)
Definition asynq_attempt (metadata : gomap) (retried max : Z) : Prop :=
  gomap_lookup metadata "asynq_retry_count" = Some (VInt retried) /\
  gomap_lookup metadata "asynq_max_retry" = Some (VInt max).

(** C32: a trigger whose JobExecutor fails makes no task, returns the error and is
    reported FAILED.  It leaves a row ([kept]) or none: none on an attempt of the scheduler
    after which asynq will retry (fewer retries so far than the most it makes), one on the
    last attempt, and one when the trigger did not come from the scheduler (no maximum in its
    metadata).  The row is a FAILED job with the reference and with metadata that
    [IsTriggerFailureJob] recognises after the JSON round trip. *)
Theorem executeJob_trigger_failure `{UuidText} `{FsmLaws} `{PgtypeLaws} `{FloatConv} E w jobs name ref metadata cfg x e :
  reliable E -> fresh_uuids E (w_db w) -> jobs !! name = Some cfg -> Cfg_Name cfg = name ->
  List.filter (has_ref ref) (db_jobs (w_db w)) = [] -> is_Ok (JSONB_Set metadata) ->
  (exists b, switched E cfg b) ->
  Cfg_JobExecutor cfg = Some x -> (forall n, env_job_execute E n x metadata = Err e) ->
  json_encodable (gomap_value (Some (triggerFailureMetadata metadata ref "job_executor" e))) = true ->
  job_columns cfg name ref = true ->
  exists kept row d,
    let '(w', err) := run E (executeJob jobs name ref metadata) w in
    err = Some e /\ w_kafka w' = w_kafka w /\
    w_db w' = mkDB (db_jobs (w_db w) ++ if kept : bool then [row] else []) (db_tasks (w_db w)) /\
    (forall retried max, asynq_attempt metadata retried max -> kept = true <-> max <= retried) /\
    (gomap_lookup metadata "asynq_max_retry" = None -> kept = true) /\
    Job_Status row = JobStatusFailed /\ Job_Name row = name /\ Job_UniqueReferenceID row = Some ref /\
    IsTriggerFailureJob (Some row) = true /\
    w_hooks w' = w_hooks w ++ [OnJobFinished name ref JobStatusFailed d].
Proof.
  intros HE Hfresh Hcfg Hname Hnone Hmeta Hb Hx Hfail Henc Hcol.
  destruct (executeJob_trigger_failure_lemma E w jobs name ref metadata cfg x e HE Hfresh Hcfg Hname Hnone Hmeta Hb Hx
              Hfail Henc Hcol) as (row & d & Hrun).
  exists (shouldPersistTriggerFailure metadata), row, d. destruct (run _ _ w) as [w' err].
  destruct Hrun as (-> & Hk & Hdb & Hs & Hn & Hr & Hm & Hh). splits; try done.
  - intros retried max [Hc Hmax]. unfold shouldPersistTriggerFailure, metadataInt, metadataAsynqMaxRetry, metadataAsynqRetryCnt.
    rewrite Hc, Hmax. apply Z.leb_le.
  - intros Hmax. unfold shouldPersistTriggerFailure, metadataInt, metadataAsynqMaxRetry. by rewrite Hmax.
Qed.

Definition failing_trigger_env : env :=
  mkEnv (env_now env_ok) (env_uuid env_ok) (fun _ => SqlDone) (fun _ => WriteDone)
    (fun _ _ _ => Err (ErrForeign "no rows")) (fun _ _ _ => Ok None) (fun _ _ => true).

(** The second of three retries leaves nothing, the third a row. *)
Theorem executeJob_trigger_failure_witness :
  let attempt n := Some (<["asynq_retry_count" := VInt n]> (<["asynq_max_retry" := VInt 3]> ∅) : gmap string value) in
  let after n := run failing_trigger_env (@executeJob sample_uuid_text sample_fsm sample_pgtype
                   sample_float_conv sample_jobs "job" "new" (attempt n)) (sample_world [] []) in
  w_db (after 2).1 = mkDB [] [] /\
  exists row, (after 3).2 = Some (ErrForeign "no rows") /\ w_db (after 3).1 = mkDB [row] [] /\
    Job_Status row = JobStatusFailed /\ IsTriggerFailureJob (Some row) = true.
Proof.
  intros attempt after.
  assert (forall n, exists kept row d, let '(w', err) := after n in
    err = Some (ErrForeign "no rows") /\ w_kafka w' = [] /\
    w_db w' = mkDB (if kept : bool then [row] else []) [] /\
    (forall retried max, asynq_attempt (attempt n) retried max -> kept = true <-> max <= retried) /\
    (gomap_lookup (attempt n) "asynq_max_retry" = None -> kept = true) /\
    Job_Status row = JobStatusFailed /\ Job_Name row = "job"%string /\ Job_UniqueReferenceID row = Some "new"%string /\
    IsTriggerFailureJob (Some row) = true /\ w_hooks w' = [OnJobFinished "job" "new" JobStatusFailed d]) as Hspec.
  { intros n. apply (@executeJob_trigger_failure sample_uuid_text sample_fsm sample_fsm_laws sample_pgtype
              sample_pgtype_laws sample_float_conv failing_trigger_env (sample_world [] []) sample_jobs
              "job" "new" (attempt n) sample_cfg 0%nat (ErrForeign "no rows"));
      try reflexivity; [by split|split; cbn; [lia|intros m []%elem_of_nil..]|by eexists|by exists true]. }
  split.
  - destruct (Hspec 2) as (kept & row & d & Hs). destruct (after 2) as [w' err].
    destruct Hs as (_ & _ & Hdb & Hk & _). destruct kept; [|exact Hdb].
    destruct (Hk 2 3) as [Hle _]; [by split|]. exfalso. specialize (Hle eq_refl). lia.
  - destruct (Hspec 3) as (kept & row & d & Hs). destruct (after 3) as [w' err].
    destruct Hs as (He & _ & Hdb & Hk & _ & Hst & _ & _ & Ht & _). destruct (Hk 3 3) as [_ Hle]; [by split|].
    rewrite Hle in Hdb by lia. exists row. by splits.
Defined.
