(* ===== verification/TaskExecutor.v ===== *)
(** * TaskExecutor: running one task message

    [internal/executor/task_executor.go].  The task is mutated in place as in the
    Go code; a database error after the caller's executor ran is logged (where the
    code logs it) and changes nothing else. *)
From S2P Require Import Prelude Go Domain Effects Repository JobConfig Transport Instances Lifecycle.
From S2P Require Import JobExecutor.

Definition isNoTransition (err : error) : bool :=
  match errors_As_NoTransition err with
  | Some None => true
  | _ => false
  end.

Definition taskFinishUpdates (task : Task) (updates : list task_column) :
    prog (Task * list task_column) :=
  now ← Now;
  let task := Task_set_FinishedAt (Some now) task in
  let updates := updates ++ [TaskCol_finished_at now] in
  match Task_StartedAt task with
  | Some started =>
      let d := Milliseconds (Sub now started) in
      Ret (Task_set_DurationMs (Some d) task, updates ++ [TaskCol_duration_ms d])
  | None => Ret (task, updates)
  end.

(** The result maps: [{"error": nil, "response": output}] and its failure. *)
Definition success_result (output : gomap) : gomap :=
  Some (<["error" := VNil]> (<["response" := gomap_value output]> ∅)).
Definition failure_result (execErr : error) : gomap :=
  Some (<["error" := VString (error_string execErr)]> (<["response" := VNil]> ∅)).

Section execute.
  Context `{UuidText} `{Fsm} `{Pgtype} `{Codec}.
  Context (jobs : gmap string JobConfig).

Definition parseTaskMessage (message : string) : res Task :=
  match json_Unmarshal_Task message with
  | Ok task => Ok task
  | Err e => Err (ErrWrap "unmarshal task" e)
  end.

(** Returns the reloaded task: [*task = *reloaded]. *)
Definition loadJobForTask (task : Task) : prog (res (Task * Job)) :=
  try (FindTaskWithJob (Task_ID task)) (ErrWrap "load task and job") (fun x => Ret (Ok x)).

(** [task.SetResult] with its error logged or ignored. *)
Definition set_result (result : gomap) (task : Task) : Task :=
  match Task_SetResult result task with Ok t => t | Err _ => task end.

(** The update after a start that succeeded or was no transition. *)
Definition markStarted (task : Task) : prog (res Task) :=
  now ← Now;
  let task := Task_set_StartedAt (Some now) task in
  r ← UpdateTask (Task_ID task) [TaskCol_status (Task_Status task); TaskCol_started_at now];
  Ret (result_map (fun _ => task) r).

Definition startTaskExecution (task : Task) : prog (res Task) :=
  '(task, err) ← Task_Start task;
  match err with
  | Some e => if negb (isNoTransition e) then Ret (Err e) else markStarted task
  | None => markStarted task
  end.

Definition completeTask (task : Task) (output : gomap) : prog (res unit) :=
  '(task, err) ← Task_Complete task;
  match err with
  | Some e => Ret (Err (ErrWrap "complete task" e))
  | None =>
      let task := set_result (success_result output) task in
      '(task, updates) ← taskFinishUpdates task
          [TaskCol_status (Task_Status task); TaskCol_result (Task_Result task)];
      UpdateTask (Task_ID task) updates
  end.

Definition updateTaskStatus (task : Task) (status : string) : prog Task :=
  let task := Task_set_Status status task in
  _ ← UpdateTask (Task_ID task) [TaskCol_status status];
  Ret task.

Definition retryTask (task : Task) (execErr : error) (jobCfg : JobConfig) : prog unit :=
  let task := set_result (failure_result execErr) task in
  '(task, err) ← Task_Retry task;
  match err with
  | Some _ => Ret ()
  | None =>
      let task := Task_set_Attempt (wrap64 (Task_Attempt task + 1)) task in
      _ ← UpdateTask (Task_ID task)
            [TaskCol_attempt (Task_Attempt task); TaskCol_result (Task_Result task);
             TaskCol_status (Task_Status task)];
      if bool_decide (Kafka_TaskRetryTopic (Cfg_Kafka jobCfg) = ""%string) then Ret ()
      else
        _ ← cfg_PublishRetryTasks jobCfg [task] (Kafka_TaskRetryTopic (Cfg_Kafka jobCfg))
              (Retry_RetryDelay (Cfg_Retry jobCfg));
        Ret ()
  end.

Definition sendTaskToDLQ (task : Task) (execErr : error) (jobCfg : JobConfig) : prog unit :=
  '(task, _) ← Task_ExhaustRetries task;
  let task := set_result (failure_result execErr) task in
  '(task, updates) ← taskFinishUpdates task
      [TaskCol_result (Task_Result task); TaskCol_status (Task_Status task)];
  _ ← UpdateTask (Task_ID task) updates;
  if bool_decide (Kafka_TaskDLQTopic (Cfg_Kafka jobCfg) = ""%string) then Ret ()
  else
    _ ← cfg_PublishTasks jobCfg [task] (Kafka_TaskDLQTopic (Cfg_Kafka jobCfg));
    Ret ().

Definition handleTaskFailure (task : Task) (execErr : error) (jobCfg : JobConfig) : prog unit :=
  task ← updateTaskStatus task TaskStatusFailed;
  if Task_Attempt task <? Task_MaxRetries task then retryTask task execErr jobCfg
  else sendTaskToDLQ task execErr jobCfg.

Definition failTaskWithResult (task : Task) (execErr : error) : prog unit :=
  let task := Task_set_Status TaskStatusFailed task in
  let task := set_result (failure_result execErr) task in
  '(task, updates) ← taskFinishUpdates task
      [TaskCol_status (Task_Status task); TaskCol_result (Task_Result task)];
  _ ← UpdateTask (Task_ID task) updates;
  Ret ().

Definition cfg_TaskExecute (jobCfg : JobConfig) (params : gomap) : prog (res gomap) :=
  match Cfg_TaskExecutor jobCfg with
  | Some x => call (ETaskExecute x params)
  | None => Ret (Err nil_dereference)
  end.

(** [jobCfg.Hooks.OnTaskFinished(ctx, job.Name, task.ID.String(), status, time.Since(start))]. *)
Definition task_finished (job : Job) (task : Task) (status : string) (start : time) : prog unit :=
  d ← Since start;
  hook (OnTaskFinished (Job_Name job) (uuid_String (Task_ID task)) status d).

(** From [startTaskExecution] on. *)
Definition runTask (jobCfg : JobConfig) (job : Job) (task : Task) (start : time) :
    prog (res unit) :=
  started ← startTaskExecution task;
  match started with
  | Err e => _ ← task_finished job task "error" start; Ret (Err e)
  | Ok task =>
  _ ← hook (OnTaskStarted (Job_Name job) (uuid_String (Task_ID task)) (Task_Attempt task));
  match Task_GetParams task with
  | Err e =>
      let wrappedErr := ErrWrap "get task params" e in
      _ ← failTaskWithResult task wrappedErr;
      Ret (Err wrappedErr)
  | Ok params =>
  executed ← cfg_TaskExecute jobCfg params;
  match executed with
  | Err e =>
      _ ← handleTaskFailure task e jobCfg;
      _ ← task_finished job task TaskStatusFailed start;
      Ret (Ok ())
  | Ok output =>
  completed ← completeTask task output;
  match completed with
  | Err e => _ ← task_finished job task "error" start; Ret (Err e)
  | Ok _ => _ ← task_finished job task TaskStatusCompleted start; Ret (Ok ())
  end end end end.

Definition executeTask (message : string) : prog (res unit) :=
  start ← Now;
  match parseTaskMessage message with
  | Err e => Ret (Err e)
  | Ok task =>
  try (loadJobForTask task) id (fun '(task, job) =>
  match jobs !! Job_Name job with
  | None => Ret (Err (ErrText ("no job config registered for job type: " ++ Job_Name job)))
  | Some jobCfg =>
  if negb (Job_IsExecutionPending job) then
    _ ← updateTasksStatus [task] (Job_Status job);
    _ ← task_finished job task "skipped" start;
    Ret (Ok ())
  else if Task_IsTerminal task then
    _ ← task_finished job task "skipped" start;
    Ret (Ok ())
  else runTask jobCfg job task start
  end)
  end.

Definition ExecuteTask : string -> prog (res unit) := executeTask.
End execute.

(** ** Specification *)

(** The row of a task after a run that started at [started]. *)
Definition row_completed (result : JSONB) (started fin upd : time) (t : Task) : Task :=
  Task_set_UpdatedAt upd
    (Task_set_DurationMs (Some (Milliseconds (Sub fin started)))
       (Task_set_FinishedAt (Some fin)
          (Task_set_StartedAt (Some started)
             (Task_set_Result result (Task_set_Status TaskStatusCompleted t))))).

Definition row_retried (result : JSONB) (started upd : time) (t : Task) : Task :=
  Task_set_UpdatedAt upd
    (Task_set_Attempt (wrap64 (Task_Attempt t + 1))
       (Task_set_StartedAt (Some started)
          (Task_set_Result result (Task_set_Status TaskStatusPending t)))).

Definition row_exhausted (result : JSONB) (started fin upd : time) (t : Task) : Task :=
  Task_set_UpdatedAt upd
    (Task_set_DurationMs (Some (Milliseconds (Sub fin started)))
       (Task_set_FinishedAt (Some fin)
          (Task_set_StartedAt (Some started)
             (Task_set_Result result (Task_set_Status TaskStatusMaxRetriesExhausted t))))).

(** The state in which [executeTask] finds the task of its message. *)
Record delivered `{Codec} (jobs : gmap string JobConfig) (db : DB) (message : string)
    (t : Task) (j : Job) (cfg : JobConfig) : Prop := {
  delivered_message : exists m, json_Unmarshal_Task message = Ok m /\ Task_ID m = Task_ID t;
  delivered_loads : loads db (Task_ID t) t j;
  delivered_cfg : jobs !! Job_Name j = Some cfg;
}.

(** ... and goes on to run it, with executor [x] on [params]. *)
Record runnable `{Codec} `{Pgtype} (jobs : gmap string JobConfig) (db : DB) (message : string)
    (t : Task) (j : Job) (cfg : JobConfig) (x : handle) (params : gomap) : Prop := {
  runnable_delivered : delivered jobs db message t j cfg;
  runnable_job : Job_IsExecutionPending j = true;
  runnable_task : contains [TaskStatusPending; TaskStatusRunning] (Task_Status t) = true;
  runnable_params : Task_GetParams t = Ok params;
  runnable_executor : Cfg_TaskExecutor cfg = Some x;
}.

(** The result column after [SetResult], whose error is not acted on. *)
Definition result_column `{Pgtype} (result : gomap) (t : Task) : JSONB :=
  match JSONB_Set result with Ok b => b | Err _ => Task_Result t end.

(** What a run of a task promises, as a function of the caller's answer. *)
Inductive task_outcome : Type :=
| Completed (output : gomap)
| Retried (e : error)
| Exhausted (e : error).

Definition outcome (t : Task) (answer : res gomap) : task_outcome :=
  match answer with
  | Ok output => Completed output
  | Err e => if Task_Attempt t <? Task_MaxRetries t then Retried e else Exhausted e
  end.

Definition settled_row `{Pgtype} (o : task_outcome) (started fin upd : time) (t : Task) : Task :=
  match o with
  | Completed output => row_completed (result_column (success_result output) t) started fin upd t
  | Retried e => row_retried (result_column (failure_result e) t) started upd t
  | Exhausted e => row_exhausted (result_column (failure_result e) t) started fin upd t
  end.

(** The status OnTaskFinished reports. *)
Definition reported_status (o : task_outcome) : string :=
  match o with Completed _ => TaskStatusCompleted | _ => TaskStatusFailed end.

(** The message a retried task becomes, when it marshals. *)
Definition retry_message `{Codec} (cfg : JobConfig) (t : Task) (now : time) : list Message :=
  match json_Marshal_RetryMessage
          (mkRetryMessage t (Add now (Retry_RetryDelay (Cfg_Retry cfg))) (default ""%string (partitionKey t))) with
  | Ok payload => [mkMessage (Kafka_TaskRetryTopic (Cfg_Kafka cfg)) (partitionKey t) payload]
  | Err _ => []
  end.

(** The messages it publishes; [t'] is the task as it is in memory then. *)
Definition settled_messages `{Codec} (o : task_outcome) (cfg : JobConfig) (t' : Task) (now : time) :
    list Message :=
  let kafka := Cfg_Kafka cfg in
  match o with
  | Completed _ => []
  | Retried _ =>
      if bool_decide (Kafka_TaskRetryTopic kafka = ""%string) then [] else retry_message cfg t' now
  | Exhausted _ =>
      if bool_decide (Kafka_TaskDLQTopic kafka = ""%string) then []
      else omap (task_message (Kafka_TaskDLQTopic kafka)) [t']
  end.

(** The fields of a task in memory that its messages are about. *)
Definition published_as `{Pgtype} (o : task_outcome) (t' t : Task) : Prop :=
  let row := settled_row o 0 0 0 t in
  Task_ID t' = Task_ID t /\ Task_JobID t' = Task_JobID t /\ Task_Params t' = Task_Params t /\
  Task_DistributionKey t' = Task_DistributionKey t /\ Task_MaxRetries t' = Task_MaxRetries t /\
  Task_Attempt t' = Task_Attempt row /\ Task_Result t' = Task_Result row /\
  Task_Status t' = Task_Status row.

(** Kafka delivers a message at least once: [n] deliveries in a row. *)
Fixpoint deliveries `{UuidText} `{Fsm} `{Pgtype} `{Codec} (jobs : gmap string JobConfig)
    (message : string) (n : nat) : prog unit :=
  match n with
  | O => Ret ()
  | S n => _ ← executeTask jobs message; deliveries jobs message n
  end.

(** A task between two deliveries: it can run, or it is over. *)
Record in_flight `{Codec} `{Pgtype} (jobs : gmap string JobConfig) (db : DB) (message : string)
    (t : Task) (j : Job) (cfg : JobConfig) (x : handle) (params : gomap) : Prop := {
  in_flight_delivered : delivered jobs db message t j cfg;
  in_flight_job : Job_IsExecutionPending j = true;
  in_flight_task :
    contains ([TaskStatusPending; TaskStatusRunning] ++ TerminalTaskStates) (Task_Status t) = true;
  in_flight_params : Task_GetParams t = Ok params;
  in_flight_executor : Cfg_TaskExecutor cfg = Some x;
  in_flight_attempt : min_int64 <= Task_Attempt t /\ Task_MaxRetries t <= max_int64;
}.

(** How many more times the executor may be called for a task. *)
Definition budget (t : Task) : Z :=
  if Task_IsTerminal t then 0 else Z.max 1 (Task_MaxRetries t - Task_Attempt t + 1).

Definition is_started (h : hook_call) : bool :=
  match h with OnTaskStarted _ _ _ => true | _ => false end.

(** ** Lemmas *)
Section run_lemmas.
Context `{UuidText} `{FsmLaws} `{Pgtype} `{Codec}.

(** The result column of a row that has one holds a document. *)
Lemma result_column_document result t :
  (forall m b, JSONB_Set m = Ok b -> JSONB_document b = true) -> JSONB_document (Task_Result t) = true ->
  JSONB_document (result_column result t) = true.
Proof. intros Hset Ht. unfold result_column. destruct (JSONB_Set result) eqn:Hs; [by eapply Hset|done]. Qed.

(** What a run makes of a task can be encoded like the task it started from. *)
Definition json_kept (E : env) (t' t : Task) : Prop :=
  (forall n, json_time (env_now E n) = true) -> (forall m b, JSONB_Set m = Ok b -> JSONB_document b = true) ->
  json_task t = true -> json_task t' = true.

Lemma json_kept_trans E t1 t2 t3 : json_kept E t1 t2 -> json_kept E t2 t3 -> json_kept E t1 t3.
Proof. unfold json_kept. eauto. Qed.

Ltac json_kept_go :=
  intros Hclock Hset; unfold json_task; rewrite !andb_true_iff; intros Htask; destruct_and! Htask; cbn;
  split_and!; first [done | apply Hclock | by apply result_column_document].

(** The fields a run keeps. *)
Definition same_work (a b : Task) : Prop :=
  Task_ID a = Task_ID b /\ Task_JobID a = Task_JobID b /\ Task_Attempt a = Task_Attempt b /\
  Task_MaxRetries a = Task_MaxRetries b /\ Task_Params a = Task_Params b /\
  Task_Result a = Task_Result b /\ Task_DistributionKey a = Task_DistributionKey b.

Lemma run_startTaskExecution E w t :
  reliable E -> contains [TaskStatusPending; TaskStatusRunning] (Task_Status t) = true ->
  exists t' started upd n,
    run E (startTaskExecution t) w =
    (mkWorld (update_tasks (task_has_id (Task_ID t))
                (set_task_columns [TaskCol_status TaskStatusRunning; TaskCol_started_at started;
                                   TaskCol_updated_at upd]) (w_db w))
       (w_kafka w) (w_hooks w) n, Ok t') /\
    same_work t' t /\ Task_Status t' = TaskStatusRunning /\ Task_StartedAt t' = Some started /\
    (exists a, started = env_now E a /\ (w_tick w <= a < n /\ 3 + w_tick w <= n <= 4 + w_tick w)%nat) /\
    json_kept E t' t.
Proof.
  intros HE Hst%contains_spec. unfold startTaskExecution, markStarted.
  apply elem_of_cons in Hst as [Hst|Hst]; [|apply list_elem_of_singleton in Hst];
    rewrite run_bind; unfold Task_Start; rewrite run_Task_Event, Hst; cbn [fst snd].
  - replace (fsm_lookup taskTransitions TaskStatusPending TaskActionStart)
      with (Some TaskStatusRunning) by done.
    rewrite decide_False by done. cbn [fst snd].
    rewrite run_bind, run_Now. cbn [fst snd].
    rewrite run_bind, run_UpdateTask by done. cbn [fst snd]. do 4 eexists.
    splits; [done|done|done|done|eexists; split; [done|cbn; lia]|json_kept_go].
  - replace (fsm_lookup taskTransitions TaskStatusRunning TaskActionStart)
      with (Some TaskStatusRunning) by done.
    rewrite decide_True by done. cbn [fst snd isNoTransition errors_As_NoTransition negb].
    rewrite run_bind, run_Now. cbn [fst snd].
    rewrite run_bind, run_UpdateTask by done. cbn [fst snd]. do 4 eexists. cbn [Task_Status Task_set_StartedAt]. rewrite Hst.
    splits; [done|done|done|done|eexists; split; [done|cbn; lia]|json_kept_go].
Qed.

Lemma run_taskFinishUpdates E w t started us :
  Task_StartedAt t = Some started ->
  exists fin, fin = env_now E (w_tick w) /\
    run E (taskFinishUpdates t us) w =
    (tick w, (Task_set_DurationMs (Some (Milliseconds (Sub fin started))) (Task_set_FinishedAt (Some fin) t),
              us ++ [TaskCol_finished_at fin; TaskCol_duration_ms (Milliseconds (Sub fin started))])).
Proof.
  intros Hs. unfold taskFinishUpdates. rewrite run_bind, run_Now. cbn [fst snd].
  cbn [Task_StartedAt Task_set_FinishedAt]. rewrite Hs. rewrite run_Ret, <- app_assoc. by eexists.
Qed.

Lemma set_result_spec result t :
  set_result result t = Task_set_Result (result_column result t) t.
Proof.
  unfold set_result, Task_SetResult, result_column.
  destruct (JSONB_Set result); [done|]. by destruct t.
Qed.

Lemma run_completeTask E w t started output :
  reliable E -> Task_Status t = TaskStatusRunning -> Task_StartedAt t = Some started ->
  exists fin upd n,
    run E (completeTask t output) w =
    (mkWorld (update_tasks (task_has_id (Task_ID t))
                (set_task_columns [TaskCol_status TaskStatusCompleted;
                   TaskCol_result (result_column (success_result output) t);
                   TaskCol_finished_at fin; TaskCol_duration_ms (Milliseconds (Sub fin started));
                   TaskCol_updated_at upd]) (w_db w))
       (w_kafka w) (w_hooks w) n, Ok ()) /\
    (exists b c, fin = env_now E b /\ upd = env_now E c /\ (w_tick w <= b /\ w_tick w <= c)%nat).
Proof.
  intros HE Hst Hs. unfold completeTask, Task_Complete. rewrite run_bind, run_Task_Event, Hst.
  replace (fsm_lookup taskTransitions TaskStatusRunning TaskActionComplete)
    with (Some TaskStatusCompleted) by done.
  rewrite decide_False by done. cbn [fst snd].
  rewrite set_result_spec. set (t1 := Task_set_Result _ _).
  rewrite run_bind.
  destruct (run_taskFinishUpdates E (tick w) t1 started
              [TaskCol_status (Task_Status t1); TaskCol_result (Task_Result t1)]) as (fin & Hfin & ->); [done|].
  cbn [fst snd]. rewrite run_UpdateTask by done. do 3 eexists. split; [done|].
  do 2 eexists. splits; [exact Hfin|done|cbn; lia|cbn; lia].
Qed.

Lemma task_edge src action dst : 
  fsm_lookup taskTransitions src action = Some dst -> dst ≠ src ->
  forall E w t, Task_Status t = src ->
    run E (Task_Event action t) w = (tick w, (Task_UpdateStatus dst (env_now E (w_tick w)) t, None)).
Proof. intros Hl Hne E w t <-. rewrite run_Task_Event, Hl. by rewrite decide_False by done. Qed.

Lemma run_PublishRetryTasks_one E w cfg t :
  reliable E -> Cfg_Publisher cfg = Some NewTaskPublisher ->
  exists now n, reading E now /\
    run E (cfg_PublishRetryTasks cfg [t] (Kafka_TaskRetryTopic (Cfg_Kafka cfg)) (Retry_RetryDelay (Cfg_Retry cfg))) w =
    (mkWorld (w_db w) (w_kafka w ++ retry_message cfg t now) (w_hooks w) n, Ok ()).
Proof.
  intros HE Hp. unfold cfg_PublishRetryTasks. rewrite Hp. cbn [PublishRetryTasks NewTaskPublisher].
  unfold publisher_PublishRetryTasks, retry_messages.
  exists (env_now E (w_tick w)). unfold retry_message. cbn -[write].
  case_match; cbn -[write];
    match goal with |- context [write ?ms] =>
      destruct (run_write E (tick w) ms HE) as [n ->]; exists n; split; [by eexists|done] end.
Qed.

Lemma run_PublishTasks_one E w cfg t topic :
  reliable E -> Cfg_Publisher cfg = Some NewTaskPublisher ->
  exists n,
    run E (cfg_PublishTasks cfg [t] topic) w =
    (mkWorld (w_db w) (w_kafka w ++ omap (task_message topic) [t]) (w_hooks w) n, Ok ()).
Proof.
  intros HE Hp. unfold cfg_PublishTasks. rewrite Hp. by apply run_write.
Qed.

Lemma run_retryTask E w t e cfg :
  reliable E -> Cfg_Publisher cfg = Some NewTaskPublisher -> Task_Status t = TaskStatusFailed ->
  exists upd now n t',
    same_work t' (Task_set_Attempt (wrap64 (Task_Attempt t + 1))
                    (Task_set_Result (result_column (failure_result e) t) t)) /\
    Task_Status t' = TaskStatusPending /\ json_kept E t' t /\
    (exists c, upd = env_now E c /\ (w_tick w <= c)%nat) /\ reading E now /\
    run E (retryTask t e cfg) w =
    (mkWorld (update_tasks (task_has_id (Task_ID t))
                (set_task_columns [TaskCol_attempt (wrap64 (Task_Attempt t + 1));
                   TaskCol_result (result_column (failure_result e) t);
                   TaskCol_status TaskStatusPending; TaskCol_updated_at upd]) (w_db w))
       (w_kafka w ++ (if bool_decide (Kafka_TaskRetryTopic (Cfg_Kafka cfg) = ""%string) then []
                      else retry_message cfg t' now)) (w_hooks w) n, ()).
Proof.
  intros HE Hp Hst. unfold retryTask, Task_Retry. rewrite set_result_spec, run_bind.
  rewrite (task_edge TaskStatusFailed TaskActionRetry TaskStatusPending) by done. cbn [fst snd].
  rewrite run_bind, run_UpdateTask by done. cbn [fst snd].
  set (t' := Task_set_Attempt _ (Task_UpdateStatus _ _ _)).
  case_bool_decide.
  - exists (env_now E (w_tick (tick w))), (env_now E O), (2 + w_tick (tick w))%nat, t'.
    rewrite app_nil_r. splits; [done|done|json_kept_go|eexists; split; [done|cbn; lia]|by eexists|done].
  - rewrite run_bind.
    match goal with |- context [run E (cfg_PublishRetryTasks _ _ _ _) ?w0] =>
      destruct (run_PublishRetryTasks_one E w0 cfg t' HE Hp) as (now & n & Hnow & ->) end.
    exists (env_now E (w_tick (tick w))), now, n, t'.
    splits; [done|done|json_kept_go|eexists; split; [done|cbn; lia]|done|done].
Qed.

Lemma run_sendTaskToDLQ E w t started e cfg :
  reliable E -> Cfg_Publisher cfg = Some NewTaskPublisher -> Task_Status t = TaskStatusFailed ->
  Task_StartedAt t = Some started ->
  exists fin upd n t',
    same_work t' (Task_set_Result (result_column (failure_result e) t) t) /\
    Task_Status t' = TaskStatusMaxRetriesExhausted /\ json_kept E t' t /\
    (exists b c, fin = env_now E b /\ upd = env_now E c /\ (w_tick w <= b /\ w_tick w <= c)%nat) /\
    run E (sendTaskToDLQ t e cfg) w =
    (mkWorld (update_tasks (task_has_id (Task_ID t))
                (set_task_columns [TaskCol_result (result_column (failure_result e) t);
                   TaskCol_status TaskStatusMaxRetriesExhausted;
                   TaskCol_finished_at fin; TaskCol_duration_ms (Milliseconds (Sub fin started));
                   TaskCol_updated_at upd]) (w_db w))
       (w_kafka w ++ (if bool_decide (Kafka_TaskDLQTopic (Cfg_Kafka cfg) = ""%string) then []
                      else omap (task_message (Kafka_TaskDLQTopic (Cfg_Kafka cfg))) [t'])) (w_hooks w) n, ()).
Proof.
  intros HE Hp Hst Hs. unfold sendTaskToDLQ, Task_ExhaustRetries. rewrite run_bind.
  rewrite (task_edge TaskStatusFailed TaskActionExhaustRetries TaskStatusMaxRetriesExhausted) by done.
  cbn [fst snd]. rewrite set_result_spec. set (t1 := Task_set_Result _ (Task_UpdateStatus _ _ _)).
  rewrite run_bind.
  destruct (run_taskFinishUpdates E (tick w) t1 started
              [TaskCol_result (Task_Result t1); TaskCol_status (Task_Status t1)]) as (fin & Hfin & ->); [done|].
  cbn [fst snd]. set (t2 := Task_set_DurationMs _ _).
  rewrite run_bind, run_UpdateTask by done. cbn [fst snd].
  assert (Hkept : json_kept E t2 t) by (subst t2 t1; rewrite Hfin; json_kept_go).
  assert (Htimes : exists b c, fin = env_now E b /\ env_now E (w_tick (tick (tick w))) = env_now E c /\
                     (w_tick w <= b /\ w_tick w <= c)%nat).
  { do 2 eexists. splits; [exact Hfin|done|cbn; lia|cbn; lia]. }
  case_bool_decide.
  - exists fin, (env_now E (w_tick (tick (tick w)))), (2 + w_tick (tick (tick w)))%nat, t2.
    rewrite app_nil_r. by splits.
  - rewrite run_bind.
    match goal with |- context [run E (cfg_PublishTasks _ _ _) ?w0] =>
      destruct (run_PublishTasks_one E w0 cfg t2 (Kafka_TaskDLQTopic (Cfg_Kafka cfg)) HE Hp) as (n & ->) end.
    by exists fin, (env_now E (w_tick (tick (tick w)))), n, t2.
Qed.

Context (jobs : gmap string JobConfig).

Lemma run_executeTask_load E w message t j cfg :
  reliable E -> delivered jobs (w_db w) message t j cfg ->
  let w3 := tick (tick (tick w)) in
  let task := Task_set_Job (Some j) t in
  run E (executeTask jobs message) w =
  run E (if negb (Job_IsExecutionPending j) then
           _ ← updateTasksStatus [task] (Job_Status j);
           _ ← task_finished j task "skipped" (env_now E (w_tick w)); Ret (Ok ())
         else if Task_IsTerminal task then
           _ ← task_finished j task "skipped" (env_now E (w_tick w)); Ret (Ok ())
         else runTask cfg j task (env_now E (w_tick w))) w3.
Proof.
  intros HE [(m & Hm & Hid) [Ht Hj] Hcfg]. cbv zeta.
  unfold executeTask, parseTaskMessage. rewrite run_bind, run_Now, Hm. cbn [fst snd].
  unfold loadJobForTask. rewrite !run_try, Hid, (run_FindTaskWithJob E (tick w) _ t j) by done.
  cbn [fst snd run]. rewrite Hcfg. done.
Qed.

Lemma same_work_row result t t0 :
  same_work t t0 -> result_column result t = result_column result t0.
Proof. unfold result_column, same_work. intros (_&_&_&_&_&Hr&_). by rewrite Hr. Qed.

(** The run up to the answer of the caller's executor. *)
Lemma run_runTask_start E w cfg j t x params start :
  reliable E -> contains [TaskStatusPending; TaskStatusRunning] (Task_Status t) = true ->
  Task_GetParams t = Ok params -> Cfg_TaskExecutor cfg = Some x ->
  exists t' started upd n,
    same_work t' t /\ Task_Status t' = TaskStatusRunning /\ Task_StartedAt t' = Some started /\
    (exists a, started = env_now E a /\ (w_tick w <= a < n /\ 4 + w_tick w <= n <= 5 + w_tick w)%nat) /\
    json_kept E t' t /\
    run E (runTask cfg j t start) w =
    run E (match env_task_execute E n x params with
           | Err e => _ ← handleTaskFailure t' e cfg; _ ← task_finished j t' TaskStatusFailed start; Ret (Ok ())
           | Ok output =>
               completed ← completeTask t' output;
               match completed with
               | Err e => _ ← task_finished j t' "error" start; Ret (Err e)
               | Ok _ => _ ← task_finished j t' TaskStatusCompleted start; Ret (Ok ())
               end
           end)
      (mkWorld (update_tasks (task_has_id (Task_ID t))
                  (set_task_columns [TaskCol_status TaskStatusRunning; TaskCol_started_at started;
                                     TaskCol_updated_at upd]) (w_db w))
         (w_kafka w) (w_hooks w ++ [OnTaskStarted (Job_Name j) (uuid_String (Task_ID t)) (Task_Attempt t)])
         (S n)).
Proof.
  intros HE Hst Hp Hx.
  destruct (run_startTaskExecution E w t HE Hst) as (t' & started & upd & n & Hrun & Hsw & Hs & Hsa & (a & Hread & Hle) & Hk).
  exists t', started, upd, (S n). splits; try done.
  { exists a. split; [done|lia]. }
  unfold runTask. rewrite run_bind, Hrun. cbn [fst snd].
  rewrite run_bind, run_hook. cbn [fst snd w_db w_kafka w_hooks w_tick].
  destruct Hsw as (Hid & _ & Ha & _ & Hpar & _). rewrite Hid, Ha.
  unfold Task_GetParams in *. rewrite Hpar. rewrite Hp.
  unfold cfg_TaskExecute. rewrite Hx, run_bind, run_call. done.
Qed.

Lemma run_task_finished E w j t status start :
  run E (task_finished j t status start) w =
  (mkWorld (w_db w) (w_kafka w)
     (w_hooks w ++ [OnTaskFinished (Job_Name j) (uuid_String (Task_ID t)) status
                      (Sub (env_now E (w_tick w)) start)]) (2 + w_tick w), ()).
Proof. done. Qed.

(** After the executor's answer, at the world [w1] the start left. *)
Lemma run_handleTaskFailure E w t' t started e cfg :
  reliable E -> Cfg_Publisher cfg = Some NewTaskPublisher ->
  same_work t' t -> Task_StartedAt t' = Some started ->
  exists us m now n fin upd,
    let o := outcome t (Err e) in
    run E (handleTaskFailure t' e cfg) w =
    (mkWorld (update_tasks (task_has_id (Task_ID t)) (set_task_columns us) (w_db w))
       (w_kafka w ++ settled_messages o cfg m now) (w_hooks w) n, ()) /\
    (published_as o m t /\ json_kept E m t' /\ reading E now) /\
    (exists b c, fin = env_now E b /\ upd = env_now E c /\ (w_tick w <= b /\ w_tick w <= c)%nat) /\
    forall s0 u0 r, Task_Attempt r = Task_Attempt t -> Task_Result r = Task_Result t ->
      set_task_columns ([TaskCol_status s0; TaskCol_started_at started; TaskCol_updated_at u0] ++ us) r =
      settled_row o started fin upd r.
Proof.
  intros HE Hp Hsw Hs.
  pose proof Hsw as (Hid & Hjob & Hatt & Hmax & Hpar & Hres & Hkey).
  unfold handleTaskFailure, updateTaskStatus, outcome.
  rewrite !run_bind, run_UpdateTask by done. cbn [fst snd]. rewrite run_Ret. cbn [fst snd].
  set (t1 := Task_set_Status TaskStatusFailed t').
  assert (Hcol : forall r, Task_Result r = Task_Result t ->
            result_column (failure_result e) t1 = result_column (failure_result e) r).
  { intros r Hr. unfold result_column. subst t1. cbn. by rewrite Hres, Hr. }
  replace (Task_Attempt t1) with (Task_Attempt t) by done.
  replace (Task_MaxRetries t1) with (Task_MaxRetries t) by done.
  destruct (Task_Attempt t <? Task_MaxRetries t).
  - match goal with |- context [run E (retryTask t1 e cfg) ?w0] =>
      destruct (run_retryTask E w0 t1 e cfg HE Hp eq_refl) as (upd & now & n & m & Hm & Hms & Hkept & (c & Hc & Hle) & Hnow & ->) end.
    cbn [w_db w_kafka w_hooks w_tick] in *. replace (Task_ID t1) with (Task_ID t) by done.
    rewrite update_tasks_columns. do 4 eexists. exists upd, upd. splits; [done| |done|done|exists c, c; splits; [done|done|lia|lia]|].
    + unfold published_as. cbn. rewrite <- (Hcol t) by done. clear Hcol.
      subst t1. unfold same_work in *. cbn in *. destruct_and!. splits; congruence.
    + intros s0 u0 r Ha Hr. cbn. rewrite (Hcol r Hr). unfold row_retried. by rewrite Hatt, Ha.
  - match goal with |- context [run E (sendTaskToDLQ t1 e cfg) ?w0] =>
      destruct (run_sendTaskToDLQ E w0 t1 started e cfg HE Hp eq_refl Hs) as (fin & upd & n & m & Hm & Hms & Hkept & (b & c & Hb & Hc & Hle1 & Hle2) & ->) end.
    cbn [w_db w_kafka w_hooks w_tick] in *. replace (Task_ID t1) with (Task_ID t) by done.
    rewrite update_tasks_columns. do 2 eexists. exists (env_now E O). do 1 eexists. exists fin, upd.
    splits; [done| |done|by eexists|exists b, c; splits; [done|done|lia|lia]|].
    + unfold published_as. cbn. rewrite <- (Hcol t) by done. clear Hcol.
      subst t1. unfold same_work in *. cbn in *. destruct_and!. splits; congruence.
    + intros s0 u0 r Ha Hr. cbn. by rewrite (Hcol r Hr).
Qed.

(** Rows with the key of [t] are [t]. *)
Lemma filter_task_one db id t :
  List.filter (task_has_id id) (db_tasks db) = [t] -> Task_ID t = id.
Proof.
  intros Hf. apply (proj1 (task_has_id_true id t)).
  assert (In t (List.filter (task_has_id id) (db_tasks db))) as Hin by (rewrite Hf; by left).
  by apply filter_In in Hin as [_ ?].
Qed.

Lemma executeTask_settles_lemma E w message t j cfg x params :
  reliable E -> Cfg_Publisher cfg = Some NewTaskPublisher ->
  runnable jobs (w_db w) message t j cfg x params ->
  exists n m now started fin upd d,
    let o := outcome t (env_task_execute E n x params) in
    let '(w', r) := run E (executeTask jobs message) w in
    r = Ok () /\
    w_db w' = update_tasks (task_has_id (Task_ID t)) (settled_row o started fin upd) (w_db w) /\
    w_kafka w' = w_kafka w ++ settled_messages o cfg m now /\ published_as o m t /\
    w_hooks w' = w_hooks w ++
      [OnTaskStarted (Job_Name j) (uuid_String (Task_ID t)) (Task_Attempt t);
       OnTaskFinished (Job_Name j) (uuid_String (Task_ID t)) (reported_status o) d] /\
    (exists a b c, started = env_now E a /\ fin = env_now E b /\ upd = env_now E c /\
       (w_tick w <= a < n /\ n < b /\ n < c)%nat) /\
    reading E now /\ json_kept E m (Task_set_Job (Some j) t).
Proof.
  intros HE Hp [Hdel Hj Ht Hpar Hx].
  assert (Hone : List.filter (task_has_id (Task_ID t)) (db_tasks (w_db w)) = [t]) by apply Hdel.
  assert (Hterm : Task_IsTerminal (Task_set_Job (Some j) t) = false).
  { apply contains_spec in Ht. unfold Task_IsTerminal, Task_set_Job; cbn.
    repeat (apply elem_of_cons in Ht as [->|Ht]; [done|]). by apply not_elem_of_nil in Ht. }
  rewrite (run_executeTask_load E w message t j cfg HE Hdel). cbv zeta. rewrite Hj, Hterm. cbn [negb].
  set (start := env_now E (w_tick w)).
  destruct (run_runTask_start E (tick (tick (tick w))) cfg j (Task_set_Job (Some j) t) x params start HE Ht Hpar Hx)
    as (t' & started & upd0 & n & Hsw & Hst & Hsa & (a & Ha & Hale) & Hkt & ->).
  cbn [w_tick tick] in Hale.
  cbn [w_db w_kafka w_hooks tick Task_ID Task_Attempt Task_set_Job].
  assert (Hsw' : same_work t' t) by exact Hsw. clear Hsw.
  assert (Hid : Task_ID t' = Task_ID t) by apply Hsw'.
  destruct (env_task_execute E n x params) as [output|e] eqn:Hans; exists n; rewrite Hans.
  - rewrite run_bind. set (w1 := mkWorld _ _ _ _).
    destruct (run_completeTask E w1 t' started output HE Hst Hsa) as (fin & upd & n2 & -> & (b & c & Hb & Hc & Hble & Hcle)).
    cbn [w1 w_tick] in Hble, Hcle.
    cbn [fst snd]. rewrite run_bind, run_task_finished, run_Ret.
    exists (settled_row (Completed output) 0 0 0 (Task_set_Job (Some j) t)), (env_now E O), started, fin, upd. eexists. cbn [outcome].
    rewrite app_nil_r. cbn [w_db w_hooks w_kafka fst]. rewrite Hid.
    splits; [done| |done|done| |exists a, b, c; splits; [done|done|done|lia..]|by eexists|json_kept_go].
    + subst w1. cbn [w_db]. rewrite update_tasks_columns. eapply update_tasks_one; [exact Hone|].
      cbn. unfold row_completed. by rewrite (same_work_row _ _ _ Hsw').
    + subst w1. cbn [w_hooks]. by rewrite <- app_assoc.
  - rewrite run_bind. set (w1 := mkWorld _ _ _ _).
    destruct (run_handleTaskFailure E w1 t' t started e cfg HE Hp Hsw' Hsa)
      as (us & m & now & n2 & fin & upd & -> & (Hm & Hkm & Hnow) & (b & c & Hb & Hc & Hble & Hcle) & Hrow).
    cbn [w1 w_tick] in Hble, Hcle.
    cbn [fst snd]. rewrite run_bind, run_task_finished, run_Ret.
    exists m, now, started, fin, upd. eexists.
    cbn [w_db w_hooks w_kafka fst]. rewrite Hid.
    splits; [done| |done|done| |exists a, b, c; splits; [done|done|done|lia..]|done|by eapply json_kept_trans].
    + subst w1. cbn [w_db]. rewrite update_tasks_columns. eapply update_tasks_one; [exact Hone|].
      by apply Hrow.
    + subst w1. cbn [w_hooks]. rewrite <- app_assoc. unfold outcome. by destruct (_ <? _).
Qed.

Lemma executeTask_over_lemma E w message t j cfg :
  reliable E -> delivered jobs (w_db w) message t j cfg ->
  Job_IsExecutionPending j = true -> Task_IsTerminal t = true ->
  exists d,
    let '(w', r) := run E (executeTask jobs message) w in
    r = Ok () /\ w_db w' = w_db w /\ w_kafka w' = w_kafka w /\
    w_hooks w' = w_hooks w ++
      [OnTaskFinished (Job_Name j) (uuid_String (Task_ID t)) "skipped" d].
Proof.
  intros HE Hdel Hj Hterm.
  rewrite (run_executeTask_load E w message t j cfg HE Hdel). cbv zeta. rewrite Hj. cbn [negb].
  change (Task_IsTerminal (Task_set_Job (Some j) t)) with (Task_IsTerminal t). rewrite Hterm.
  rewrite run_bind, run_task_finished, run_Ret. by eexists.
Qed.

(** An update of the task's row that keeps what the load looks at. *)
Lemma delivered_update db message t j cfg f :
  delivered jobs db message t j cfg ->
  (forall r, Task_ID (f r) = Task_ID r) ->
  Task_JobID (f t) = Task_JobID t -> Task_CreatedAt (f t) = Task_CreatedAt t ->
  delivered jobs (update_tasks (task_has_id (Task_ID t)) f db) message (f t) j cfg.
Proof.
  intros [Hm [Ht Hj] Hcfg] Hid Hjob Hcr. split; [by rewrite Hid| |done].
  rewrite Hid. split; cbn.
  - rewrite filter_update_hit, Ht; [done|]. intros r. unfold task_has_id. by rewrite Hid.
  - rewrite <- Hj. f_equal. apply List.filter_ext. intros a. unfold job_of_task. by rewrite Hjob, Hcr.
Qed.

Lemma settled_row_keeps o started fin upd r :
  Task_ID (settled_row o started fin upd r) = Task_ID r /\
  Task_JobID (settled_row o started fin upd r) = Task_JobID r /\
  Task_CreatedAt (settled_row o started fin upd r) = Task_CreatedAt r /\
  Task_Params (settled_row o started fin upd r) = Task_Params r /\
  Task_MaxRetries (settled_row o started fin upd r) = Task_MaxRetries r.
Proof. by destruct o. Qed.

Lemma settled_row_budget t answer started fin upd :
  contains [TaskStatusPending; TaskStatusRunning] (Task_Status t) = true ->
  min_int64 <= Task_Attempt t /\ Task_MaxRetries t <= max_int64 ->
  let t' := settled_row (outcome t answer) started fin upd t in
  contains ([TaskStatusPending; TaskStatusRunning] ++ TerminalTaskStates) (Task_Status t') = true /\
  min_int64 <= Task_Attempt t' /\
  budget t' <= budget t - 1 /\
  (forall e, answer = Err e -> budget t' = budget t - 1).
Proof.
  intros Hst Hb. cbv zeta.
  assert (budget t = Z.max 1 (Task_MaxRetries t - Task_Attempt t + 1)) as Hbt.
  { unfold budget, Task_IsTerminal. apply contains_spec in Hst.
    repeat (apply elem_of_cons in Hst as [->|Hst]; [done|]). by apply not_elem_of_nil in Hst. }
  rewrite Hbt. unfold outcome. destruct answer as [output|e].
  - cbn [settled_row]. splits; [done|apply Hb| |done].
    replace (budget _) with 0 by done. lia.
  - destruct (Z.ltb_spec (Task_Attempt t) (Task_MaxRetries t)); cbn [settled_row].
    + assert (wrap64 (Task_Attempt t + 1) = Task_Attempt t + 1) as Hw.
      { apply wrap64_id. unfold min_int64, max_int64 in *. lia. }
      assert (budget (row_retried (result_column (failure_result e) t) started upd t) =
              Z.max 1 (Task_MaxRetries t - (Task_Attempt t + 1) + 1)) as ->.
      { unfold budget, row_retried. cbn. by rewrite Hw. }
      splits; [done|cbn; rewrite Hw; lia|lia|]. intros. lia.
    + splits; [done|apply Hb| |]; replace (budget _) with 0 by done; [lia|]. intros. lia.
Qed.

(** One delivery: a run spends one unit of the budget, a skip none. *)
Lemma executeTask_step E w message t j cfg x params :
  reliable E -> Cfg_Publisher cfg = Some NewTaskPublisher ->
  in_flight jobs (w_db w) message t j cfg x params ->
  let w' := (run E (executeTask jobs message) w).1 in
  exists t' hs, in_flight jobs (w_db w') message t' j cfg x params /\
    w_hooks w' = w_hooks w ++ hs /\
    count is_started hs = (if Task_IsTerminal t then 0 else 1) /\
    count is_started hs + budget t' <= budget t /\
    Task_MaxRetries t' = Task_MaxRetries t /\
    (budget t = 0 -> t' = t /\ count is_started hs = 0) /\
    ((forall n, exists e, env_task_execute E n x params = Err e) -> 0 < budget t ->
       count is_started hs = 1 /\ budget t' = budget t - 1 /\
       (budget t' = 0 -> Task_Status t' = TaskStatusMaxRetriesExhausted)).
Proof.
  intros HE Hp [Hdel Hj Ht Hpar Hx Hb]. cbv zeta.
  destruct (Task_IsTerminal t) eqn:Hterm.
  - destruct (executeTask_over_lemma E w message t j cfg HE Hdel Hj Hterm) as [d Hrun].
    destruct (run E (executeTask jobs message) w) as [w' r]. destruct Hrun as (-> & Hdb & _ & Hh).
    cbn [fst]. exists t. eexists. rewrite Hdb, Hh. unfold budget. rewrite Hterm. by splits.
  - assert (Hst : contains [TaskStatusPending; TaskStatusRunning] (Task_Status t) = true).
    { apply contains_spec in Ht. apply contains_spec. apply elem_of_app in Ht as [?|Ht]; [done|].
      apply contains_spec in Ht. unfold Task_IsTerminal in Hterm. congruence. }
    destruct (executeTask_settles_lemma E w message t j cfg x params HE Hp)
      as (n & m & now & started & fin & upd & d & Hrun); [by split|]. cbv zeta in Hrun.
    destruct (run E (executeTask jobs message) w) as [w' r].
    destruct Hrun as (-> & Hdb & _ & _ & Hh & _). cbn [fst].
    set (o := outcome t _) in *.
    destruct (settled_row_keeps o started fin upd t) as (Hk1 & Hk2 & Hk3 & Hk4 & Hk5).
    destruct (settled_row_budget t (env_task_execute E n x params) started fin upd Hst Hb)
      as (Hs & Ha & Hle & Heq). fold o in Hs, Ha, Hle, Heq.
    exists (settled_row o started fin upd t). eexists. rewrite Hh, Hdb. splits; [|done|done|..].
    + split; try done.
      * apply delivered_update; try done. intros r. by destruct (settled_row_keeps o started fin upd r).
      * unfold Task_GetParams in *. by rewrite Hk4.
      * rewrite Hk5. split; [done|apply Hb].
    + unfold is_started, count at 1. cbn [List.filter length]. lia.
    + done.
    + unfold budget. rewrite Hterm. lia.
    + intros Hfail Hpos. destruct (Hfail n) as [e He]. specialize (Heq e He).
      splits; [done|done|]. subst o. rewrite He in *. unfold outcome in *.
      destruct (_ <? _); [|done]. unfold budget at 1. cbn [settled_row].
      replace (Task_IsTerminal _) with false by done. lia.
Qed.

End run_lemmas.

(** The sample task 2 of the sample job 1, as the witnesses deliver it. *)
Definition sample_message : string := N_text 2 "".

Lemma sample_delivered jobStatus taskStatus attempt :
  @delivered sample_codec sample_jobs
    (mkDB [sample_job 1 jobStatus] [sample_row 2 1 taskStatus attempt]) sample_message
    (sample_row 2 1 taskStatus attempt) (sample_job 1 jobStatus) sample_cfg.
Proof.
  split; [|done|apply sample_jobs_cfg].
  exists (sample_task 2). by vm_compute.
Qed.

Lemma sample_in_flight taskStatus attempt :
  contains ([TaskStatusPending; TaskStatusRunning] ++ TerminalTaskStates) taskStatus = true ->
  min_int64 <= attempt ->
  @in_flight sample_codec sample_pgtype sample_jobs
    (mkDB [sample_job 1 JobStatusRunning] [sample_row 2 1 taskStatus attempt]) sample_message
    (sample_row 2 1 taskStatus attempt) (sample_job 1 JobStatusRunning) sample_cfg 0%nat (Some ∅).
Proof.
  intros Hst Ha. split; try done.
  apply sample_delivered.
Qed.

(** ** Properties *)

(** C2: running a message of a task that can run, in a reliable environment,
    does exactly what its outcome says: the row becomes COMPLETED with the output,
    PENDING with the next attempt number and the error, or MAX_RETRIES_EXHAUSTED
    with the error, according to the executor's answer and the attempts left, with
    the times of the run; a retried task is published once to the retry topic and
    an exhausted one once to the dead-letter topic, where the topic is set, with
    the row's own fields; no other row changes; OnTaskStarted and OnTaskFinished
    are called once each. *)
Theorem executeTask_settles `{UuidText} `{FsmLaws} `{Pgtype} `{Codec} jobs E w message t j cfg x params :
  reliable E -> Cfg_Publisher cfg = Some NewTaskPublisher ->
  runnable jobs (w_db w) message t j cfg x params ->
  exists n m now started fin upd d,
    let o := outcome t (env_task_execute E n x params) in
    let '(w', r) := run E (executeTask jobs message) w in
    r = Ok () /\
    w_db w' = update_tasks (task_has_id (Task_ID t)) (settled_row o started fin upd) (w_db w) /\
    w_kafka w' = w_kafka w ++ settled_messages o cfg m now /\ published_as o m t /\
    w_hooks w' = w_hooks w ++
      [OnTaskStarted (Job_Name j) (uuid_String (Task_ID t)) (Task_Attempt t);
       OnTaskFinished (Job_Name j) (uuid_String (Task_ID t)) (reported_status o) d] /\
    (exists a b c, started = env_now E a /\ fin = env_now E b /\ upd = env_now E c /\
       (w_tick w <= a < n /\ n < b /\ n < c)%nat).
Proof.
  intros HE Hp Hr. destruct (executeTask_settles_lemma jobs E w message t j cfg x params HE Hp Hr)
    as (n & m & now & started & fin & upd & d & Hspec).
  exists n, m, now, started, fin, upd, d. cbv zeta in *. destruct (run E _ w) as [w' r]. tauto.
Qed.

Theorem executeTask_settles_witness :
  let t := sample_row 2 1 TaskStatusPending 1 in
  let w := sample_world [sample_job 1 JobStatusRunning] [t] in
  exists n m now started fin upd,
    let o := outcome t (env_task_execute env_failing n 0%nat (Some ∅)) in
    o = Retried (ErrForeign "boom") /\
    let '(w', r) := run env_failing (@executeTask sample_uuid_text sample_fsm sample_pgtype sample_codec
                                       sample_jobs sample_message) w in
    r = Ok () /\
    w_db w' = update_tasks (task_has_id 2) (@settled_row sample_pgtype o started fin upd) (w_db w) /\
    w_kafka w' = w_kafka w ++ @settled_messages sample_codec o sample_cfg m now.
Proof.
  intros t w.
  assert (@runnable sample_codec sample_pgtype sample_jobs (w_db w) sample_message t
            (sample_job 1 JobStatusRunning) sample_cfg 0%nat (Some ∅)) as Hr.
  { split; try done. apply sample_delivered. }
  destruct (@executeTask_settles sample_uuid_text sample_fsm sample_fsm_laws sample_pgtype sample_codec
              sample_jobs env_failing w sample_message t (sample_job 1 JobStatusRunning) sample_cfg
              0%nat (Some ∅) env_failing_reliable eq_refl Hr)
    as (n & m & now & started & fin & upd & d & Hspec).
  exists n, m, now, started, fin, upd. cbv zeta in *. split; [done|].
  destruct (run env_failing _ w) as [w' r]. destruct Hspec as (? & ? & ? & _). by splits.
Defined.

Lemma run_executeTask_over `{UuidText} `{FsmLaws} `{Pgtype} `{Codec} jobs E w message t j cfg :
  reliable E -> delivered jobs (w_db w) message t j cfg -> Job_IsExecutionPending j = false ->
  exists upd d n,
    run E (executeTask jobs message) w =
    (mkWorld (update_tasks (task_has_id (Task_ID t)) (Task_UpdateStatus (Job_Status j) upd) (w_db w)) (w_kafka w)
       (w_hooks w ++ [OnTaskFinished (Job_Name j) (uuid_String (Task_ID t)) "skipped" d]) n, Ok ()).
Proof.
  intros HE Hdel Hj.
  rewrite (run_executeTask_load jobs E w message t j cfg HE Hdel). cbv zeta. rewrite Hj. cbn [negb].
  unfold updateTasksStatus, UpdateTasksStatus. run_go HE.
  rewrite run_task_finished. do 3 eexists. cbn. do 2 f_equal.
  unfold update_tasks. f_equal. apply map_ext. intros r.
  assert (contains [Task_ID t] (Task_ID r) = task_has_id (Task_ID t) r) as ->; [|done].
  unfold contains, task_has_id. apply Bool.eq_iff_eq_true.
  rewrite bool_decide_eq_true, list_elem_of_singleton, N.eqb_eq. done.
Qed.

(** A message whose job is already over runs nothing: the task row gets the
    status of the job, whatever status it had (a COMPLETED task of a job in status
    PARTIAL_FAILED loses its COMPLETED), nothing is published, and OnTaskFinished
    reports the task as skipped. *)
Theorem executeTask_job_over `{UuidText} `{FsmLaws} `{Pgtype} `{Codec} jobs E w message t j cfg :
  reliable E -> delivered jobs (w_db w) message t j cfg ->
  Job_IsExecutionPending j = false ->
  exists upd d,
    let '(w', r) := run E (executeTask jobs message) w in
    r = Ok () /\
    w_db w' = update_tasks (task_has_id (Task_ID t)) (Task_UpdateStatus (Job_Status j) upd) (w_db w) /\
    w_kafka w' = w_kafka w /\
    w_hooks w' = w_hooks w ++ [OnTaskFinished (Job_Name j) (uuid_String (Task_ID t)) "skipped" d].
Proof.
  intros HE Hdel Hj. destruct (run_executeTask_over jobs E w message t j cfg HE Hdel Hj) as (upd & d & n & ->).
  by exists upd, d.
Qed.

Theorem executeTask_job_over_witness :
  let t := sample_row 2 1 TaskStatusCompleted 1 in
  let j := sample_job 1 JobStatusPartialFailed in
  let w := sample_world [j] [t] in
  exists upd d,
    let '(w', r) := run env_ok (@executeTask sample_uuid_text sample_fsm sample_pgtype sample_codec
                                  sample_jobs sample_message) w in
    map Task_Status (db_tasks (w_db w')) = [JobStatusPartialFailed] /\
    contains TaskStates JobStatusPartialFailed = false /\
    r = Ok () /\
    w_db w' = update_tasks (task_has_id 2) (Task_UpdateStatus (Job_Status j) upd) (w_db w) /\
    w_kafka w' = [] /\
    w_hooks w' = [OnTaskFinished "job" (@uuid_String sample_uuid_text 2) "skipped" d].
Proof.
  intros t j w.
  destruct (@executeTask_job_over sample_uuid_text sample_fsm sample_fsm_laws sample_pgtype sample_codec
              sample_jobs env_ok w sample_message t j sample_cfg env_ok_reliable
              (sample_delivered _ _ _) eq_refl) as (upd & d & Hspec).
  exists upd, d. destruct (run env_ok _ w) as [w' r]. destruct Hspec as (Hr & Hdb & Hk & Hh).
  splits; try done. by rewrite Hdb.
Defined.

(** A message of a task that is already terminal, of a job that is not over,
    changes no row, publishes nothing and does not call the executor: a
    redelivered message is harmless. *)
Theorem executeTask_task_over `{UuidText} `{FsmLaws} `{Pgtype} `{Codec} jobs E w message t j cfg :
  reliable E -> delivered jobs (w_db w) message t j cfg ->
  Job_IsExecutionPending j = true -> Task_IsTerminal t = true ->
  exists d,
    let '(w', r) := run E (executeTask jobs message) w in
    r = Ok () /\ w_db w' = w_db w /\ w_kafka w' = w_kafka w /\
    w_hooks w' = w_hooks w ++
      [OnTaskFinished (Job_Name j) (uuid_String (Task_ID t)) "skipped" d].
Proof. apply executeTask_over_lemma. Qed.

Theorem executeTask_task_over_witness :
  let t := sample_row 2 1 TaskStatusMaxRetriesExhausted 3 in
  let w := sample_world [sample_job 1 JobStatusRunning] [t] in
  exists d,
    let '(w', r) := run env_ok (@executeTask sample_uuid_text sample_fsm sample_pgtype sample_codec
                                  sample_jobs sample_message) w in
    r = Ok () /\ w_db w' = w_db w /\ w_kafka w' = w_kafka w /\
    w_hooks w' = w_hooks w ++ [OnTaskFinished "job" (@uuid_String sample_uuid_text 2) "skipped" d].
Proof.
  intros t w.
  exact (@executeTask_task_over sample_uuid_text sample_fsm sample_fsm_laws sample_pgtype sample_codec
           sample_jobs env_ok w sample_message t (sample_job 1 JobStatusRunning) sample_cfg
           env_ok_reliable (sample_delivered _ _ _) eq_refl eq_refl).
Defined.
