(* ===== verification/Trace.v ===== *)
(** * Trace: the calls of the caller's task executors

    The observations of a run that matter to the caller's code: which task executor was
    called with which parameters, in order.  A program is [idle] when it calls none;
    everything the executors do is, apart from [cfg_TaskExecute]. *)
From S2P Require Import Prelude Go Domain Effects Repository JobConfig Transport Instances Lifecycle.
From S2P Require Import Finalizer TriggerFailure JobExecutor TaskExecutor.

Definition executed {X} (e : eff X) : list (handle * gomap) :=
  match e with ETaskExecute x params => [(x, params)] | _ => [] end.

(** The calls [run E p w] makes. *)
Fixpoint executions {R} (E : env) (p : prog R) (w : World) : list (handle * gomap) :=
  match p with
  | Ret _ => []
  | Vis e k => executed e ++ executions E (k (interp E e w).2) (interp E e w).1
  end.

Fixpoint idle {R} (p : prog R) : Prop :=
  match p with
  | Ret _ => True
  | Vis e k => executed e = [] /\ forall x, idle (k x)
  end.

Lemma executions_bind {A B} E (p : prog A) (f : A -> prog B) w :
  executions E (p ≫= f) w = executions E p w ++ executions E (f (run E p w).2) (run E p w).1.
Proof.
  revert w. induction p as [a|X e k IH]; intros w; [done|]. cbn.
  destruct (interp E e w) as [w' x]. cbn. rewrite <- app_assoc. f_equal. apply IH.
Qed.

Lemma idle_executions {R} E (p : prog R) w : idle p -> executions E p w = [].
Proof.
  revert w. induction p as [a|X e k IH]; intros w; [done|]. cbn. intros [-> Hk]. apply IH, Hk.
Qed.

Lemma executions_idle_bind {A B} E (p : prog A) (f : A -> prog B) w :
  idle p -> executions E (p ≫= f) w = executions E (f (run E p w).2) (run E p w).1.
Proof. intros Hp. by rewrite executions_bind, idle_executions. Qed.

Lemma idle_bind {A B} (p : prog A) (f : A -> prog B) : idle p -> (forall a, idle (f a)) -> idle (p ≫= f).
Proof.
  intros Hp Hf. induction p as [a|X e k IH]; [apply Hf|]. destruct Hp as [He Hk]. split; [done|]. intros x. by apply IH.
Qed.

Lemma idle_try {A B} (p : prog (res A)) wrap (k : A -> prog (res B)) :
  idle p -> (forall a, idle (k a)) -> idle (try p wrap k).
Proof. intros Hp Hk. apply idle_bind; [done|]. by intros [a|e]. Qed.

Lemma idle_call {X} (e : eff X) : executed e = [] -> idle (call e).
Proof. by split. Qed.

Create HintDb idle.

(** The structure of a program: its binds, calls and branches. *)
Ltac idle_go :=
  repeat
    first
      [ exact I
      | solve [auto with idle nocore]
      | apply idle_try; [|intros ?]
      | apply idle_bind; [|intros ?]
      | apply idle_call; reflexivity
      | match goal with
        | |- idle (let '_ := ?x in _) => destruct x
        | |- idle (match ?x with _ => _ end) => destruct x
        end ].


Lemma idle_Now : idle Now.
Proof. by split. Qed.
Lemma idle_NewUUID : idle NewUUID.
Proof. by split. Qed.
Lemma idle_hook h : idle (hook h).
Proof. by split. Qed.
Lemma idle_sql {X} (s : stmt X) : idle (sql s).
Proof. by split. Qed.
Lemma idle_Since t : idle (Since t).
Proof. by repeat split. Qed.
#[export] Hint Resolve idle_Now idle_NewUUID idle_hook idle_sql idle_Since : idle.

(** ** The executors *)
Section idle.
  Context `{UuidText} `{Fsm} `{Pgtype} `{FloatConv} `{Codec}.
  Context (jobs : gmap string JobConfig).

Lemma idle_Job_Event action job : idle (Job_Event action job).
Proof. unfold Job_Event. idle_go. Qed.
Lemma idle_Task_Event action task : idle (Task_Event action task).
Proof. unfold Task_Event. idle_go. Qed.
Hint Resolve idle_Job_Event idle_Task_Event : idle.

Lemma idle_applyJobAction job action : idle (applyJobAction job action).
Proof. unfold applyJobAction, Job_Start, Job_Complete, Job_Fail, Job_PartialFail, Job_Cancel. idle_go. Qed.
Hint Resolve idle_applyJobAction : idle.

Lemma idle_transitionJob job action : idle (transitionJob job action).
Proof. unfold transitionJob, jobTimingUpdates, UpdateJob. idle_go. Qed.

Lemma idle_finalizeRunningJob job action : idle (finalizeRunningJob job action).
Proof. unfold finalizeRunningJob, jobTimingUpdates, UpdateJobIfStatus. idle_go. Qed.
Hint Resolve idle_transitionJob idle_finalizeRunningJob : idle.

Lemma idle_maybeFinalizeJob id : idle (maybeFinalizeJob jobs id).
Proof. unfold maybeFinalizeJob, FindJobByID, GetTaskStatusSummary. idle_go. Qed.
Hint Resolve idle_maybeFinalizeJob : idle.

Lemma idle_finalizeAll ids : idle (finalizeAll jobs ids).
Proof. induction ids as [|id ids IH]; cbn [finalizeAll]; idle_go. Qed.
Hint Resolve idle_finalizeAll : idle.

Lemma idle_checkJobCompletions name : idle (checkJobCompletions jobs name).
Proof. unfold checkJobCompletions, FindCompletableJobIDs. idle_go. Qed.

Lemma idle_write msgs : idle (write msgs).
Proof. unfold write. idle_go. Qed.
Hint Resolve idle_write : idle.

Lemma idle_retry_messages topic d tasks : idle (retry_messages topic d tasks).
Proof. induction tasks as [|t tasks IH]; cbn [retry_messages]; idle_go. Qed.
Hint Resolve idle_retry_messages : idle.

(** With the default publisher. *)
Lemma idle_cfg_PublishTasks cfg tasks topic :
  Cfg_Publisher cfg = Some NewTaskPublisher -> idle (cfg_PublishTasks cfg tasks topic).
Proof. intros Hp. unfold cfg_PublishTasks. rewrite Hp. apply idle_write. Qed.

Lemma idle_cfg_PublishRetryTasks cfg tasks topic d :
  Cfg_Publisher cfg = Some NewTaskPublisher -> idle (cfg_PublishRetryTasks cfg tasks topic d).
Proof. intros Hp. unfold cfg_PublishRetryTasks. rewrite Hp. cbn. unfold publisher_PublishRetryTasks. idle_go. Qed.

Lemma idle_buildTasks_from job i data : idle (buildTasks_from job i data).
Proof. revert i. induction data as [|d data IH]; intros i; cbn [buildTasks_from]; idle_go. Qed.
Hint Resolve idle_buildTasks_from : idle.

Lemma idle_persistTriggerFailure job ref metadata phase e : idle (persistTriggerFailure job ref metadata phase e).
Proof. unfold persistTriggerFailure, FindJobWithTasksByUniqueReferenceID, CreateJobAndTasks. idle_go. Qed.
Hint Resolve idle_persistTriggerFailure : idle.

Lemma idle_prepareJobAndTasks cfg metadata ref : idle (prepareJobAndTasks cfg metadata ref).
Proof.
  unfold prepareJobAndTasks, FindJobWithTasksByUniqueReferenceID, IsEnabled, cfg_JobExecute, triggerFailed, buildTasks,
    CreateJobAndTasks. idle_go.
Qed.
Hint Resolve idle_prepareJobAndTasks : idle.

Section publisher.
  Context (cfg : JobConfig) (Hpub : Cfg_Publisher cfg = Some NewTaskPublisher).

Lemma idle_publishBatches batches : idle (publishBatches cfg batches).
Proof.
  induction batches as [|b batches IH]; cbn [publishBatches]; [done|].
  apply idle_try; [by apply idle_cfg_PublishTasks|done].
Qed.
Hint Resolve idle_publishBatches : idle.

Lemma idle_executeJobFlow job tasks : idle (executeJobFlow jobs job tasks cfg).
Proof. unfold executeJobFlow, UpdateTasksStatusByJobID, publishTasks, CancelPreviousJobs. idle_go. Qed.
Hint Resolve idle_executeJobFlow : idle.

(** A trigger runs no task. *)
Lemma idle_executeJob name ref metadata : jobs !! name = Some cfg -> idle (executeJob jobs name ref metadata).
Proof. intros Hcfg. unfold executeJob. rewrite Hcfg. idle_go. Qed.

Lemma idle_taskFinishUpdates task us : idle (taskFinishUpdates task us).
Proof. unfold taskFinishUpdates. idle_go. Qed.
Hint Resolve idle_taskFinishUpdates : idle.

Lemma idle_UpdateTask id us : idle (UpdateTask id us).
Proof. unfold UpdateTask. idle_go. Qed.
Hint Resolve idle_UpdateTask : idle.

Lemma idle_task_finished job task status start : idle (task_finished job task status start).
Proof. unfold task_finished. idle_go. Qed.
Hint Resolve idle_task_finished : idle.

Lemma idle_completeTask task output : idle (completeTask task output).
Proof. unfold completeTask, Task_Complete. idle_go. Qed.

Lemma idle_startTaskExecution task : idle (startTaskExecution task).
Proof. unfold startTaskExecution, Task_Start, markStarted. idle_go. Qed.

Lemma idle_handleTaskFailure task e : idle (handleTaskFailure task e cfg).
Proof.
  unfold handleTaskFailure, updateTaskStatus, retryTask, sendTaskToDLQ, Task_Retry, Task_ExhaustRetries.
  pose proof (idle_cfg_PublishTasks cfg). pose proof (idle_cfg_PublishRetryTasks cfg). idle_go.
Qed.
End publisher.
End idle.

(** ** What a message runs *)
Section runs.
  Context `{UuidText} `{FsmLaws} `{Pgtype} `{Codec}.
  Context (jobs : gmap string JobConfig).

(** The parts of [executeTask] before [runTask]; nothing is run for a task or a job that
    is over. *)
Lemma executions_load E w message t j cfg :
  reliable E -> delivered jobs (w_db w) message t j cfg ->
  executions E (executeTask jobs message) w =
  if negb (Job_IsExecutionPending j) || Task_IsTerminal t then []
  else executions E (runTask cfg j (Task_set_Job (Some j) t) (env_now E (w_tick w))) (tick (tick (tick w))).
Proof.
  intros HE [(m & Hm & Hid) [Ht Hj] Hcfg].
  unfold executeTask, parseTaskMessage. rewrite executions_idle_bind by apply idle_Now.
  rewrite run_Now, Hm. cbn [fst snd]. unfold try at 1.
  assert (Hq : idle (loadJobForTask m)) by (unfold loadJobForTask, FindTaskWithJob; idle_go).
  rewrite executions_idle_bind by exact Hq. unfold loadJobForTask. rewrite run_try, Hid.
  rewrite (run_FindTaskWithJob E (tick w) _ t j) by done. cbn [fst snd run].
  rewrite Hcfg. destruct (Job_IsExecutionPending j); cbn [negb orb].
  - change (Task_IsTerminal (Task_set_Job (Some j) t)) with (Task_IsTerminal t). destruct (Task_IsTerminal t); [|done].
    apply idle_executions, idle_bind; [apply idle_task_finished|done].
  - apply idle_executions. unfold updateTasksStatus, UpdateTasksStatus.
    apply idle_bind; [idle_go|]. intros _. apply idle_bind; [apply idle_task_finished|done].
Qed.

(** A run calls the configuration's executor, once, with the row's parameters. *)
Lemma executions_runTask E w cfg j t x params start :
  reliable E -> Cfg_Publisher cfg = Some NewTaskPublisher ->
  contains [TaskStatusPending; TaskStatusRunning] (Task_Status t) = true ->
  Task_GetParams t = Ok params -> Cfg_TaskExecutor cfg = Some x ->
  executions E (runTask cfg j t start) w = [(x, params)].
Proof.
  intros HE Hpub Hst Hp Hx.
  destruct (run_startTaskExecution E w t HE Hst) as (t' & started & upd & n & Hrun & Hsw & _).
  unfold runTask. rewrite executions_idle_bind by apply idle_startTaskExecution. rewrite Hrun. cbn [fst snd].
  rewrite executions_idle_bind by apply idle_hook.
  assert (Task_GetParams t' = Ok params) as ->.
  { destruct Hsw as (_ & _ & _ & _ & Hpar & _). unfold Task_GetParams in *. by rewrite Hpar. }
  unfold cfg_TaskExecute. rewrite Hx, executions_bind. cbn [executions executed call app].
  f_equal. apply idle_executions.
  destruct (run E _ _).2 as [output|e].
  - apply idle_bind; [apply idle_completeTask|]. intros r. idle_go; apply idle_task_finished.
  - apply idle_bind; [by apply idle_handleTaskFailure|]. intros r. idle_go; apply idle_task_finished.
Qed.

Lemma executions_executeTask E w message t j cfg x params :
  reliable E -> Cfg_Publisher cfg = Some NewTaskPublisher ->
  runnable jobs (w_db w) message t j cfg x params ->
  executions E (executeTask jobs message) w = [(x, params)].
Proof.
  intros HE Hpub [Hdel Hj Ht Hpar Hx].
  assert (Hterm : Task_IsTerminal t = false).
  { apply contains_spec in Ht. unfold Task_IsTerminal.
    repeat (apply elem_of_cons in Ht as [->|Ht]; [done|]). by apply not_elem_of_nil in Ht. }
  rewrite (executions_load E w message t j cfg), Hj, Hterm by done. cbn [negb orb]. by apply executions_runTask.
Qed.

(** What a consumer does with the result runs nothing. *)
Lemma executions_consume E w isRetry m :
  executions E (consume (executeTask jobs) isRetry m) w = executions E (processMessage (executeTask jobs) isRetry m) w.
Proof.
  unfold consume. rewrite executions_bind.
  rewrite (idle_executions E (match _ with Ok _ => _ | Err _ => _ end)) by (by case_match). by rewrite app_nil_r.
Qed.

(** One delivery calls the executor unless the task is over. *)
Lemma executions_delivery E w message t j cfg x params :
  reliable E -> Cfg_Publisher cfg = Some NewTaskPublisher ->
  in_flight jobs (w_db w) message t j cfg x params ->
  executions E (executeTask jobs message) w = if Task_IsTerminal t then [] else [(x, params)].
Proof.
  intros HE Hp [Hdel Hj Ht Hpar Hx _]. destruct (Task_IsTerminal t) eqn:Hterm.
  - by rewrite (executions_load E w message t j cfg), Hj, Hterm.
  - apply (executions_executeTask E w message t j cfg); [done|done|]. split; try done.
    apply contains_spec in Ht. apply contains_spec. apply elem_of_app in Ht as [?|Ht]; [done|].
    apply contains_spec in Ht. unfold Task_IsTerminal in Hterm. congruence.
Qed.

(** [k] deliveries: the calls of the executor, what they leave of the budget, and, when they
    all fail, that it is spent. *)
Lemma deliveries_spec E w message t j cfg x params k :
  reliable E -> Cfg_Publisher cfg = Some NewTaskPublisher ->
  in_flight jobs (w_db w) message t j cfg x params ->
  let w' := (run E (deliveries jobs message k) w).1 in
  exists t' n, in_flight jobs (w_db w') message t' j cfg x params /\
    executions E (deliveries jobs message k) w = repeat (x, params) n /\
    Z.of_nat n + budget t' <= budget t /\ (budget t = 0 -> t' = t) /\
    ((forall n, exists e, env_task_execute E n x params = Err e) ->
       Z.of_nat n = Z.min (Z.of_nat k) (budget t) /\
       (0 < budget t -> budget t <= Z.of_nat k -> Task_Status t' = TaskStatusMaxRetriesExhausted)).
Proof.
  intros HE Hp. cbv zeta. revert w t. induction k as [|k IH]; intros w t Hin.
  { cbn. exists t, O. splits; try done. intros _. split; [unfold budget; destruct (Task_IsTerminal t); lia|lia]. }
  cbn [deliveries]. rewrite run_bind, executions_bind, (executions_delivery E w message t j cfg x params) by done.
  destruct (executeTask_step jobs E w message t j cfg x params HE Hp Hin)
    as (t1 & h1 & Hin1 & _ & Hcall & Hb1 & _ & Hz1 & Hf1). cbv zeta in *.
  destruct (run E (executeTask jobs message) w) as [w1 r]. cbn [fst snd] in *.
  destruct (IH w1 t1 Hin1) as (t2 & n2 & Hin2 & Hn2 & Hb2 & Hz2 & Hf2).
  destruct (run E (deliveries jobs message k) w1) as [w2 []]. cbn [fst snd] in *.
  assert (0 <= budget t /\ 0 <= budget t1) as [].
  { unfold budget. split; [destruct (Task_IsTerminal t)|destruct (Task_IsTerminal t1)]; lia. }
  assert (exists n1 : nat, (if Task_IsTerminal t then [] else [(x, params)]) = repeat (x, params) n1 /\
            Z.of_nat n1 = count is_started h1) as (n1 & -> & Hn1).
  { rewrite Hcall. destruct (Task_IsTerminal t); [by exists O|by exists 1%nat]. }
  exists t2, (n1 + n2)%nat. splits; [done|by rewrite Hn2, repeat_app|lia| |].
  { intros Hz. destruct (Hz1 Hz) as [-> _]. by apply Hz2. }
  intros Hfail. destruct (Hf2 Hfail) as [Hc2 He2].
  destruct (decide (budget t = 0)) as [Hz|Hz].
  - destruct (Hz1 Hz) as [-> Hc1]. split; lia.
  - destruct (Hf1 Hfail) as (Hc1 & Hbt & He1); [lia|]. split; [lia|]. intros _ Hk.
    destruct (decide (budget t1 = 0)) as [Hb0|]; [|by apply He2; lia].
    rewrite (Hz2 Hb0). by apply He1.
Qed.
End runs.

(** ** Properties *)

(** C21: however often the messages of a task are delivered one after the other,
    and whatever the caller's executor answers each time, it is called at most
    [max 1 (MaxRetries - Attempt + 1)] times, always with the task's parameters, and no
    other executor is called. *)
Theorem task_runs_bounded `{UuidText} `{FsmLaws} `{Pgtype} `{Codec} jobs E w message t j cfg x params k :
  reliable E -> Cfg_Publisher cfg = Some NewTaskPublisher ->
  in_flight jobs (w_db w) message t j cfg x params ->
  exists n, executions E (deliveries jobs message k) w = repeat (x, params) n /\
    Z.of_nat n <= Z.max 1 (Task_MaxRetries t - Task_Attempt t + 1).
Proof.
  intros HE Hp Hin.
  destruct (deliveries_spec jobs E w message t j cfg x params k HE Hp Hin) as (t' & n & _ & Hn & Hb & _).
  exists n. split; [done|]. unfold budget in Hb. repeat case_match; lia.
Qed.

Theorem task_runs_bounded_witness :
  let t := sample_row 2 1 TaskStatusPending 1 in
  let w := sample_world [sample_job 1 JobStatusRunning] [t] in
  let calls := executions env_failing (@deliveries sample_uuid_text sample_fsm sample_pgtype sample_codec
                 sample_jobs sample_message 7) w in
  calls = repeat (0%nat, Some ∅) 3 /\ (exists n, calls = repeat (0%nat, Some ∅) n /\ Z.of_nat n <= Z.max 1 (3 - 1 + 1)).
Proof.
  intros t w calls. split; [by vm_compute|].
  exact (@task_runs_bounded sample_uuid_text sample_fsm sample_fsm_laws sample_pgtype sample_codec
           sample_jobs env_failing w sample_message t (sample_job 1 JobStatusRunning) sample_cfg
           0%nat (Some ∅) 7 env_failing_reliable eq_refl (sample_in_flight TaskStatusPending 1 eq_refl ltac:(done))).
Defined.

(** C20: a task whose executor always fails, delivered often enough, is run: the executor
    is called exactly [max 1 (MaxRetries - Attempt + 1)] times, each time with the task's
    parameters, and the row ends in status MAX_RETRIES_EXHAUSTED: the retries end, and no
    attempt is lost. *)
Theorem failing_task_exhausted `{UuidText} `{FsmLaws} `{Pgtype} `{Codec} jobs E w message t j cfg x params k :
  reliable E -> Cfg_Publisher cfg = Some NewTaskPublisher ->
  in_flight jobs (w_db w) message t j cfg x params -> Task_IsTerminal t = false ->
  (forall n, exists e, env_task_execute E n x params = Err e) ->
  Z.max 1 (Task_MaxRetries t - Task_Attempt t + 1) <= Z.of_nat k ->
  let w' := (run E (deliveries jobs message k) w).1 in
  executions E (deliveries jobs message k) w =
    repeat (x, params) (Z.to_nat (Z.max 1 (Task_MaxRetries t - Task_Attempt t + 1))) /\
  exists t', List.filter (task_has_id (Task_ID t)) (db_tasks (w_db w')) = [t'] /\
    Task_Status t' = TaskStatusMaxRetriesExhausted.
Proof.
  intros HE Hp Hin Ht Hfail Hk. cbv zeta.
  destruct (deliveries_spec jobs E w message t j cfg x params k HE Hp Hin)
    as (t' & n & [[(m' & Hm' & Hid') [Hf' _] _] _ _ _ _ _] & Hn & _ & _ & Hex). cbv zeta in *.
  assert (Hb : budget t = Z.max 1 (Task_MaxRetries t - Task_Attempt t + 1)) by (unfold budget; by rewrite Ht).
  destruct (Hex Hfail) as [Hc Hst].
  destruct Hin as [[(m & Hm & Hid) _ _] _ _ _ _ _].
  split; [rewrite Hn; f_equal; lia|]. exists t'. split; [|apply Hst; lia].
  assert (Task_ID t = Task_ID t') as -> by congruence. done.
Qed.

Theorem failing_task_exhausted_witness :
  let t := sample_row 2 1 TaskStatusPending 1 in
  let w := sample_world [sample_job 1 JobStatusRunning] [t] in
  let p := @deliveries sample_uuid_text sample_fsm sample_pgtype sample_codec sample_jobs sample_message 3 in
  executions env_failing p w = repeat (0%nat, Some ∅) 3 /\
  exists t', List.filter (task_has_id 2) (db_tasks (w_db (run env_failing p w).1)) = [t'] /\
    Task_Status t' = TaskStatusMaxRetriesExhausted.
Proof.
  intros t w p.
  exact (@failing_task_exhausted sample_uuid_text sample_fsm sample_fsm_laws sample_pgtype sample_codec
           sample_jobs env_failing w sample_message t (sample_job 1 JobStatusRunning) sample_cfg
           0%nat (Some ∅) 3 env_failing_reliable eq_refl
           (sample_in_flight TaskStatusPending 1 eq_refl ltac:(done)) eq_refl
           (fun _ => ex_intro _ _ eq_refl) ltac:(vm_compute; congruence)).
Defined.
