(* ===== verification/Steps.v ===== *)
(** * Steps: the worlds a run passes through

    The final world of a run does not say in which order its parts happened, nor what
    another worker sees meanwhile.  [worlds] lists the world after every call; with it,
    what a trigger does is stated step by step. *)
From S2P Require Import Prelude Go Domain Effects Repository JobConfig Transport Instances Lifecycle.
From S2P Require Import Finalizer TriggerFailure JobExecutor.

(** The world after each call of a run. *)
Fixpoint worlds {R} (E : env) (p : prog R) (w : World) : list World :=
  match p with
  | Ret _ => []
  | Vis e k => (interp E e w).1 :: worlds E (k (interp E e w).2) (interp E e w).1
  end.

(** The tables and the topics are the same. *)
Definition same_data (w w1 : World) : Prop := w_db w1 = w_db w /\ w_kafka w1 = w_kafka w.

(** Every world on the way satisfies [P]. *)
Definition passes {R} (E : env) (P : World -> Prop) (p : prog R) (w : World) : Prop := Forall P (worlds E p w).

(** No call of [p] reaches the database or Kafka. *)
Definition silent {X} (e : eff X) : bool :=
  match e with ESql _ | EWriteMessages _ => false | _ => true end.
Fixpoint quiet {R} (p : prog R) : Prop :=
  match p with
  | Ret _ => True
  | Vis e k => silent e = true /\ forall x, quiet (k x)
  end.

(** [p] changes the data in one step, if at all. *)
Definition one_step {R} (E : env) (p : prog R) (w : World) : Prop :=
  passes E (fun w1 => same_data w w1 \/ same_data (run E p w).1 w1) p w.

(** ** Lemmas *)
Section passes.
Context (E : env).

Lemma worlds_bind {A B} (p : prog A) (f : A -> prog B) w :
  worlds E (p ≫= f) w = worlds E p w ++ worlds E (f (run E p w).2) (run E p w).1.
Proof.
  revert w. induction p as [a|X e k IH]; intros w; [done|]. cbn. destruct (interp E e w) as [w' x]. cbn. f_equal. apply IH.
Qed.

Lemma passes_bind {A B} P (p : prog A) (f : A -> prog B) w :
  passes E P p w -> passes E P (f (run E p w).2) (run E p w).1 -> passes E P (p ≫= f) w.
Proof. intros Hp Hf. unfold passes. rewrite worlds_bind. by apply Forall_app. Qed.

Lemma passes_mono {R} (P Q : World -> Prop) (p : prog R) w :
  (forall w1, P w1 -> Q w1) -> passes E P p w -> passes E Q p w.
Proof. intros Hpq Hp. by eapply Forall_impl. Qed.

Lemma silent_interp {X} (e : eff X) w : silent e = true -> same_data w (interp E e w).1.
Proof. by destruct e. Qed.

Lemma quiet_run {R} (p : prog R) w : quiet p -> same_data w (run E p w).1 /\ passes E (same_data w) p w.
Proof.
  revert w. induction p as [a|X e k IH]; intros w; [by repeat split; constructor|]. intros [He Hk]. cbn.
  pose proof (silent_interp e w He) as [Hd Hq]. unfold passes. cbn [worlds].
  destruct (interp E e w) as [w' x]. cbn in *.
  destruct (IH x w' (Hk x)) as [[Hd' Hq'] Hp]. split; [split; congruence|]. constructor; [done|].
  eapply Forall_impl; [exact Hp|]. intros w1 [H1 H2]. split; congruence.
Qed.

Lemma silent_bind {A B} (p : prog A) (f : A -> prog B) : quiet p -> (forall a, quiet (f a)) -> quiet (p ≫= f).
Proof. intros Hp Hf. induction p as [a|X e k IH]; [apply Hf|]. destruct Hp as [He Hk]. split; [done|]. intros x. by apply IH. Qed.

(** Nothing happens before, or nothing after. *)
Lemma one_step_after {A B} (p : prog A) (f : A -> prog B) w :
  same_data w (run E p w).1 -> passes E (same_data w) p w ->
  one_step E (f (run E p w).2) (run E p w).1 -> one_step E (p ≫= f) w.
Proof.
  intros [Hd Hk] Hp Hf. unfold one_step. rewrite run_bind. apply passes_bind.
  - eapply passes_mono; [|exact Hp]. tauto.
  - eapply passes_mono; [|exact Hf]. intros w1 [[H1 H2]|?]; [left; split; congruence|tauto].
Qed.

Lemma one_step_quiet {A B} (p : prog A) (f : A -> prog B) w :
  quiet p -> one_step E (f (run E p w).2) (run E p w).1 -> one_step E (p ≫= f) w.
Proof. intros Hq. by apply one_step_after; apply quiet_run. Qed.

Lemma one_step_before {A B} (p : prog A) (f : A -> prog B) w :
  one_step E p w -> quiet (f (run E p w).2) -> one_step E (p ≫= f) w.
Proof.
  intros Hp Hq. unfold one_step. rewrite run_bind. destruct (quiet_run _ (run E p w).1 Hq) as [[Hd Hk] Hpass].
  apply passes_bind.
  - eapply passes_mono; [|exact Hp]. intros w1 [?|[H1 H2]]; [tauto|right; split; congruence].
  - eapply passes_mono; [|exact Hpass]. intros w1 [H1 H2]. right. split; congruence.
Qed.

Lemma one_step_silent {R} (p : prog R) w : quiet p -> one_step E p w.
Proof. intros Hq. eapply passes_mono; [|by apply quiet_run]. tauto. Qed.

Lemma one_step_call {X} (e : eff X) w : one_step E (call e) w.
Proof. unfold one_step, passes. cbn. destruct (interp E e w) as [w' x]. cbn. constructor; [right; by split|constructor]. Qed.

(** A query that leaves the tables alone. *)
Lemma query_passes {X} (s : stmt X) w r :
  reliable E -> (forall now, s now (w_db w) = (w_db w, r)) ->
  same_data w (run E (sql s) w).1 /\ passes E (same_data w) (sql s) w.
Proof.
  intros HE Hs. pose proof (run_query E s w r HE Hs) as Hr. split; [by rewrite Hr|].
  unfold passes. cbn in *. destruct (do_sql E s w) as [w' x]. injection Hr as -> _. constructor; [done|constructor].
Qed.
End passes.

Create HintDb quiet.

Ltac quiet_go :=
  repeat
    first
      [ exact I
      | solve [auto with quiet nocore]
      | apply silent_bind; [|intros ?]
      | split; [reflexivity|intros ?]
      | match goal with
        | |- quiet (let '_ := ?x in _) => destruct x
        | |- quiet (match ?x with _ => _ end) => destruct x
        end ].

(** ** The parts of a trigger *)
Section trigger.
Context `{UuidText} `{FsmLaws} `{PgtypeLaws} `{FloatConv} `{Codec}.

Lemma quiet_buildTasks job i data : quiet (buildTasks_from job i data).
Proof. revert i. induction data as [|d data IH]; intros i; cbn [buildTasks_from]; unfold try; quiet_go. Qed.

Lemma quiet_IsEnabled cfg : quiet (IsEnabled cfg).
Proof. unfold IsEnabled. quiet_go. Qed.

Lemma quiet_Job_Event action job : quiet (Job_Event action job).
Proof. unfold Job_Event. quiet_go. Qed.

(** A look for a reference no job has. *)
Lemma find_passes E w ref :
  reliable E -> List.filter (has_ref ref) (db_jobs (w_db w)) = [] ->
  let p := FindJobWithTasksByUniqueReferenceID ref in same_data w (run E p w).1 /\ passes E (same_data w) p w.
Proof.
  intros HE Hnew. cbv zeta. rewrite run_find_ref_none by done. split; [done|].
  assert (Hq : forall now, select_job_by_ref ref now (w_db w) = (w_db w, Ok None))
    by (intros now; unfold select_job_by_ref; by rewrite Hnew).
  apply passes_bind; [by eapply query_passes|]. rewrite (run_query E _ w _ HE Hq). constructor.
Qed.

(** A row for a trigger that failed appears at once, if at all. *)
Lemma triggerFailed_one_step E w job ref metadata phase e :
  reliable E -> List.filter (has_ref ref) (db_jobs (w_db w)) = [] ->
  one_step E (triggerFailed job ref metadata phase e) w.
Proof.
  intros HE Hnew. unfold triggerFailed. destruct (shouldPersistTriggerFailure metadata); [|by apply one_step_silent].
  apply one_step_before; [|done]. destruct (find_passes E w ref HE Hnew) as [Hsame Hpass].
  apply one_step_after; [done|done|]. rewrite run_find_ref_none by done. cbn [fst snd].
  destruct (Job_SetMetadata _ job) as [job'|e']; [|by apply one_step_silent].
  apply one_step_quiet; [by split|]. apply one_step_before; [apply one_step_call|]. by destruct (run E _ _).2 as [[]|].
Qed.

(** The job and its tasks appear together. *)
Lemma prepare_one_step E w jobs name ref metadata cfg data :
  reliable E -> triggerable E jobs (w_db w) name ref metadata cfg data ->
  one_step E (prepareJobAndTasks cfg metadata ref) w.
Proof.
  intros HE Htr. pose proof (trigger_new _ _ _ _ _ _ _ _ Htr) as Hnew.
  destruct (find_passes E w ref HE Hnew) as [Hsame Hpass].
  apply one_step_after; [done|done|]. rewrite run_find_ref_none by done. cbn [fst snd].
  apply one_step_quiet; [by split|]. rewrite run_NewUUID. cbn [fst snd].
  apply one_step_quiet; [apply quiet_IsEnabled|].
  destruct (quiet_run E (IsEnabled cfg) (tick (tick w)) (quiet_IsEnabled cfg)) as [[Hdb1 _] _].
  destruct (Job_SetMetadata metadata _) as [job|e]; [|by apply one_step_silent].
  assert (Hx : quiet (cfg_JobExecute cfg metadata)) by (unfold cfg_JobExecute; quiet_go).
  apply one_step_quiet; [exact Hx|].
  match goal with |- context [run E (cfg_JobExecute cfg metadata) ?w0] =>
    destruct (quiet_run E _ w0 Hx) as [[Hdb2 _] _]; set (w1 := run E (cfg_JobExecute cfg metadata) w0) in * end.
  assert (Hnew1 : List.filter (has_ref ref) (db_jobs (w_db w1.1)) = []) by (rewrite Hdb2, Hdb1; exact Hnew).
  destruct w1.2 as [items|e]; [|by apply triggerFailed_one_step].
  apply one_step_quiet; [apply quiet_buildTasks|].
  destruct (quiet_run E (buildTasks job items) w1.1 (quiet_buildTasks _ _ _)) as [[Hdb3 _] _].
  destruct (run E (buildTasks job items) w1.1).2 as [ts|e].
  - apply one_step_before; [apply one_step_call|]. by destruct (run E _ _).2.
  - apply triggerFailed_one_step; [done|]. by rewrite Hdb3.
Qed.

(** While the batches are published the tables stay, and the messages go out in order. *)
Definition publishing (w : World) (msgs : list Message) (w1 : World) : Prop :=
  w_db w1 = w_db w /\ exists sent, sent `prefix_of` msgs /\ w_kafka w1 = w_kafka w ++ sent.

Lemma publishBatches_passes E w cfg bs :
  reliable E -> Cfg_Publisher cfg = Some NewTaskPublisher ->
  passes E (publishing w (omap (task_message (Kafka_TaskTopic (Cfg_Kafka cfg))) (concat bs))) (publishBatches cfg bs) w.
Proof.
  intros HE Hp. set (f := task_message (Kafka_TaskTopic (Cfg_Kafka cfg))).
  revert w. induction bs as [|b bs IH]; intros w; cbn [publishBatches concat]; [constructor|].
  apply passes_bind; unfold cfg_PublishTasks; rewrite Hp; cbn [PublishTasks NewTaskPublisher]; unfold publisher_PublishTasks; fold f.
  - destruct (omap f b) as [|m ms] eqn:Hb; [constructor|]. unfold passes. cbn [write worlds call].
    constructor; [|constructor].
    pose proof (run_write_reliable E (m :: ms) w HE) as Hr. rewrite run_call in Hr. rewrite Hr. cbn [fst].
    split; [done|]. exists (m :: ms). split; [|done]. rewrite omap_app, Hb. by apply prefix_app_r.
  - destruct (run_write E w (omap f b) HE) as [n ->]. cbn [fst snd].
    eapply passes_mono; [|apply IH]. intros w1 [Hdb (sent & Hpre & Hk)]. split; [done|].
    exists (omap f b ++ sent). rewrite omap_app. split; [by apply prefix_app|]. by rewrite Hk, app_assoc.
Qed.

Lemma publishTasks_passes E w cfg ts :
  reliable E -> Cfg_Publisher cfg = Some NewTaskPublisher ->
  passes E (publishing w (omap (task_message (Kafka_TaskTopic (Cfg_Kafka cfg))) ts)) (publishTasks ts cfg) w.
Proof.
  intros HE Hp. unfold publishTasks. destruct ts as [|t ts]; [constructor|].
  set (bs := chunks _ (t :: ts)). assert (Hc : concat bs = t :: ts) by (apply chunks_concat; vm_compute; lia).
  pose proof (publishBatches_passes E w cfg bs HE Hp) as Hpass. rewrite Hc in Hpass.
  destruct (run_publishBatches E w cfg bs HE Hp) as [n Hrun]. rewrite Hc in Hrun.
  apply passes_bind; [exact Hpass|]. rewrite Hrun. cbn [fst snd]. unfold passes. cbn. repeat constructor.
  eexists. split; [|done]. done.
Qed.

(** The cancellation of the previous runs, and the start. *)
Lemma quiet_applyJobAction job action : quiet (applyJobAction job action).
Proof.
  unfold applyJobAction, Job_Start, Job_Complete, Job_Fail, Job_PartialFail, Job_Cancel.
  pose proof quiet_Job_Event. quiet_go.
Qed.

Lemma transition_one_step E w job action : one_step E (transitionJob job action) w.
Proof.
  unfold transitionJob. apply one_step_quiet; [apply quiet_applyJobAction|].
  destruct (run E (applyJobAction job action) w).2 as [job' [e|]]; [by apply one_step_silent|].
  apply one_step_quiet; [unfold jobTimingUpdates; quiet_go|].
  destruct (run E (jobTimingUpdates job' action) _).2 as [job2 us].
  apply one_step_before; [|done]. unfold UpdateJob. destruct us; [by apply one_step_silent|].
  apply one_step_quiet; [by split|]. apply one_step_before; [apply one_step_call|done].
Qed.

(** How far a trigger has got in the world [w1]: nothing is done; the rows [created] are
    there, and the first of the messages are sent; or all messages are sent, and the
    tables are still [created], or have the previous runs [cancelled], or the job [running]. *)
Inductive trigger_phase (w : World) (created cancelled running : DB) (msgs : list Message) (w1 : World) : Prop :=
| Phase_nothing : w_db w1 = w_db w -> w_kafka w1 = w_kafka w -> trigger_phase w created cancelled running msgs w1
| Phase_publishing sent :
    w_db w1 = created -> sent `prefix_of` msgs -> w_kafka w1 = w_kafka w ++ sent ->
    trigger_phase w created cancelled running msgs w1
| Phase_published :
    w_db w1 = cancelled \/ w_db w1 = running -> w_kafka w1 = w_kafka w ++ msgs ->
    trigger_phase w created cancelled running msgs w1.

Lemma flow_phases jobs E w0 w cfg job ts :
  reliable E -> Cfg_Publisher cfg = Some NewTaskPublisher -> Job_Status job = JobStatusPending -> ts ≠ [] ->
  w_kafka w = w_kafka w0 ->
  exists job' started upd now n,
    let msgs := omap (task_message (Kafka_TaskTopic (Cfg_Kafka cfg))) ts in
    let cancelled := after_cancel cfg job now (w_db w) in
    let running := update_jobs (job_has_id (Job_ID job)) (row_started started upd) cancelled in
    run E (executeJobFlow jobs job ts cfg) w =
    (mkWorld running (w_kafka w ++ msgs)
       (w_hooks w ++ [OnTasksPublished (Cfg_Name cfg) (Z.of_nat (length ts))]) n, (job', None)) /\
    Job_Status job' = JobStatusRunning /\ reading E started /\ reading E upd /\
    passes E (trigger_phase w0 (w_db w) cancelled running msgs) (executeJobFlow jobs job ts cfg) w.
Proof.
  intros HE Hp Hst Hne Hw0. set (msgs := omap _ ts).
  destruct (run_publishTasks E w cfg ts HE Hp Hne) as [n1 Hpub]. fold msgs in Hpub.
  pose proof (publishTasks_passes E w cfg ts HE Hp) as Hpass1. fold msgs in Hpass1.
  set (w1 := mkWorld _ _ _ n1) in Hpub.
  set (p := if Cfg_CancelPrevious cfg then CancelPreviousJobs (Job_Name job) (Job_ID job) else Ret (Ok ())).
  assert (exists now n, (run E p w1).1 = mkWorld (after_cancel cfg job now (w_db w)) (w_kafka w1) (w_hooks w1) n)
    as (now & n2 & Hcan).
  { unfold p, after_cancel, CancelPreviousJobs. destruct (Cfg_CancelPrevious cfg).
    - rewrite run_sql_reliable by done. by eexists _, _.
    - exists 0, n1. done. }
  assert (Hstep : one_step E p w1).
  { unfold p. destruct (Cfg_CancelPrevious cfg); [apply one_step_call|by apply one_step_silent]. }
  set (w2 := mkWorld _ _ _ n2) in Hcan.
  destruct (run_transition_start E w2 job HE Hst) as (job' & s & u & n3 & Hrun & Hs & _ & _ & Hrs & Hru).
  pose proof (transition_one_step E w2 job JobActionStart) as Hstep2.
  exists job', s, u, now, n3. cbv zeta.
  set (cancelled := after_cancel cfg job now (w_db w)) in *.
  assert (Hbr : executeJobFlow jobs job ts cfg =
    (published ← publishTasks ts cfg;
     match published with
     | Err e => '(job, _) ← transitionJob job JobActionFail; Ret (job, Some e)
     | Ok _ => _ ← p; '(job, err) ← transitionJob job JobActionStart;
         match err with
         | Some e => Ret (job, Some (ErrWrap "start job" e))
         | None => _ ← (match ts with [] => maybeFinalizeJob jobs (Job_ID job) | _ => Ret None end); Ret (job, None)
         end
     end)).
  { unfold executeJobFlow, Job_IsExecutionPending, Job_IsRunning. by rewrite Hst. }
  rewrite Hbr. clear Hbr. splits; [|done|done|done|].
  - rewrite run_bind, Hpub. cbn [fst snd]. rewrite run_bind, Hcan, run_bind, Hrun. cbn [fst snd].
    destruct ts; [done|]. by rewrite run_bind, !run_Ret.
  - apply passes_bind; [|rewrite Hpub; cbn [fst snd]; apply passes_bind; [|rewrite Hcan; apply passes_bind]].
    + eapply passes_mono; [|exact Hpass1]. intros w' [Hdb (sent & Hpre & Hk)].
      eapply Phase_publishing; [done|exact Hpre|by rewrite Hk, Hw0].
    + eapply passes_mono; [|exact Hstep]. rewrite Hcan. intros w' [[Hdb Hk]|[Hdb Hk]].
      * eapply Phase_publishing; [done|done|by rewrite Hk, <- Hw0].
      * apply Phase_published; [by left|by rewrite Hk, <- Hw0].
    + eapply passes_mono; [|exact Hstep2]. rewrite Hrun. intros w' [[Hdb Hk]|[Hdb Hk]].
      * apply Phase_published; [by left|by rewrite Hk, <- Hw0].
      * apply Phase_published; [by right|by rewrite Hk, <- Hw0].
    + rewrite Hrun. cbn [fst snd]. destruct ts; [done|]. constructor.
Qed.
End trigger.

(** ** Properties *)

(** C4: a trigger with a new reference, an enabled job and a split of at least one item,
    while the clock reads years that JSON knows.  It inserts one job row and one task row
    per item, with the item's name, parameters and key, sequence numbers 0, 1, 2, ...,
    attempt 1 and the job's own creation time (so that the executor finds the job of each
    task); publishes one message per task, the task's encoding, to the task topic, in
    order, over all the batches; cancels the previous runs if configured; and marks the job
    RUNNING.  The order is that of [trigger_phase] in every world on the way: the rows appear
    all at once, before the first message; the previous runs are cancelled and the job is
    RUNNING only when every message has been sent. *)
Theorem executeJob_starts `{UuidText} `{FsmLaws} `{PgtypeLaws} `{FloatConv} `{CodecLaws} E w jobs name ref metadata cfg data :
  reliable E -> json_clock E cfg ->
  triggerable E jobs (w_db w) name ref metadata cfg data -> switched E cfg true -> data ≠ [] ->
  exists job ts msgs started upd now d,
    let created := mkDB (db_jobs (w_db w) ++ [job]) (db_tasks (w_db w) ++ ts) in
    let cancelled := after_cancel cfg job now created in
    let running := update_jobs (job_has_id (Job_ID job)) (row_started started upd) cancelled in
    let '(w', err) := run E (executeJob jobs name ref metadata) w in
    err = None /\
    new_row (w_db w) name ref JobStatusPending metadata cfg job /\
    tasks_for job TaskStatusPending 0 data ts /\
    map (task_message (Kafka_TaskTopic (Cfg_Kafka cfg))) ts = map Some msgs /\
    w_db w' = running /\ w_kafka w' = w_kafka w ++ msgs /\
    w_hooks w' = w_hooks w ++
      [OnTasksPublished name (Z.of_nat (length data)); OnJobFinished name ref JobStatusRunning d] /\
    passes E (trigger_phase w created cancelled running msgs) (executeJob jobs name ref metadata) w.
Proof.
  intros HE Hclock Htr Hb Hne.
  destruct (run_prepareJobAndTasks E (tick w) jobs name ref metadata cfg data true HE
              (tick_triggerable _ _ _ _ _ _ _ _ Htr) Hb) as (job & ts & n & Hprep & Hrow & Hts & _ & _ & _ & Hok).
  pose proof (prepare_one_step E (tick w) jobs name ref metadata cfg data HE (tick_triggerable _ _ _ _ _ _ _ _ Htr)) as Hstep.
  pose proof (tasks_for_length _ _ _ _ _ Hts) as Hlen.
  set (w1 := mkWorld _ _ _ n) in Hprep.
  destruct (flow_phases jobs E w w1 cfg job ts HE (trigger_publisher _ _ _ _ _ _ _ _ Htr)
              (new_row_status _ _ _ _ _ _ _ Hrow)) as (job' & s & u & now & n2 & Hflow & Hst & _ & _ & Hpass);
    [intros ->; by destruct data|done|]. cbv zeta in *.
  rewrite (run_executeJob jobs E w name ref metadata cfg job ts w1 (trigger_cfg _ _ _ _ _ _ _ _ Htr) Hprep), Hflow.
  cbn [w_db w_kafka w_hooks w_tick].
  exists job, ts, (omap (task_message (Kafka_TaskTopic (Cfg_Kafka cfg))) ts), s, u, now. eexists.
  splits; [done|exact Hrow|exact Hts| |done|done| |].
  - destruct (rows_json _ _ _ Hok (clock_now _ _ Hclock)) as [_ Hall]. by apply task_messages_all.
  - unfold Job_IsExecutionPending. by rewrite Hst, Hlen, (trigger_name _ _ _ _ _ _ _ _ Htr), <- app_assoc.
  - unfold executeJob. apply passes_bind; [repeat constructor|]. rewrite run_Now. cbn [fst snd].
    rewrite (trigger_cfg _ _ _ _ _ _ _ _ Htr). apply passes_bind; [|rewrite Hprep; cbn [fst snd]; apply passes_bind].
    + eapply passes_mono; [|exact Hstep]. rewrite Hprep. intros w' [[Hdb Hk]|[Hdb Hk]].
      * by apply Phase_nothing.
      * apply (Phase_publishing _ _ _ _ _ _ []); [done|apply prefix_nil|by rewrite app_nil_r].
    + exact Hpass.
    + rewrite Hflow. cbn [fst snd].
      eapply passes_mono; [|apply quiet_run; by repeat split]. intros w' [Hdb Hk]. apply Phase_published; [by right|done].
Qed.

Theorem executeJob_starts_witness :
  let data := [mkTaskData "a" None "k"; mkTaskData "b" None ""] in
  let w := sample_world [sample_job 1 JobStatusCompleted] [sample_row 2 1 TaskStatusCompleted 1] in
  exists job ts msgs started upd,
    let '(w', err) := run (trigger_env data) (@executeJob sample_uuid_text sample_fsm sample_pgtype
                             sample_float_conv sample_jobs "job" "new" None) w in
    err = None /\ @tasks_for sample_pgtype job TaskStatusPending 0 data ts /\
    w_db w' = update_jobs (job_has_id (Job_ID job)) (row_started started upd)
                (mkDB (db_jobs (w_db w) ++ [job]) (db_tasks (w_db w) ++ ts)) /\
    w_kafka w' = msgs /\ length msgs = 2%nat /\
    passes (trigger_env data) (fun w1 => w_kafka w1 = msgs \/ Forall (fun j => Job_Status j ≠ JobStatusRunning) (db_jobs (w_db w1)))
      (@executeJob sample_uuid_text sample_fsm sample_pgtype sample_float_conv sample_jobs "job" "new" None) w.
Proof.
  intros data w.
  assert (@triggerable sample_pgtype sample_codec (trigger_env data) sample_jobs (w_db w) "job" "new" None
            sample_cfg data) as Htr.
  { apply sample_triggerable; [| |done|repeat constructor; by eexists|by repeat constructor|done].
    - intros j ->%list_elem_of_singleton. done.
    - intros t ->%list_elem_of_singleton. done. }
  destruct (@executeJob_starts sample_uuid_text sample_fsm sample_fsm_laws sample_pgtype sample_pgtype_laws
              sample_float_conv sample_codec sample_codec_laws (trigger_env data) w sample_jobs "job" "new" None sample_cfg data
              (sample_env_reliable _ _) (sample_env_clock _ _) Htr eq_refl ltac:(done))
    as (job & ts & msgs & s & u & now & d & Hspec).
  exists job, ts, msgs, s, u. cbv zeta in Hspec. destruct (run _ _ w) as [w' err].
  destruct Hspec as (He & Hrow & Hts & Hmap & Hdb & Hk & _ & Hpass). splits; [exact He|exact Hts|exact Hdb|exact Hk| |].
  - apply (f_equal length) in Hmap. rewrite !length_map in Hmap. rewrite <- Hmap.
    destruct ts as [|t1 [|t2 [|]]]; cbn in Hts; first [done | by destruct Hts as (? & ? & ?) | by destruct Hts].
  - eapply passes_mono; [|exact Hpass]. intros w1 [Hd1 Hk1|sent Hd1 Hpre Hk1|Hd1 Hk1]; [right|right|by left].
    + rewrite Hd1. by repeat constructor.
    + rewrite Hd1. apply Forall_app. split; [by repeat constructor|]. constructor; [|constructor].
      by rewrite (new_row_status _ _ _ _ _ _ _ Hrow).
Defined.
