(* ===== verification/Delivery.v ===== *)
(** * Delivery: from the publisher to the executor and back

    What the two sides of the transport ([internal/transport]) promise to each
    other: a message made by the publisher is one the consumer runs for the same
    task, and a retried task's message brings the executor back to its row. *)
From S2P Require Import Prelude Go Domain Effects Repository JobConfig Transport Instances Lifecycle.
From S2P Require Import Finalizer JobExecutor TaskExecutor.

(** Message [m] carries task [t] to [topic]. *)
Definition carries `{Codec} (topic : string) (t : Task) (m : Message) : Prop :=
  Message_Topic m = topic /\ Message_Key m = partitionKey t /\
  exists t', parseTaskMessage (Message_Value m) = Ok t' /\ Task_ID t' = Task_ID t.

(** Every task has an encoding. *)
Definition marshals `{Codec} (t : Task) : Prop := is_Ok (json_Marshal_Task t).

(** ** Lemmas *)

Lemma task_message_carries `{CodecLaws} topic t m :
  task_message topic t = Some m -> carries topic t m.
Proof.
  unfold task_message. destruct (json_Marshal_Task t) as [s|] eqn:Hm; [|done]. intros [= <-].
  destruct (json_Task_id t s Hm) as (t' & Hu & Hid). split; [done|]. split; [done|].
  exists t'. cbn. unfold parseTaskMessage. by rewrite Hu.
Qed.

Lemma task_messages_carry `{CodecLaws} topic ts :
  Forall marshals ts -> Forall2 (carries topic) ts (omap (task_message topic) ts).
Proof.
  induction 1 as [|t ts [s Hs] Hts IH]; [constructor|]. cbn.
  assert (task_message topic t = Some (mkMessage topic (partitionKey t) s)) as Ht
    by (unfold task_message; by rewrite Hs).
  rewrite Ht. constructor; [by apply task_message_carries|done].
Qed.

(** ** Properties *)

(** [PublishTasks] writes one message per task, in the order of the tasks, to
    the given topic, keyed by the task's distribution key when it has a non-empty
    one, and each message decodes to its task at the consumer. *)
Theorem PublishTasks_carries `{CodecLaws} E w tasks topic :
  reliable E -> Forall marshals tasks ->
  exists messages,
    let '(w', r) := run E (publisher_PublishTasks tasks topic) w in
    r = Ok () /\ w_db w' = w_db w /\ w_hooks w' = w_hooks w /\
    w_kafka w' = w_kafka w ++ messages /\ Forall2 (carries topic) tasks messages.
Proof.
  intros HE Hm. exists (omap (task_message topic) tasks). unfold publisher_PublishTasks.
  destruct (run_write E w (omap (task_message topic) tasks) HE) as [n ->].
  splits; try done. by apply task_messages_carry.
Qed.

Theorem PublishTasks_carries_witness :
  let tasks := [sample_row 2 1 TaskStatusPending 1; sample_row 3 1 TaskStatusPending 1] in
  exists messages,
    let '(w', r) := run env_ok (@publisher_PublishTasks sample_codec tasks "tasks") (sample_world [] []) in
    length messages = 2%nat /\ r = Ok () /\ w_kafka w' = messages /\
    Forall2 (@carries sample_codec "tasks") tasks messages.
Proof.
  intros tasks.
  destruct (@PublishTasks_carries sample_codec sample_codec_laws env_ok (sample_world [] []) tasks "tasks"
              env_ok_reliable) as [messages Hspec].
  { repeat constructor; by eexists. }
  exists messages. destruct (run _ _ _) as [w' r]. destruct Hspec as (Hr & _ & _ & Hk & Hc).
  splits; [by rewrite <- (Forall2_length _ _ _ Hc)|exact Hr|exact Hk|exact Hc].
Defined.

(** The message published for a retried task [m] brings the executor back to
    the task's row: the retry consumer decodes it, waits until it is due, and runs
    [executeTask] on a message that is delivered for that row; it is committed
    exactly when [executeTask] reports no error. *)
Theorem retry_message_delivered `{UuidText} `{FsmLaws} `{Pgtype} `{CodecLaws} jobs E w cfg0 cfg m now msg t j :
  msg ∈ retry_message cfg0 m now -> Task_ID m = Task_ID t ->
  loads (w_db w) (Task_ID t) t j -> jobs !! Job_Name j = Some cfg ->
  Message_Topic msg = Kafka_TaskRetryTopic (Cfg_Kafka cfg0) /\ Message_Key msg = partitionKey m /\
  exists payload w1,
    delivered jobs (w_db w1) payload t j cfg /\
    w_db w1 = w_db w /\ w_kafka w1 = w_kafka w /\ w_hooks w1 = w_hooks w /\
    let '(w', r) := run E (executeTask jobs payload) w1 in
    run E (consume (executeTask jobs) true msg) w = (w', match r with Ok _ => true | Err _ => false end).
Proof.
  intros Hmsg Hid Hloads Hcfg. unfold retry_message in Hmsg.
  set (rm := mkRetryMessage _ _ _) in Hmsg.
  destruct (json_Marshal_RetryMessage rm) as [s|] eqn:Hs; [|by apply not_elem_of_nil in Hmsg].
  apply list_elem_of_singleton in Hmsg as ->. split; [done|]. split; [done|].
  destruct (json_RetryMessage_fields rm s Hs) as (rm' & Hu & Hrid & _ & payload & Hp).
  destruct (json_Task_id _ _ Hp) as (t' & Hu' & Hid').
  set (wait := Sub (RetryMessage_ProcessAfter rm') (env_now E (w_tick w))).
  exists payload, (ticks (if decide (0 < wait) then 2 else 1) w). splits; try done.
  - split; [|done|done]. exists t'. split; [done|]. rewrite Hid', Hrid. exact Hid.
  - unfold consume, processMessage, processRetryMessage. cbn [Message_Value]. rewrite Hu.
    rewrite run_bind, run_bind, run_Now. cbn [fst snd]. fold wait. rewrite run_bind, Hp.
    assert (run E (if 0 <? wait then call (ESleep wait) else Ret ()) (tick w) =
            (ticks (if decide (0 < wait) then 2 else 1) w, ())) as ->.
    { destruct (Z.ltb_spec 0 wait); [rewrite decide_True by done|rewrite decide_False by lia]; done. }
    cbn [fst snd]. destruct (run E (executeTask jobs payload) _) as [w' r]. cbn [fst snd]. by destruct r.
Qed.

Theorem retry_message_delivered_witness :
  let t := sample_row 2 1 TaskStatusPending 2 in
  let w := sample_world [sample_job 1 JobStatusRunning] [t] in
  let msg := mkMessage "retries" (Some "key"%string) (N_text 2 (Z_text 1500 "")) in
  exists payload w1,
    @delivered sample_codec sample_jobs (w_db w1) payload t (sample_job 1 JobStatusRunning) sample_cfg /\
    w_db w1 = w_db w /\
    let '(w', r) := run env_ok (@executeTask sample_uuid_text sample_fsm sample_pgtype sample_codec
                                  sample_jobs payload) w1 in
    run env_ok (consume (H := sample_codec)
                  (@executeTask sample_uuid_text sample_fsm sample_pgtype sample_codec sample_jobs) true msg) w
    = (w', match r with Ok _ => true | Err _ => false end).
Proof.
  intros t w msg.
  destruct (@retry_message_delivered sample_uuid_text sample_fsm sample_fsm_laws sample_pgtype sample_codec
              sample_codec_laws sample_jobs env_ok w sample_cfg sample_cfg t 500 msg t
              (sample_job 1 JobStatusRunning)) as (_ & _ & payload & w1 & Hdel & Hdb & _ & _ & Hrun).
  - apply list_elem_of_singleton. by vm_compute.
  - reflexivity.
  - by split.
  - apply sample_jobs_cfg.
  - exists payload, w1. splits; [exact Hdel|exact Hdb|exact Hrun].
Defined.
