(* ===== verification/Consumer.v ===== *)
(** * Consumer: the loop of a Kafka consumer

    [taskConsumer.run] of [internal/transport/consumer.go]: fetch, process, commit,
    until the context is cancelled.  The reader is kafka-go's; [MessageReader] has
    its three methods over one partition and [MessageReaderLaws] what its
    documentation says of positions and offsets.  The context is the list of
    answers to the looks the loop takes at it. *)
From S2P Require Import Prelude Go Domain Effects Repository JobConfig Transport Instances Lifecycle.
From S2P Require Import Finalizer TriggerFailure JobExecutor TaskExecutor Delivery.

(** [MessageReader]; a fetched message comes with its offset.  [resume] is what a
    new member of the consumer group starts from. *)
Class MessageReader := {
  reader : Type;
  FetchMessage : reader -> reader * res (nat * Message);
  CommitMessages : nat -> reader -> reader * option error;
  position : reader -> nat;
  committed : reader -> nat;
  resume : reader -> reader;
}.

(** A fetch takes the next message of the partition and does not commit it; a
    commit moves the committed offset past its message, and never back. *)
Class MessageReaderLaws `{MessageReader} (published : reader -> list Message) : Prop := {
  fetch_ok : forall r r' o m, FetchMessage r = (r', Ok (o, m)) ->
    o = position r /\ position r' = S (position r) /\ committed r' = committed r /\
    published r' !! o = Some m /\ published r `prefix_of` published r';
  fetch_error : forall r r' e, FetchMessage r = (r', Err e) ->
    position r' = position r /\ committed r' = committed r /\ published r `prefix_of` published r';
  commit_ok : forall o r r', CommitMessages o r = (r', None) ->
    position r' = position r /\ committed r' = Nat.max (committed r) (S o) /\ published r' = published r;
  commit_error : forall o r r' e, CommitMessages o r = (r', Some e) ->
    position r' = position r /\ published r' = published r /\
    (committed r' = committed r \/ committed r' = Nat.max (committed r) (S o));
  resume_committed : forall r,
    position (resume r) = committed r /\ committed (resume r) = committed r /\ published (resume r) = published r;
}.

(** What one turn of the loop comes to; the first three are the lines it logs. *)
Inductive entry : Type :=
| FetchFailed (e : error)
| ProcessFailed (offset : nat)
| CommitFailed (offset : nat)
| Committed (offset : nat).

Section loop.
  Context `{Codec} `{MessageReader}.
  Context (ExecuteTask : string -> prog (res unit)) (isRetry : bool) (ctx : nat -> bool).

(** One turn on a fetched message. *)
Definition taskConsumer_turn (o : nat) (msg : Message) (r : reader) : prog (reader * entry) :=
  ok ← consume ExecuteTask isRetry msg;
  if ok : bool then
    match CommitMessages o r with
    | (r, None) => Ret (r, Committed o)
    | (r, Some _) => Ret (r, CommitFailed o)
    end
  else Ret (r, ProcessFailed o).

Definition logged (en : entry) (rest : option (reader * list entry)) : option (reader * list entry) :=
  match rest with Some (r, log) => Some (r, en :: log) | None => None end.

(** The loop, [looks] looks at the context later; [None] is out of fuel. *)
Fixpoint taskConsumer_run (fuel looks : nat) (r : reader) : prog (option (reader * list entry)) :=
  match fuel with
  | O => Ret None
  | S fuel =>
      if ctx looks then Ret (Some (r, []))
      else
        match FetchMessage r with
        | (r, Err e) =>
            if ctx (S looks) then Ret (Some (r, []))
            else
              rest ← taskConsumer_run fuel (S (S looks)) r;
              Ret (logged (FetchFailed e) rest)
        | (r, Ok (o, msg)) =>
            '(r, en) ← taskConsumer_turn o msg r;
            rest ← taskConsumer_run fuel (S looks) r;
            Ret (logged en rest)
        end
  end.

(** ** Specification *)

(** The messages, one after the other, and which of them went well. *)
Fixpoint consume_all (msgs : list Message) : prog (list bool) :=
  match msgs with
  | [] => Ret []
  | m :: msgs => ok ← consume ExecuteTask isRetry m; oks ← consume_all msgs; Ret (ok :: oks)
  end.
End loop.

(** The messages a log is about, in order, and how they went. *)
Definition entry_message (en : entry) : option (nat * bool) :=
  match en with
  | FetchFailed _ => None
  | ProcessFailed o => Some (o, false)
  | CommitFailed o | Committed o => Some (o, true)
  end.
Definition messages_of (log : list entry) : list (nat * bool) := omap entry_message log.

(** The offset a log commits up to. *)
Definition commits (log : list entry) (c : nat) : nat :=
  foldl (fun c en => match en with Committed o => Nat.max c (S o) | _ => c end) c log.

(** The committed offset moved from [c] to [c'] by commits of messages that went well. *)
Definition committed_by (log : list entry) (c c' : nat) : Prop :=
  c' = c \/ exists o, (o, true) ∈ messages_of log /\ c' = S o.

(** ** Lemmas *)
Lemma commits_mono log c c' : (c <= c')%nat -> (commits log c <= commits log c')%nat.
Proof.
  revert c c'. induction log as [|en log IH]; intros c c' Hc; [done|]. cbn. apply IH. destruct en; lia.
Qed.

Lemma committed_by_max en o c : entry_message en = Some (o, true) -> committed_by [en] c (Nat.max c (S o)).
Proof.
  intros Hen. destruct (Nat.max_spec c (S o)) as [[_ ->]|[_ ->]]; [|by left].
  right. exists o. split; [|done]. unfold messages_of. cbn. rewrite Hen. left.
Qed.

Lemma committed_by_app log1 log2 c1 c2 c3 :
  committed_by log1 c1 c2 -> committed_by log2 c2 c3 -> committed_by (log1 ++ log2) c1 c3.
Proof.
  unfold committed_by, messages_of. rewrite omap_app. setoid_rewrite elem_of_app.
  intros [->|(o & ? & ->)] [->|(o' & ? & ->)]; eauto.
Qed.

Section laws.
  Context `{Codec} `{MessageReaderLaws}.
  Context (ExecuteTask : string -> prog (res unit)) (isRetry : bool) (ctx : nat -> bool) (E : env).

(** One turn: the message is consumed, and committed if that went well. *)
Lemma run_turn o msg r w :
  let '(w', (r', en)) := run E (taskConsumer_turn ExecuteTask isRetry o msg r) w in
  let '(w1, ok) := run E (consume ExecuteTask isRetry msg) w in
  w' = w1 /\ entry_message en = Some (o, ok) /\ position r' = position r /\ published r' = published r /\
  (commits [en] (committed r) <= committed r')%nat /\ committed_by [en] (committed r) (committed r').
Proof.
  unfold taskConsumer_turn. rewrite run_bind.
  destruct (run E (consume ExecuteTask isRetry msg) w) as [w1 []]; cbn [fst snd].
  - destruct (CommitMessages o r) as [r' [e|]] eqn:Hc; rewrite run_Ret; cbn.
    + apply commit_error in Hc as (-> & -> & Hc). splits; try done; [lia|].
      destruct Hc as [->| ->]; [by left|]. by apply committed_by_max.
    + apply commit_ok in Hc as (-> & -> & ->). splits; try done. by apply committed_by_max.
  - rewrite run_Ret. cbn. splits; try done. by left.
Qed.

(** [run] of the loop, turn by turn. *)
Lemma run_loop fuel looks r w w' r' log :
  run E (taskConsumer_run ExecuteTask isRetry ctx fuel looks r) w = (w', Some (r', log)) ->
  exists msgs,
    published r `prefix_of` published r' /\
    msgs = take (length msgs) (drop (position r) (published r')) /\
    position r' = (position r + length msgs)%nat /\
    (let '(w1, oks) := run E (consume_all ExecuteTask isRetry msgs) w in
     w' = w1 /\ messages_of log = zip (seq (position r) (length msgs)) oks /\ length oks = length msgs) /\
    (commits log (committed r) <= committed r')%nat /\ committed_by log (committed r) (committed r').
Proof.
  revert looks r w w' log. induction fuel as [|fuel IH]; intros looks r w w' log; cbn [taskConsumer_run].
  { by rewrite run_Ret. }
  assert (Hstop : published r `prefix_of` published r' /\ position r' = position r /\ committed r' = committed r ->
    exists msgs, published r `prefix_of` published r' /\
      msgs = take (length msgs) (drop (position r) (published r')) /\
      position r' = (position r + length msgs)%nat /\
      (let '(w1, oks) := run E (consume_all ExecuteTask isRetry msgs) w in
       w = w1 /\ messages_of [] = zip (seq (position r) (length msgs)) oks /\ length oks = length msgs) /\
      (commits [] (committed r) <= committed r')%nat /\ committed_by [] (committed r) (committed r')).
  { intros (Hp & Hpos & Hc). exists []. cbn. splits; try done; try lia. by left. }
  destruct (ctx looks).
  { rewrite run_Ret. intros [= <- <- <-]. by apply Hstop. }
  destruct (FetchMessage r) as [r1 [[o msg]|e]] eqn:Hf.
  - apply fetch_ok in Hf as (-> & Hpos & Hc & Hm & Hpre).
    rewrite run_bind. pose proof (run_turn (position r) msg r1 w) as Ht.
    destruct (run E (taskConsumer_turn _ _ _ _ _) w) as [w2 [r2 en]].
    destruct (run E (consume ExecuteTask isRetry msg) w) as [w1 ok] eqn:Hcons.
    destruct Ht as (-> & Hen & Hpos2 & Hpub2 & Hcom2 & Hby2). cbn [fst snd]. rewrite run_bind.
    destruct (run E (taskConsumer_run _ _ _ _ _ _) w1) as [w3 [[r3 log3]|]] eqn:Hrest; cbn [fst snd];
      rewrite run_Ret; [|done].
    intros [= -> -> <-]. destruct (IH _ _ _ _ _ Hrest) as (msgs & Hpre3 & Hmsgs & Hpos3 & Hall & Hcom3 & Hby3).
    rewrite Hpub2 in Hpre3. exists (msg :: msgs). rewrite Hpos2, Hpos in Hmsgs, Hpos3, Hall. splits.
    + by etrans.
    + assert (published r' !! position r = Some msg) as Hmsg by (by eapply prefix_lookup_Some).
      cbn [length]. rewrite (drop_S _ _ _ Hmsg). cbn. by rewrite <- Hmsgs.
    + cbn. lia.
    + cbn [consume_all]. rewrite run_bind, Hcons. cbn [fst snd]. rewrite run_bind.
      destruct (run E (consume_all _ _ msgs) w1) as [w4 oks]. destruct Hall as (-> & Hlog & Hlen).
      cbn [fst snd]. rewrite run_Ret. splits; [done| |cbn; lia].
      unfold messages_of in *. cbn. by rewrite Hen, Hlog.
    + etrans; [|exact Hcom3]. rewrite <- Hc. exact (commits_mono log3 _ _ Hcom2).
    + rewrite <- Hc. exact (committed_by_app [en] log3 _ _ _ Hby2 Hby3).
  - apply fetch_error in Hf as (Hpos & Hc & Hpre). destruct (ctx (S looks)).
    { rewrite run_Ret. intros [= <- <- <-]. by apply Hstop. }
    rewrite run_bind.
    destruct (run E (taskConsumer_run _ _ _ _ _ _) w) as [w3 [[r3 log3]|]] eqn:Hrest; cbn [fst snd];
      rewrite run_Ret; [|done].
    intros [= -> -> <-]. destruct (IH _ _ _ _ _ Hrest) as (msgs & Hpre3 & Hrun).
    rewrite Hpos, Hc in Hrun. exists msgs. split; [by etrans|exact Hrun].
Qed.

(** The loop ends soon after the context is cancelled. *)
Lemma run_loop_returns n fuel looks r w :
  (forall i, (n <= i)%nat -> ctx i = true) -> (n <= looks + fuel)%nat ->
  is_Some (run E (taskConsumer_run ExecuteTask isRetry ctx (S fuel) looks r) w).2.
Proof.
  intros Hctx. revert looks r w. induction fuel as [|fuel IH]; intros looks r w Hn.
  { cbn [taskConsumer_run]. rewrite Hctx by lia. rewrite run_Ret. by eexists. }
  remember (S fuel) as k eqn:Hk. cbn [taskConsumer_run].
  destruct (ctx looks) eqn:Hlook; [rewrite run_Ret; by eexists|].
  assert (looks < n)%nat as Hlt.
  { destruct (Nat.lt_ge_cases looks n); [done|]. by rewrite Hctx in Hlook. }
  assert (Hnext : forall l r w en, (looks < l)%nat ->
    is_Some (run E (rest ← taskConsumer_run ExecuteTask isRetry ctx k l r; Ret (logged en rest)) w).2).
  { intros l r1 w1 en Hl. rewrite run_bind. subst k.
    destruct (IH l r1 w1 ltac:(lia)) as [[r2 log] Hs].
    destruct (run E (taskConsumer_run _ _ _ _ _ _) w1) as [w2 o]. cbn in Hs. subst o. cbn [fst snd].
    rewrite run_Ret. by eexists. }
  destruct (FetchMessage r) as [r1 [[o msg]|e]].
  - rewrite run_bind. destruct (run E (taskConsumer_turn _ _ _ _ _) w) as [w1 [r2 en]]. apply Hnext. lia.
  - destruct (ctx (S looks)); [rewrite run_Ret; by eexists|]. apply Hnext. lia.
Qed.
End laws.

(** The offsets of a log, in order. *)
Definition offsets (log : list entry) : list nat := map fst (messages_of log).

Lemma offsets_app log1 log2 : offsets (log1 ++ log2) = offsets log1 ++ offsets log2.
Proof. unfold offsets, messages_of. by rewrite omap_app, map_app. Qed.

Lemma loop_offsets `{Codec} `{MessageReaderLaws} ExecuteTask isRetry ctx E fuel looks r w w' r' log :
  run E (taskConsumer_run ExecuteTask isRetry ctx fuel looks r) w = (w', Some (r', log)) ->
  exists n, offsets log = seq (position r) n /\ (commits log (committed r) <= committed r')%nat.
Proof.
  intros Hrun. apply run_loop in Hrun as (msgs & _ & _ & _ & Hall & Hcom & _).
  destruct (run E (consume_all _ _ _) w) as [w1 oks]. destruct Hall as (_ & Hlog & Hlen).
  exists (length msgs). split; [|done]. unfold offsets. rewrite Hlog.
  change (map fst) with (fmap (M := list) (@fst nat bool)). apply fst_zip. rewrite length_seq. lia.
Qed.

Lemma seq_increasing a x m y b p n : a ++ x :: m ++ y :: b = seq p n -> (x < y)%nat.
Proof.
  intros Heq.
  assert (seq p n !! length a = Some x) as Hx by (rewrite <- Heq; by apply list_lookup_middle).
  assert (seq p n !! (length a + S (length m))%nat = Some y) as Hy.
  { rewrite <- Heq, lookup_app_r by lia. replace (_ + _ - _)%nat with (S (length m)) by lia. cbn.
    by apply list_lookup_middle. }
  apply lookup_seq in Hx as [-> _], Hy as [-> _]. lia.
Qed.

Lemma commits_le log c : (c <= commits log c)%nat.
Proof. revert c. induction log as [|en log IH]; intros c; [done|]. cbn. etrans; [|apply IH]. destruct en; lia. Qed.

(** ** Properties *)

(** C33: a consumer whose context is cancelled returns: if the [n]-th look at the
    context and all later ones find it cancelled, the loop ends within [n + 1]
    turns, whatever Kafka and the tasks do. *)
Theorem consumer_returns `{Codec} `{MessageReader} ExecuteTask isRetry ctx E r w n :
  (forall i, (n <= i)%nat -> ctx i = true) ->
  is_Some (run E (taskConsumer_run ExecuteTask isRetry ctx (S n) 0 r) w).2.
Proof. intros Hctx. by apply (run_loop_returns _ _ _ _ n). Qed.

(** C15: whatever fetches and commits fail in between, a consumer processes the
    messages of its partition from its position on, each once and in order, and
    leaves the world as processing just them does; and the offset it leaves committed
    is the one it found or that of a message that went well. *)
Theorem consumer_in_order `{Codec} `{MessageReaderLaws} ExecuteTask isRetry ctx E fuel r w w' r' log :
  run E (taskConsumer_run ExecuteTask isRetry ctx fuel 0 r) w = (w', Some (r', log)) ->
  committed_by log (committed r) (committed r') /\
  exists msgs,
    msgs = take (length msgs) (drop (position r) (published r')) /\
    position r' = (position r + length msgs)%nat /\
    let '(w1, oks) := run E (consume_all ExecuteTask isRetry msgs) w in
    w' = w1 /\ messages_of log = zip (seq (position r) (length msgs)) oks /\ length oks = length msgs.
Proof.
  intros Hrun. apply run_loop in Hrun as (msgs & _ & ? & ? & Hall & _ & ?). split; [done|]. by exists msgs.
Qed.

(** C16: a message that could not be processed is lost once a later one of its
    partition is committed: no consumer that takes over from the committed offset
    processes it again. *)
Theorem failed_message_skipped `{Codec} `{MessageReaderLaws} ExecuteTask isRetry ctx E fuel r w w' r' pre o mid o' post :
  run E (taskConsumer_run ExecuteTask isRetry ctx fuel 0 r) w =
    (w', Some (r', pre ++ ProcessFailed o :: mid ++ Committed o' :: post)) ->
  forall ctx2 fuel2 w2 w3 r3 log2,
    run E (taskConsumer_run ExecuteTask isRetry ctx2 fuel2 0 (resume r')) w2 = (w3, Some (r3, log2)) ->
    o ∉ offsets log2.
Proof.
  intros Hrun ctx2 fuel2 w2 w3 r3 log2 Hrun2 Hin.
  apply loop_offsets in Hrun as (n & Hoff & Hcom). apply loop_offsets in Hrun2 as (n2 & Hoff2 & _).
  destruct (resume_committed r') as (Hres & _ & _). rewrite Hoff2, Hres in Hin. apply elem_of_seq in Hin as [Hle _].
  assert (o < o')%nat.
  { eapply (seq_increasing (offsets pre) _ (offsets mid) _ (offsets post)). rewrite <- Hoff.
    change (mid ++ Committed o' :: post) with (mid ++ [Committed o'] ++ post).
    change (pre ++ ProcessFailed o :: ?l) with (pre ++ [ProcessFailed o] ++ l). by rewrite !offsets_app. }
  assert (S o' <= committed r')%nat; [|lia].
  etrans; [|exact Hcom]. unfold commits. rewrite foldl_app. cbn. rewrite foldl_app. cbn.
  etrans; [|apply commits_le]. lia.
Qed.

(** ** A partition in memory *)
Record mem_reader : Type := mkMemReader { mem_log : list Message; mem_position : nat; mem_committed : nat }.

#[export] Instance sample_message_reader : MessageReader := {|
  reader := mem_reader;
  FetchMessage r :=
    match mem_log r !! mem_position r with
    | Some m => (mkMemReader (mem_log r) (S (mem_position r)) (mem_committed r), Ok (mem_position r, m))
    | None => (r, Err (ErrForeign "deadline exceeded"))
    end;
  CommitMessages o r := (mkMemReader (mem_log r) (mem_position r) (Nat.max (mem_committed r) (S o)), None);
  position := mem_position;
  committed := mem_committed;
  resume r := mkMemReader (mem_log r) (mem_committed r) (mem_committed r) |}.

#[export] Instance sample_message_reader_laws : MessageReaderLaws mem_log.
Proof.
  split; cbn.
  - intros r r' o m. destruct (_ !! _) as [x|] eqn:Hx; [|done]. intros [= <- <- <-]. by cbn.
  - intros r r' e. destruct (_ !! _) as [x|] eqn:Hx; [done|]. by intros [= <- _].
  - by intros o r r' [= <-].
  - done.
  - done.
Qed.

(** Two messages; the database fails while the first one's task is loaded. *)
Definition flaky_env : env :=
  mkEnv (env_now env_ok) (env_uuid env_ok)
    (fun n => if bool_decide (n = 1%nat) then SqlLost (ErrForeign "connection reset") else SqlDone)
    (env_write env_ok) (env_job_execute env_ok) (env_task_execute env_ok) (env_enabled env_ok).
Definition two_messages : list Message :=
  [mkMessage "tasks" None (N_text 2 ""); mkMessage "tasks" None (N_text 3 "")].
Definition flaky_world : World :=
  sample_world [sample_job 1 JobStatusRunning]
    [sample_row 2 1 TaskStatusPending 1; sample_row 3 1 TaskStatusPending 1].
Definition flaky_run : World * option (mem_reader * list entry) :=
  run flaky_env (@taskConsumer_run sample_codec sample_message_reader
    (@executeTask sample_uuid_text sample_fsm sample_pgtype sample_codec sample_jobs)
    false (fun n => Nat.leb 2 n) 3 0 (mkMemReader two_messages 0 0)) flaky_world.

(** The first task stays PENDING, and its message is gone. *)
Example flaky_run_skips :
  (snd <$> flaky_run.2) = Some [ProcessFailed 0; Committed 1] /\
  map Task_Status (db_tasks (w_db flaky_run.1)) = [TaskStatusPending; TaskStatusCompleted].
Proof. by vm_compute. Qed.

Theorem consumer_returns_witness :
  is_Some flaky_run.2.
Proof.
  refine (@consumer_returns sample_codec sample_message_reader _ false (fun n => Nat.leb 2 n) flaky_env
            (mkMemReader two_messages 0 0) flaky_world 2 _).
  intros i Hi. by apply Nat.leb_le.
Defined.

Theorem consumer_in_order_witness :
  exists w' r' log, flaky_run = (w', Some (r', log)) /\ committed_by log 0 2 /\ position r' = 2%nat.
Proof.
  destruct flaky_run as [w' [[r' log]|]] eqn:Hrun; [|by vm_compute in Hrun].
  destruct (@consumer_in_order sample_codec sample_message_reader mem_log sample_message_reader_laws
              _ _ _ _ _ _ _ _ _ _ Hrun) as [Hby _].
  vm_compute in Hrun. injection Hrun as <- <- <-. by eexists _, _, _.
Defined.

Theorem failed_message_skipped_witness :
  exists r', (fst <$> flaky_run.2) = Some r' /\
  forall ctx2 fuel2 w2 w3 r3 log2,
    run flaky_env (@taskConsumer_run sample_codec sample_message_reader
      (@executeTask sample_uuid_text sample_fsm sample_pgtype sample_codec sample_jobs)
      false ctx2 fuel2 0 (resume r')) w2 = (w3, Some (r3, log2)) ->
    0%nat ∉ offsets log2.
Proof.
  destruct flaky_run as [w' [[r' log]|]] eqn:Hrun; [|by vm_compute in Hrun].
  assert (log = [] ++ ProcessFailed 0 :: [] ++ Committed 1 :: []) as Hlog
    by (pose proof flaky_run_skips as [Hs _]; rewrite Hrun in Hs; by injection Hs).
  rewrite Hlog in Hrun. exists r'. split; [done|].
  exact (@failed_message_skipped sample_codec sample_message_reader mem_log sample_message_reader_laws
           _ _ _ _ _ _ _ _ _ _ _ _ _ _ Hrun).
Defined.
