(* ===== verification/Kafka.v ===== *)
(** * Kafka: the clients of kafka-go

    [internal/transport/transport.go]: the reader and the writer made for a
    configuration, and the interfaces they implement.  A [kafkago.Writer] is an object
    the caller may hand over and the library completes in place, so the writers are a
    store; a reader is made by kafka-go from a copy of the caller's template. *)
From S2P Require Import Prelude Go Domain Effects Repository JobConfig Transport Instances Lifecycle.
From S2P Require Import Finalizer TriggerFailure JobExecutor TaskExecutor Delivery Consumer.

(** ** Writers *)
Abbreviation writers := (gmap handle KafkaWriter).

Definition Writer_set_Addr (addr : list string) (w : KafkaWriter) : KafkaWriter :=
  mkKafkaWriter (Some addr) (Writer_Balancer w) (Writer_Rest w).

(** The writer used for a configuration, and the writers afterwards. *)
Definition NewKafkaWriter (cfg : KafkaConfig) (ws : writers) : writers * handle :=
  match Kafka_WriterConfig cfg with
  | Some x =>
      match ws !! x with
      | Some w => (if is_nil (Writer_Addr w) then <[x := Writer_set_Addr (Kafka_Brokers cfg) w]> ws else ws, x)
      | None => (ws, x)
      end
  | None =>
      let x := fresh (dom ws) in
      (<[x := mkKafkaWriter (Some (Kafka_Brokers cfg)) (Some Hash) 0]> ws, x)
  end.

(** ** Readers *)

(** The template is copied; the fields the library manages are set on the copy. *)
Definition NewKafkaReader (kafkago_NewReader : ReaderConfig -> handle) (cfg : KafkaConfig)
    (groupID topic : string) : handle :=
  let rc := Kafka_ConsumerConfig cfg in
  kafkago_NewReader (mkReaderConfig (Kafka_Brokers cfg) groupID topic (Reader_Rest rc)).

(** [kafkaReader]: a [kafkago.Reader] behind the interface of the consumer. *)
Section wrapper.
  Context `{kafkago : MessageReader}.

Record kafkaReader : Type := mkKafkaReader { kafkaReader_reader : reader }.

Definition kafkaReader_FetchMessage (r : kafkaReader) : kafkaReader * res (nat * Message) :=
  let '(x, m) := FetchMessage (kafkaReader_reader r) in (mkKafkaReader x, m).

Definition kafkaReader_CommitMessages (o : nat) (r : kafkaReader) : kafkaReader * option error :=
  let '(x, e) := CommitMessages o (kafkaReader_reader r) in (mkKafkaReader x, e).

Definition kafkaReader_MessageReader : MessageReader := {|
  reader := kafkaReader;
  FetchMessage := kafkaReader_FetchMessage;
  CommitMessages := kafkaReader_CommitMessages;
  position := fun r => position (kafkaReader_reader r);
  committed := fun r => committed (kafkaReader_reader r);
  resume := fun r => mkKafkaReader (resume (kafkaReader_reader r));
|}.

(** The wrapper keeps what kafka-go promises of its reader: the consumer's theorems hold
    of it. *)
Lemma kafkaReader_laws published :
  MessageReaderLaws published ->
  @MessageReaderLaws kafkaReader_MessageReader (fun r => published (kafkaReader_reader r)).
Proof.
  intros Hlaws. split; cbn.
  - intros r r' o m. unfold kafkaReader_FetchMessage. destruct (FetchMessage _) as [x a] eqn:Hf.
    intros [= <- ->]. by apply fetch_ok.
  - intros r r' e. unfold kafkaReader_FetchMessage. destruct (FetchMessage _) as [x a] eqn:Hf.
    intros [= <- ->]. by eapply fetch_error.
  - intros o r r'. unfold kafkaReader_CommitMessages. destruct (CommitMessages _ _) as [x a] eqn:Hc.
    intros [= <- ->]. by apply commit_ok.
  - intros o r r' e. unfold kafkaReader_CommitMessages. destruct (CommitMessages _ _) as [x a] eqn:Hc.
    intros [= <- ->]. by eapply commit_error.
  - intros r. apply resume_committed.
Qed.
End wrapper.

(** ** Lemmas *)
Lemma NewKafkaWriter_given cfg x w ws :
  Kafka_WriterConfig cfg = Some x -> ws !! x = Some w ->
  NewKafkaWriter cfg ws =
  (if is_nil (Writer_Addr w) then <[x := Writer_set_Addr (Kafka_Brokers cfg) w]> ws else ws, x).
Proof. intros Hx Hw. unfold NewKafkaWriter. by rewrite Hx, Hw. Qed.

(** ** Properties *)

(** The writer of a configuration has an address, the caller's or the brokers of the
    configuration; the caller's writer is used itself and keeps everything else, a new
    one spreads messages by their keys; no other writer changes. *)
Theorem NewKafkaWriter_spec cfg ws :
  (forall x, Kafka_WriterConfig cfg = Some x -> is_Some (ws !! x)) ->
  let '(ws', x) := NewKafkaWriter cfg ws in
  (forall y, y ≠ x -> ws' !! y = ws !! y) /\
  exists w', ws' !! x = Some w' /\
    match Kafka_WriterConfig cfg with
    | Some given =>
        exists w, x = given /\ ws !! given = Some w /\
          Writer_Addr w' = Some (default (Kafka_Brokers cfg) (Writer_Addr w)) /\
          Writer_Balancer w' = Writer_Balancer w /\ Writer_Rest w' = Writer_Rest w
    | None => ws !! x = None /\ Writer_Addr w' = Some (Kafka_Brokers cfg) /\ Writer_Balancer w' = Some Hash
    end.
Proof.
  intros Hws. destruct (Kafka_WriterConfig cfg) as [x|] eqn:Hx.
  - destruct (Hws x eq_refl) as [w Hw]. rewrite (NewKafkaWriter_given _ _ _ _ Hx Hw).
    destruct (Writer_Addr w) as [a|] eqn:Ha; cbn [is_nil].
    + split; [done|]. exists w. split; [done|]. exists w. by rewrite Ha.
    + split; [by intros y Hy; apply lookup_insert_ne|]. eexists. rewrite lookup_insert_eq. split; [done|].
      exists w. by rewrite Ha.
  - unfold NewKafkaWriter. rewrite Hx. split; [by intros y Hy; apply lookup_insert_ne|].
    eexists. rewrite lookup_insert_eq. split; [done|]. split; [|done]. apply not_elem_of_dom, is_fresh.
Qed.

(** Two configurations that share a writer without an address get one writer, with the
    brokers of the first: the messages of the second go there too, whatever its brokers
    are. *)
Theorem shared_writer_brokers a b x w ws :
  Kafka_WriterConfig a = Some x -> Kafka_WriterConfig b = Some x -> ws !! x = Some w -> Writer_Addr w = None ->
  let '(ws1, wa) := NewKafkaWriter a ws in
  let '(ws2, wb) := NewKafkaWriter b ws1 in
  wa = wb /\ ws2 = ws1 /\ Writer_Addr <$> ws2 !! wb = Some (Some (Kafka_Brokers a)).
Proof.
  intros Ha Hb Hw Hnil. rewrite (NewKafkaWriter_given _ _ _ _ Ha Hw), Hnil. cbn [is_nil].
  rewrite (NewKafkaWriter_given b x (Writer_set_Addr (Kafka_Brokers a) w)); [|done|by rewrite lookup_insert_eq].
  cbn [Writer_Addr Writer_set_Addr is_nil]. splits; [done|done|]. by rewrite lookup_insert_eq.
Qed.
