(* ===== verification/Pipeline.v ===== *)
(** * Pipeline: from a trigger to the final status of its job

    The composition of [JobExecutor], [Transport], [TaskExecutor] and [Finalizer]:
    a trigger, then the consumers until no message is left, then the completion
    cron.  [drain] runs the service under a [delivery_plan]: the messages of all topics are
    taken one at a time, each by the consumer that reads its topic, in any order, since
    topics, partitions and workers promise none, and a message that has been consumed
    may be read again later, as it is when a consumer ends before its commit.
    Runs that overlap are the subject of [Concurrency.v]. *)
From S2P Require Import Prelude Go Domain Effects Repository WellFormed JobConfig Transport Instances Lifecycle.
From S2P Require Import Finalizer TriggerFailure JobExecutor TaskExecutor Trace Delivery.

(** The consumer of a configuration that reads a topic: whether it is the one for
    retries. *)
Definition reads (cfg : JobConfig) (topic : string) : option bool :=
  let k := Cfg_Kafka cfg in
  if bool_decide (topic = Kafka_TaskTopic k) then Some false
  else if bool_decide (Kafka_TaskRetryTopic k ≠ ""%string) && bool_decide (topic = Kafka_TaskRetryTopic k)
       then Some true
       else None.

(** At each turn, counted down: which message comes to the front, and whether it will be
    read again. *)
Record delivery_plan : Type := mkPlan { plan_pick : nat -> nat; plan_again : nat -> bool }.

(** The redeliveries among the last [fuel] turns. *)
Definition redeliveries (s : delivery_plan) (fuel : nat) : Z := count (plan_again s) (seq 0 fuel).

Section pipeline.
  Context `{UuidText} `{Fsm} `{Pgtype} `{FloatConv} `{Codec}.
  Context (jobs : gmap string JobConfig) (cfg : JobConfig).

(** What becomes of the world when the message is consumed, if it is. *)
Definition consume_message (E : env) (msg : Message) (w : World) : World :=
  match reads cfg (Message_Topic msg) with
  | Some isRetry => (run E (consume (executeTask jobs) isRetry msg) w).1
  | None => w
  end.

(** The calls of the caller's task executors meanwhile. *)
Definition consume_calls (E : env) (msg : Message) (w : World) : list (handle * gomap) :=
  match reads cfg (Message_Topic msg) with
  | Some isRetry => executions E (consume (executeTask jobs) isRetry msg) w
  | None => []
  end.

(** The messages to be read after [msg]. *)
Definition unread_after (again : bool) (msg : Message) (rest : list Message) (w w' : World) : list Message :=
  rest ++ (if again then [msg] else []) ++ drop (length (w_kafka w)) (w_kafka w').

(** Consume the messages [unread] and those written meanwhile; [None] is out of fuel. *)
Fixpoint drain (E : env) (s : delivery_plan) (fuel : nat) (unread : list Message) (w : World) : option World :=
  match fuel with
  | O => if is_empty unread then Some w else None
  | S fuel =>
      match rotate (plan_pick s fuel) unread with
      | [] => Some w
      | msg :: rest =>
          let w' := consume_message E msg w in
          drain E s fuel (unread_after (plan_again s fuel) msg rest w w') w'
      end
  end.

(** The calls of the caller's task executors while [drain] runs. *)
Fixpoint drain_calls (E : env) (s : delivery_plan) (fuel : nat) (unread : list Message) (w : World) :
    list (handle * gomap) :=
  match fuel with
  | O => []
  | S fuel =>
      match rotate (plan_pick s fuel) unread with
      | [] => []
      | msg :: rest =>
          let w' := consume_message E msg w in
          consume_calls E msg w ++ drain_calls E s fuel (unread_after (plan_again s fuel) msg rest w w') w'
      end
  end.

(** Run [p], consume every message it leaves, and check the jobs called [name]. *)
Definition run_to_end {R} (p : prog R) (E : env) (s : delivery_plan) (fuel : nat) (name : string) (w : World) : option World :=
  let w1 := (run E p w).1 in
  w2 ← drain E s fuel (drop (length (w_kafka w)) (w_kafka w1)) w1;
  Some (run E (checkJobCompletions jobs name) w2).1.

(** The calls of the caller's task executors meanwhile. *)
Definition calls_to_end {R} (p : prog R) (E : env) (s : delivery_plan) (fuel : nat) (name : string) (w : World) :
    list (handle * gomap) :=
  let w1 := (run E p w).1 in
  let unread := drop (length (w_kafka w)) (w_kafka w1) in
  executions E p w ++ drain_calls E s fuel unread w1 ++
  match drain E s fuel unread w1 with
  | Some w2 => executions E (checkJobCompletions jobs name) w2
  | None => []
  end.

(** Trigger, consume, check. *)
Definition pipeline (E : env) (s : delivery_plan) (fuel : nat) (name ref : string) (metadata : gomap) (w : World) : option World :=
  run_to_end (executeJob jobs name ref metadata) E s fuel name w.

Definition pipeline_calls (E : env) (s : delivery_plan) (fuel : nat) (name ref : string) (metadata : gomap) (w : World) :
    list (handle * gomap) :=
  calls_to_end (executeJob jobs name ref metadata) E s fuel name w.
End pipeline.

(** ** Specification *)

(** The item's parameters as its task's executor receives them. *)
Definition receives `{Pgtype} (d : TaskData) (p : gomap) : Prop :=
  forall t, JSONB_Set (TaskData_Params d) = Ok (Task_Params t) -> Task_GetParams t = Ok p.

(** The caller's executor [x] always succeeds, or always fails, on an item. *)
Definition always_succeeds `{Pgtype} (E : env) (x : handle) (d : TaskData) : Prop :=
  forall p n, receives d p -> is_Ok (env_task_execute E n x p).
Definition always_fails `{Pgtype} (E : env) (x : handle) (d : TaskData) : Prop :=
  forall p n, receives d p -> ~ is_Ok (env_task_execute E n x p).

(** How the task of an item ends. *)
Record settled_as `{Pgtype} (E : env) (x : handle) (d : TaskData) (t : Task) : Prop := {
  settled_status : Task_Status t = TaskStatusCompleted \/ Task_Status t = TaskStatusMaxRetriesExhausted;
  settled_ok : always_succeeds E x d -> Task_Status t = TaskStatusCompleted;
  settled_bad : always_fails E x d -> Task_Status t = TaskStatusMaxRetriesExhausted;
}.

(** The status the tasks give their job: all, some or none of them COMPLETED. *)
Definition job_outcome (ts : list Task) : string :=
  if forallb (task_status_in [TaskStatusCompleted]) ts then JobStatusCompleted
  else if existsb (task_status_in [TaskStatusCompleted]) ts then JobStatusPartialFailed
  else JobStatusFailed.

(** How many rows a job has. *)
Definition instances_of (name : string) (db : DB) : nat :=
  length (List.filter (fun j => bool_decide (Job_Name j = name)) (db_jobs db)).

(** A configuration whose topics are told apart and whose executor is [x]. *)
Record wired (cfg : JobConfig) (x : handle) : Prop := {
  wired_executor : Cfg_TaskExecutor cfg = Some x;
  wired_retry : Kafka_TaskRetryTopic (Cfg_Kafka cfg) ≠ ""%string;
  wired_topics : Kafka_TaskRetryTopic (Cfg_Kafka cfg) ≠ Kafka_TaskTopic (Cfg_Kafka cfg);
  wired_dlq : Kafka_TaskDLQTopic (Cfg_Kafka cfg) ≠ ""%string -> reads cfg (Kafka_TaskDLQTopic (Cfg_Kafka cfg)) = None;
}.

(** The retries a job of a configuration is made with, and the runs the executor may
    be called for one of its tasks. *)
Definition retries_of (cfg : JobConfig) : Z :=
  if Retry_MaxRetries (Cfg_Retry cfg) =? 0 then 3 else Retry_MaxRetries (Cfg_Retry cfg).
Definition task_attempts (cfg : JobConfig) : Z := Z.max 1 (retries_of cfg).

(** Turns of [drain] that are always enough for [n] items when nothing is read twice:
    each task is read once per attempt, and once more on the dead-letter topic. *)
Definition turns (cfg : JobConfig) (n : nat) : Z := Z.of_nat n * (task_attempts cfg + 1).

Lemma tasks_of_elem t k db : t ∈ tasks_of k db -> t ∈ db_tasks db.
Proof. intros Ht. by apply list_elem_of_In, filter_In in Ht as [?%list_elem_of_In _]. Qed.

(** ** The invariant of [drain]

    [j] is the job's row; a message still to be read belongs to a task of the job
    ([Some] of its id) or is read by nobody ([None]). *)
Section invariant.
  Context `{UuidText} `{FsmLaws} `{PgtypeLaws} `{CodecLaws}.
  Context (jobs : gmap string JobConfig) (cfg : JobConfig) (E : env) (x : handle) (j : Job).

(** What a message to be read leads to. *)
Definition message_for (m : Message) (o : option uuid) : Prop :=
  match o with
  | None => reads cfg (Message_Topic m) = None
  | Some id =>
      exists isRetry, reads cfg (Message_Topic m) = Some isRetry /\
        if isRetry : bool
        then exists rm, json_Unmarshal_RetryMessage (Message_Value m) = Ok rm /\ Task_ID (RetryMessage_Task rm) = id /\
               marshals (RetryMessage_Task rm)
        else exists t, json_Unmarshal_Task (Message_Value m) = Ok t /\ Task_ID t = id
  end.

(** The row of item [d], apart from its progress. *)
Record item_row (max : Z) (d : TaskData) (t : Task) : Prop := {
  item_job : Task_JobID t = Job_ID j;
  item_created : Task_CreatedAt t = Job_CreatedAt j;
  item_params : JSONB_Set (TaskData_Params d) = Ok (Task_Params t);
  item_max : Task_MaxRetries t = max;
  item_fits : task_fits t = true;
  item_json : json_task t = true;
}.

(** Its progress: it is to run and a message is on the way, or it is settled. *)
Definition progress (q : list (option uuid)) (d : TaskData) (t : Task) : Prop :=
  (Task_Status t = TaskStatusPending /\ 1 <= Task_Attempt t /\ Some (Task_ID t) ∈ q) \/
  settled_as E x d t.

Record draining (max : Z) (data : list TaskData) (db : DB) (msgs : list Message) (q : list (option uuid)) : Prop := {
  dr_job : List.filter (job_has_id (Job_ID j)) (db_jobs db) = [j];
  dr_unique : unique_tasks db;
  dr_rows : Forall2 (fun d t => item_row max d t /\ progress q d t) data (tasks_of (Job_ID j) db);
  dr_messages : Forall2 message_for msgs q;
  dr_known : forall i, Some i ∈ q -> exists t, t ∈ tasks_of (Job_ID j) db /\ Task_ID t = i;
}.

(** The messages still to be read, at most: those there are, and one per run. *)
Definition measure (db : DB) (q : list (option uuid)) : Z :=
  total_of budget (tasks_of (Job_ID j) db) + Z.of_nat (length q).

(** What the consumption of the job's messages leaves as it was. *)
Record kept (db db' : DB) : Prop := {
  kept_jobs : db_jobs db' = db_jobs db;
  kept_ids : map Task_ID (db_tasks db') = map Task_ID (db_tasks db);
  kept_owners : map Task_JobID (db_tasks db') = map Task_JobID (db_tasks db);
  kept_own : map Task_ID (tasks_of (Job_ID j) db') = map Task_ID (tasks_of (Job_ID j) db);
  kept_others : forall k, k ≠ Job_ID j -> tasks_of k db' = tasks_of k db;
  kept_order : map Task_SequenceNumber (tasks_of (Job_ID j) db') = map Task_SequenceNumber (tasks_of (Job_ID j) db);
}.

Lemma kept_refl db : kept db db.
Proof. by split. Qed.

Lemma kept_trans db1 db2 db3 : kept db1 db2 -> kept db2 db3 -> kept db1 db3.
Proof.
  intros [F1 F2 F3 F4 F5 F6] [G1 G2 G3 G4 G5 G6]. split; try congruence. intros k Hk. by rewrite G5, F5.
Qed.

Lemma kept_update db t f :
  unique_tasks db -> t ∈ tasks_of (Job_ID j) db ->
  (forall r, Task_ID (f r) = Task_ID r /\ Task_JobID (f r) = Task_JobID r /\
             Task_SequenceNumber (f r) = Task_SequenceNumber r) ->
  kept db (update_tasks (task_has_id (Task_ID t)) f db).
Proof.
  intros Hu Ht Hf. apply list_elem_of_In, filter_In in Ht as [Ht%list_elem_of_In Hown%N.eqb_eq].
  assert (Hcomm : forall k, tasks_of k (update_tasks (task_has_id (Task_ID t)) f db) =
    update_where (task_has_id (Task_ID t)) f (tasks_of k db)).
  { intros k. apply filter_update_comm. intros r. unfold task_of_job. by rewrite (proj1 (proj2 (Hf r))). }
  split; cbn [db_tasks db_jobs update_tasks]; rewrite ?update_where_map_inv; try done.
  1, 2: intros r; apply Hf.
  - rewrite Hcomm, update_where_map_inv; [done|]. intros r. apply Hf.
  - intros k Hk. rewrite Hcomm. apply update_where_none. intros r Hr. apply task_has_id_false. intros Heq.
    apply list_elem_of_In, filter_In in Hr as [Hr%list_elem_of_In Hrk%N.eqb_eq].
    apply Hk. assert (r = t) as -> by (by apply (unique_tasks_inj db)). congruence.
  - rewrite Hcomm, update_where_map_inv; [done|]. intros r. apply Hf.
Qed.

Context (Hjob : Job_Status j = JobStatusRunning) (Hcfg : jobs !! Job_Name j = Some cfg).
Context (Hpub : Cfg_Publisher cfg = Some NewTaskPublisher).
Context (HE : reliable E) (Hwired : wired cfg x) (Hclock : json_clock E cfg) (Hjson : json_job j = true).

Lemma budget_nonneg t : 0 <= budget t.
Proof. unfold budget. case_match; lia. Qed.

Lemma measure_length db q : Z.of_nat (length q) <= measure db q.
Proof.
  unfold measure. assert (0 <= total_of budget (tasks_of (Job_ID j) db)); [|lia].
  unfold total_of. induction (tasks_of _ _) as [|t l IH]; [done|]. cbn. pose proof (budget_nonneg t). lia.
Qed.

(** A consumed message runs [executeTask] on a message of the same task. *)
Lemma consume_runs w m i isRetry :
  reads cfg (Message_Topic m) = Some isRetry -> message_for m (Some i) ->
  exists payload w1, (exists t, json_Unmarshal_Task payload = Ok t /\ Task_ID t = i) /\
    w_db w1 = w_db w /\ w_kafka w1 = w_kafka w /\ w_hooks w1 = w_hooks w /\
    (run E (consume (executeTask jobs) isRetry m) w).1 = (run E (executeTask jobs payload) w1).1 /\
    executions E (consume (executeTask jobs) isRetry m) w = executions E (executeTask jobs payload) w1.
Proof.
  intros Hr (b & Hb & Hm). rewrite Hr in Hb. injection Hb as <-.
  assert (Hdone : forall payload w1,
    (run E (r ← executeTask jobs payload; match r with Ok _ => Ret true | Err _ => Ret false end) w1).1 =
    (run E (executeTask jobs payload) w1).1).
  { intros payload w1. rewrite run_bind. by destruct (run E (executeTask jobs payload) w1) as [w2 []]. }
  rewrite executions_consume. unfold consume, processMessage, processRetryMessage. destruct isRetry.
  - destruct Hm as (rm & Hu & Hid & payload & Hp). rewrite Hu.
    destruct (json_Task_id _ _ Hp) as (t & Ht & Htid).
    rewrite run_bind, run_bind, run_Now, executions_idle_bind by apply idle_Now. cbn [fst snd].
    rewrite run_bind, Hp, executions_idle_bind by (case_match; [by apply idle_call|done]).
    set (w1 := (run E _ (tick w)).1).
    exists payload, w1. splits; [by exists t; rewrite Htid| | | | |done].
    1-3: subst w1; by destruct (0 <? _).
    destruct (run E (executeTask jobs payload) w1) as [w2 []]; done.
  - exists (Message_Value m), w. splits; [done..|apply Hdone|done].
Qed.

(** The messages a settled task leaves. *)
Definition left_by (o : task_outcome) (i : uuid) : list (option uuid) :=
  match o with
  | Completed _ => []
  | Retried _ => [Some i]
  | Exhausted _ => if bool_decide (Kafka_TaskDLQTopic (Cfg_Kafka cfg) = ""%string) then [] else [None]
  end.

Lemma settled_messages_for o t m now :
  published_as o m t -> json_task m = true -> reading E now -> Forall2 message_for (settled_messages o cfg m now) (left_by o (Task_ID t)).
Proof.
  intros (Hid & _) Hm [n ->]. unfold settled_messages, left_by. destruct o as [out|e|e]; [constructor| |].
  - rewrite bool_decide_eq_false_2 by apply Hwired. unfold retry_message.
    set (rm := mkRetryMessage _ _ _). destruct (json_RetryMessage_encodes rm) as [s Hs].
    { unfold json_retry. cbn. by rewrite Hm, (clock_delay _ _ Hclock). }
    rewrite Hs.
    constructor; [|constructor]. cbn. exists true. split.
    + unfold reads. rewrite bool_decide_eq_false_2 by apply Hwired.
      by rewrite !bool_decide_eq_true_2 by (apply Hwired || done).
    + destruct (json_RetryMessage_fields rm s Hs) as (rm' & Hu & Hrid & _ & Hmar). exists rm'. by rewrite Hrid.
  - case_bool_decide as Hdlq; [constructor|]. unfold task_message.
    destruct (json_Task_encodes m Hm) as [s Hs]. cbn. rewrite Hs.
    constructor; [|constructor]. cbn. by apply (wired_dlq _ _ Hwired).
Qed.

(** The parameters of the tasks still to run. *)
Definition is_pending (t : Task) : bool := bool_decide (Task_Status t = TaskStatusPending).
Definition params_of (t : Task) : gomap := match Task_GetParams t with Ok p => p | Err _ => None end.
Definition todo (db : DB) : list gomap := map params_of (List.filter is_pending (tasks_of (Job_ID j) db)).

(** A settled row still fits its columns and can be encoded. *)
Lemma settled_row_json o started fin upd t :
  reading E started -> reading E fin -> reading E upd -> json_task t = true ->
  json_task (settled_row o started fin upd t) = true.
Proof.
  pose proof (clock_now _ _ Hclock) as Hnow. intros [a ->] [b ->] [c ->]. unfold json_task.
  rewrite !andb_true_iff. intros Hrow. destruct_and! Hrow.
  pose proof (fun r => result_column_document r t (@JSONB_Set_document _ _)) as Hdoc.
  destruct o; cbn -[json_time json_opt_time]; split_and!; try done; try apply Hnow; by apply Hdoc.
Qed.

Lemma settled_row_fits answer started fin upd t :
  1 <= Task_Attempt t -> task_fits t = true -> task_fits (settled_row (outcome t answer) started fin upd t) = true.
Proof.
  intros Hatt. unfold task_fits. rewrite !andb_true_iff. intros Hrow. destruct_and! Hrow.
  pose proof (fun r => result_column_document r t (@JSONB_Set_document _ _)) as Hdoc.
  unfold outcome. destruct answer as [out|e]; [|destruct (Z.ltb_spec (Task_Attempt t) (Task_MaxRetries t))];
    cbn; split_and!; try done; try (by apply Hdoc).
  apply pg_integer_spec. rewrite !pg_integer_spec in *. rewrite wrap64_id by (unfold min_int64, max_int64; lia). lia.
Qed.

(** The row a run leaves, and what it has still to cost. *)
Lemma settled_progress o n p d t q started fin upd max :
  o = outcome t (env_task_execute E n x p) -> receives d p -> max <= max_int64 ->
  item_row max d t -> Task_Status t = TaskStatusPending -> 1 <= Task_Attempt t ->
  reading E started -> reading E fin -> reading E upd ->
  let t' := settled_row o started fin upd t in
  item_row max d t' /\ progress (q ++ left_by o (Task_ID t)) d t' /\
  budget t' + Z.of_nat (length (left_by o (Task_ID t))) <= budget t.
Proof.
  intros -> Hp Hmax Hrow Hst Hatt Hrs Hrf Hru. cbv zeta.
  pose proof (settled_row_fits (env_task_execute E n x p) started fin upd t Hatt (item_fits _ _ _ Hrow)) as Hfit.
  pose proof (settled_row_json (outcome t (env_task_execute E n x p)) started fin upd t Hrs Hrf Hru (item_json _ _ _ Hrow)) as Hjs.
  set (o := outcome t _) in *.
  destruct (settled_row_keeps o started fin upd t) as (Hk1 & Hk2 & Hk3 & Hk4 & Hk5).
  assert (Hw : budget t = Z.max 1 (max - Task_Attempt t + 1)).
  { unfold budget, Task_IsTerminal. rewrite Hst, (item_max _ _ _ Hrow). done. }
  split.
  { destruct Hrow. split; try congruence. }
  rewrite Hw. unfold progress. rewrite Hk1. subst o. unfold outcome.
  destruct (env_task_execute E n x p) as [out|e] eqn:Hans; [|destruct (Z.ltb_spec (Task_Attempt t) (Task_MaxRetries t))];
    cbn [settled_row left_by]; rewrite ?app_nil_r.
  - split; [right|].
    + split; [by left|done|]. intros Hbad. exfalso. apply (Hbad p n Hp). rewrite Hans. by eexists.
    + unfold budget. replace (Task_IsTerminal _) with true by done. cbn. lia.
  - rewrite (item_max _ _ _ Hrow) in *.
    assert (wrap64 (Task_Attempt t + 1) = Task_Attempt t + 1) as Hwr.
    { apply wrap64_id. unfold min_int64, max_int64 in *. lia. }
    split; [left; splits|].
    + done.
    + cbn. lia.
    + apply elem_of_app. right. by left.
    + unfold budget. replace (Task_IsTerminal _) with false by done. cbn. rewrite Hwr, (item_max _ _ _ Hrow). lia.
  - split; [right; split; [by right| |done]|].
    + intros Hok. exfalso. destruct (Hok p n Hp) as [? Hx]. congruence.
    + unfold budget. replace (Task_IsTerminal _) with true by done. case_bool_decide; cbn; lia.
Qed.

Lemma left_by_elem o i k : Some k ∈ left_by o i -> k = i.
Proof.
  unfold left_by. destruct o; [|intros [= ->]%list_elem_of_singleton; done|case_bool_decide].
  - by intros ?%elem_of_nil.
  - by intros ?%elem_of_nil.
  - by intros ?%list_elem_of_singleton.
Qed.

(** The other rows do not notice. *)
Lemma progress_other d t i q l :
  Task_ID t ≠ i -> progress (Some i :: q) d t -> progress (q ++ l) d t.
Proof.
  intros Hne [(Hst & Hatt & Hq)|Hset]; [left|by right]. splits; [done|done|].
  apply elem_of_app. left. by apply elem_of_cons in Hq as [[= ?]|?].
Qed.

Lemma progress_more d t q q' :
  (forall k, Some k ∈ q -> Some k ∈ q') -> progress q d t -> progress q' d t.
Proof. intros Hq [(Hst & Hatt & Hin)|Hset]; [left|by right]. by splits; [| |apply Hq]. Qed.

Section step.
  Context (max : Z) (data : list TaskData) (Hmax : max <= max_int64).
  Context (Hdata : forall d, d ∈ data -> exists p, receives d p).

(** A message fewer, or one that will be read again. *)
Lemma draining_fewer db m msgs o q :
  (forall d t, d ∈ data -> t ∈ tasks_of (Job_ID j) db -> progress (o :: q) d t -> progress q d t) ->
  draining max data db (m :: msgs) (o :: q) -> draining max data db msgs q.
Proof.
  intros Hprog [Hj Hu Hrows Hmsgs Hk]. split; try done.
  - apply Forall2_same_length_lookup_2; [by eapply Forall2_length|]. intros n d t Hd Ht.
    destruct (Forall2_lookup_lr _ _ _ _ _ _ Hrows Hd Ht) as [Hrow Hp]. split; [done|].
    apply Hprog; [by eapply list_elem_of_lookup_2..|done].
  - by inversion Hmsgs.
  - intros i Hi. apply Hk. by right.
Qed.

Lemma draining_again db m msgs o q :
  message_for m o -> (forall i, o = Some i -> exists t, t ∈ tasks_of (Job_ID j) db /\ Task_ID t = i) ->
  draining max data db msgs q -> draining max data db (m :: msgs) (o :: q).
Proof.
  intros Hm Ho [Hj Hu Hrows Hmsgs Hk]. split; try done.
  - eapply Forall2_impl; [exact Hrows|]. intros d t [? Hp]. split; [done|].
    eapply progress_more; [|exact Hp]. intros k. by right.
  - by constructor.
  - intros i [Hi|Hi]%elem_of_cons; [by apply Ho|by apply Hk].
Qed.

(** The task of a message. *)
Lemma drain_task db msgs i q :
  draining max data db msgs (Some i :: q) ->
  exists d t, d ∈ data /\ t ∈ tasks_of (Job_ID j) db /\ Task_ID t = i /\ item_row max d t /\ progress (Some i :: q) d t.
Proof.
  intros [_ _ Hrows _ Hk]. destruct (Hk i) as (t & Ht & Hid); [left|].
  apply list_elem_of_lookup in Ht as [n Hn].
  destruct (Forall2_lookup_r _ _ _ _ _ Hrows Hn) as (d & Hd & Hrow & Hp).
  exists d, t. apply list_elem_of_lookup_2 in Hn, Hd. by splits.
Qed.

Lemma measure_update db q t f :
  unique_tasks db -> t ∈ tasks_of (Job_ID j) db -> (forall r, Task_JobID (f r) = Task_JobID r) ->
  measure (update_tasks (task_has_id (Task_ID t)) f db) q = measure db q - budget t + budget (f t).
Proof.
  intros Hu Ht Hf. unfold measure, tasks_of. cbn [db_tasks update_tasks]. rewrite filter_update_comm.
  - rewrite (total_of_update _ _ _ _ t); [lia|].
    apply (filter_unique Task_ID); [|exact Ht]. by apply nodup_map_filter.
  - intros r. unfold task_of_job. by rewrite Hf.
Qed.

(** Once the task of a message has run, the invariant holds of what is left. *)
Lemma draining_update db m msgs msgs' i q t f o :
  draining max data db (m :: msgs) (Some i :: q) ->
  t ∈ tasks_of (Job_ID j) db -> Task_ID t = i ->
  (forall r, Task_ID (f r) = Task_ID r /\ Task_JobID (f r) = Task_JobID r) ->
  (forall d, d ∈ data -> item_row max d t -> item_row max d (f t) /\ progress (q ++ left_by o i) d (f t)) ->
  Forall2 message_for msgs' (left_by o i) ->
  draining max data (update_tasks (task_has_id i) f db) (msgs ++ msgs') (q ++ left_by o i).
Proof.
  intros [Hj Hu Hrows Hmsgs Hk] Ht Hid Hf Hset Hnew.
  assert (Htasks : tasks_of (Job_ID j) (update_tasks (task_has_id i) f db) =
    update_where (task_has_id i) f (tasks_of (Job_ID j) db)).
  { unfold tasks_of. apply filter_update_comm. intros r. unfold task_of_job. by rewrite (proj2 (Hf r)). }
  pose proof (fun r => tasks_of_elem r (Job_ID j) db) as Hrow_in.
  split.
  - done.
  - apply update_tasks_unique; [|done]. intros r. apply Hf.
  - rewrite Htasks. eapply Forall2_update_where; [exact Hrows|].
    intros d r Hd Hr [Hrow Hp]. destruct (task_has_id i r) eqn:Hri.
    + apply task_has_id_true in Hri.
      assert (r = t) as -> by (apply (unique_tasks_inj db); auto; congruence). by apply Hset.
    + apply task_has_id_false in Hri. split; [done|]. by eapply progress_other.
  - inversion Hmsgs. by apply Forall2_app.
  - intros k Hin. rewrite Htasks.
    assert (exists r, r ∈ tasks_of (Job_ID j) db /\ Task_ID r = k) as (r & Hr & Hrk).
    { apply elem_of_app in Hin as [?|?%left_by_elem]; [apply Hk; by right|]. exists t. by subst. }
    exists (if task_has_id i r then f r else r). split; [apply elem_of_update_where; eauto|].
    case_match; [|done]. by rewrite (proj1 (Hf r)).
Qed.

Lemma settled_over d t : settled_as E x d t -> Task_IsTerminal t = true.
Proof. intros [[Hs|Hs] _ _]; unfold Task_IsTerminal; by rewrite Hs. Qed.

(** What the message of a task to run does: it runs the task, once, and settles its row;
    that of a settled task does nothing. *)
Lemma consume_task w m msgs i q :
  draining max data (w_db w) (m :: msgs) (Some i :: q) ->
  let w' := consume_message jobs cfg E m w in
  exists d t, (d ∈ data /\ t ∈ tasks_of (Job_ID j) (w_db w) /\ Task_ID t = i /\ item_row max d t) /\
    ((Task_Status t = TaskStatusPending /\ 1 <= Task_Attempt t /\
      exists params n mt now started fin upd,
        let o := outcome t (env_task_execute E n x params) in
        receives d params /\ Task_GetParams t = Ok params /\
        w_db w' = update_tasks (task_has_id (Task_ID t)) (settled_row o started fin upd) (w_db w) /\
        w_kafka w' = w_kafka w ++ settled_messages o cfg mt now /\
        (published_as o mt t /\ json_task mt = true /\ reading E now) /\
        (reading E started /\ reading E fin /\ reading E upd) /\
        consume_calls jobs cfg E m w = [(x, params)]) \/
     (settled_as E x d t /\ w_db w' = w_db w /\ w_kafka w' = w_kafka w /\ consume_calls jobs cfg E m w = [])).
Proof.
  intros Hd. pose proof (dr_messages _ _ _ _ _ Hd) as Hm. inversion Hm as [|? ? ? ? Hm1 Hm2]; subst.
  destruct (drain_task _ _ _ _ Hd) as (d & t & Hin & Ht & Hid & Hrow & Hprog).
  pose proof (tasks_of_elem _ _ _ Ht) as Htin.
  assert (exists isRetry, reads cfg (Message_Topic m) = Some isRetry) as [isRetry Hread]
    by (destruct Hm1 as (b & ? & _); eauto).
  destruct (consume_runs w m i isRetry Hread Hm1) as (payload & w1 & (t0 & Hu & Hid0) & Hdb1 & Hk1 & _ & Hrun & Hcalls).
  assert (Hdel : delivered jobs (w_db w1) payload t j cfg).
  { split; [exists t0; split; [done|congruence]| |done]. rewrite Hdb1.
    apply loads_row; [apply Hd|done|apply Hd|apply Hrow..]. }
  assert (Hpend : Job_IsExecutionPending j = true) by (unfold Job_IsExecutionPending; by rewrite Hjob).
  cbv zeta. exists d, t. split; [done|]. unfold consume_message, consume_calls. rewrite Hread, Hrun, Hcalls.
  destruct Hprog as [(Hst & Hatt & _)|Hset]; [left|right].
  - splits; [done|done|]. destruct (Hdata d Hin) as [params Hp].
    assert (runnable jobs (w_db w1) payload t j cfg x params) as Hr.
    { split; [done|done|by rewrite Hst|apply Hp, Hrow|apply Hwired]. }
    destruct (executeTask_settles_lemma jobs E w1 payload t j cfg x params HE Hpub Hr)
      as (n & mt & now & started & fin & upd & dur & Hspec). cbv zeta in Hspec.
    exists params, n, mt, now, started, fin, upd. cbv zeta.
    rewrite (executions_executeTask jobs E w1 payload t j cfg x params) by done.
    destruct (run E (executeTask jobs payload) w1) as [w2 r].
    destruct Hspec as (_ & Hdb & Hk & Hpubl & _ & (a & b & c & Ha & Hb & Hc & _) & Hnow & Hmt).
    cbn [fst]. rewrite Hdb1 in Hdb. rewrite Hk1 in Hk.
    assert (json_task mt = true) as Hmj.
    { apply Hmt; [apply Hclock|by intros ? ? ?%JSONB_Set_document|]. pose proof (item_json _ _ _ Hrow) as Hj0.
      unfold json_task in *. cbn in *. apply andb_true_iff in Hj0 as [Hj0 _]. by rewrite Hj0. }
    splits; try done; [apply Hp, Hrow|by eexists..].
  - pose proof (settled_over d t Hset) as Hterm.
    rewrite (executions_load jobs E w1 payload t j cfg), Hpend, Hterm by done. cbn [negb orb].
    destruct (executeTask_over_lemma jobs E w1 payload t j cfg HE Hdel Hpend Hterm) as [dur Hspec].
    destruct (run E (executeTask jobs payload) w1) as [w2 r].
    destruct Hspec as (_ & Hdb & Hk & _). cbn [fst]. by rewrite Hdb, Hk.
Qed.

(** Consuming a message keeps the invariant and brings the end closer. *)
Lemma drain_step w m msgs o q :
  draining max data (w_db w) (m :: msgs) (o :: q) ->
  let w' := consume_message jobs cfg E m w in
  exists msgs' q', w_kafka w' = w_kafka w ++ msgs' /\ kept (w_db w) (w_db w') /\
    draining max data (w_db w') (msgs ++ msgs') q' /\
    measure (w_db w') q' + 1 <= measure (w_db w) (o :: q).
Proof.
  intros Hd. cbv zeta. destruct o as [i|].
  2: { pose proof (dr_messages _ _ _ _ _ Hd) as Hm. inversion Hm as [|? ? ? ? Hm1 Hm2]; subst. cbn in Hm1.
       unfold consume_message. rewrite Hm1. exists [], q. rewrite !app_nil_r.
       splits; [done|apply kept_refl| |unfold measure; cbn [length]; lia].
       eapply draining_fewer; [|exact Hd]. intros d t _ _. apply progress_more. by intros k [|]%elem_of_cons. }
  destruct (consume_task w m msgs i q Hd) as (d & t & (Hin & Ht & Hid & Hrow) & Hspec).
  destruct Hspec as [(Hst & Hatt & params & n & mt & now & started & fin & upd & Hspec)|(Hset & Hdb & Hk & _)].
  2: { exists [], q. rewrite !app_nil_r, Hdb, Hk. splits; [done|apply kept_refl| |unfold measure; cbn [length]; lia].
       eapply draining_fewer; [|exact Hd]. intros d' t' Hd' Ht' Hp'. destruct (decide (Task_ID t' = i)) as [He|Hne].
       - right. destruct Hp' as [(Hst & _)|?]; [|done].
         assert (t' = t) as ->; [|by destruct Hset as [[Hs|Hs] _ _]; rewrite Hs in Hst].
         apply (unique_tasks_inj (w_db w)); [apply Hd|by eapply tasks_of_elem..|congruence].
       - rewrite <- (app_nil_r q). by eapply progress_other. }
  cbv zeta in Hspec. destruct Hspec as (Hp & _ & Hdb & Hk & (Hpubl & Hmj & Hnow) & (Hrs & Hrf & Hru) & _).
  destruct (settled_progress _ n params d t q started fin upd max eq_refl Hp Hmax Hrow Hst Hatt Hrs Hrf Hru)
    as (_ & _ & Hw). revert Hw.
  set (o := outcome t _) in *. intros Hw.
  exists (settled_messages o cfg mt now), (q ++ left_by o (Task_ID t)). rewrite Hdb. splits; [done| | |].
  - apply kept_update; [apply Hd|done|]. intros row. by destruct o.
  - rewrite <- Hid in *. apply (draining_update (w_db w) m msgs _ (Task_ID t) q t); try done.
    + intros row. by destruct (settled_row_keeps o started fin upd row) as (? & ? & _).
    + intros d' Hd' Hrow'. destruct (Hdata d' Hd') as [params' Hp'].
      assert (params' = params) as ->.
      { pose proof (Hp' t (item_params _ _ _ Hrow')) as Heq. rewrite (Hp t (item_params _ _ _ Hrow)) in Heq. congruence. }
      destruct (settled_progress _ n params d' t q started fin upd max eq_refl Hp' Hmax Hrow' Hst Hatt Hrs Hrf Hru)
        as (? & ? & _). by split.
    + by apply settled_messages_for.
  - rewrite (measure_update _ _ t); [|apply Hd|done|].
    + unfold measure. rewrite length_app. cbn [length]. lia.
    + intros row. by destruct (settled_row_keeps o started fin upd row) as (_ & ? & _).
Qed.

(** The invariant does not depend on the order of the messages. *)
Lemma draining_perm db msgs msgs' q :
  msgs ≡ₚ msgs' -> draining max data db msgs q ->
  exists q', draining max data db msgs' q' /\ measure db q' = measure db q.
Proof.
  intros Hp [Hj Hu Hrows Hmsgs Hk].
  destruct (Permutation_Forall2 Hp Hmsgs) as (q' & Hq & Hmsgs'). exists q'. split.
  - split; try done.
    + eapply Forall2_impl; [exact Hrows|]. intros d t [? Hpr]. split; [done|].
      eapply progress_more; [|exact Hpr]. intros k. by rewrite Hq.
    + intros i. rewrite <- Hq. apply Hk.
  - unfold measure. by rewrite Hq.
Qed.

(** A turn of [drain], with or without a redelivery. *)
Lemma drain_turn (again : bool) w m rest q :
  draining max data (w_db w) (m :: rest) q ->
  let w' := consume_message jobs cfg E m w in
  exists q', kept (w_db w) (w_db w') /\ draining max data (w_db w') (unread_after again m rest w w') q' /\
    measure (w_db w') q' + 1 <= measure (w_db w) q + (if again then 1 else 0).
Proof.
  intros Hd. cbv zeta. pose proof (dr_messages _ _ _ _ _ Hd) as Hq. inversion Hq as [|? o ? q1 Hm Hms]; subst.
  destruct (drain_step w m rest o q1 Hd) as (msgs' & q2 & Hk & Hkept & Hd' & Hlt).
  set (w' := consume_message jobs cfg E m w) in *.
  assert (exists q3, draining max data (w_db w') ((if again then [m] else []) ++ rest ++ msgs') q3 /\
    measure (w_db w') q3 + 1 <= measure (w_db w) (o :: q1) + (if again then 1 else 0)) as (q3 & Hd3 & Hm3).
  { destruct again; [|exists q2; split; [done|lia]]. exists (o :: q2). split.
    - apply draining_again; [done| |done]. intros i ->.
      assert (i ∈ map Task_ID (tasks_of (Job_ID j) (w_db w'))) as Hin.
      { rewrite (kept_own _ _ Hkept). destruct (dr_known _ _ _ _ _ Hd i) as (t & Ht & <-); [left|].
        by apply list_elem_of_In, in_map, list_elem_of_In. }
      apply list_elem_of_In, in_map_iff in Hin as (t & Ht & Hin). exists t. by rewrite list_elem_of_In.
    - unfold measure in *. cbn [length] in *. lia. }
  destruct (draining_perm (w_db w') ((if again then [m] else []) ++ rest ++ msgs') (unread_after again m rest w w') q3) as (q' & Hd4 & Hm4); [|exact Hd3|].
  { unfold unread_after. rewrite Hk, drop_app_length, !app_assoc. apply Permutation_app_tail, Permutation_app_comm. }
  exists q'. splits; [done|done|lia].
Qed.

Lemma redeliveries_S s fuel : redeliveries s (S fuel) = redeliveries s fuel + (if plan_again s fuel then 1 else 0).
Proof.
  unfold redeliveries. rewrite seq_S, count_app, Nat.add_0_l. f_equal. unfold count. cbn [List.filter].
  by destruct (plan_again s fuel).
Qed.

(** The message whose turn it is. *)
Lemma draining_rotate n db unread q :
  draining max data db unread q -> exists q', draining max data db (rotate n unread) q' /\ measure db q' = measure db q.
Proof. apply draining_perm. unfold rotate. by rewrite Permutation_app_comm, take_drop. Qed.

Lemma draining_end db q s unread :
  draining max data db unread q -> measure db q + redeliveries s 0 <= 0 -> unread = [].
Proof.
  intros Hd Hle. change (redeliveries s 0) with 0 in Hle. pose proof (measure_length db q).
  pose proof (dr_messages _ _ _ _ _ Hd) as Hq. destruct Hq; [done|]. exfalso. cbn [length] in *. lia.
Qed.

(** [drain] reaches the end of the topics, whatever the plan. *)
Lemma drain_completes s fuel unread w q :
  draining max data (w_db w) unread q -> measure (w_db w) q + redeliveries s fuel <= Z.of_nat fuel ->
  exists w', drain jobs cfg E s fuel unread w = Some w' /\ kept (w_db w) (w_db w') /\
    draining max data (w_db w') [] [].
Proof.
  revert unread w q. induction fuel as [|fuel IH]; intros unread w q Hd Hle; cbn [drain].
  - assert (unread = []) as -> by (eapply (draining_end _ _ s); [exact Hd|lia]).
    pose proof (dr_messages _ _ _ _ _ Hd) as Hq. inversion Hq; subst. exists w. splits; [done|apply kept_refl|done].
  - destruct (draining_rotate (plan_pick s fuel) (w_db w) unread q Hd) as (q0 & Hd0 & Hm0).
    destruct (rotate (plan_pick s fuel) unread) as [|m rest].
    { pose proof (dr_messages _ _ _ _ _ Hd0) as Hq. inversion Hq; subst. exists w. splits; [done|apply kept_refl|done]. }
    destruct (drain_turn (plan_again s fuel) w m rest q0 Hd0) as (q' & Hkept & Hd' & Hlt).
    rewrite redeliveries_S in Hle.
    destruct (IH _ (consume_message jobs cfg E m w) q' Hd') as (w' & -> & Hk' & Hend); [lia|].
    exists w'. splits; [done|by eapply kept_trans|done].
Qed.

(** When every task succeeds, [drain] calls the executor once for each task to run. *)
Lemma todo_done db q : draining max data db [] q -> todo db = [].
Proof.
  intros [_ _ Hrows Hmsgs _]. inversion Hmsgs; subst. unfold todo. rewrite filter_none; [done|].
  intros t [n Hn]%list_elem_of_lookup. destruct (Forall2_lookup_r _ _ _ _ _ Hrows Hn) as (d & _ & _ & Hp).
  destruct Hp as [(_ & _ & Hin)|[Hst _ _]]; [by apply elem_of_nil in Hin|].
  apply bool_decide_eq_false. by destruct Hst as [->| ->].
Qed.

Lemma consume_calls_todo w m msgs o q :
  (forall d, d ∈ data -> always_succeeds E x d) ->
  draining max data (w_db w) (m :: msgs) (o :: q) ->
  map (pair x) (todo (w_db w)) ≡ₚ
  consume_calls jobs cfg E m w ++ map (pair x) (todo (w_db (consume_message jobs cfg E m w))).
Proof.
  intros Hok Hd. destruct o as [i|].
  2: { pose proof (dr_messages _ _ _ _ _ Hd) as Hm. inversion Hm as [|? ? ? ? Hm1 Hm2]; subst. cbn in Hm1.
       unfold consume_calls, consume_message. by rewrite Hm1. }
  destruct (consume_task w m msgs i q Hd) as (d & t & (Hin & Ht & Hid & Hrow) & Hspec).
  destruct Hspec as [(Hst & Hatt & params & n & mt & now & started & fin & upd & Hspec)|(_ & -> & _ & ->)]; [|done].
  cbv zeta in Hspec. destruct Hspec as (Hp & Hpar & Hdb & _ & _ & _ & ->).
  destruct (Hok d Hin params n Hp) as [out Hout]. rewrite Hdb, Hout. cbn [outcome app].
  change ((x, params) :: map (pair x) ?l) with (map (pair x) (params :: l)). apply Permutation_map. unfold todo.
  assert (params = params_of t) as -> by (unfold params_of; by rewrite Hpar).
  change (params_of t :: map params_of ?l) with (map params_of (t :: l)). apply Permutation_map.
  unfold tasks_of. cbn [db_tasks update_tasks]. rewrite filter_update_comm by done.
  apply filter_update_leaves; [|by apply bool_decide_eq_true|done].
  apply (filter_unique Task_ID); [|exact Ht]. apply nodup_map_filter, Hd.
Qed.

Lemma drain_calls_once s fuel unread w q :
  (forall d, d ∈ data -> always_succeeds E x d) ->
  draining max data (w_db w) unread q -> measure (w_db w) q + redeliveries s fuel <= Z.of_nat fuel ->
  drain_calls jobs cfg E s fuel unread w ≡ₚ map (pair x) (todo (w_db w)).
Proof.
  intros Hok. revert unread w q. induction fuel as [|fuel IH]; intros unread w q Hd Hle; cbn [drain_calls].
  - assert (unread = []) as -> by (eapply (draining_end _ _ s); [exact Hd|lia]). by rewrite (todo_done _ _ Hd).
  - destruct (draining_rotate (plan_pick s fuel) (w_db w) unread q Hd) as (q0 & Hd0 & Hm0).
    destruct (rotate (plan_pick s fuel) unread) as [|m rest]; [by rewrite (todo_done _ _ Hd0)|].
    destruct (drain_turn (plan_again s fuel) w m rest q0 Hd0) as (q' & _ & Hd' & Hlt).
    pose proof (dr_messages _ _ _ _ _ Hd0) as Hq. inversion Hq as [|? o ? q1 Hm Hms]; subst.
    rewrite (consume_calls_todo w m rest o q1 Hok Hd0). apply Permutation_app_head.
    rewrite redeliveries_S in Hle. apply (IH _ _ q'); [done|lia].
Qed.
End step.
End invariant.

(** ** Before and after *)

Lemma terminal_status_outcome ts :
  terminal_status (count (task_status_in [TaskStatusCompleted]) ts)
    (Z.of_nat (length ts) - count (task_status_in [TaskStatusCompleted]) ts) = job_outcome ts.
Proof.
  unfold terminal_status, job_outcome. set (p := task_status_in _).
  assert (forallb p ts = (Z.of_nat (length ts) - count p ts =? 0)) as ->.
  { induction ts as [|t ts IH]; [done|]. rewrite count_cons. cbn. rewrite IH.
    pose proof (count_le_length p ts). destruct (p t); cbn; [f_equal; lia|]. symmetry. apply Z.eqb_neq. lia. }
  assert (existsb p ts = negb (count p ts =? 0)) as ->.
  { induction ts as [|t ts IH]; [done|]. rewrite count_cons. cbn. rewrite IH.
    pose proof (count_nonneg p ts). destruct (p t); cbn; [|done]. symmetry. apply negb_true_iff, Z.eqb_neq. lia. }
  by destruct (_ - _ =? 0), (count p ts =? 0).
Qed.

Lemma resolve_outcome ts :
  ts ≠ [] -> Forall (fun t => Task_Status t ∈ settledTaskStates) ts ->
  resolveJobTerminalStatus ts = Some (job_outcome ts).
Proof.
  intros Hne Hall. rewrite <- terminal_status_outcome. unfold resolveJobTerminalStatus.
  destruct ts as [|t ts]; [done|]. rewrite tally_spec, count_all.
  assert (count (fun t => negb (task_status_in settledTaskStates t)) (t :: ts) = 0) as ->; [|by rewrite !Z.add_0_l].
  apply count_zero_iff. intros r Hr. apply negb_false_iff, contains_spec.
  rewrite Forall_forall in Hall. by apply Hall.
Qed.

Lemma after_cancel_identity cfg job now db :
  map job_identity (db_jobs (after_cancel cfg job now db)) = map job_identity (db_jobs db).
Proof.
  unfold after_cancel, cancel_previous_tx. destruct (Cfg_CancelPrevious cfg); [|done].
  destruct (List.filter _ (db_jobs db)); [done|]. cbn. by apply update_where_map_inv.
Qed.

(** The cancellation of the previous runs keeps the names, the keys, and the tasks
    of the new job. *)
Lemma after_cancel_keeps cfg job now db :
  map Job_Name (db_jobs (after_cancel cfg job now db)) = map Job_Name (db_jobs db) /\
  map Job_ID (db_jobs (after_cancel cfg job now db)) = map Job_ID (db_jobs db) /\
  map Task_ID (db_tasks (after_cancel cfg job now db)) = map Task_ID (db_tasks db) /\
  tasks_of (Job_ID job) (after_cancel cfg job now db) = tasks_of (Job_ID job) db.
Proof.
  unfold after_cancel, cancel_previous_tx. destruct (Cfg_CancelPrevious cfg); [|done].
  set (p := fun x : Job => _). destruct (List.filter p (db_jobs db)) as [|c cs] eqn:Hc; [done|].
  cbn. splits; try (by apply update_where_map_inv). unfold tasks_of. cbn.
  apply filter_update_other; [|done].
  intros t [Ht _]%andb_true_iff. unfold task_of_job. apply N.eqb_neq. intros Heq.
  apply contains_spec in Ht. change (map Job_ID (c :: cs)) with (Job_ID c :: map Job_ID cs) in Ht.
  assert (Task_JobID t ∈ map Job_ID (List.filter p (db_jobs db))) as Hin by by rewrite Hc.
  apply list_elem_of_In, in_map_iff in Hin as (a & Ha & [_ Hpa]%filter_In).
  unfold p in Hpa. apply andb_true_iff in Hpa as [[_ Hna]%andb_true_iff _].
  apply negb_true_iff, job_has_id_false in Hna. congruence.
Qed.

(** The rows of a new job are those that were inserted with it. *)
Lemma tasks_of_new `{Pgtype} job status i data ts jobs tasks :
  Job_ID job ∉ map Task_JobID tasks -> tasks_for job status i data ts ->
  tasks_of (Job_ID job) (mkDB jobs (tasks ++ ts)) = ts.
Proof.
  intros Hfresh Hts. unfold tasks_of. cbn. rewrite List.filter_app, filter_none.
  - clear Hfresh. revert i ts Hts. induction data as [|d data IH]; intros i [|t ts] Hts; try done.
    cbn in *. destruct Hts as [Ht Hts]. unfold task_of_job at 1. rewrite (task_for_job _ _ _ _ _ Ht), N.eqb_refl.
    f_equal. by eapply IH.
  - intros t Ht. apply N.eqb_neq. intros Heq. apply Hfresh. rewrite <- Heq.
    by apply list_elem_of_In, in_map, list_elem_of_In.
Qed.

Lemma instances_names name db :
  instances_of name db = length (List.filter (fun n => bool_decide (n = name)) (map Job_Name (db_jobs db))).
Proof. exact (filter_map_length Job_Name (fun n : string => bool_decide (n = name)) (db_jobs db)). Qed.

(** A table with one more job. *)
Lemma one_more_job name db db' c :
  map job_identity (db_jobs db') = map job_identity (db_jobs db) ++ [job_identity c] ->
  Job_ID c ∉ map Job_ID (db_jobs db) -> unique_jobs db ->
  unique_jobs db' /\ (instances_of name db' <= S (instances_of name db))%nat.
Proof.
  intros Hid Hnew Hu. split.
  - unfold unique_jobs. rewrite map_Job_ID, Hid, map_app, <- map_Job_ID. apply NoDup_app.
    splits; [done| |apply NoDup_singleton]. by intros i Hi ->%list_elem_of_singleton.
  - rewrite !instances_names, map_Job_Name, Hid, map_app, <- map_Job_Name, List.filter_app, length_app.
    cbn [map List.filter]. case_match; cbn [length]; lia.
Qed.

Lemma all_succeed `{Pgtype} E x data ts :
  Forall2 (settled_as E x) data ts -> (forall d, d ∈ data -> always_succeeds E x d) ->
  Forall (fun t => Task_Status t = TaskStatusCompleted) ts /\ job_outcome ts = JobStatusCompleted.
Proof.
  intros Hset Hok. assert (Forall (fun t => Task_Status t = TaskStatusCompleted) ts) as Hall.
  { induction Hset as [|d t l ts Ht _ IH]; [constructor|].
    constructor; [apply Ht, Hok; left|]. apply IH. intros d' Hd'. apply Hok. by right. }
  split; [done|]. unfold job_outcome. assert (forallb (task_status_in [TaskStatusCompleted]) ts = true) as ->; [|done].
  apply forallb_forall. intros t Ht%list_elem_of_In. rewrite Forall_forall in Hall. unfold task_status_in.
  by rewrite (Hall t Ht).
Qed.

(** ** From the trigger to the end *)
Section completes.
  Context `{UuidText} `{FsmLaws} `{PgtypeLaws} `{FloatConv} `{CodecLaws}.
  Context (jobs : gmap string JobConfig) (cfg : JobConfig) (E : env) (x : handle).
  Context (HE : reliable E) (Hwired : wired cfg x) (Hclock : json_clock E cfg).

(** Rows nobody has run yet. *)
Definition untried (j : Job) (max : Z) (d : TaskData) (t : Task) : Prop :=
  item_row j max d t /\ Task_Status t = TaskStatusPending /\ Task_Attempt t = 1.

Lemma untried_new job i data ts j :
  tasks_for job TaskStatusPending i data ts -> Job_ID j = Job_ID job -> Job_CreatedAt j = Job_CreatedAt job ->
  Forall (fun t => task_fits t = true) ts -> Forall (fun t => json_task t = true) ts ->
  Forall2 (untried j (Job_MaxRetries job)) data ts.
Proof.
  intros Hts Hid Hcr. revert i ts Hts. induction data as [|d data IH]; intros i [|t ts]; try done; try by (intros; constructor).
  cbn. intros [Ht Hts] [Hf Hfs]%Forall_cons [Hj Hjs]%Forall_cons.
  constructor; [|by eapply IH]. destruct Ht. split; [split; congruence|done].
Qed.

Lemma initial_messages ts :
  Forall (fun t => json_task t = true) ts ->
  Forall2 (message_for cfg) (omap (task_message (Kafka_TaskTopic (Cfg_Kafka cfg))) ts)
    (map (fun t => Some (Task_ID t)) ts).
Proof.
  induction 1 as [|t ts Ht _ IH]; [constructor|]. cbn. unfold task_message.
  destruct (json_Task_encodes t Ht) as [s Hs]. rewrite Hs. constructor; [|exact IH].
  cbn. exists false. split; [|by apply json_Task_id].
  unfold reads. by rewrite bool_decide_eq_true_2.
Qed.

Lemma initial_measure j max data ts :
  Forall2 (untried j max) data ts -> total_of budget ts = Z.of_nat (length data) * Z.max 1 max.
Proof.
  induction 1 as [|d t data ts (Hrow & Hst & Hatt) _ IH]; [done|].
  unfold total_of in *. cbn [foldr length]. rewrite IH.
  unfold budget, Task_IsTerminal. rewrite Hst, Hatt, (item_max _ _ _ _ Hrow).
  replace (contains TerminalTaskStates TaskStatusPending) with false by done. lia.
Qed.

(** Rows nobody has run, and one message for each, satisfy the invariant of [drain]. *)
Lemma draining_untried db j max data ts :
  let q := map (fun t => Some (Task_ID t)) ts in
  List.filter (job_has_id (Job_ID j)) (db_jobs db) = [j] -> unique_tasks db ->
  tasks_of (Job_ID j) db = ts -> Forall2 (untried j max) data ts ->
  draining cfg E x j max data db (omap (task_message (Kafka_TaskTopic (Cfg_Kafka cfg))) ts) q /\
  measure j db q = Z.of_nat (length data) * (Z.max 1 max + 1).
Proof.
  intros q Hj Hu Ht Hrows.
  assert (Hq : forall i, Some i ∈ q <-> exists t, t ∈ ts /\ Task_ID t = i).
  { intros i. subst q. rewrite list_elem_of_In, in_map_iff.
    split; [intros (t & [= <-] & Hin)|intros (t & Hin & <-)]; exists t; by rewrite list_elem_of_In in *. }
  split.
  - split; [done..| |apply initial_messages|].
    2: { clear -Hrows. induction Hrows as [|d t data ts (Hrow & _) _ IH]; constructor; [apply Hrow|done]. }
    + rewrite Ht. assert (forall t, t ∈ ts -> Some (Task_ID t) ∈ q) as Hall by (intros t Hin; apply Hq; eauto).
      clear Hq Ht. revert Hall. generalize q as q0. intros q0 Hall.
      induction Hrows as [|d t data ts (Hrow & Hst & Hatt) _ IH]; constructor.
      * split; [done|]. left. splits; [done|lia|apply Hall; left].
      * apply IH. intros t' Ht'. apply Hall. by right.
    + intros i (t & Hin & <-)%Hq. exists t. by rewrite Ht.
  - unfold measure. rewrite Ht, (initial_measure _ _ _ _ Hrows). subst q.
    rewrite length_map, (Forall2_length _ _ _ Hrows). lia.
Qed.

(** The row of a job that has just been inserted under a fresh id. *)
Lemma filter_inserted job jobs0 :
  Job_ID job ∉ map Job_ID jobs0 -> List.filter (job_has_id (Job_ID job)) (jobs0 ++ [job]) = [job].
Proof.
  intros Hjob. rewrite List.filter_app, filter_none.
  - cbn. unfold job_has_id at 1. by rewrite N.eqb_refl.
  - intros a Ha. apply job_has_id_false. intros Heq. apply Hjob. rewrite <- Heq.
    by apply list_elem_of_In, in_map, list_elem_of_In.
Qed.

(** What a trigger leaves satisfies the invariant of [drain]. *)
Lemma draining_initial db job started upd now data ts :
  let j := row_started started upd job in
  let db1 := update_jobs (job_has_id (Job_ID job)) (row_started started upd)
               (after_cancel cfg job now (mkDB (db_jobs db ++ [job]) (db_tasks db ++ ts))) in
  let q := map (fun t => Some (Task_ID t)) ts in
  unique_tasks db -> Job_ID job ∉ map Job_ID (db_jobs db) -> Job_ID job ∉ map Task_JobID (db_tasks db) ->
  NoDup (map Task_ID ts) -> (forall t, t ∈ ts -> Task_ID t ∉ map Task_ID (db_tasks db)) ->
  tasks_for job TaskStatusPending 0 data ts -> rows_ok E job ts ->
  draining cfg E x j (Job_MaxRetries job) data db1
    (omap (task_message (Kafka_TaskTopic (Cfg_Kafka cfg))) ts) q /\
  measure j db1 q = Z.of_nat (length data) * (Z.max 1 (Job_MaxRetries job) + 1).
Proof.
  intros j db1 q Hu Hjob Howner Hnd Hfresh Hts Hok.
  destruct (rows_json _ _ _ Hok (clock_now _ _ Hclock)) as [_ Hjs].
  destruct (after_cancel_keeps cfg job now (mkDB (db_jobs db ++ [job]) (db_tasks db ++ ts)))
    as (_ & _ & Hids & Htasks).
  rewrite (tasks_of_new job TaskStatusPending 0 data ts) in Htasks by done.
  apply draining_untried; [| |exact Htasks|by eapply untried_new; [..|apply Hok|]].
  - subst db1 j. cbn [db_jobs update_jobs]. rewrite filter_update_hit by done.
    rewrite after_cancel_self. cbn [db_jobs]. by rewrite filter_inserted.
  - unfold unique_tasks. subst db1. cbn [db_tasks update_jobs]. rewrite Hids. by apply unique_inserted.
Qed.

(** What [drain] leaves is settled, and so the next check of the job finalizes it. *)
Lemma check_finishes w j data max :
  data ≠ [] -> jobs !! Job_Name j = Some cfg -> Job_Status j = JobStatusRunning -> unique_jobs (w_db w) ->
  draining cfg E x j max data (w_db w) [] [] ->
  (instances_of (Job_Name j) (w_db w) <= 200)%nat ->
  let w' := (run E (checkJobCompletions jobs (Job_Name j)) w).1 in
  db_tasks (w_db w') = db_tasks (w_db w) /\
  Forall2 (fun d t => item_row j max d t /\ settled_as E x d t) data (tasks_of (Job_ID j) (w_db w)) /\
  let status := job_outcome (tasks_of (Job_ID j) (w_db w)) in
  (exists fin upd, finalized status fin upd j ∈ db_jobs (w_db w')) /\
  OnJobFinished (Job_Name j) (default ""%string (Job_UniqueReferenceID j)) status 0 ∈ w_hooks w' /\
  (forall k, k ∈ db_jobs (w_db w) -> Job_IsRunning k = false -> k ∈ db_jobs (w_db w')).
Proof.
  intros Hne Hcfg Hst Hu [Hj _ Hrows _ _] Hlen.
  assert (Hset : Forall2 (fun d t => item_row j max d t /\ settled_as E x d t) data (tasks_of (Job_ID j) (w_db w))).
  { eapply Forall2_impl; [exact Hrows|]. intros d t [? [(_ & _ & Hin)|?]]; [|done].
    by apply elem_of_nil in Hin. }
  assert (Hfin : finalization (w_db w) j = Some (job_outcome (tasks_of (Job_ID j) (w_db w)))).
  { unfold finalization, Job_IsRunning. rewrite Hst. rewrite bool_decide_eq_true_2 by done.
    apply resolve_outcome.
    - intros Hnil. rewrite Hnil in Hset. by inversion Hset; subst.
    - clear -Hset. induction Hset as [|d t l l' [_ [Ht _ _]] _ IH]; constructor; [|done].
      apply list_elem_of_In. destruct Ht as [->| ->]; cbn; tauto. }
  assert (Hin : j ∈ db_jobs (w_db w)).
  { assert (In j [j]) as Hin by by left. rewrite <- Hj in Hin. by apply filter_In in Hin as [?%list_elem_of_In _]. }
  pose proof (checkJobCompletions_lemma jobs E w (Job_Name j) HE Hu) as Hc.
  destruct (run E (checkJobCompletions jobs (Job_Name j)) w) as [w' err]. cbn [fst].
  destruct Hc as (He & Ht & _ & Hh & Hrest & Hhit & Hall).
  assert (Hb : j ∈ completable_batch (Job_Name j) (w_db w)).
  { apply Hall.
    - etrans; [|exact Hlen]. unfold completable. rewrite filter_and. apply filter_length_le.
    - split; [done|]. unfold completable. by rewrite bool_decide_eq_true_2, bool_decide_eq_true_2 by (by rewrite ?Hfin). }
  cbv zeta. splits; [done|exact Hset| | |].
  - destruct (Hhit j Hb) as (status & fin & upd & Hs & Hf). rewrite Hfin in Hs. injection Hs as <-. eauto.
  - rewrite Hh. apply elem_of_app. right. apply list_elem_of_In, in_concat.
    exists (finish_hooks jobs (w_db w) j). split; [by apply in_map, list_elem_of_In|].
    unfold finish_hooks. rewrite Hfin, Hcfg. by left.
  - intros k Hk Hrun. apply Hrest; [done|]. intros [_ Hcomp]%completable_batch_elem.
    apply andb_true_iff in Hcomp as [_ [? Hf]%bool_decide_eq_true]. unfold finalization in Hf. by rewrite Hrun in Hf.
Qed.

(** Consume everything and check: the job [j] ends with its tasks settled, and the rest
    of the tables as it was. *)
Lemma drain_and_check w j data max plan fuel unread q :
  data ≠ [] -> jobs !! Job_Name j = Some cfg -> Job_Status j = JobStatusRunning -> json_job j = true ->
  Cfg_Publisher cfg = Some NewTaskPublisher -> max <= max_int64 -> (forall d, d ∈ data -> exists p, receives d p) ->
  unique_jobs (w_db w) -> (instances_of (Job_Name j) (w_db w) <= 200)%nat ->
  draining cfg E x j max data (w_db w) unread q -> measure j (w_db w) q + redeliveries plan fuel <= Z.of_nat fuel ->
  exists w2, drain jobs cfg E plan fuel unread w = Some w2 /\
    let w' := (run E (checkJobCompletions jobs (Job_Name j)) w2).1 in
    kept j (mkDB [] (db_tasks (w_db w))) (mkDB [] (db_tasks (w_db w'))) /\
    map job_identity (db_jobs (w_db w')) = map job_identity (db_jobs (w_db w)) /\
    Forall2 (fun d t => item_row j max d t /\ settled_as E x d t) data (tasks_of (Job_ID j) (w_db w')) /\
    let status := job_outcome (tasks_of (Job_ID j) (w_db w')) in
    (exists fin upd, finalized status fin upd j ∈ db_jobs (w_db w')) /\
    OnJobFinished (Job_Name j) (default ""%string (Job_UniqueReferenceID j)) status 0 ∈ w_hooks w' /\
    (forall k, k ∈ db_jobs (w_db w) -> Job_IsRunning k = false -> k ∈ db_jobs (w_db w')).
Proof.
  intros Hne Hcfg Hst Hjs Hpub Hmax Hdata Hu Hlen Hdr Hmeas.
  destruct (drain_completes jobs cfg E x j Hst Hcfg Hpub HE Hwired Hclock Hjs max data Hmax Hdata plan fuel unread w q Hdr Hmeas)
    as (w2 & Hdrain & Hkept & Hend).
  exists w2. split; [exact Hdrain|]. cbv zeta. destruct Hkept as [Hj Hids Hown Hdom Hoth Hord].
  assert (Hu2 : unique_jobs (w_db w2)) by (by unfold unique_jobs; rewrite Hj).
  pose proof (checkJobCompletions_identity jobs E w2 (Job_Name j) HE Hu2) as Hid.
  destruct (check_finishes w2 j data max Hne Hcfg Hst Hu2 Hend) as (Ht & Hset & Hfin & Hh & Hrest).
  { unfold instances_of in *. by rewrite Hj. }
  set (w3 := (run E (checkJobCompletions jobs (Job_Name j)) w2).1) in *.
  assert (Htasks : forall k, tasks_of k (w_db w3) = tasks_of k (w_db w2)) by (intros k; unfold tasks_of; by rewrite Ht).
  rewrite Hj in Hid, Hrest. rewrite Htasks. splits; try done.
  split; cbn [db_tasks]; rewrite ?Ht; done.
Qed.

(** Rows nobody has run are all to run, with their items' parameters. *)
Lemma todo_receives j max data ts :
  (forall d, d ∈ data -> exists p, receives d p) -> Forall2 (untried j max) data ts ->
  Forall2 receives data (map params_of (List.filter is_pending ts)).
Proof.
  intros Hdata Hrows. induction Hrows as [|d t data ts (Hrow & Hst & _) _ IH]; [constructor|].
  cbn [List.filter]. unfold is_pending at 1. rewrite Hst, bool_decide_eq_true_2 by done. constructor.
  - destruct (Hdata d) as [p Hp]; [left|]. unfold params_of. by rewrite (Hp t (item_params _ _ _ _ Hrow)).
  - apply IH. intros d' Hd'. apply Hdata. by right.
Qed.

(** Calls are only made while the messages are consumed. *)
Lemma calls_to_end_todo {R} (p : prog R) w j data max plan fuel name q :
  let w1 := (run E p w).1 in
  jobs !! Job_Name j = Some cfg -> Job_Status j = JobStatusRunning -> json_job j = true -> Cfg_Publisher cfg = Some NewTaskPublisher ->
  max <= max_int64 -> (forall d, d ∈ data -> exists p, receives d p) ->
  (forall d, d ∈ data -> always_succeeds E x d) -> idle p ->
  draining cfg E x j max data (w_db w1) (drop (length (w_kafka w)) (w_kafka w1)) q -> measure j (w_db w1) q + redeliveries plan fuel <= Z.of_nat fuel ->
  calls_to_end jobs cfg p E plan fuel name w ≡ₚ map (pair x) (todo j (w_db w1)).
Proof.
  intros w1 Hcfg Hst Hjs Hpub Hmax Hdata Hok Hq Hdr Hmeas. unfold calls_to_end. rewrite (idle_executions E p) by done. fold w1.
  rewrite (drain_calls_once jobs cfg E x j Hst Hcfg Hpub HE Hwired Hclock Hjs max data Hmax Hdata plan fuel _ w1 _ Hok Hdr Hmeas).
  cbn [app]. match goal with |- context [match ?o with Some _ => _ | None => _ end] => destruct o end; [|by rewrite app_nil_r].
  by rewrite idle_executions, app_nil_r by apply idle_checkJobCompletions.
Qed.
End completes.

Lemma job_outcome_fits ts fin upd s u j :
  job_fits j = true -> job_fits (finalized (job_outcome ts) fin upd (row_started s u j)) = true.
Proof.
  unfold job_fits. rewrite !andb_true_iff. intros Hj. destruct_and! Hj. cbn -[pg_varchar pg_integer].
  split_and!; try done. unfold job_outcome. by repeat case_match.
Qed.

Lemma row_started_json E s u job :
  (forall n, json_time (env_now E n) = true) -> json_job job = true -> reading E s -> reading E u ->
  json_job (row_started s u job) = true.
Proof.
  intros Hnow Hj [a ->] [b ->].
  unfold json_job in *. cbn -[json_time] in *. rewrite !andb_true_iff in *. destruct_and! Hj. split_and!; first [done|apply Hnow].
Qed.

(** ** The whole run *)
Section whole.
  Context `{UuidText} `{FsmLaws} `{PgtypeLaws} `{FloatConv} `{CodecLaws}.
  Context (jobs : gmap string JobConfig) (cfg : JobConfig) (E : env) (x : handle) (w : World).
  Context (name ref : string) (metadata : gomap) (data : list TaskData) (plan : delivery_plan) (fuel : nat).
  Context (HE : reliable E) (Hwired : wired cfg x) (Hclock : json_clock E cfg).
  Context (Htr : triggerable E jobs (w_db w) name ref metadata cfg data) (Hsw : switched E cfg true).
  Context (Hne : data ≠ []) (Hdata : forall d, d ∈ data -> exists p, receives d p).
  Context (Huj : unique_jobs (w_db w)) (Hut : unique_tasks (w_db w)).
  Context (Hlen : (instances_of name (w_db w) < 200)%nat) (Hfuel : turns cfg (length data) + redeliveries plan fuel <= Z.of_nat fuel).

Lemma retries_bound : retries_of cfg <= max_int64.
Proof using Htr.
  clear -Htr.
  pose proof (trigger_columns _ _ _ _ _ _ _ _ Htr) as [_ Hmax%pg_integer_spec]%andb_true_iff.
  unfold retries_of, max_int64. case_match; lia.
Qed.

(** The trigger leaves one message for each of the tasks it makes. *)
Lemma pipeline_start :
  exists job ts s u now,
    let j := row_started s u job in
    let w1 := (run E (executeJob jobs name ref metadata) w).1 in
    let q := map (fun t => Some (Task_ID t)) ts in
    new_row (w_db w) name ref JobStatusPending metadata cfg job /\ tasks_for job TaskStatusPending 0 data ts /\
    (rows_ok E job ts /\ json_job j = true) /\ tasks_of (Job_ID j) (w_db w1) = ts /\
    w_db w1 = update_jobs (job_has_id (Job_ID job)) (row_started s u)
                (after_cancel cfg job now (mkDB (db_jobs (w_db w) ++ [job]) (db_tasks (w_db w) ++ ts))) /\
    draining cfg E x j (retries_of cfg) data (w_db w1) (drop (length (w_kafka w)) (w_kafka w1)) q /\
    measure j (w_db w1) q + redeliveries plan fuel <= Z.of_nat fuel.
Proof.
  destruct (executeJob_starts_lemma E w jobs name ref metadata cfg data HE Htr Hsw Hne)
    as (job & ts & s & u & now & d & Hrun).
  exists job, ts, s, u, now. cbv zeta.
  destruct (run E (executeJob jobs name ref metadata) w) as [w1 err].
  destruct Hrun as (_ & Hnew & Hts & ((m & Hm) & Hnd & Hfresh) & (Hok & Hrs & Hru) & Hdb & Hk & _). cbn [fst].
  pose proof (clock_now _ _ Hclock) as Hnow.
  assert (Hjs : json_job (row_started s u job) = true).
  { destruct (rows_json _ _ _ Hok Hnow) as [Hj _]. by eapply row_started_json. }
  assert (Howner : Job_ID job ∉ map Task_JobID (db_tasks (w_db w))).
  { rewrite Hm. apply (fresh_owner _ _ (trigger_fresh _ _ _ _ _ _ _ _ Htr)). }
  destruct (draining_initial cfg E x Hclock (w_db w) job s u now data ts Hut (new_row_id _ _ _ _ _ _ _ Hnew) Howner Hnd
              Hfresh Hts Hok) as [Hdr Hmeas].
  rewrite <- Hdb, (new_row_retries _ _ _ _ _ _ _ Hnew) in Hdr, Hmeas.
  destruct (after_cancel_keeps cfg job now (mkDB (db_jobs (w_db w) ++ [job]) (db_tasks (w_db w) ++ ts)))
    as (_ & _ & _ & Htasks). rewrite (tasks_of_new job TaskStatusPending 0 data ts) in Htasks by done.
  splits; [done|done|exact Hok|done|by rewrite Hdb|done|by rewrite Hk, drop_app_length|]. rewrite Hmeas. exact Hfuel.
Qed.

(** The trigger's tables have unique keys, and one more row of its name. *)
Lemma pipeline_start_tables job ts s u now :
  new_row (w_db w) name ref JobStatusPending metadata cfg job ->
  let db := update_jobs (job_has_id (Job_ID job)) (row_started s u)
              (after_cancel cfg job now (mkDB (db_jobs (w_db w) ++ [job]) (db_tasks (w_db w) ++ ts))) in
  map job_identity (db_jobs db) = map job_identity (db_jobs (w_db w)) ++ [job_identity job] /\
  unique_jobs db /\ (instances_of name db <= 200)%nat.
Proof.
  intros [Hnew Hname _ _ _ _ _]. cbv zeta.
  assert (Hid : map job_identity (db_jobs (update_jobs (job_has_id (Job_ID job)) (row_started s u)
      (after_cancel cfg job now (mkDB (db_jobs (w_db w) ++ [job]) (db_tasks (w_db w) ++ ts))))) =
    map job_identity (db_jobs (w_db w)) ++ [job_identity job]).
  { cbn [db_jobs update_jobs]. rewrite update_where_map_inv by done. rewrite after_cancel_identity. cbn [db_jobs].
    apply map_app. }
  split; [exact Hid|]. destruct (one_more_job name _ _ _ Hid Hnew Huj) as [Hu Hl]. split; [exact Hu|]. lia.
Qed.

Lemma tasks_for_sequences job status i ts :
  tasks_for job status i data ts -> map Task_SequenceNumber ts = seqZ i (Z.of_nat (length data)).
Proof.
  clear Htr Hne Hdata Hfuel. revert i ts. induction data as [|d l IH]; intros i [|t ts]; try done. cbn [tasks_for].
  intros [Ht Hts]. cbn [map length]. rewrite (task_for_sequence _ _ _ _ _ Ht), (IH _ _ Hts), (seqZ_cons i (Z.of_nat (S (length l)))) by lia.
  repeat f_equal; lia.
Qed.

(** The tables a run ends with, in full. *)
Lemma pipeline_ends :
  exists w' job, pipeline jobs cfg E plan fuel name ref metadata w = Some w' /\
    (job ∈ db_jobs (w_db w') /\ Job_ID job ∉ map Job_ID (db_jobs (w_db w))) /\
    (Job_Name job = name /\ Job_UniqueReferenceID job = Some ref /\ Job_ParentJobID job = None /\ job_fits job = true) /\
    Forall2 (fun d t => item_row job (retries_of cfg) d t /\ settled_as E x d t) data (tasks_of (Job_ID job) (w_db w')) /\
    Job_Status job = job_outcome (tasks_of (Job_ID job) (w_db w')) /\
    OnJobFinished name ref (Job_Status job) 0 ∈ w_hooks w' /\
    map job_identity (db_jobs (w_db w')) = map job_identity (db_jobs (w_db w)) ++ [job_identity job] /\
    unique_tasks (w_db w') /\
    map Task_SequenceNumber (tasks_of (Job_ID job) (w_db w')) = seqZ 0 (Z.of_nat (length data)).
Proof.
  unfold pipeline, run_to_end. destruct pipeline_start as (job & ts & s & u & now & Hnew & Hts & [Hfit Hjs] & Htasks & Hdb & Hdr & Hmeas).
  set (w1 := (run E (executeJob jobs name ref metadata) w).1) in *. set (j := row_started s u job) in *.
  destruct (pipeline_start_tables job ts s u now Hnew) as (Hid & Hu1 & Hlen1). rewrite <- Hdb in Hid, Hu1, Hlen1.
  destruct Hnew as [Hnew Hname Href Hjst _ Hret Hparent].
  assert (Job_Name j = name) as Hjn by exact Hname. rewrite <- Hjn in Hlen1.
  destruct (drain_and_check jobs cfg E x HE Hwired Hclock w1 j data (retries_of cfg) plan fuel _ _ Hne
              ltac:(rewrite Hjn; apply Htr) eq_refl Hjs (trigger_publisher _ _ _ _ _ _ _ _ Htr) retries_bound Hdata Hu1 Hlen1 Hdr Hmeas)
    as (w2 & -> & Hrun). rewrite Hjn in Hrun. cbv zeta in Hrun. cbn [mbind option_bind].
  destruct Hrun as ([_ Hids _ _ _ Hord] & Hid' & Hset & (fin & upd & Hin) & Hh & _).
  eexists _, (finalized _ fin upd j). splits; [done|exact Hin|done|done|done|done| | |done| | | |].
  - apply job_outcome_fits, Hfit.
  - eapply Forall2_impl; [exact Hset|]. intros d t [[] ?]. split; [by split|done].
  - change (Job_UniqueReferenceID j) with (Job_UniqueReferenceID job) in Hh. by rewrite Href in Hh.
  - by rewrite Hid', Hid.
  - unfold unique_tasks. cbn [db_tasks] in Hids. rewrite Hids. apply (dr_unique _ _ _ _ _ _ _ _ _ Hdr).
  - etrans; [exact Hord|]. etrans; [exact (f_equal (map Task_SequenceNumber) Htasks)|]. by eapply tasks_for_sequences.
Qed.

Lemma pipeline_lemma :
  exists w' job, pipeline jobs cfg E plan fuel name ref metadata w = Some w' /\
    job ∈ db_jobs (w_db w') /\ (Job_ID job ∉ map Job_ID (db_jobs (w_db w))) /\
    Job_Name job = name /\ Job_UniqueReferenceID job = Some ref /\
    Forall2 (settled_as E x) data (tasks_of (Job_ID job) (w_db w')) /\
    Job_Status job = job_outcome (tasks_of (Job_ID job) (w_db w')) /\
    OnJobFinished name ref (Job_Status job) 0 ∈ w_hooks w'.
Proof.
  destruct pipeline_ends as (w' & job & Hp & [Hin Hnew] & (Hn & Hr & _) & Hset & Hst & Hh & _).
  exists w', job. splits; try done. eapply Forall2_impl; [exact Hset|]. by intros d t [_ ?].
Qed.

Lemma pipeline_calls_lemma :
  (forall d, d ∈ data -> always_succeeds E x d) ->
  exists ps, Forall2 receives data ps /\ pipeline_calls jobs cfg E plan fuel name ref metadata w ≡ₚ map (pair x) ps.
Proof.
  intros Hok. unfold pipeline_calls. destruct pipeline_start as (job & ts & s & u & now & Hnew & Hts & [Hok' Hjs] & Htasks & _ & Hdr & Hmeas).
  pose proof (trigger_publisher _ _ _ _ _ _ _ _ Htr) as Hpub.
  exists (map params_of (List.filter is_pending ts)). split.
  - eapply todo_receives; [|eapply untried_new; [exact Hts|done|done|apply Hok'|]]; [done|]. apply (rows_json _ _ _ Hok'), Hclock.
  - rewrite (calls_to_end_todo jobs cfg E x HE Hwired Hclock _ w (row_started s u job) data (retries_of cfg) plan fuel name
               (map (fun t => Some (Task_ID t)) ts)); try done.
    + unfold todo. by rewrite Htasks.
    + cbn. rewrite (new_row_name _ _ _ _ _ _ _ Hnew). apply Htr.
    + exact retries_bound.
    + eapply idle_executeJob; [exact Hpub|apply Htr].
Qed.
End whole.

(** ** Properties *)

(** C1: a trigger, its consumers and the completion cron together do what the
    program is for.  In a reliable environment, whose clock reads years that JSON can
    carry (also when the retry delay is added), a trigger with a non-empty split,
    followed by the consumption of every message there is, in whatever order [plan] takes
    them and however often it reads one again (at most [turns] turns, and one for each
    redelivery), and one completion check, leaves a new job with one task per item, each COMPLETED
    or MAX_RETRIES_EXHAUSTED as the caller's code behaves on its parameters, and the
    job COMPLETED, FAILED or PARTIAL_FAILED as all, none or some of the tasks
    succeeded; OnJobFinished has reported that status. *)
Theorem pipeline_completes `{UuidText} `{FsmLaws} `{PgtypeLaws} `{FloatConv} `{CodecLaws}
    jobs cfg E x w name ref metadata data plan fuel :
  reliable E -> wired cfg x -> json_clock E cfg ->
  triggerable E jobs (w_db w) name ref metadata cfg data -> switched E cfg true -> data ≠ [] ->
  (forall d, d ∈ data -> exists p, receives d p) ->
  unique_jobs (w_db w) -> unique_tasks (w_db w) ->
  (instances_of name (w_db w) < 200)%nat ->
  turns cfg (length data) + redeliveries plan fuel <= Z.of_nat fuel ->
  exists w' job, pipeline jobs cfg E plan fuel name ref metadata w = Some w' /\
    job ∈ db_jobs (w_db w') /\ (Job_ID job ∉ map Job_ID (db_jobs (w_db w))) /\
    Job_Name job = name /\ Job_UniqueReferenceID job = Some ref /\
    Forall2 (settled_as E x) data (tasks_of (Job_ID job) (w_db w')) /\
    Job_Status job = job_outcome (tasks_of (Job_ID job) (w_db w')) /\
    OnJobFinished name ref (Job_Status job) 0 ∈ w_hooks w'.
Proof. intros. by eapply pipeline_lemma. Qed.

Lemma sample_receives n m k :
  json_encodable (gomap_value (Some m)) = true ->
  json_Unmarshal_map (JDoc (json_norm (gomap_value (Some m)))) = Ok (Some m) ->
  @receives sample_pgtype (mkTaskData n (Some m) k) (Some m).
Proof.
  intros He Hu t Ht. unfold TaskData_Params, JSONB_Set, sample_pgtype in Ht. rewrite He in Ht.
  injection Ht as Ht. unfold Task_GetParams. rewrite <- Ht, decide_False by done.
  change (JSONB_AssignTo _) with (json_Unmarshal_map (JDoc (json_norm (gomap_value (Some m))))). by rewrite Hu.
Qed.

(** The caller's code fails on the items that have a parameter "bad". *)
Definition picky_env (data : list TaskData) : env :=
  sample_env (fun _ => Ok data) (fun _ _ p =>
    match p ≫= lookup "bad"%string with Some _ => Err (ErrForeign "bad") | None => Ok (Some ∅) end).

Lemma receives_inj n m k p :
  @receives sample_pgtype (mkTaskData n (Some m) k) (Some m) -> json_encodable (gomap_value (Some m)) = true ->
  @receives sample_pgtype (mkTaskData n (Some m) k) p -> p = Some m.
Proof.
  intros H1 He H2.
  set (t := mkTask 0 0 "" "" 0 0 0 None (mkJSONB Present (JDoc (json_norm (gomap_value (Some m))))) JSONB_zero
              zero_time zero_time None None None None).
  assert (@JSONB_Set sample_pgtype (TaskData_Params (mkTaskData n (Some m) k)) = Ok (Task_Params t)) as Ht.
  { unfold TaskData_Params, JSONB_Set, sample_pgtype. by rewrite He. }
  pose proof (H1 t Ht). pose proof (H2 t Ht). congruence.
Qed.

Lemma sample_succeeds data n m k :
  @receives sample_pgtype (mkTaskData n (Some m) k) (Some m) -> json_encodable (gomap_value (Some m)) = true ->
  m !! "bad"%string = None ->
  @always_succeeds sample_pgtype (picky_env data) 0%nat (mkTaskData n (Some m) k).
Proof. intros Hr He Hm p c Hp. rewrite (receives_inj _ _ _ _ Hr He Hp). cbn. rewrite Hm. by eexists. Qed.

Lemma sample_fails data n m k :
  @receives sample_pgtype (mkTaskData n (Some m) k) (Some m) -> json_encodable (gomap_value (Some m)) = true ->
  is_Some (m !! "bad"%string) ->
  @always_fails sample_pgtype (picky_env data) 0%nat (mkTaskData n (Some m) k).
Proof. intros Hr He [v Hm] p c Hp. rewrite (receives_inj _ _ _ _ Hr He Hp). cbn. rewrite Hm. by intros [? [=]]. Qed.

Lemma settled_pair `{Pgtype} E x d1 d2 ts :
  Forall2 (settled_as E x) [d1; d2] ts -> always_succeeds E x d1 -> always_fails E x d2 ->
  map Task_Status ts = [TaskStatusCompleted; TaskStatusMaxRetriesExhausted].
Proof.
  intros Hset H1 H2. inversion Hset as [|? t1 ? l1 [_ Hok _] Hset2]; subst.
  inversion Hset2 as [|? t2 ? l2 [_ _ Hbad] Hset3]; subst. inversion Hset3; subst. cbn. by rewrite Hok, Hbad.
Qed.

Lemma outcome_pair ts :
  map Task_Status ts = [TaskStatusCompleted; TaskStatusMaxRetriesExhausted] -> job_outcome ts = JobStatusPartialFailed.
Proof.
  destruct ts as [|t1 [|t2 []]]; try discriminate. intros [= H1 H2].
  unfold job_outcome, task_status_in. cbn [forallb existsb]. by rewrite H1, H2.
Qed.

(** Every other message is read a second time. *)
Definition sample_plan : delivery_plan := mkPlan (fun n => n) Nat.even.

Theorem pipeline_completes_witness :
  let data := [mkTaskData "a" (Some ∅) "k"; mkTaskData "b" (Some {["bad"%string := VBool true]}) ""] in
  let w := sample_world [sample_job 1 JobStatusCompleted] [sample_row 2 1 TaskStatusCompleted 1] in
  exists w' job, @pipeline sample_uuid_text sample_fsm sample_pgtype sample_float_conv sample_codec sample_jobs sample_cfg
                   (picky_env data) sample_plan 16 "job" "new" None w = Some w' /\
    job ∈ db_jobs (w_db w') /\ Job_ID job ≠ 1%N /\
    map Task_Status (tasks_of (Job_ID job) (w_db w')) = [TaskStatusCompleted; TaskStatusMaxRetriesExhausted] /\
    Job_Status job = JobStatusPartialFailed /\
    OnJobFinished "job" "new" JobStatusPartialFailed 0 ∈ w_hooks w'.
Proof.
  intros data w.
  assert (@triggerable sample_pgtype sample_codec (picky_env data) sample_jobs (w_db w) "job" "new" None
            sample_cfg data) as Htr.
  { apply sample_triggerable; [| |done|repeat constructor; by eexists|by repeat constructor|done].
    - intros j ->%list_elem_of_singleton. done.
    - intros t ->%list_elem_of_singleton. done. }
  assert (Hr1 : @receives sample_pgtype (mkTaskData "a" (Some ∅) "k") (Some ∅)) by (by apply sample_receives).
  assert (Hr2 : @receives sample_pgtype (mkTaskData "b" (Some {["bad"%string := VBool true]}) "")
                  (Some {["bad"%string := VBool true]})) by (by apply sample_receives).
  assert (wired sample_cfg 0%nat) as Hw by (by split).
  assert (json_clock (picky_env data) sample_cfg) as He by apply sample_env_clock.
  assert (forall d, d ∈ data -> exists p, @receives sample_pgtype d p) as Hrec.
  { intros d Hd. apply list_elem_of_In in Hd as [<-|[<-|[]]]; eauto. }
  assert (unique_jobs (w_db w) /\ unique_tasks (w_db w)) as [Hu1 Hu2].
  { split; apply NoDup_singleton. }
  destruct (@pipeline_completes sample_uuid_text sample_fsm sample_fsm_laws sample_pgtype sample_pgtype_laws sample_float_conv
              sample_codec sample_codec_laws sample_jobs sample_cfg (picky_env data) 0%nat w "job" "new" None data sample_plan 16
              (sample_env_reliable _ _) Hw He Htr eq_refl ltac:(discriminate) Hrec Hu1 Hu2
              ltac:(vm_compute; lia) ltac:(vm_compute; discriminate))
    as (w' & job & Hp & Hin & Hnew & _ & _ & Hset & Hst & Hh).
  assert (Hs : map Task_Status (tasks_of (Job_ID job) (w_db w')) = [TaskStatusCompleted; TaskStatusMaxRetriesExhausted]).
  { eapply settled_pair; [exact Hset|eapply sample_succeeds; [exact Hr1|done|done]|eapply sample_fails; [exact Hr2|done|by eexists]]. }
  assert (Hout : job_outcome (tasks_of (Job_ID job) (w_db w')) = JobStatusPartialFailed).
  { by apply outcome_pair. }
  rewrite Hout in Hst. rewrite Hst in Hh. exists w', job. splits; try assumption.
  intros Heq. apply Hnew. change (Job_ID job ∈ [1%N]). rewrite Heq. left.
Defined.

(** C13: while the caller's code succeeds (and the clock reads years that JSON can carry,
    so that every task has a message), each item is executed exactly once: the calls
    that a trigger, the consumption of its messages in any order and with any redeliveries,
    and the completion check make of the task executor are, up to their order, one per item of the split, each
    with the item's parameters as the JSON column gives them back. *)
Theorem pipeline_runs_once `{UuidText} `{FsmLaws} `{PgtypeLaws} `{FloatConv} `{CodecLaws}
    jobs cfg E x w name ref metadata data plan fuel :
  reliable E -> wired cfg x -> json_clock E cfg ->
  triggerable E jobs (w_db w) name ref metadata cfg data -> switched E cfg true -> data ≠ [] ->
  (forall d, d ∈ data -> exists p, receives d p) ->
  unique_tasks (w_db w) ->
  turns cfg (length data) + redeliveries plan fuel <= Z.of_nat fuel ->
  (forall d, d ∈ data -> always_succeeds E x d) ->
  exists ps, Forall2 receives data ps /\
    pipeline_calls jobs cfg E plan fuel name ref metadata w ≡ₚ map (pair x) ps.
Proof. intros. by eapply pipeline_calls_lemma. Qed.

Theorem pipeline_runs_once_witness :
  let data := [mkTaskData "a" (Some ∅) "k"; mkTaskData "b" (Some {["good"%string := VBool true]}) ""] in
  let w := sample_world [sample_job 1 JobStatusCompleted] [sample_row 2 1 TaskStatusCompleted 1] in
  @pipeline_calls sample_uuid_text sample_fsm sample_pgtype sample_float_conv sample_codec sample_jobs sample_cfg
    (picky_env data) sample_plan 16 "job" "new" None w ≡ₚ
  [(0%nat, Some ∅); (0%nat, Some {["good"%string := VBool true]})].
Proof.
  intros data w.
  assert (@triggerable sample_pgtype sample_codec (picky_env data) sample_jobs (w_db w) "job" "new" None
            sample_cfg data) as Htr.
  { apply sample_triggerable; [| |done|repeat constructor; by eexists|by repeat constructor|done].
    - intros j ->%list_elem_of_singleton. done.
    - intros t ->%list_elem_of_singleton. done. }
  assert (Hr1 : @receives sample_pgtype (mkTaskData "a" (Some ∅) "k") (Some ∅)) by (by apply sample_receives).
  assert (Hr2 : @receives sample_pgtype (mkTaskData "b" (Some {["good"%string := VBool true]}) "")
                  (Some {["good"%string := VBool true]})) by (by apply sample_receives).
  assert (forall d, d ∈ data -> exists p, @receives sample_pgtype d p) as Hrec.
  { intros d Hd. apply list_elem_of_In in Hd as [<-|[<-|[]]]; eauto. }
  assert (forall d, d ∈ data -> @always_succeeds sample_pgtype (picky_env data) 0%nat d) as Hok.
  { intros d Hd. apply list_elem_of_In in Hd as [<-|[<-|[]]]; (eapply sample_succeeds; [eassumption|done|done]). }
  destruct (@pipeline_runs_once sample_uuid_text sample_fsm sample_fsm_laws sample_pgtype sample_pgtype_laws sample_float_conv
              sample_codec sample_codec_laws sample_jobs sample_cfg (picky_env data) 0%nat w "job" "new" None data sample_plan 16
              (sample_env_reliable _ _) ltac:(by split) (sample_env_clock _ _) Htr eq_refl ltac:(discriminate) Hrec
              (NoDup_singleton _) ltac:(vm_compute; discriminate) Hok)
    as (ps & Hps & Hcalls).
  etrans; [exact Hcalls|].
  inversion Hps as [|? p1 ? ps' H1 Hps']; subst. inversion Hps' as [|? p2 ? ps'' H2 Hnil]; subst. inversion Hnil; subst.
  by rewrite (receives_inj _ _ _ _ Hr1 eq_refl H1), (receives_inj _ _ _ _ Hr2 eq_refl H2).
Defined.
