(* ===== verification/Redelivery.v ===== *)
(** * Redelivery: messages that arrive after their job is over

    Kafka delivers at least once: a consumer that takes over a partition reads again
    what its predecessor did not commit, whole batches of messages of a job that has
    ended meanwhile included.  What the consumption of any such sequence does. *)
From S2P Require Import Prelude Go Domain Effects Repository JobConfig Transport Instances Lifecycle.
From S2P Require Import Finalizer TriggerFailure JobExecutor TaskExecutor Trace Delivery Pipeline.

Section consumption.
  Context `{UuidText} `{Fsm} `{Pgtype} `{Codec}.
  Context (jobs : gmap string JobConfig) (cfg : JobConfig) (E : env).

(** The messages, one after the other, and the calls of the executors meanwhile. *)
Fixpoint consume_messages (msgs : list Message) (w : World) : World :=
  match msgs with
  | [] => w
  | m :: msgs => consume_messages msgs (consume_message jobs cfg E m w)
  end.

Fixpoint consumed_calls (msgs : list Message) (w : World) : list (handle * gomap) :=
  match msgs with
  | [] => []
  | m :: msgs => consume_calls jobs cfg E m w ++ consumed_calls msgs (consume_message jobs cfg E m w)
  end.
End consumption.

(** ** Specification *)

(** The rows of [ids] take the status [s]; the others stay. *)
Definition marked (s : string) (ids : list uuid) (t t' : Task) : Prop :=
  if bool_decide (Task_ID t ∈ ids) then exists upd, t' = Task_UpdateStatus s upd t else t' = t.

Definition is_skipped (h : hook_call) : bool :=
  match h with OnTaskFinished _ _ status _ => bool_decide (status = "skipped"%string) | _ => false end.

(** ** Lemmas *)
Lemma marked_trans s i ids a b c :
  Task_ID b = Task_ID a -> marked s [i] a b -> marked s ids b c -> marked s (i :: ids) a c.
Proof.
  unfold marked. intros ->. pose proof (list_elem_of_singleton (Task_ID a) i) as H1.
  pose proof (elem_of_cons ids (Task_ID a) i) as H2. repeat case_bool_decide; try tauto.
  - intros [u ->] [u' ->]. by exists u'.
  - intros [u ->] ->. by exists u.
  - by intros ->.
  - by intros -> ->.
Qed.

Lemma marked_id s ids a b : marked s ids a b -> Task_ID b = Task_ID a.
Proof. unfold marked. case_bool_decide; [by intros [? ->]|by intros ->]. Qed.

Lemma marked_update s i upd ts :
  Forall2 (marked s [i]) ts (update_where (task_has_id i) (Task_UpdateStatus s upd) ts).
Proof.
  induction ts as [|t ts IH]; [constructor|]. cbn. constructor; [|exact IH]. unfold marked, task_has_id.
  case_bool_decide as Hi.
  - apply list_elem_of_singleton in Hi. rewrite Hi, N.eqb_refl. by eexists.
  - rewrite list_elem_of_singleton in Hi. by rewrite (proj2 (N.eqb_neq _ _) Hi).
Qed.

Lemma Forall2_marked s i ids a b c :
  Forall2 (marked s [i]) a b -> Forall2 (marked s ids) b c -> Forall2 (marked s (i :: ids)) a c.
Proof.
  intros Hab. revert c. induction Hab as [|x y a b Hxy Hab IH]; intros c Hbc; inversion Hbc; subst; constructor; [|by apply IH].
  eapply marked_trans; [by eapply marked_id|done|done].
Qed.

Section over.
Context `{UuidText} `{FsmLaws} `{Pgtype} `{CodecLaws}.
Context (jobs : gmap string JobConfig) (cfg : JobConfig) (E : env) (j : Job).
Context (HE : reliable E) (Hcfg : jobs !! Job_Name j = Some cfg).
Context (Hover : Job_IsExecutionPending j = false).

(** A task row of the job. *)
Definition row_of (db : DB) (i : uuid) : Prop :=
  exists t, t ∈ db_tasks db /\ Task_ID t = i /\ Task_JobID t = Job_ID j /\ Task_CreatedAt t = Job_CreatedAt j.

Lemma late_message w m i :
  List.filter (job_has_id (Job_ID j)) (db_jobs (w_db w)) = [j] -> unique_tasks (w_db w) ->
  message_for cfg m (Some i) -> row_of (w_db w) i ->
  exists upd d,
    let w' := consume_message jobs cfg E m w in
    w_db w' = update_tasks (task_has_id i) (Task_UpdateStatus (Job_Status j) upd) (w_db w) /\
    w_kafka w' = w_kafka w /\
    w_hooks w' = w_hooks w ++ [OnTaskFinished (Job_Name j) (uuid_String i) "skipped" d] /\
    consume_calls jobs cfg E m w = [].
Proof.
  intros Hj Hu Hm (t & Ht & Hid & Hown & Hcr). pose proof Hm as (b & Hread & _).
  destruct (consume_runs jobs cfg E w m i b Hread Hm) as (payload & w1 & (t0 & Hdec & Hid0) & Hdb1 & Hk1 & Hh1 & Hrun & Hcalls).
  assert (Hdel : delivered jobs (w_db w1) payload t j cfg).
  { split; [exists t0; split; [done|congruence]| |done]. rewrite Hdb1. by apply loads_row. }
  unfold consume_message, consume_calls. rewrite Hread, Hrun, Hcalls.
  rewrite (executions_load jobs E w1 payload t j cfg HE Hdel), Hover. cbn [negb orb].
  destruct (run_executeTask_over jobs E w1 payload t j cfg HE Hdel Hover) as (upd & d & n & ->).
  exists upd, d. cbn. by rewrite Hdb1, Hk1, Hh1, Hid.
Qed.

Lemma row_of_marked db db' i ids s :
  Forall2 (marked s ids) (db_tasks db) (db_tasks db') -> row_of db i -> row_of db' i.
Proof.
  intros Hf (t & Ht & Hid & Hown & Hcr). apply list_elem_of_lookup in Ht as [k Hk].
  destruct (Forall2_lookup_l _ _ _ _ _ Hf Hk) as (t' & Hk' & Hm). exists t'.
  split; [by apply list_elem_of_lookup; exists k|]. unfold marked in Hm. case_bool_decide; [destruct Hm as [u ->]|subst t']; done.
Qed.

Lemma late_messages w msgs ids :
  List.filter (job_has_id (Job_ID j)) (db_jobs (w_db w)) = [j] -> unique_tasks (w_db w) ->
  Forall2 (message_for cfg) msgs (map Some ids) -> Forall (row_of (w_db w)) ids ->
  let w' := consume_messages jobs cfg E msgs w in
  consumed_calls jobs cfg E msgs w = [] /\
  db_jobs (w_db w') = db_jobs (w_db w) /\ w_kafka w' = w_kafka w /\
  Forall2 (marked (Job_Status j) ids) (db_tasks (w_db w)) (db_tasks (w_db w')) /\
  exists hs, w_hooks w' = w_hooks w ++ hs /\ Forall (fun h => is_skipped h = true) hs.
Proof.
  revert w ids. induction msgs as [|m msgs IH]; intros w ids Hj Hu Hm Hrows; cbv zeta.
  - destruct ids; [|by inversion Hm]. cbn. splits; [done..| |by exists []; rewrite app_nil_r].
    apply Forall_Forall2_diag, Forall_true. intros t. unfold marked. by rewrite bool_decide_eq_false_2 by apply not_elem_of_nil.
  - destruct ids as [|i ids]; [by inversion Hm|]. inversion Hm as [|? ? ? ? Hm1 Hm2]; subst.
    apply Forall_cons in Hrows as [Hi Hrows]. cbn [consume_messages consumed_calls].
    destruct (late_message w m i Hj Hu Hm1 Hi) as (upd & d & Hdb & Hk & Hh & Hc). cbv zeta in *.
    set (w1 := consume_message jobs cfg E m w) in *.
    pose proof (marked_update (Job_Status j) i upd (db_tasks (w_db w))) as Hmark.
    change (update_where _ _ _) with (db_tasks (update_tasks (task_has_id i) (Task_UpdateStatus (Job_Status j) upd) (w_db w))) in Hmark.
    rewrite <- Hdb in Hmark.
    destruct (IH w1 ids) as (Hc' & Hj' & Hk' & Hmark' & hs & Hh' & Hs'); [by rewrite Hdb| |exact Hm2| |].
    { unfold unique_tasks. rewrite Hdb. cbn. by rewrite update_where_map_inv. }
    { eapply Forall_impl; [exact Hrows|]. intros i'. by eapply row_of_marked. }
    splits; [by rewrite Hc, Hc'|rewrite Hj', Hdb; done|by rewrite Hk'|by eapply Forall2_marked|].
    exists (OnTaskFinished (Job_Name j) (uuid_String i) "skipped" d :: hs).
    rewrite Hh', Hh, <- app_assoc. split; [done|by constructor].
Qed.
End over.

(** ** Properties *)

(** C35: messages that arrive after their job is over.  Whatever messages of a job's
    tasks are read again (messages that decode to a task of the job, on the retry topic one
    that can be encoded once more), in whatever order and however often, nothing is run and
    nothing published, no job changes, and the calls of OnTaskFinished all say skipped;
    but the tasks they are about take the status of the job, so in a job that is
    COMPLETED nothing is lost, and in another one what each task came to is. *)
Theorem late_messages_run_nothing `{UuidText} `{FsmLaws} `{Pgtype} `{CodecLaws} jobs cfg E j w msgs ids :
  reliable E -> jobs !! Job_Name j = Some cfg -> Job_IsExecutionPending j = false ->
  List.filter (job_has_id (Job_ID j)) (db_jobs (w_db w)) = [j] -> unique_tasks (w_db w) ->
  Forall2 (message_for cfg) msgs (map Some ids) -> Forall (row_of j (w_db w)) ids ->
  let w' := consume_messages jobs cfg E msgs w in
  consumed_calls jobs cfg E msgs w = [] /\
  db_jobs (w_db w') = db_jobs (w_db w) /\ w_kafka w' = w_kafka w /\
  Forall2 (marked (Job_Status j) ids) (db_tasks (w_db w)) (db_tasks (w_db w')) /\
  exists hs, w_hooks w' = w_hooks w ++ hs /\ Forall (fun h => is_skipped h = true) hs.
Proof. intros HE Hcfg Hover. by apply late_messages. Qed.

(** Both tasks of a PARTIAL_FAILED job, the first one's message twice and a retry of
    the second. *)
Definition late : list Message :=
  [mkMessage "tasks" None sample_message;
   mkMessage "retries" None (N_text 3 (Z_text 0 ""));
   mkMessage "tasks" None sample_message].

Theorem late_messages_run_nothing_witness :
  let j := sample_job 1 JobStatusPartialFailed in
  let w := sample_world [j] [sample_row 2 1 TaskStatusCompleted 1; sample_row 3 1 TaskStatusMaxRetriesExhausted 3] in
  let w' := @consume_messages sample_uuid_text sample_fsm sample_pgtype sample_codec sample_jobs sample_cfg env_ok late w in
  map Task_Status (db_tasks (w_db w')) = [JobStatusPartialFailed; JobStatusPartialFailed] /\
  @consumed_calls sample_uuid_text sample_fsm sample_pgtype sample_codec sample_jobs sample_cfg env_ok late w = [] /\
  db_jobs (w_db w') = [j] /\ Forall2 (marked JobStatusPartialFailed [2; 3; 2]%N) (db_tasks (w_db w)) (db_tasks (w_db w')).
Proof.
  intros j w w'. split; [by vm_compute|].
  assert (unique_tasks (w_db w)) as Hu by (apply (bool_decide_unpack _); by vm_compute).
  assert (Forall2 (@message_for sample_codec sample_cfg) late (map Some [2; 3; 2]%N)) as Hm.
  { assert (@message_for sample_codec sample_cfg (mkMessage "tasks" None sample_message) (Some 2%N)) as H2.
    { exists false. split; [by vm_compute|]. exists (sample_task 2). split; [by vm_compute|done]. }
    repeat apply List.Forall2_cons; [exact H2| |exact H2|apply List.Forall2_nil].
    exists true. split; [by vm_compute|]. exists (mkRetryMessage (sample_task 3) 0 "").
    splits; [by vm_compute|done|by eexists]. }
  assert (Forall (row_of j (w_db w)) [2; 3; 2]%N) as Hr.
  { repeat apply List.Forall_cons; try apply List.Forall_nil; eexists.
    - split; [left|by repeat split].
    - split; [right; left|by repeat split].
    - split; [left|by repeat split]. }
  destruct (@late_messages_run_nothing sample_uuid_text sample_fsm sample_fsm_laws sample_pgtype sample_codec sample_codec_laws
              sample_jobs sample_cfg env_ok j w late [2; 3; 2]%N env_ok_reliable
              sample_jobs_cfg eq_refl eq_refl Hu Hm Hr) as (Hc & Hj & _ & Hmk & _). by splits.
Defined.
