(* ===== verification/Concurrency.v ===== *)
(** * Concurrency: workers, cron handlers and terminations at the same time

    Any number of consumer goroutines, completion checks and terminations run on
    the same database, one call at a time ([pool_step] of [Effects.v]), in any
    order and with any failures of the database and of Kafka.  What each of them
    may do is stated by [wp], a weakest precondition that counts tokens: a program
    earns one token for every RUNNING job it moves to another status and spends one
    for each OnJobFinished it calls.  The theorem about pools is proved once,
    from the [wp] of each thread. *)
From S2P Require Import Prelude Go Domain Effects Repository JobConfig Transport Instances Lifecycle.
From S2P Require Import Finalizer TriggerFailure JobExecutor TaskExecutor.

(** ** What a thread may do to the jobs *)

(** From row [a] to row [b]: same job, never into RUNNING, never out of a
    terminal status. *)
Definition job_step (a b : Job) : Prop :=
  Job_ID b = Job_ID a /\
  (Job_Status b = JobStatusRunning -> Job_Status a = JobStatusRunning) /\
  (Job_IsExecutionPending a = false -> b = a).

Definition jobs_step (db db' : DB) : Prop := Forall2 job_step (db_jobs db) (db_jobs db').

(** The RUNNING jobs of a database. *)
Definition running (db : DB) : nat := length (List.filter Job_IsRunning (db_jobs db)).

Definition is_finish (h : hook_call) : bool :=
  match h with OnJobFinished _ _ _ _ => true | _ => false end.

(** One call with [k] tokens in hand: every answer the environment can give
    must lead to [rec] with the tokens then in hand. *)
Definition wp_eff {X} (e : eff X) (k : nat) : (nat -> X -> Prop) -> Prop :=
  match e in eff X return (nat -> X -> Prop) -> Prop with
  | ENow => fun rec => forall t, rec k t
  | ENewUUID => fun rec => forall u, rec k u
  | ESql s => fun rec =>
      (forall now db, jobs_step db (s now db).1 /\
         rec (k + (running db - running (s now db).1))%nat (s now db).2) /\
      forall err, rec k (Err err)
  | EWriteMessages _ => fun rec => forall r, rec k r
  | ESleep _ => fun rec => rec k ()
  | EHook h => fun rec =>
      if is_finish h then exists k', k = S k' /\ rec k' () else rec k ()
  | EJobExecute _ _ => fun rec => forall r, rec k r
  | ETaskExecute _ _ => fun rec => forall r, rec k r
  | EEnabled _ => fun rec => forall b, rec k b
  end.

Fixpoint wp {R} (Q : nat -> R -> Prop) (p : prog R) (k : nat) : Prop :=
  match p with
  | Ret r => Q k r
  | Vis e kont => wp_eff e k (fun k' x => wp Q (kont x) k')
  end.

(** A program that earns and spends nothing. *)
Definition quiet {R} (p : prog R) : Prop :=
  forall (Q : nat -> R -> Prop) k, (forall r, Q k r) -> wp Q p k.

Definition quiet_publisher (p : Publisher) : Prop :=
  (forall tasks topic, quiet (PublishTasks p tasks topic)) /\
  (forall tasks topic d, quiet (PublishRetryTasks p tasks topic d)).

(** The caller's publishers do not touch the two tables nor call the hooks. *)
Definition quiet_publishers (jobs : gmap string JobConfig) : Prop :=
  forall name cfg p, jobs !! name = Some cfg -> Cfg_Publisher cfg = Some p -> quiet_publisher p.

(** The threads of a running service, triggers apart. *)
Inductive worker `{UuidText} `{Fsm} `{Pgtype} `{Codec} (jobs : gmap string JobConfig) : prog unit -> Prop :=
| WorkerFinalize id : worker jobs (_ ← maybeFinalizeJob jobs id; Ret ())
| WorkerCheck name : worker jobs (_ ← checkJobCompletions jobs name; Ret ())
| WorkerTerminate id : worker jobs (_ ← TerminateJob id; Ret ())
| WorkerCancel name id : worker jobs (_ ← CancelPreviousJobs name id; Ret ())
| WorkerConsume isRetry msg : worker jobs (_ ← consume (executeTask jobs) isRetry msg; Ret ()).

(** ** The logic *)

Lemma wp_eff_mono {X} (e : eff X) k (P Q : nat -> X -> Prop) :
  (forall k x, P k x -> Q k x) -> wp_eff e k P -> wp_eff e k Q.
Proof.
  intros HPQ. destruct e; cbn; try (by eauto).
  - intros [Hs Herr]. split; [|by eauto]. intros now db. destruct (Hs now db); eauto.
  - case_match; [|by eauto]. intros (k' & ? & ?). eauto.
Qed.

Lemma wp_mono {R} (P Q : nat -> R -> Prop) p k :
  (forall k r, P k r -> Q k r) -> wp P p k -> wp Q p k.
Proof.
  intros HPQ. revert k. induction p as [r|X e kont IH]; intros k; cbn; [apply HPQ|].
  apply wp_eff_mono. intros k' x. apply IH.
Qed.

Lemma wp_bind {A B} (Q : nat -> B -> Prop) (p : prog A) (f : A -> prog B) k :
  wp (fun k' a => wp Q (f a) k') p k -> wp Q (p ≫= f) k.
Proof.
  revert k. induction p as [a|X e kont IH]; intros k; [done|]. cbn.
  apply wp_eff_mono. intros k' x. apply IH.
Qed.

Lemma job_step_refl j : job_step j j.
Proof. done. Qed.

Lemma jobs_step_refl db : jobs_step db db.
Proof. apply Forall_Forall2_diag, Forall_true. apply job_step_refl. Qed.

Lemma jobs_step_trans a b c : jobs_step a b -> jobs_step b c -> jobs_step a c.
Proof.
  unfold jobs_step. intros Hab. revert c. generalize (db_jobs a), (db_jobs b), Hab. clear.
  intros la lb Hab c. generalize (db_jobs c). clear c.
  induction Hab as [|x y la lb Hxy Hab IH]; intros lc Hbc; inversion Hbc as [|? z ? lc' Hyz Hrest]; subst.
  { constructor. }
  constructor; [|by apply IH].
  destruct Hxy as (Hi & Hr & Ht), Hyz as (Hi' & Hr' & Ht'). unfold job_step; splits; [congruence|by eauto|].
  intros Hx. rewrite (Ht Hx) in *. by apply Ht'.
Qed.

Lemma jobs_step_running db db' : jobs_step db db' -> (running db' <= running db)%nat.
Proof.
  unfold jobs_step, running. generalize (db_jobs db), (db_jobs db'). intros la lb Hab.
  induction Hab as [|x y la lb Hxy Hab IH]; [done|]. cbn. destruct Hxy as (_ & Hr & _).
  destruct (Job_IsRunning y) eqn:Hy, (Job_IsRunning x) eqn:Hx; cbn; try lia.
  apply bool_decide_eq_true in Hy. apply bool_decide_eq_false in Hx. by apply Hr in Hy.
Qed.

(** ** Pools *)

Lemma sum_list_insert ks i k k' :
  ks !! i = Some k -> (sum_list (<[i := k']> ks) + k = sum_list ks + k')%nat.
Proof.
  revert i. induction ks as [|a ks IH]; intros i; [done|].
  destruct i as [|i]; cbn; [intros [= ->]; lia|]. intros Hi. specialize (IH _ Hi).
  unfold insert, list_insert in *. lia.
Qed.

(** The invariant of a pool: what is left to finish and what was called. *)
Definition pool_ok (B : nat) (db0 : DB) (c : pool) : Prop :=
  jobs_step db0 (w_db c.1) /\
  exists ks, Forall2 (fun t k => wp (fun _ _ => True) t k) c.2 ks /\
    (running (w_db c.1) + sum_list ks + length (List.filter is_finish (w_hooks c.1)) <= B)%nat.

Lemma pool_ok_step E B db0 c c' : pool_step E c c' -> pool_ok B db0 c -> pool_ok B db0 c'.
Proof.
  intros [w ts i X e kont Hi] [Hdb (ks & Hks & Hpot)]. cbn in *.
  destruct (Forall2_lookup_l _ _ _ _ _ Hks Hi) as (k & Hk & Hwp). cbn in Hwp.
  assert (Hgo : forall w' x k',
            jobs_step (w_db w) (w_db w') -> wp (fun _ _ => True) (kont x) k' ->
            (running (w_db w') + k' + length (List.filter is_finish (w_hooks w')) <=
             running (w_db w) + k + length (List.filter is_finish (w_hooks w)))%nat ->
            pool_ok B db0 (w', <[i := kont x]> ts)).
  { intros w' x k' Hst Hx Hle. split; [by eapply jobs_step_trans|]. cbn.
    exists (<[i := k']> ks). split; [by apply Forall2_insert|].
    pose proof (sum_list_insert ks i k k' Hk). lia. }
  pose proof (jobs_step_refl (w_db w)) as Hrefl.
  destruct e; cbn in Hwp |- *; try (by eapply Hgo).
  - destruct Hwp as [Hs Herr]. unfold do_sql.
    destruct (Hs (env_now E (w_tick w)) (w_db w)) as [Hst Hok].
    pose proof (jobs_step_running _ _ Hst) as Hrun.
    destruct (s (env_now E (w_tick w)) (w_db w)) as [db' r]. cbn in *.
    destruct (env_sql E (w_tick w)); cbn; eapply Hgo; eauto; cbn; lia.
  - unfold do_write. destruct (env_write E (w_tick w)); cbn; by eapply Hgo.
  - destruct (is_finish h) eqn:Hh.
    + destruct Hwp as (k' & -> & Hx). eapply Hgo; [done|exact Hx|]. cbn.
      rewrite List.filter_app, length_app. cbn. rewrite Hh. cbn. lia.
    + eapply Hgo; [done|exact Hwp|]. cbn. rewrite List.filter_app, length_app. cbn. rewrite Hh. cbn. lia.
Qed.

Lemma pool_ok_steps E B db0 c c' : rtc (pool_step E) c c' -> pool_ok B db0 c -> pool_ok B db0 c'.
Proof. induction 1 as [|x y z Hxy _ IH]; [done|]. intros Hx. eapply IH, pool_ok_step; done. Qed.

Lemma pool_ok_init w ts :
  Forall (fun t => wp (fun _ _ => True) t 0) ts ->
  pool_ok (running (w_db w) + length (List.filter is_finish (w_hooks w))) (w_db w) (w, ts).
Proof.
  intros Hts. split; [apply jobs_step_refl|]. exists (replicate (length ts) 0%nat). cbn. split.
  - induction Hts as [|t ts Ht Hts IH]; cbn; by constructor.
  - assert (sum_list (replicate (length ts) 0%nat) = 0)%nat as ->; [|lia].
    induction (length ts) as [|n IH]; [done|]. cbn. exact IH.
Qed.

(** ** Quiet programs *)

Lemma quiet_Ret {R} (r : R) : quiet (Ret r).
Proof. intros Q k HQ. apply HQ. Qed.

Lemma quiet_bind {A B} (p : prog A) (f : A -> prog B) :
  quiet p -> (forall a, quiet (f a)) -> quiet (p ≫= f).
Proof. intros Hp Hf Q k HQ. apply wp_bind, Hp. intros a. by apply Hf. Qed.

Lemma quiet_try {A B} (p : prog (res A)) wrap (k : A -> prog (res B)) :
  quiet p -> (forall a, quiet (k a)) -> quiet (try p wrap k).
Proof. intros Hp Hk. apply quiet_bind; [done|]. intros [a|e]; [apply Hk|apply quiet_Ret]. Qed.

Lemma quiet_call {X} (e : eff X) :
  (forall (rec : nat -> X -> Prop) k, (forall x, rec k x) -> wp_eff e k rec) -> quiet (call e).
Proof. intros He Q k HQ. cbn. by apply He. Qed.

Lemma quiet_Now : quiet Now.
Proof. apply quiet_call. cbn. auto. Qed.

Lemma quiet_hook h : is_finish h = false -> quiet (hook h).
Proof. intros Hh. apply quiet_call. cbn. rewrite Hh. auto. Qed.

(** A statement that leaves the job table alone. *)
Lemma quiet_sql {X} (s : stmt X) :
  (forall now db, db_jobs (s now db).1 = db_jobs db) -> quiet (sql s).
Proof.
  intros Hs. apply quiet_call. cbn. intros rec k Hrec. split; [|by intros; apply Hrec].
  intros now db. specialize (Hs now db). unfold jobs_step, running. rewrite Hs. split.
  - apply Forall_Forall2_diag, Forall_true, job_step_refl.
  - rewrite Nat.sub_diag, Nat.add_0_r. apply Hrec.
Qed.

Create HintDb quiet.
#[export] Hint Resolve quiet_Ret quiet_Now : quiet.

(** Peel a program call by call. *)
Ltac quiet_step :=
  match goal with
  | |- quiet (Ret _) => apply quiet_Ret
  | |- quiet Now => apply quiet_Now
  | |- quiet (hook _) => by apply quiet_hook
  | |- quiet (Since _) => unfold Since
  | |- quiet (sql _) => apply quiet_sql; intros ? ?; done
  | |- quiet (call _) => apply quiet_call; cbn; intros; auto
  | |- quiet (try _ _ _) => apply quiet_try; [|intros ?]
  | |- quiet (_ ≫= _) => apply quiet_bind; [|intros ?]
  | |- quiet (match ?x with _ => _ end) => destruct x eqn:?
  | |- quiet (let '_ := ?x in _) => destruct x eqn:?
  | |- quiet _ => progress (cbv zeta; auto with quiet)
  end.
Ltac quiet_go := repeat quiet_step.

Lemma quiet_UpdateTask id us : quiet (UpdateTask id us).
Proof. unfold UpdateTask. quiet_go. Qed.
#[export] Hint Resolve quiet_UpdateTask : quiet.

Lemma quiet_Task_Event `{Fsm} action t : quiet (Task_Event action t).
Proof. unfold Task_Event. quiet_go. Qed.
#[export] Hint Resolve quiet_Task_Event : quiet.

Lemma quiet_taskFinishUpdates t us : quiet (taskFinishUpdates t us).
Proof. unfold taskFinishUpdates. quiet_go. Qed.
#[export] Hint Resolve quiet_taskFinishUpdates : quiet.

Lemma quiet_write msgs : quiet (write msgs).
Proof. unfold write. quiet_go. Qed.
#[export] Hint Resolve quiet_write : quiet.

Lemma quiet_NewTaskPublisher `{Codec} : quiet_publisher NewTaskPublisher.
Proof.
  split; cbn; intros tasks topic.
  - apply quiet_write.
  - intros d. unfold publisher_PublishRetryTasks. apply quiet_bind; [|apply quiet_write].
    induction tasks as [|t tasks IH]; cbn [retry_messages]; quiet_go.
Qed.

Section threads.
Context `{UuidText} `{FsmLaws} `{Pgtype} `{Codec} (jobs : gmap string JobConfig).
Context (Hpub : quiet_publishers jobs).

Lemma quiet_cfg_PublishTasks name cfg tasks topic :
  jobs !! name = Some cfg -> quiet (cfg_PublishTasks cfg tasks topic).
Proof.
  intros Hcfg. unfold cfg_PublishTasks. destruct (Cfg_Publisher cfg) eqn:Hp; [|quiet_go].
  by apply (Hpub _ _ _ Hcfg Hp).
Qed.

Lemma quiet_cfg_PublishRetryTasks name cfg tasks topic d :
  jobs !! name = Some cfg -> quiet (cfg_PublishRetryTasks cfg tasks topic d).
Proof.
  intros Hcfg. unfold cfg_PublishRetryTasks. destruct (Cfg_Publisher cfg) eqn:Hp; [|quiet_go].
  by apply (Hpub _ _ _ Hcfg Hp).
Qed.

Lemma quiet_handleTaskFailure name cfg t e :
  jobs !! name = Some cfg -> quiet (handleTaskFailure t e cfg).
Proof.
  intros Hcfg. unfold handleTaskFailure, updateTaskStatus, retryTask, sendTaskToDLQ, Task_Retry, Task_ExhaustRetries.
  quiet_go; by eauto using quiet_cfg_PublishTasks, quiet_cfg_PublishRetryTasks.
Qed.

Lemma quiet_runTask name cfg j t start :
  jobs !! name = Some cfg -> quiet (runTask cfg j t start).
Proof.
  intros Hcfg. pose proof (quiet_handleTaskFailure name cfg) as Hh.
  unfold runTask, startTaskExecution, markStarted, task_finished, failTaskWithResult, cfg_TaskExecute,
    completeTask, Task_Start, Task_Complete. quiet_go; by apply Hh.
Qed.

Lemma quiet_executeTask msg : quiet (executeTask jobs msg).
Proof.
  unfold executeTask, loadJobForTask, FindTaskWithJob, updateTasksStatus, UpdateTasksStatus, task_finished.
  quiet_go; by eapply quiet_runTask.
Qed.

Lemma quiet_consume isRetry msg : quiet (consume (executeTask jobs) isRetry msg).
Proof.
  pose proof quiet_executeTask. unfold consume, processMessage, processRetryMessage. quiet_go; by auto.
Qed.

(** ** Threads that change jobs *)

Lemma jobs_step_update p f db :
  (forall j, p j = true -> job_step j (f j)) -> jobs_step db (update_jobs p f db).
Proof.
  intros Hf. unfold jobs_step, update_jobs, update_where. cbn.
  induction (db_jobs db) as [|j js IH]; cbn; constructor; [|done].
  destruct (p j) eqn:Hp; [by apply Hf|apply job_step_refl].
Qed.

(** A non-terminal row that gets a status other than RUNNING. *)
Lemma job_step_columns us j :
  Job_IsExecutionPending j = true -> Job_Status (set_job_columns us j) ≠ JobStatusRunning ->
  job_step j (set_job_columns us j).
Proof.
  intros Hj Hs. unfold job_step. rewrite Hj. splits; [|done|done]. by apply set_job_columns_key.
Qed.

Lemma job_status_in_pending p j :
  (p && job_status_in [JobStatusPending; JobStatusRunning] j = true) -> Job_IsExecutionPending j = true.
Proof.
  intros [_ Hj]%andb_true_iff. unfold job_status_in, Job_IsExecutionPending in *.
  apply contains_spec in Hj. apply contains_spec.
  apply elem_of_cons in Hj as [->|Hj]; [by right; left|]. apply list_elem_of_singleton in Hj as ->. left.
Qed.

Lemma wp_sql {X} (s : stmt X) (Q : nat -> res X -> Prop) k :
  (forall now db, jobs_step db (s now db).1 /\
     Q (k + (running db - running (s now db).1))%nat (s now db).2) ->
  (forall e, Q k (Err e)) -> wp Q (sql s) k.
Proof. done. Qed.

Lemma wp_TerminateJob id k : wp (fun _ _ => True) (_ ← TerminateJob id; Ret ()) k.
Proof.
  apply wp_bind, wp_sql; [|done]. intros now db. split; [|done].
  unfold terminate_tx. case_match; [|apply jobs_step_refl]. cbn [fst].
  apply (jobs_step_update _ _ db). intros a Ha. apply job_status_in_pending in Ha.
  by apply job_step_columns.
Qed.

Lemma wp_CancelPreviousJobs name id k :
  wp (fun _ _ => True) (_ ← CancelPreviousJobs name id; Ret ()) k.
Proof.
  apply wp_bind, wp_sql; [|done]. intros now db. split; [|done].
  unfold cancel_previous_tx. case_match; [apply jobs_step_refl|]. cbn [fst].
  apply (jobs_step_update _ _ db). intros a Ha. apply job_status_in_pending in Ha.
  by apply job_step_columns.
Qed.

(** Columns that are not the status. *)
Definition not_status (c : job_column) : Prop := match c with JobCol_status _ => False | _ => True end.

Lemma set_job_columns_status us j :
  Forall not_status us -> Job_Status (set_job_columns us j) = Job_Status j.
Proof.
  intros Hus. revert j. unfold set_job_columns. induction Hus as [|u us Hu _ IH]; intros j; [done|].
  cbn. rewrite IH. by destruct u.
Qed.

Lemma wp_jobTimingUpdates (Q : nat -> Job * list job_column -> Prop) job action k :
  (forall job' us, Job_ID job' = Job_ID job -> Forall not_status us ->
     Q k (job', JobCol_status (Job_Status job) :: us)) ->
  wp Q (jobTimingUpdates job action) k.
Proof.
  intros HQ. unfold jobTimingUpdates. apply wp_bind. cbn. intros now.
  repeat case_match; cbn; apply HQ; try done; repeat constructor.
Qed.

(** The compare-and-set: a token when one RUNNING row left. *)
Lemma running_update q f db :
  (forall j, q j = true -> Job_IsRunning j = true /\ Job_IsRunning (f j) = false) ->
  Z.of_nat (running db - running (update_jobs q f db)) = count q (db_jobs db).
Proof.
  intros Hq. unfold running, update_jobs, update_where. cbn.
  assert (forall l, Z.of_nat (length (List.filter Job_IsRunning l)) =
                    Z.of_nat (length (List.filter Job_IsRunning (map (fun j => if q j then f j else j) l)))
                    + count q l) as Heq; [|rewrite Nat2Z.inj_sub; specialize (Heq (db_jobs db));
                                            pose proof (count_nonneg q (db_jobs db)); lia].
  induction l as [|j js IH]; [done|]. rewrite count_cons. cbn.
  destruct (q j) eqn:Hj.
  - destruct (Hq j Hj) as [-> ->]. cbn [length]. lia.
  - destruct (Job_IsRunning j); cbn [length]; lia.
Qed.

Lemma wp_UpdateJobIfStatus (Q : nat -> res bool -> Prop) id st us k :
  st ≠ JobStatusRunning -> Forall not_status us ->
  Q (S k) (Ok true) -> (forall k', Q k' (Ok false)) -> (forall e, Q k (Err e)) ->
  wp Q (UpdateJobIfStatus id JobStatusRunning (JobCol_status st :: us)) k.
Proof.
  intros Hst Hus Hwon Hlost Herr. unfold UpdateJobIfStatus.
  apply wp_bind. cbn [wp Now call wp_eff]. intros now.
  set (q := fun j => job_has_id id j && bool_decide (Job_Status j = JobStatusRunning)).
  set (cols := (JobCol_status st :: us) ++ [JobCol_updated_at now]).
  assert (Hcols : forall j, Job_Status (set_job_columns cols j) = st).
  { intros j. change (set_job_columns cols j) with
      (set_job_columns (us ++ [JobCol_updated_at now]) (Job_set_Status st j)).
    rewrite set_job_columns_status; [done|]. apply Forall_app. by split; [|repeat constructor]. }
  assert (Hq : forall j, q j = true -> Job_IsRunning j = true).
  { intros j. by intros [_ ?]%andb_true_iff. }
  apply wp_bind, wp_sql; [|by intros e; apply Herr]. intros now' db. cbn [exec_update_jobs fst snd].
  split.
  - apply jobs_step_update. intros j Hj. apply job_step_columns; [|by rewrite Hcols].
    specialize (Hq j Hj). apply bool_decide_eq_true in Hq. unfold Job_IsExecutionPending. by rewrite Hq.
  - cbn [wp result_map].
    pose proof (running_update q (set_job_columns cols) db) as Hrun.
    destruct (Z.eqb_spec (count q (db_jobs db)) 1) as [Hone|]; [|apply Hlost].
    rewrite Hone in Hrun. replace (running db - _)%nat with 1%nat; [by rewrite Nat.add_1_r|].
    assert (Z.of_nat (running db - running (update_jobs q (set_job_columns cols) db)) = 1) as ?; [|lia].
    apply Hrun. intros j Hj. split; [by apply Hq|]. apply bool_decide_eq_false_2. by rewrite Hcols.
Qed.

Lemma wp_quiet_sql {X} (s : stmt X) (Q : nat -> res X -> Prop) k :
  (forall now db, db_jobs (s now db).1 = db_jobs db) -> (forall r, Q k r) -> wp Q (sql s) k.
Proof. intros Hs. by apply (quiet_sql s Hs). Qed.

Lemma wp_Job_Event (Q : nat -> Job * option error -> Prop) action dst job k :
  fsm_lookup jobTransitions (Job_Status job) action = Some dst -> dst ≠ Job_Status job ->
  (forall now, Q k (Job_UpdateStatus dst now job, None)) ->
  wp Q (Job_Event action job) k.
Proof.
  intros Hl Hne HQ. unfold Job_Event. rewrite (fsm_Event_enter _ _ _ _ Hl Hne). cbn. apply HQ.
Qed.

Lemma wp_maybeFinalizeJob (Q : nat -> option error -> Prop) id :
  (forall k r, Q k r) -> wp Q (maybeFinalizeJob jobs id) 0.
Proof.
  intros HQ. unfold maybeFinalizeJob, FindJobByID, GetTaskStatusSummary.
  apply wp_bind, wp_quiet_sql; [done|]. intros [job|e]; [|apply HQ].
  unfold Job_IsRunning. case_bool_decide as Hst; [|apply HQ]. cbn [negb].
  apply wp_bind, wp_quiet_sql; [done|]. intros [summary|e]; [|apply HQ].
  destruct (resolveJobTerminalStatusFromSummary summary) as [status|] eqn:Hres; [|apply HQ].
  apply resolve_summary_cases, final_status_action in Hres as (Hne & Hns & Ha & Hl & Hnr).
  rewrite bool_decide_eq_false_2 by done. unfold finalizeRunningJob.
  rewrite applyJobAction_event by (apply contains_spec; right; by apply contains_spec).
  apply wp_bind, wp_bind. eapply wp_Job_Event; [by rewrite Hst|by rewrite Hst|]. intros now.
  apply wp_bind, wp_jobTimingUpdates. intros job' us Hid Hus. cbn [Job_Status Job_UpdateStatus Job_set_UpdatedAt Job_set_Status].
  apply wp_bind, wp_UpdateJobIfStatus; try done; cbn [wp]; [|by intros; apply HQ..].
  case_match; [|apply HQ]. apply wp_bind. cbn. exists 0%nat. split; [done|]. apply HQ.
Qed.

Lemma wp_weaken_tokens {R} (Q : nat -> R -> Prop) p k k' :
  (forall k r, Q k r) -> (k <= k')%nat -> wp Q p k -> wp Q p k'.
Proof.
  intros HQ. revert k k'. induction p as [r|X e kont IH]; intros k k' Hk; cbn; [by intros; apply HQ|].
  destruct e; cbn; try (by eauto).
  - intros [Hs Herr]. split; [|by eauto]. intros now db. destruct (Hs now db) as [? Hrec].
    split; [done|]. eapply IH; [|exact Hrec]. lia.
  - case_match; [|by eauto]. intros (k0 & -> & ?). destruct k' as [|k']; [lia|].
    exists k'. split; [done|]. eapply IH; [|done]. lia.
Qed.

Lemma wp_finalizeAll ids k : wp (fun _ _ => True) (finalizeAll jobs ids) k.
Proof.
  revert k. induction ids as [|id ids IH]; intros k; [done|]. cbn [finalizeAll]. apply wp_bind.
  eapply wp_weaken_tokens; [intros; apply IH|apply Nat.le_0_l|]. apply wp_maybeFinalizeJob. intros. apply IH.
Qed.

Lemma worker_wp t : worker jobs t -> wp (fun _ _ => True) t 0.
Proof.
  intros [id|name|id|name id|isRetry msg].
  - apply wp_bind, wp_maybeFinalizeJob. done.
  - apply wp_bind. unfold checkJobCompletions, FindCompletableJobIDs.
    apply wp_bind, wp_quiet_sql; [done|]. intros [ids|e]; [|done].
    apply wp_bind. eapply wp_mono; [|apply wp_finalizeAll]. done.
  - apply wp_TerminateJob.
  - apply wp_CancelPreviousJobs.
  - apply wp_bind, quiet_consume. done.
Qed.

Lemma workers_ok E w ts w' ts' :
  Forall (worker jobs) ts -> rtc (pool_step E) (w, ts) (w', ts') ->
  pool_ok (running (w_db w) + length (List.filter is_finish (w_hooks w))) (w_db w) (w', ts').
Proof.
  intros Hts Hsteps. eapply pool_ok_steps; [exact Hsteps|]. apply pool_ok_init.
  eapply Forall_impl; [exact Hts|]. apply worker_wp.
Qed.
End threads.

(** ** Sample workers *)

Definition job_statuses (c : pool) : list string := map Job_Status (db_jobs (w_db c.1)).
Definition finish_calls (c : pool) : list hook_call := List.filter is_finish (w_hooks c.1).

Definition failing_worker (isRetry : bool) (msg : Message) : prog unit :=
  _ ← consume (H := sample_codec)
        (@executeTask sample_uuid_text sample_fsm sample_pgtype sample_codec sample_jobs) isRetry msg;
  Ret ().
Definition completion_check (id : uuid) : prog unit :=
  _ ← @maybeFinalizeJob sample_uuid_text sample_fsm sample_jobs id; Ret ().

(** ** Properties *)

(** C10: whatever the interleaving of any number of consumers, completion checks,
    terminations and cancellations, and whatever fails in the database or in Kafka
    on the way, every OnJobFinished they call was paid for by one job that left
    RUNNING: the calls made so far and the jobs still RUNNING never exceed the calls
    made before and the jobs RUNNING before.  In particular a single RUNNING job is
    reported finished at most once. *)
Theorem finish_at_most_once `{UuidText} `{FsmLaws} `{Pgtype} `{Codec} jobs E w ts w' ts' :
  quiet_publishers jobs -> Forall (worker jobs) ts ->
  rtc (pool_step E) (w, ts) (w', ts') ->
  (running (w_db w') + length (List.filter is_finish (w_hooks w')) <=
   running (w_db w) + length (List.filter is_finish (w_hooks w)))%nat.
Proof.
  intros Hpub Hts Hsteps.
  destruct (workers_ok jobs Hpub E w ts w' ts' Hts Hsteps) as [_ (ks & _ & Hle)]. cbn in Hle. lia.
Qed.

Definition sample_workers : list (prog unit) :=
  [completion_check 1; completion_check 1; failing_worker false (mkMessage "tasks" None sample_message)].

Lemma sample_workers_ok :
  Forall (@worker sample_uuid_text sample_fsm sample_pgtype sample_codec sample_jobs) sample_workers.
Proof. repeat constructor. Qed.

Lemma sample_jobs_quiet : quiet_publishers sample_jobs.
Proof.
  intros name cfg p Hcfg. unfold sample_jobs in Hcfg. apply lookup_singleton_Some in Hcfg as [_ <-].
  cbn. intros [= <-]. apply quiet_NewTaskPublisher.
Qed.

Theorem finish_at_most_once_witness :
  let w := sample_world [sample_job 1 JobStatusRunning] [sample_row 2 1 TaskStatusCompleted 1] in
  let c := run_schedule env_ok [0; 1; 0; 1; 0; 1; 1; 0; 0; 1; 0; 1; 0; 1]%nat (w, sample_workers) in
  length (finish_calls c) = 1%nat /\
  (running (w_db c.1) + length (List.filter is_finish (w_hooks c.1)) <= 1)%nat.
Proof.
  intros w c. split; [by vm_compute|].
  pose proof (run_schedule_sound env_ok [0; 1; 0; 1; 0; 1; 1; 0; 0; 1; 0; 1; 0; 1]%nat (w, sample_workers)) as Hs.
  fold c in Hs. destruct c as [w' ts'].
  exact (@finish_at_most_once sample_uuid_text sample_fsm sample_fsm_laws sample_pgtype sample_codec
           sample_jobs env_ok w sample_workers w' ts' sample_jobs_quiet sample_workers_ok Hs).
Defined.

(** C9: under the same interleavings and failures, no row of the job table is
    added, removed or re-keyed, no job becomes RUNNING, and the row of a job in a
    terminal status never changes again. *)
Theorem terminal_jobs_frozen `{UuidText} `{FsmLaws} `{Pgtype} `{Codec} jobs E w ts w' ts' :
  quiet_publishers jobs -> Forall (worker jobs) ts ->
  rtc (pool_step E) (w, ts) (w', ts') ->
  jobs_step (w_db w) (w_db w').
Proof.
  intros Hpub Hts Hsteps. by apply (workers_ok jobs Hpub E w ts w' ts' Hts Hsteps).
Qed.

Theorem terminal_jobs_frozen_witness :
  let w := sample_world [sample_job 1 JobStatusCompleted; sample_job 5 JobStatusRunning]
             [sample_row 2 1 TaskStatusCompleted 1] in
  let ts := (_ ← TerminateJob 5; Ret ()) :: sample_workers in
  let c := run_schedule env_ok [3; 0; 1; 2; 3; 3; 3; 1; 1; 3; 3]%nat (w, ts) in
  job_statuses c = [JobStatusCompleted; JobStatusCancelled] /\
  jobs_step (w_db w) (w_db c.1).
Proof.
  intros w ts c. split; [by vm_compute|].
  pose proof (run_schedule_sound env_ok [3; 0; 1; 2; 3; 3; 3; 1; 1; 3; 3]%nat (w, ts)) as Hs.
  fold c in Hs. destruct c as [w' ts'].
  refine (@terminal_jobs_frozen sample_uuid_text sample_fsm sample_fsm_laws sample_pgtype sample_codec
           sample_jobs env_ok w ts w' ts' sample_jobs_quiet _ Hs).
  constructor; [constructor|apply sample_workers_ok].
Defined.
