(* ===== verification/Races.v ===== *)
(** * Races: what two workers can do to each other

    The guarantees of [Concurrency] hold in every interleaving; the theorems of this
    file exhibit interleavings the code does not guard against.  Each of them says, for
    every database, configuration and environment of the kind it describes, that the
    threads can be scheduled so: a completion check between the two updates of a failed
    task, a termination between the creation and the start of a job, one message in the
    hands of two consumers. *)
From S2P Require Import Prelude Go Domain Effects Repository WellFormed JobConfig Transport Instances Lifecycle.
From S2P Require Import Finalizer TriggerFailure JobExecutor TaskExecutor Pipeline.

(** ** One thread, call by call *)

Inductive next {R} (E : env) : World * prog R -> World * prog R -> Prop :=
| Next w X (e : eff X) k : next E (w, Vis e k) ((interp E e w).1, k (interp E e w).2).

(** The thread gets from one point of its program to another. *)
Definition goes {R} (E : env) (w : World) (p : prog R) (w' : World) (p' : prog R) : Prop :=
  rtc (next E) (w, p) (w', p').

(** ** Lemmas *)

Lemma goes_refl {R} E w (p : prog R) : goes E w p w p.
Proof. apply rtc_refl. Qed.

Lemma goes_trans {R} E w (p : prog R) w1 p1 w2 p2 : goes E w p w1 p1 -> goes E w1 p1 w2 p2 -> goes E w p w2 p2.
Proof. unfold goes. intros H1 H2. by etrans. Qed.

(** A part of a program goes on where it stands. *)
Lemma goes_ctx {A B} E w (p : prog A) w' p' (f : A -> prog B) :
  goes E w p w' p' -> goes E w (p ≫= f) w' (p' ≫= f).
Proof.
  assert (Haux : forall c c' : World * prog A, rtc (next E) c c' -> goes E c.1 (c.2 ≫= f) c'.1 (c'.2 ≫= f)).
  { clear. intros c c' Hs. induction Hs as [c|c1 c2 c3 Hn _ IH]; [apply goes_refl|].
    destruct Hn as [w0 X e k]. eapply rtc_l; [exact (Next E w0 X e (fun x => k x ≫= f))|exact IH]. }
  intros Hs. exact (Haux _ _ Hs).
Qed.

Lemma goes_run {R} E w (p : prog R) : goes E w p (run E p w).1 (Ret (run E p w).2).
Proof.
  revert w. induction p as [a|X e k IH]; intros w; [apply rtc_refl|]. cbn.
  eapply rtc_l; [exact (Next E w X e k)|]. destruct (interp E e w) as [w1 x]. apply IH.
Qed.

(** The first part of a program runs to its end. *)
Lemma goes_next {A B} E w (p : prog A) (f : A -> prog B) w1 a w' p' :
  run E p w = (w1, a) -> goes E w1 (f a) w' p' -> goes E w (p ≫= f) w' p'.
Proof.
  intros Hp Hf. eapply goes_trans; [apply goes_ctx, goes_run|]. rewrite Hp. exact Hf.
Qed.

Lemma goes_pool E w p w' p' (ts : list (prog unit)) i :
  ts !! i = Some p -> goes E w p w' p' -> rtc (pool_step E) (w, ts) (w', <[i := p']> ts).
Proof.
  assert (Haux : forall c c' : World * prog unit, rtc (next E) c c' ->
    forall ts, ts !! i = Some c.2 -> rtc (pool_step E) (c.1, ts) (c'.1, <[i := c'.2]> ts)).
  { clear. intros c c' Hs. induction Hs as [c|c1 c2 c3 Hn _ IH]; intros ts Hi.
    - rewrite list_insert_id by done. apply rtc_refl.
    - destruct Hn as [w0 X e k]. cbn [fst snd] in *. eapply rtc_l; [exact (PoolStep E w0 ts i X e k Hi)|].
      rewrite <- (list_insert_insert_eq ts i c3.2 (k (interp E e w0).2)). apply IH.
      apply list_lookup_insert_eq. by eapply lookup_lt_Some. }
  intros Hi Hs. exact (Haux _ _ Hs ts Hi).
Qed.

Lemma run_pool E w (p : prog unit) (ts : list (prog unit)) i w' :
  ts !! i = Some p -> (run E p w).1 = w' -> rtc (pool_step E) (w, ts) (w', <[i := Ret ()]> ts).
Proof.
  intros Hi <-. eapply goes_pool; [exact Hi|]. destruct (run E p w).2 eqn:Hr.
  pose proof (goes_run E w p) as Hg. by rewrite Hr in Hg.
Qed.

(** Calls only move the clock forward. *)
Lemma run_tick {R} E (p : prog R) w : (w_tick w <= w_tick (run E p w).1)%nat.
Proof.
  revert w. induction p as [a|X e k IH]; intros w; [done|]. cbn.
  assert (w_tick w <= w_tick (interp E e w).1)%nat as He.
  { destruct e; cbn; try lia; unfold do_sql, do_write; repeat case_match; cbn; lia. }
  destruct (interp E e w) as [w1 x]. cbn in He. specialize (IH x w1). lia.
Qed.

(** ** The threads *)
Section threads.
Context `{UuidText} `{FsmLaws} `{Pgtype} `{Codec} (jobs : gmap string JobConfig).

(** A consumer that works on one message, a completion check of one job. *)
Definition consumer (msg : Message) : prog unit := _ ← consume (executeTask jobs) false msg; Ret ().
Definition checker (id : uuid) : prog unit := _ ← maybeFinalizeJob jobs id; Ret ().

(** What the consumer does after [executeTask]. *)
Definition consumer_rest (p : prog (res unit)) : prog unit :=
  _ ← (r ← p; match r with Ok _ => Ret true | Err _ => Ret false end); Ret ().

Lemma goes_consumer E w msg w' p' :
  goes E w (executeTask jobs (Message_Value msg)) w' p' -> goes E w (consumer msg) w' (consumer_rest p').
Proof. intros Hg. unfold consumer, consumer_rest, consume, processMessage. by do 2 apply goes_ctx. Qed.

Lemma run_consumer_rest E p w : (run E (consumer_rest p) w).1 = (run E p w).1.
Proof. unfold consumer_rest. rewrite !run_bind. by destruct (run E p w).2. Qed.

Lemma checker_run E id w : (run E (checker id) w).1 = (run E (maybeFinalizeJob jobs id) w).1.
Proof. unfold checker. by rewrite run_bind. Qed.

(** The task of the message is loaded, and is to run. *)
Lemma goes_load E w message t j cfg :
  reliable E -> delivered jobs (w_db w) message t j cfg -> Job_IsExecutionPending j = true ->
  contains [TaskStatusPending; TaskStatusRunning] (Task_Status t) = true ->
  goes E w (executeTask jobs message) (tick (tick (tick w)))
    (runTask cfg j (Task_set_Job (Some j) t) (env_now E (w_tick w))).
Proof.
  intros HE [(m & Hm & Hid) Hload Hcfg] Hj Ht. unfold executeTask, parseTaskMessage.
  assert (Hterm : Task_IsTerminal (Task_set_Job (Some j) t) = false).
  { apply contains_spec in Ht. unfold Task_IsTerminal, Task_set_Job; cbn.
    repeat (apply elem_of_cons in Ht as [->|Ht]; [done|]). by apply not_elem_of_nil in Ht. }
  eapply goes_next; [apply run_Now|]. cbv beta. rewrite Hm. unfold try at 1.
  eapply (goes_next _ _ (loadJobForTask m)).
  { unfold loadJobForTask. rewrite run_try, Hid, (run_FindTaskWithJob E (tick w) _ t j) by done. reflexivity. }
  cbn beta iota. rewrite Hcfg, Hj, Hterm. apply goes_refl.
Qed.

(** The columns a row has after the first update of a failed task. *)
Definition marked_failed (f : Task -> Task) : Prop :=
  forall r, Task_ID (f r) = Task_ID r /\ Task_JobID (f r) = Task_JobID r /\ Task_Status (f r) = TaskStatusFailed.

(** The run of a task that fails with attempts left, up to [retryTask]. *)
Lemma goes_failed E w cfg j t x params start :
  reliable E -> contains [TaskStatusPending; TaskStatusRunning] (Task_Status t) = true ->
  Task_GetParams t = Ok params -> Cfg_TaskExecutor cfg = Some x -> Task_Attempt t < Task_MaxRetries t ->
  (forall n, ~ is_Ok (env_task_execute E n x params)) ->
  exists w1 f t1 t2 e,
    goes E w (runTask cfg j t start) w1
      (_ ← retryTask t1 e cfg; _ ← task_finished j t2 TaskStatusFailed start; Ret (Ok ())) /\
    w_db w1 = update_tasks (task_has_id (Task_ID t)) f (w_db w) /\ marked_failed f /\
    Task_Status t1 = TaskStatusFailed /\ Task_ID t1 = Task_ID t /\ Task_Attempt t1 = Task_Attempt t.
Proof.
  intros HE Hst Hp Hx Hatt Hfail. unfold runTask.
  destruct (run_startTaskExecution E w t HE Hst) as (t' & started & upd & n & Hrun & Hsw & _).
  destruct Hsw as (Hid & _ & Ha & Hm & Hpar & _).
  destruct (env_task_execute E (S n) x params) as [out|e] eqn:Hans.
  { exfalso. apply (Hfail (S n)). rewrite Hans. by eexists. }
  do 3 eexists. exists t', e. split.
  { eapply goes_next; [exact Hrun|]. cbv beta iota. eapply goes_next; [apply run_hook|]. cbv beta iota.
    unfold Task_GetParams in *. rewrite Hpar, Hp. unfold cfg_TaskExecute. rewrite Hx.
    eapply goes_next; [rewrite run_call; reflexivity|]. cbn [w_tick]. rewrite Hans.
    apply goes_ctx. unfold handleTaskFailure.
    eapply goes_next; [unfold updateTaskStatus; rewrite run_bind, run_UpdateTask by done; cbn [fst snd]; apply run_Ret|].
    cbn [Task_Attempt Task_MaxRetries Task_set_Status]. rewrite Ha, Hm, (proj2 (Z.ltb_lt _ _) Hatt). apply goes_refl. }
  cbn [w_db w_kafka w_hooks w_tick tick Task_set_Status Task_ID Task_Attempt Task_Status]. rewrite Hid, update_tasks_columns.
  splits; [done| |done|done|done]. intros r. cbn. done.
Qed.
End threads.

(** ** Lemmas: the check *)

Definition settled (t : Task) : Prop := Task_Status t ∈ settledTaskStates.

Lemma settled_ready l : Forall settled l -> is_Some (resolveJobTerminalStatus l).
Proof.
  intros Hall. apply resolve_ready. unfold count. rewrite filter_none; [done|]. intros t Ht.
  rewrite Forall_forall in Hall. apply negb_false_iff, contains_spec, Hall. exact Ht.
Qed.

(** With a FAILED task among them, a job's settled tasks do not make it COMPLETED. *)
Lemma resolve_failed l t :
  Forall settled l -> t ∈ l -> Task_Status t = TaskStatusFailed ->
  exists status, resolveJobTerminalStatus l = Some status /\
    (status = JobStatusFailed \/ status = JobStatusPartialFailed).
Proof.
  intros [status Hres]%settled_ready Hin Hst. exists status. split; [done|].
  unfold resolveJobTerminalStatus in Hres. destruct l as [|t0 l]; [by apply not_elem_of_nil in Hin|].
  rewrite tally_spec in Hres. revert Hres. generalize (t0 :: l) as k, Hin. intros k Hk.
  destruct (_ <? _); [done|]. intros [= <-]. unfold terminal_status.
  set (p := task_status_in [TaskStatusCompleted]).
  assert (count p k < count (fun _ => true) k) as Hlt.
  { rewrite count_all. clear -Hk Hst. induction k as [|y k IH]; [by apply not_elem_of_nil in Hk|].
    rewrite count_cons. cbn [length]. apply elem_of_cons in Hk as [<-|Hk].
    - assert (p t = false) as -> by (subst p; unfold task_status_in; by rewrite Hst).
      pose proof (count_le_length p k). lia.
    - specialize (IH Hk). destruct (p y); lia. }
  rewrite (proj2 (Z.eqb_neq _ 0)) by lia. case_match; [by left|by right].
Qed.

Section race_lemmas.
Context `{UuidText} `{FsmLaws} `{Pgtype} `{Codec} (jobs : gmap string JobConfig).

Lemma loads_owner db id t j : loads db id t j -> Task_JobID t = Job_ID j.
Proof.
  intros [_ Hhead].
  assert (In j (List.filter (job_of_task t) (db_jobs db))) as Hin
    by (destruct (List.filter (job_of_task t) (db_jobs db)); [done|injection Hhead as ->; by left]).
  apply filter_In in Hin as [_ [Hin _]%andb_true_iff]. by apply job_has_id_true in Hin.
Qed.

(** A check that sees the task of [t] marked FAILED and the others settled. *)
Lemma check_sees_failed E db w1 j t f cfg :
  reliable E -> w_db w1 = update_tasks (task_has_id (Task_ID t)) f db -> marked_failed f ->
  List.filter (task_has_id (Task_ID t)) (db_tasks db) = [t] -> Task_JobID t = Job_ID j -> Job_IsRunning j = true ->
  List.filter (job_has_id (Job_ID j)) (db_jobs db) = [j] -> jobs !! Job_Name j = Some cfg ->
  (forall t', t' ∈ tasks_of (Job_ID j) db -> Task_ID t' = Task_ID t \/ settled t') ->
  exists status fin upd,
    let w2 := (run E (checker jobs (Job_ID j)) w1).1 in
    (status = JobStatusFailed \/ status = JobStatusPartialFailed) /\
    w_db w2 = update_jobs (job_has_id (Job_ID j)) (finalized status fin upd) (w_db w1) /\
    w_hooks w2 = w_hooks w1 ++ [OnJobFinished (Job_Name j) (default ""%string (Job_UniqueReferenceID j)) status 0].
Proof.
  intros HE Hdb1 Hf Ht Hown Hrun Hj Hcfg Hothers.
  assert (Htasks1 : tasks_of (Job_ID j) (w_db w1) = update_where (task_has_id (Task_ID t)) f (tasks_of (Job_ID j) db)).
  { rewrite Hdb1. unfold tasks_of. cbn. apply filter_update_comm. intros r. unfold task_of_job. by destruct (Hf r) as (_ & -> & _). }
  assert (Hin1 : f t ∈ tasks_of (Job_ID j) (w_db w1)).
  { rewrite Htasks1. apply update_where_hit; [|by apply task_has_id_true].
    assert (In t [t]) as Hi by by left. rewrite <- Ht in Hi. apply filter_In in Hi as [Hi _].
    apply list_elem_of_In, filter_In. split; [done|]. by apply N.eqb_eq. }
  destruct (resolve_failed (tasks_of (Job_ID j) (w_db w1)) (f t)) as (status & Hres & Hstatus); [|done|apply Hf|].
  { rewrite Htasks1. apply Forall_forall. intros r (y & Hy & ->)%elem_of_update_where. unfold settled.
    destruct (task_has_id (Task_ID t) y) eqn:Hyt.
    - destruct (Hf y) as (_ & _ & ->). by right; left.
    - destruct (Hothers y Hy) as [Heq|?]; [|done]. apply task_has_id_true in Heq. congruence. }
  assert (Hj1 : List.filter (job_has_id (Job_ID j)) (db_jobs (w_db w1)) = [j]) by (by rewrite Hdb1).
  pose proof (maybeFinalizeJob_spec_lemma jobs E w1 j HE Hj1) as Hfin.
  assert (finalization (w_db w1) j = Some status) as Hfz by (unfold finalization; by rewrite Hrun).
  rewrite Hfz, Hcfg in Hfin.
  cbv zeta. rewrite checker_run. destruct (run E (maybeFinalizeJob jobs (Job_ID j)) w1) as [w2 err].
  destruct Hfin as (_ & _ & (fin & upd & Hdb2) & Hh). by exists status, fin, upd.
Qed.

(** The second half of a failed run, in whatever state it finds the tables. *)
Lemma run_retry_rest E w t1 t2 e cfg j start :
  reliable E -> Cfg_Publisher cfg = Some NewTaskPublisher -> Task_Status t1 = TaskStatusFailed ->
  exists result upd,
    w_db (run E (consumer_rest (_ ← retryTask t1 e cfg; _ ← task_finished j t2 TaskStatusFailed start; Ret (Ok ()))) w).1 =
    update_tasks (task_has_id (Task_ID t1))
      (set_task_columns [TaskCol_attempt (wrap64 (Task_Attempt t1 + 1)); TaskCol_result result;
                         TaskCol_status TaskStatusPending; TaskCol_updated_at upd]) (w_db w).
Proof.
  intros HE Hp Hst1. destruct (run_retryTask E w t1 e cfg HE Hp Hst1) as (upd' & now & n & m & _ & _ & _ & _ & _ & Hretry).
  do 2 eexists. rewrite run_consumer_rest, run_bind, Hretry. cbn [fst snd]. rewrite run_bind, run_task_finished, run_Ret. done.
Qed.
End race_lemmas.

(** *** A termination between creation and start *)



Lemma resolve_completed l :
  Forall (fun t => Task_Status t = TaskStatusCompleted) l -> resolveJobTerminalStatus l = Some JobStatusCompleted.
Proof.
  intros Hall. unfold resolveJobTerminalStatus. destruct l as [|t0 l0]; [done|]. rewrite tally_spec.
  revert Hall. generalize (t0 :: l0) as l. intros l Hall. rewrite Forall_forall in Hall.
  assert (count (fun t => negb (task_status_in settledTaskStates t)) l = 0) as ->.
  { apply count_zero_iff. intros t Ht. unfold task_status_in. by rewrite (Hall t Ht). }
  assert (count (task_status_in [TaskStatusCompleted]) l = count (fun _ => true) l) as ->.
  { unfold count. rewrite !filter_all; [done|by apply Forall_true|]. apply Forall_forall. intros t Ht.
    unfold task_status_in. by rewrite (Hall t Ht). }
  rewrite Z.sub_diag. done.
Qed.

Section termination.
Context `{UuidText} `{FsmLaws} `{PgtypeLaws} `{FloatConv} `{Codec} (jobs : gmap string JobConfig).





End termination.

(** *** One message in the hands of two consumers *)

(** What the executor's answer makes of the task's row. *)
Definition word (t : Task) (answer : res gomap) (r : Task) : Prop :=
  match outcome t answer with
  | Completed _ => Task_Status r = TaskStatusCompleted
  | Retried _ => Task_Status r = TaskStatusPending /\ Task_Attempt r = Task_Attempt t + 1
  | Exhausted _ => Task_Status r = TaskStatusMaxRetriesExhausted
  end.

Section second.
Context `{UuidText} `{FsmLaws} `{Pgtype} `{Codec} (jobs : gmap string JobConfig).

Lemma run_handleTaskFailure_word E w t t' started e cfg :
  reliable E -> Cfg_Publisher cfg = Some NewTaskPublisher -> same_work t' t -> Task_StartedAt t' = Some started ->
  min_int64 <= Task_Attempt t -> Task_MaxRetries t <= max_int64 ->
  exists us,
    let w' := (run E (handleTaskFailure t' e cfg) w).1 in
    w_db w' = update_tasks (task_has_id (Task_ID t)) (set_task_columns us) (w_db w) /\ w_hooks w' = w_hooks w /\
    forall vs r, Task_JobID (set_task_columns (vs ++ us) r) = Task_JobID (set_task_columns vs r) /\
      word t (Err e) (set_task_columns (vs ++ us) r).
Proof.
  intros HE Hp (Hid & _ & Hatt & Hm & _) Hs Hmin Hmax. unfold handleTaskFailure, updateTaskStatus, word, outcome.
  rewrite !run_bind, run_UpdateTask by done. cbn [fst snd]. rewrite run_Ret. cbn [fst snd].
  set (t1 := Task_set_Status TaskStatusFailed t').
  replace (Task_Attempt t1) with (Task_Attempt t) by done. replace (Task_MaxRetries t1) with (Task_MaxRetries t) by done.
  destruct (Z.ltb_spec (Task_Attempt t) (Task_MaxRetries t)).
  - match goal with |- context [run E (retryTask t1 e cfg) ?w0] =>
      destruct (run_retryTask E w0 t1 e cfg HE Hp eq_refl) as (upd & now & n & m & _ & _ & _ & _ & _ & ->) end.
    cbn [fst w_db w_hooks w_kafka]. replace (Task_ID t1) with (Task_ID t) by done. rewrite update_tasks_columns. eexists.
    splits; [done|done|]. intros vs r. unfold set_task_columns. rewrite !fold_left_app. cbn. splits; [done|done|].
    rewrite Hatt. apply wrap64_id. lia.
  - match goal with |- context [run E (sendTaskToDLQ t1 e cfg) ?w0] =>
      destruct (run_sendTaskToDLQ E w0 t1 started e cfg HE Hp eq_refl Hs) as (fin & upd & n & m & _ & _ & _ & _ & ->) end.
    cbn [fst w_db w_hooks w_kafka]. replace (Task_ID t1) with (Task_ID t) by done. rewrite update_tasks_columns. eexists.
    splits; [done|done|]. intros vs r. unfold set_task_columns. rewrite !fold_left_app. cbn. by splits.
Qed.

(** Running a task that was loaded earlier, in whatever state it finds the tables. *)
Lemma run_runTask E w cfg j t x params start :
  reliable E -> Cfg_Publisher cfg = Some NewTaskPublisher ->
  contains [TaskStatusPending; TaskStatusRunning] (Task_Status t) = true ->
  Task_GetParams t = Ok params -> Cfg_TaskExecutor cfg = Some x ->
  min_int64 <= Task_Attempt t -> Task_MaxRetries t <= max_int64 ->
  exists n us,
    let w' := (run E (runTask cfg j t start) w).1 in
    (4 + w_tick w <= n <= 5 + w_tick w /\ n < w_tick w')%nat /\
    w_db w' = update_tasks (task_has_id (Task_ID t)) (set_task_columns us) (w_db w) /\
    (forall r, Task_JobID (set_task_columns us r) = Task_JobID r /\
       word t (env_task_execute E n x params) (set_task_columns us r)) /\
    count is_started (w_hooks w') = count is_started (w_hooks w) + 1.
Proof.
  intros HE Hp Hst Hpar Hx Hmin Hmax.
  destruct (run_runTask_start E w cfg j t x params start HE Hst Hpar Hx)
    as (t' & started & upd & n & Hsw & Hst' & Hsa & (a & _ & Ha) & _ & ->).
  set (w1 := mkWorld _ _ _ (S n)). exists n. pose proof (proj1 Hsw) as Hid.
  match goal with |- context [run E ?p w1] => pose proof (run_tick E p w1) as Htick; cbn [w1 w_tick] in Htick end.
  destruct (env_task_execute E n x params) as [out|e] eqn:Hans.
  - destruct (run_completeTask E w1 t' started out HE Hst' Hsa) as (fin & upd2 & n2 & Hc & _).
    rewrite run_bind, Hc in Htick |- *. cbn [fst snd] in Htick |- *.
    rewrite run_bind, run_task_finished, run_Ret in Htick |- *. cbn [fst snd w_db w_hooks w_tick w1] in Htick |- *.
    rewrite Hid, update_tasks_columns. eexists. splits; [lia|lia|lia|done|by intros r; cbn|]. rewrite !count_app, !count_cons. change (count is_started []) with 0. cbn [is_started]. lia.
  - destruct (run_handleTaskFailure_word E w1 t t' started e cfg HE Hp Hsw Hsa Hmin Hmax) as (us & Hdb & Hh & Hw).
    rewrite run_bind in Htick |- *. rewrite run_bind, run_task_finished, run_Ret in Htick |- *.
    cbn [fst snd w_db w_hooks w_tick] in Htick |- *. rewrite Hdb, Hh. cbn [w1 w_db w_hooks]. rewrite update_tasks_columns. eexists.
    splits; [lia|lia|lia|done|intros r; by apply Hw|]. rewrite !count_app, !count_cons. change (count is_started []) with 0. cbn [is_started]. lia.
Qed.

(** A check that sees every task of a job COMPLETED. *)
Lemma check_sees_completed E w j cfg :
  reliable E -> Job_IsRunning j = true -> List.filter (job_has_id (Job_ID j)) (db_jobs (w_db w)) = [j] ->
  jobs !! Job_Name j = Some cfg ->
  Forall (fun t => Task_Status t = TaskStatusCompleted) (tasks_of (Job_ID j) (w_db w)) ->
  let w' := (run E (checker jobs (Job_ID j)) w).1 in
  (exists j', List.filter (job_has_id (Job_ID j)) (db_jobs (w_db w')) = [j'] /\ Job_Status j' = JobStatusCompleted) /\
  w_hooks w' = w_hooks w ++ [OnJobFinished (Job_Name j) (default ""%string (Job_UniqueReferenceID j)) JobStatusCompleted 0].
Proof.
  intros HE Hrun Hj Hcfg Hall. cbv zeta. rewrite checker_run.
  assert (finalization (w_db w) j = Some JobStatusCompleted) as Hfz.
  { unfold finalization. rewrite Hrun. by apply resolve_completed. }
  pose proof (maybeFinalizeJob_spec_lemma jobs E w j HE Hj) as Hfin. rewrite Hfz, Hcfg in Hfin.
  destruct (run E (maybeFinalizeJob jobs (Job_ID j)) w) as [w' err]. destruct Hfin as (_ & _ & (fin & upd & Hdb) & Hh).
  split; [|exact Hh]. exists (finalized JobStatusCompleted fin upd j). split; [|done].
  cbn [fst]. rewrite Hdb. cbn [update_jobs db_jobs]. by rewrite filter_update_hit, Hj.
Qed.

Lemma check_keeps E w j :
  reliable E -> List.filter (job_has_id (Job_ID j)) (db_jobs (w_db w)) = [j] ->
  let w' := (run E (checker jobs (Job_ID j)) w).1 in
  db_tasks (w_db w') = db_tasks (w_db w) /\ count is_started (w_hooks w') = count is_started (w_hooks w).
Proof.
  intros HE Hj. cbv zeta. rewrite checker_run. pose proof (maybeFinalizeJob_spec_lemma jobs E w j HE Hj) as Hfin.
  destruct (run E (maybeFinalizeJob jobs (Job_ID j)) w) as [w' err]. cbn [fst]. destruct Hfin as (_ & _ & Hfin).
  destruct (finalization (w_db w) j); [|by destruct Hfin as [-> ->]]. destruct Hfin as [(fin & upd & ->) ->].
  split; [done|]. rewrite count_app. destruct (jobs !! Job_Name j); rewrite ?count_cons; change (count is_started []) with 0; cbn [is_started]; lia.
Qed.
(** An answer that succeeds completes the last open task of a job. *)
Lemma completed_by_answer db t us j answer :
  is_Ok answer -> (forall r, Task_JobID (set_task_columns us r) = Task_JobID r /\ word t answer (set_task_columns us r)) ->
  (forall t', t' ∈ tasks_of (Job_ID j) db -> Task_ID t' = Task_ID t \/ Task_Status t' = TaskStatusCompleted) ->
  Forall (fun t => Task_Status t = TaskStatusCompleted)
    (tasks_of (Job_ID j) (update_tasks (task_has_id (Task_ID t)) (set_task_columns us) db)).
Proof.
  intros [out ->] Hw Hothers. unfold tasks_of. cbn [update_tasks db_tasks].
  rewrite filter_update_comm by (intros r; unfold task_of_job; by rewrite (proj1 (Hw r))).
  apply Forall_forall. intros r (y & Hy & ->)%elem_of_update_where.
  destruct (task_has_id (Task_ID t) y) eqn:Hyt; [exact (proj2 (Hw y))|].
  destruct (Hothers y Hy) as [Heq|?]; [|done]. apply task_has_id_true in Heq. congruence.
Qed.

(** The message is loaded by two consumers. *)
Lemma both_loaded E w msg t j cfg others :
  reliable E -> delivered jobs (w_db w) (Message_Value msg) t j cfg -> Job_IsExecutionPending j = true ->
  contains [TaskStatusPending; TaskStatusRunning] (Task_Status t) = true ->
  exists s1 s2,
    let rest s := consumer_rest (runTask cfg j (Task_set_Job (Some j) t) s) in
    rtc (pool_step E) (w, consumer jobs msg :: consumer jobs msg :: others)
      (ticks 6 w, rest s1 :: rest s2 :: others).
Proof.
  intros HE Hdel Hpend Hst.
  pose proof (goes_consumer jobs E w msg _ _ (goes_load jobs E w _ t j cfg HE Hdel Hpend Hst)) as Hg1.
  set (wa := tick (tick (tick w))) in Hg1.
  pose proof (goes_consumer jobs E wa msg _ _ (goes_load jobs E wa _ t j cfg HE Hdel Hpend Hst)) as Hg2.
  do 2 eexists. etrans; [exact (goes_pool E w _ wa _ (consumer jobs msg :: consumer jobs msg :: others) 0 eq_refl Hg1)|].
  exact (goes_pool E wa _ _ _ (_ :: consumer jobs msg :: others) 1 eq_refl Hg2).
Qed.
End second.

(** ** Properties *)

(** C24: FAILED is written for a task about to be retried, and counts as settled, so a
    completion check that runs between the two updates of [retryTask] ends the job.  For a
    RUNNING job all of whose tasks are settled but one, which a consumer runs and which
    fails with attempts left, there is such a schedule: the check makes the job FAILED or
    PARTIAL_FAILED and reports it, and the consumer then makes the task PENDING for its
    next attempt, in a job that is over. *)
Theorem premature_finalization `{UuidText} `{FsmLaws} `{Pgtype} `{Codec} jobs E w msg t j cfg x params :
  reliable E -> Cfg_Publisher cfg = Some NewTaskPublisher ->
  runnable jobs (w_db w) (Message_Value msg) t j cfg x params -> Job_IsRunning j = true ->
  List.filter (job_has_id (Job_ID j)) (db_jobs (w_db w)) = [j] ->
  (forall t', t' ∈ tasks_of (Job_ID j) (w_db w) -> Task_ID t' = Task_ID t \/ settled t') ->
  (forall n, ~ is_Ok (env_task_execute E n x params)) ->
  0 <= Task_Attempt t < Task_MaxRetries t -> Task_MaxRetries t <= max_int64 ->
  exists rest w1 w2 w3 status j' t',
    rtc (pool_step E) (w, [consumer jobs msg; checker jobs (Job_ID j)]) (w1, [rest; checker jobs (Job_ID j)]) /\
    rtc (pool_step E) (w1, [rest; checker jobs (Job_ID j)]) (w2, [rest; Ret ()]) /\
    rtc (pool_step E) (w2, [rest; Ret ()]) (w3, [Ret (); Ret ()]) /\
    (status = JobStatusFailed \/ status = JobStatusPartialFailed) /\
    w_hooks w2 = w_hooks w1 ++
      [OnJobFinished (Job_Name j) (default ""%string (Job_UniqueReferenceID j)) status 0] /\
    List.filter (job_has_id (Job_ID j)) (db_jobs (w_db w3)) = [j'] /\ Job_Status j' = status /\
    List.filter (task_has_id (Task_ID t)) (db_tasks (w_db w3)) = [t'] /\ Task_JobID t' = Job_ID j /\
    Task_Status t' = TaskStatusPending /\ Task_Attempt t' = Task_Attempt t + 1 /\ Task_Attempt t' <= Task_MaxRetries t.
Proof.
  intros HE Hp [Hdel Hpend Hst Hpar Hx] Hrun Hj Hothers Hfail Hatt Hmax.
  destruct (goes_failed E (tick (tick (tick w))) cfg j (Task_set_Job (Some j) t) x params (env_now E (w_tick w))
              HE Hst Hpar Hx ltac:(apply Hatt) Hfail) as (w1 & f & t1 & t2 & e & Hgo & Hdb1 & Hf & Hst1 & Hid1 & Ha1).
  cbn [tick w_db Task_ID Task_Attempt Task_set_Job] in Hdb1, Hid1, Ha1.
  pose proof (goes_consumer jobs E w msg _ _ (goes_trans _ _ _ _ _ _ _ (goes_load jobs E w _ t j cfg HE Hdel Hpend Hst) Hgo)) as Hcons.
  destruct (delivered_loads _ _ _ _ _ _ Hdel) as [Ht Hhead]. pose proof (loads_owner _ _ _ _ (conj Ht Hhead)) as Hown.
  destruct (check_sees_failed jobs E (w_db w) w1 j t f cfg HE Hdb1 Hf Ht Hown Hrun Hj (delivered_cfg _ _ _ _ _ _ Hdel) Hothers)
    as (status & fin & upd & Hstatus & Hdb2 & Hh).
  set (w2 := (run E (checker jobs (Job_ID j)) w1).1) in *.
  destruct (run_retry_rest E w2 t1 t2 e cfg j (env_now E (w_tick w)) HE Hp Hst1) as (result & upd' & Hrest).
  rewrite Hid1, Ha1 in Hrest. set (rest := consumer_rest _) in *.
  exists rest, w1, w2, (run E rest w2).1, status, (finalized status fin upd j).
  eexists. splits.
  - exact (goes_pool E w _ w1 rest [consumer jobs msg; checker jobs (Job_ID j)] 0 eq_refl Hcons).
  - exact (run_pool E w1 _ [rest; checker jobs (Job_ID j)] 1 w2 eq_refl eq_refl).
  - exact (run_pool E w2 _ [rest; Ret ()] 0 _ eq_refl eq_refl).
  - done.
  - exact Hh.
  - rewrite Hrest, Hdb2. cbn [update_tasks update_jobs db_jobs]. rewrite Hdb1. cbn [update_tasks db_jobs]. by rewrite filter_update_hit, Hj.
  - done.
  - rewrite Hrest, Hdb2, Hdb1. cbn [update_tasks update_jobs db_tasks].
    rewrite !filter_update_hit, Ht; [done| |]; intros r; unfold task_has_id; [by destruct (Hf r) as (-> & _)|apply task_has_id_columns].
  - cbn. destruct (Hf t) as (_ & -> & _). done.
  - done.
  - cbn. apply wrap64_id. unfold min_int64. lia.
  - cbn. rewrite wrap64_id by (unfold min_int64; lia). lia.
Qed.

Theorem premature_finalization_witness :
  let j := sample_job 1 JobStatusRunning in
  let w := sample_world [j] [sample_row 2 1 TaskStatusPending 1; sample_row 3 1 TaskStatusCompleted 1] in
  let threads := [@consumer sample_uuid_text sample_fsm sample_pgtype sample_codec sample_jobs (mkMessage "tasks" None sample_message);
                  @checker sample_uuid_text sample_fsm sample_jobs 1] in
  exists w3 j' t',
    rtc (pool_step env_failing) (w, threads) (w3, [Ret (); Ret ()]) /\
    List.filter (job_has_id 1) (db_jobs (w_db w3)) = [j'] /\
    (Job_Status j' = JobStatusFailed \/ Job_Status j' = JobStatusPartialFailed) /\
    List.filter (task_has_id 2) (db_tasks (w_db w3)) = [t'] /\ Task_Status t' = TaskStatusPending /\ Task_Attempt t' = 2.
Proof.
  intros j w threads.
  destruct (@premature_finalization sample_uuid_text sample_fsm sample_fsm_laws sample_pgtype sample_codec sample_jobs
              env_failing w (mkMessage "tasks" None sample_message) (sample_row 2 1 TaskStatusPending 1) j sample_cfg 0%nat (Some ∅))
    as (rest & w1 & w2 & w3 & status & j' & t' & H1 & H2 & H3 & Hstatus & _ & Hj & Hst & Ht & _ & Hts & Hta & _).
  - done.
  - done.
  - split; try done. split; [exists (sample_task 2); by vm_compute|done|apply sample_jobs_cfg].
  - done.
  - done.
  - intros t' Ht'. apply list_elem_of_In in Ht' as [<-|[<-|[]]]; [by left|]. right. left.
  - intros n [out Hout]. discriminate.
  - cbn. lia.
  - unfold max_int64. cbn. lia.
  - exists w3, j', t'. splits; [|exact Hj|by rewrite Hst|exact Ht|exact Hts|exact Hta].
    etrans; [exact H1|]. etrans; [exact H2|exact H3].
Defined.



(** C26: [executeTask] looks at the status it loaded and writes without looking again, so a
    message in the hands of two consumers runs its task twice, and the slower one has the
    last word.  There is a schedule in which both load the task, the first runs it to its
    end, the completion check runs, and then the second runs it: the row is what the second
    answer of the executor makes of it, whatever the first made of it and whatever the check
    reported.  With a first answer that succeeds, and the other tasks COMPLETED, the job is
    COMPLETED and reported so; with a second answer that fails, its task is then PENDING or
    MAX_RETRIES_EXHAUSTED.  (The first answer is given within the first twelve calls of this
    schedule, the second after them.) *)
Theorem last_word_wins `{UuidText} `{FsmLaws} `{Pgtype} `{Codec} jobs E w msg t j cfg x params :
  reliable E -> Cfg_Publisher cfg = Some NewTaskPublisher ->
  runnable jobs (w_db w) (Message_Value msg) t j cfg x params -> Job_IsRunning j = true ->
  List.filter (job_has_id (Job_ID j)) (db_jobs (w_db w)) = [j] ->
  (forall t', t' ∈ tasks_of (Job_ID j) (w_db w) -> Task_ID t' = Task_ID t \/ Task_Status t' = TaskStatusCompleted) ->
  min_int64 <= Task_Attempt t -> Task_MaxRetries t <= max_int64 ->
  exists rest1 rest2 w0 w1 w2 w3 n1 n2 r1 r2,
    let check := checker jobs (Job_ID j) in
    let answer n := env_task_execute E n x params in
    let row w r := List.filter (task_has_id (Task_ID t)) (db_tasks (w_db w)) = [r] in
    rtc (pool_step E) (w, [consumer jobs msg; consumer jobs msg; check]) (w0, [rest1; rest2; check]) /\
    w_db w0 = w_db w /\
    rtc (pool_step E) (w0, [rest1; rest2; check]) (w1, [Ret (); rest2; check]) /\
    (row w1 r1 /\ word t (answer n1) r1) /\
    rtc (pool_step E) (w1, [Ret (); rest2; check]) (w2, [Ret (); rest2; Ret ()]) /\
    (is_Ok (answer n1) ->
      (exists j', List.filter (job_has_id (Job_ID j)) (db_jobs (w_db w2)) = [j'] /\ Job_Status j' = JobStatusCompleted) /\
      w_hooks w2 = w_hooks w1 ++
        [OnJobFinished (Job_Name j) (default ""%string (Job_UniqueReferenceID j)) JobStatusCompleted 0]) /\
    rtc (pool_step E) (w2, [Ret (); rest2; Ret ()]) (w3, [Ret (); Ret (); Ret ()]) /\
    (row w3 r2 /\ word t (answer n2) r2) /\ db_jobs (w_db w3) = db_jobs (w_db w2) /\
    (n1 <= 11 + w_tick w < n2)%nat /\ count is_started (w_hooks w3) = count is_started (w_hooks w) + 2.
Proof.
  intros HE Hp [Hdel Hpend Hst Hpar Hx] Hrun Hj Hothers Hmin Hmax.
  destruct (both_loaded jobs E w msg t j cfg [checker jobs (Job_ID j)] HE Hdel Hpend Hst) as (s1 & s2 & Hload).
  cbv zeta in Hload. set (w0 := ticks 6 w) in Hload. set (tj := Task_set_Job (Some j) t) in *.
  destruct (run_runTask E w0 cfg j tj x params s1 HE Hp Hst Hpar Hx Hmin Hmax)
    as (n1 & us1 & Hn1 & Hdb1 & Hw1 & Hc1).
  rewrite <- run_consumer_rest in Hn1, Hdb1, Hc1.
  set (rest1 := consumer_rest (runTask cfg j tj s1)) in *. set (w1 := (run E rest1 w0).1) in *.
  change (w_db w0) with (w_db w) in Hdb1. change (Task_ID tj) with (Task_ID t) in Hdb1.
  destruct (delivered_loads _ _ _ _ _ _ Hdel) as [Ht Hhead]. pose proof (delivered_cfg _ _ _ _ _ _ Hdel) as Hcfg.
  assert (Hrow1 : List.filter (task_has_id (Task_ID t)) (db_tasks (w_db w1)) = [set_task_columns us1 t]).
  { rewrite Hdb1. cbn [update_tasks db_tasks]. rewrite filter_update_hit by (intros; apply task_has_id_columns). by rewrite Ht. }
  assert (Hj1 : List.filter (job_has_id (Job_ID j)) (db_jobs (w_db w1)) = [j]) by (by rewrite Hdb1).
  destruct (check_keeps jobs E w1 j HE Hj1) as [Hkt Hkc]. set (w2 := (run E (checker jobs (Job_ID j)) w1).1) in *.
  destruct (run_runTask E w2 cfg j tj x params s2 HE Hp Hst Hpar Hx Hmin Hmax)
    as (n2 & us2 & Hn2 & Hdb3 & Hw2 & Hc3).
  rewrite <- run_consumer_rest in Hn2, Hdb3, Hc3.
  set (rest2 := consumer_rest (runTask cfg j tj s2)) in *. set (w3 := (run E rest2 w2).1) in *.
  exists rest1, rest2, w0, w1, w2, w3, n1, n2, (set_task_columns us1 t), (set_task_columns us2 (set_task_columns us1 t)).
  cbv zeta. splits.
  - exact Hload.
  - done.
  - exact (run_pool E w0 _ [rest1; rest2; checker jobs (Job_ID j)] 0 w1 eq_refl eq_refl).
  - exact Hrow1.
  - exact (proj2 (Hw1 t)).
  - exact (run_pool E w1 _ [Ret (); rest2; checker jobs (Job_ID j)] 2 w2 eq_refl eq_refl).
  - intros Hok. apply (check_sees_completed jobs E w1 j cfg HE Hrun Hj1 Hcfg). rewrite Hdb1.
    by apply (completed_by_answer (w_db w) t us1 j _ Hok Hw1 Hothers).
  - exact (run_pool E w2 _ [Ret (); rest2; Ret ()] 1 w3 eq_refl eq_refl).
  - rewrite Hdb3. cbn [update_tasks db_tasks]. rewrite filter_update_hit by (intros; apply task_has_id_columns).
    change (Task_ID tj) with (Task_ID t). by rewrite Hkt, Hrow1.
  - exact (proj2 (Hw2 _)).
  - by rewrite Hdb3.
  - cbn in Hn1. lia.
  - pose proof (run_tick E (checker jobs (Job_ID j)) w1) as Htick. fold w2 in Htick. cbn in Hn1. lia.
  - rewrite Hc3, Hkc, Hc1. cbn [w0 ticks w_hooks]. lia.
Qed.

(** The first run of the executor succeeds, a later one fails. *)
Definition env_once : env :=
  mkEnv (env_now env_ok) (env_uuid env_ok) (fun _ => SqlDone) (fun _ => WriteDone) (fun _ _ _ => Ok [])
    (fun n _ _ => if (n <=? 11)%nat then Ok (Some ∅) else Err (ErrForeign "boom")) (fun _ _ => true).

Theorem last_word_wins_witness :
  let j := sample_job 1 JobStatusRunning in
  let w := sample_world [j] [sample_row 2 1 TaskStatusPending 1; sample_row 3 1 TaskStatusCompleted 1] in
  let reads := @consumer sample_uuid_text sample_fsm sample_pgtype sample_codec sample_jobs (mkMessage "tasks" None sample_message) in
  let check := @checker sample_uuid_text sample_fsm sample_jobs 1 in
  exists w1 w2 w3 r1 r2 j2 rest2,
    rtc (pool_step env_once) (w, [reads; reads; check]) (w1, [Ret (); rest2; check]) /\
    List.filter (task_has_id 2) (db_tasks (w_db w1)) = [r1] /\ Task_Status r1 = TaskStatusCompleted /\
    rtc (pool_step env_once) (w1, [Ret (); rest2; check]) (w2, [Ret (); rest2; Ret ()]) /\
    List.filter (job_has_id 1) (db_jobs (w_db w2)) = [j2] /\ Job_Status j2 = JobStatusCompleted /\
    w_hooks w2 = w_hooks w1 ++ [OnJobFinished "job" "ref" JobStatusCompleted 0] /\
    rtc (pool_step env_once) (w2, [Ret (); rest2; Ret ()]) (w3, [Ret (); Ret (); Ret ()]) /\
    List.filter (task_has_id 2) (db_tasks (w_db w3)) = [r2] /\ Task_Status r2 = TaskStatusPending /\ Task_Attempt r2 = 2.
Proof.
  intros j w reads check.
  destruct (@last_word_wins sample_uuid_text sample_fsm sample_fsm_laws sample_pgtype sample_codec sample_jobs
              env_once w (mkMessage "tasks" None sample_message) (sample_row 2 1 TaskStatusPending 1) j sample_cfg 0%nat (Some ∅))
    as (rest1 & rest2 & w0 & w1 & w2 & w3 & n1 & n2 & r1 & r2 & H0 & _ & H1 & [Hr1 Hw1] & H2 & Hok & H3 & [Hr2 Hw2] & _ & Hn & _).
  - done.
  - done.
  - split; try done. split; [exists (sample_task 2); by vm_compute|done|apply sample_jobs_cfg].
  - done.
  - done.
  - intros t' Ht'. apply list_elem_of_In in Ht' as [<-|[<-|[]]]; [by left|by right].
  - unfold min_int64. cbn. lia.
  - unfold max_int64. cbn. lia.
  - assert ((n1 <=? 11)%nat = true) as E1 by (apply Nat.leb_le; cbn in Hn; lia).
    assert ((n2 <=? 11)%nat = false) as E2 by (apply Nat.leb_gt; cbn in Hn; lia).
    cbn [env_once env_task_execute] in Hok, Hw1, Hw2. rewrite E1 in Hok, Hw1. rewrite E2 in Hw2.
    destruct Hok as [(j2 & Hj2 & Hst2) Hh]; [by eexists|]. destruct Hw2 as [Hs2 Ha2].
    exists w1, w2, w3, r1, r2, j2, rest2.
    splits; [etrans; [exact H0|exact H1]|exact Hr1|exact Hw1|exact H2|exact Hj2|exact Hst2|exact Hh|exact H3|exact Hr2|exact Hs2|exact Ha2].
Defined.
