(* ===== verification/Retry.v ===== *)
(** * Retry: running a finished job again

    [internal/executor/retry.go] and [retryTriggerJob] of [trigger_failure.go].
    The two [for] loops page through a job's tasks by sequence number; they run on
    [fuel] turns, and [None] means the fuel was not enough.  How much is enough is
    a theorem of this file. *)
From stdpp Require Import pretty.
From S2P Require Import Prelude Go Domain Effects Repository JobConfig Transport Instances Lifecycle.
From S2P Require Import Finalizer TriggerFailure JobExecutor.

Definition retryBatchSize : Z := TaskInsertBatchSize.

Definition retryStatuses (fullRetry : bool) : list string :=
  if fullRetry then [] else [TaskStatusMaxRetriesExhausted].

(** The clone of a source task. *)
Definition cloneTask (clonedJob : Job) (id : uuid) (t : Task) : Task :=
  mkTask id (Job_ID clonedJob) (Task_Name t) TaskStatusPending 1 (Task_MaxRetries t)
    (Task_SequenceNumber t) (Task_DistributionKey t) (Task_Params t) (Task_Result t)
    (Job_CreatedAt clonedJob) zero_time None None None None.

Fixpoint cloneBatch (clonedJob : Job) (srcBatch : list Task) : prog (list Task) :=
  match srcBatch with
  | [] => Ret []
  | t :: srcBatch =>
      id ← NewUUID;
      rest ← cloneBatch clonedJob srcBatch;
      Ret (cloneTask clonedJob id t :: rest)
  end.

(** [afterSeq] after the loop over a batch. *)
Definition lastSeq (afterSeq : Z) (batch : list Task) : Z :=
  match last batch with Some t => Task_SequenceNumber t | None => afterSeq end.

Definition new_clone (id : uuid) (originalJob : Job) (refID : string) : Job :=
  mkJob id (Some (Job_ID originalJob)) (Job_Name originalJob) JobStatusPending
    (Job_MaxRetries originalJob) (Some refID) zero_time zero_time None None None
    (Job_Metadata originalJob).

(** [RetryJobPayload], and [json.Unmarshal] into it: keys match up to ASCII case, a
    null leaves its field alone, and a value of another type is an error that does
    not stop the decoding. *)
Record RetryJobPayload : Type := mkPayload { Payload_JobID : string; Payload_FullRetry : bool }.

Definition lower (c : Ascii.ascii) : Ascii.ascii :=
  let n := Ascii.nat_of_ascii c in
  if ((65 <=? n) && (n <=? 90))%nat then Ascii.ascii_of_nat (n + 32) else c.
Definition EqualFold (s t : string) : bool :=
  bool_decide (map lower (String.list_ascii_of_string s) = map lower (String.list_ascii_of_string t)).

Definition type_error : error := ErrForeign "json: cannot unmarshal value into Go struct field".

Definition payload_field (acc : RetryJobPayload * option error) (kv : string * value) :
    RetryJobPayload * option error :=
  let '(p, err) := acc in
  let keep := (p, match err with Some _ => err | None => Some type_error end) in
  if EqualFold kv.1 "job_id" then
    match kv.2 with
    | VNil => acc
    | VString s => (mkPayload s (Payload_FullRetry p), err)
    | _ => keep
    end
  else if EqualFold kv.1 "full_retry" then
    match kv.2 with
    | VNil => acc
    | VBool b => (mkPayload (Payload_JobID p) b, err)
    | _ => keep
    end
  else acc.

Definition json_Unmarshal_payload (t : json_text) : res RetryJobPayload :=
  match t with
  | JDoc (VMap (Some kvs)) =>
      match fold_left payload_field kvs (mkPayload "" false, None) with
      | (p, None) => Ok p
      | (_, Some e) => Err e
      end
  | JDoc VNil => Ok (mkPayload "" false)
  | JDoc _ => Err type_error
  | JEmpty => Err (ErrForeign "unexpected end of JSON input")
  | JBad _ => Err (ErrForeign "invalid character")
  end.

Section retry.
  Context `{UuidText} `{Fsm} `{Pgtype} `{FloatConv}.
  Context (jobs : gmap string JobConfig).

(** The result is the total so far and the error, if any. *)
Fixpoint streamCloneAndPublish_from (fuel : nat) (afterSeq total : Z) (srcJobID : uuid)
    (clonedJob : Job) (statuses : list string) (jobCfg : JobConfig) :
    prog (option (Z * option error)) :=
  match fuel with
  | O => Ret None
  | S fuel =>
  read ← FindTasksByJobIDAndStatusesBatch srcJobID statuses afterSeq retryBatchSize;
  match read with
  | Err e => Ret (Some (total, Some (ErrWrap ("read source tasks (afterSeq=" ++ pretty afterSeq ++ ")") e)))
  | Ok [] => Ret (Some (total, None))
  | Ok srcBatch =>
  clonedBatch ← cloneBatch clonedJob srcBatch;
  let afterSeq := lastSeq afterSeq srcBatch in
  created ← CreateTasks clonedBatch;
  match created with
  | Err e => Ret (Some (total, Some (ErrWrap "create cloned tasks batch" e)))
  | Ok clonedBatch =>
  published ← cfg_PublishTasks jobCfg clonedBatch (Kafka_TaskTopic (Cfg_Kafka jobCfg));
  match published with
  | Err e => Ret (Some (total, Some (ErrWrap "publish cloned tasks batch" e)))
  | Ok _ =>
      let total := total + Z.of_nat (length clonedBatch) in
      if Z.of_nat (length srcBatch) <? retryBatchSize then Ret (Some (total, None))
      else streamCloneAndPublish_from fuel afterSeq total srcJobID clonedJob statuses jobCfg
  end end end end.

Definition streamCloneAndPublish (fuel : nat) (srcJobID : uuid) (clonedJob : Job)
    (statuses : list string) (jobCfg : JobConfig) : prog (option (Z * option error)) :=
  streamCloneAndPublish_from fuel (-1) 0 srcJobID clonedJob statuses jobCfg.

Fixpoint streamPublishTasks_from (fuel : nat) (afterSeq : Z) (jobID : uuid) (jobCfg : JobConfig) :
    prog (option (res unit)) :=
  match fuel with
  | O => Ret None
  | S fuel =>
  read ← FindTasksByJobIDAndStatusesBatch jobID [] afterSeq retryBatchSize;
  match read with
  | Err e => Ret (Some (Err e))
  | Ok [] => Ret (Some (Ok ()))
  | Ok batch =>
  published ← cfg_PublishTasks jobCfg batch (Kafka_TaskTopic (Cfg_Kafka jobCfg));
  match published with
  | Err e => Ret (Some (Err e))
  | Ok _ =>
      if Z.of_nat (length batch) <? retryBatchSize then Ret (Some (Ok ()))
      else streamPublishTasks_from fuel (lastSeq afterSeq batch) jobID jobCfg
  end end end.

Definition streamPublishTasks (fuel : nat) (jobID : uuid) (jobCfg : JobConfig) :
    prog (option (res unit)) := streamPublishTasks_from fuel (-1) jobID jobCfg.

(** On success: the clone and its number of tasks. *)
Definition prepareAndStreamRetry (fuel : nat) (originalJob : Job) (fullRetry : bool)
    (refID : string) : prog (option (res (Job * Z))) :=
  match jobs !! Job_Name originalJob with
  | None => Ret (Some (Err (ErrText ("no job config for " ++ Job_Name originalJob))))
  | Some jobCfg =>
  existing ← FindPendingJobByParentID (Job_ID originalJob);
  match existing with
  | Err e => Ret (Some (Err (ErrWrap "check pending clone" e)))
  | Ok (Some existingJob) =>
      streamed ← streamPublishTasks fuel (Job_ID existingJob) jobCfg;
      match streamed with
      | None => Ret None
      | Some (Err e) => Ret (Some (Err (ErrWrap "re-publish existing clone tasks" e)))
      | Some (Ok _) =>
          sum ← GetTaskStatusSummary (Job_ID existingJob);
          match sum with
          | Err e => Ret (Some (Err (ErrWrap "count existing clone tasks" e)))
          | Ok summary => Ret (Some (Ok (existingJob, Summary_Total summary)))
          end
      end
  | Ok None =>
      id ← NewUUID;
      let clonedJob := new_clone id originalJob refID in
      created ← CreateJobAndTasks clonedJob [];
      match created with
      | Err e => Ret (Some (Err (ErrWrap "create cloned job" e)))
      | Ok (clonedJob, _) =>
          let statuses := retryStatuses fullRetry in
          streamed ← streamCloneAndPublish fuel (Job_ID originalJob) clonedJob statuses jobCfg;
          match streamed with
          | None => Ret None
          | Some (_, Some e) => Ret (Some (Err e))
          | Some (total, None) => Ret (Some (Ok (clonedJob, total)))
          end
      end
  end end.

(** [startClonedJob]: its error is only logged. *)
Definition startClonedJob (job : Job) : prog Job :=
  '(job, _) ← transitionJob job JobActionStart; Ret job.

(** [Ok None] is Go's [nil, nil]. *)
Definition retryJob (fuel : nat) (jobID : uuid) (fullRetry : bool) (refID : string) :
    prog (option (res (option Job))) :=
  found ← FindJobByID jobID;
  match found with
  | Err e => Ret (Some (Err (ErrWrap ("find original job " ++ uuid_String jobID) e)))
  | Ok originalJob =>
  if Job_IsExecutionPending originalJob then
    Ret (Some (Err (ErrText ("job " ++ uuid_String jobID ++ " is not in terminal state"))))
  else
  prepared ← prepareAndStreamRetry fuel originalJob fullRetry refID;
  match prepared with
  | None => Ret None
  | Some (Err e) => Ret (Some (Err (ErrWrap "stream retry" e)))
  | Some (Ok (clonedJob, taskCount)) =>
  if Job_IsRunning clonedJob then Ret (Some (Ok None))
  else if Job_IsPending clonedJob then
    clonedJob ← startClonedJob clonedJob;
    _ ← (if taskCount =? 0 then maybeFinalizeJob jobs (Job_ID clonedJob) else Ret None);
    Ret (Some (Ok (Some clonedJob)))
  else Ret (Some (Ok (Some clonedJob)))
  end end.

Definition RetryJob := retryJob.

(** The metadata of a re-run trigger. *)
Definition retryTriggerMetadata (original : Job) : gmap string value :=
  let meta := <["retry_of_job_id"%string := VString (uuid_String (Job_ID original))]> ∅ in
  match Job_UniqueReferenceID original with
  | Some ref => <["retry_of_ref_id"%string := VString ref]> meta
  | None => meta
  end.

Definition retryTriggerJob (jobID : uuid) (refID : string) : prog (res Job) :=
  try (FindJobByID jobID) (ErrWrap ("find original job " ++ uuid_String jobID)) (fun original =>
  if negb (IsTriggerFailureJob (Some original)) then
    Ret (Err (ErrText ("job " ++ uuid_String jobID ++ " is not a trigger failure job")))
  else if Job_IsExecutionPending original then
    Ret (Err (ErrText ("job " ++ uuid_String jobID ++ " is not in terminal state")))
  else
  err ← executeJob jobs (Job_Name original) refID (Some (retryTriggerMetadata original));
  match err with
  | Some e => Ret (Err e)
  | None =>
  try (FindJobWithTasksByUniqueReferenceID refID) (ErrWrap "find retried job") (fun found =>
    match found with
    | None => Ret (Err (ErrText ("retried job not found for ref " ++ refID)))
    | Some (job, _) => Ret (Ok job)
    end)
  end).

Definition RetryTriggerJob := retryTriggerJob.

(** The handler [RegisterRetryHandler] installs, on a task's payload and id. *)
Definition retryHandler (fuel : nat) (payload : json_text) (taskID : string) : prog (option (option error)) :=
  start ← Now;
  match json_Unmarshal_payload payload with
  | Err e => Ret (Some (Some e))
  | Ok payload =>
  match uuid_Parse (Payload_JobID payload) with
  | Err msg => Ret (Some (Some (ErrForeign msg)))
  | Ok jobID =>
  r ← RetryJob fuel jobID (Payload_FullRetry payload) taskID;
  match r with
  | None => Ret None
  | Some r => _ ← Since start; Ret (Some (result_err r))
  end end end.
End retry.

(** ** Specification *)

(** The tasks a retry or a re-publication goes through, in order. *)
Definition tasks_in_order (jobID : uuid) (statuses : list string) (db : DB) : list Task :=
  merge_sort seq_le
    (List.filter (fun t => task_of_job jobID t && statuses_match statuses t) (db_tasks db)).

(** The sequence numbers of a job's tasks: distinct and not negative, as
    [buildTasks] makes them. *)
Definition numbered (jobID : uuid) (db : DB) : Prop :=
  NoDup (map Task_SequenceNumber (tasks_of jobID db)) /\
  Forall (fun t => 0 <= Task_SequenceNumber t) (tasks_of jobID db).

(** Turns of the loop that are always enough for [n] tasks. *)
Definition enough (n : nat) : nat := S (n / Z.to_nat retryBatchSize).

(** Task [t] is the fresh copy of [src] in the cloned job. *)
Record clone_of (clonedJob : Job) (src t : Task) : Prop := {
  clone_job : Task_JobID t = Job_ID clonedJob;
  clone_created : Task_CreatedAt t = Job_CreatedAt clonedJob;
  clone_status : Task_Status t = TaskStatusPending;
  clone_attempt : Task_Attempt t = 1;
  clone_retries : Task_MaxRetries t = if Task_MaxRetries src =? 0 then 3 else Task_MaxRetries src;
  clone_name : Task_Name t = Task_Name src;
  clone_sequence : Task_SequenceNumber t = Task_SequenceNumber src;
  clone_key : Task_DistributionKey t = Task_DistributionKey src;
  clone_params : Task_Params t = Task_Params src;
}.

(** The state in which a retry clones a job. *)
Record retriable `{Codec} (E : env) (jobs : gmap string JobConfig) (db : DB) (orig : Job)
    (cfg : JobConfig) : Prop := {
  retry_fresh : fresh_uuids E db;
  retry_clock : forall n, env_now E n ≠ zero_time;
  retry_found : List.filter (job_has_id (Job_ID orig)) (db_jobs db) = [orig];
  retry_over : Job_IsExecutionPending orig = false;
  retry_cfg : jobs !! Job_Name orig = Some cfg;
  retry_publisher : Cfg_Publisher cfg = Some NewTaskPublisher;
  retry_no_clone : List.filter (is_pending_clone (Job_ID orig)) (db_jobs db) = [];
  retry_numbered : numbered (Job_ID orig) db;
  retry_columns : job_fits orig = true /\ Forall (fun t => task_fits t = true) (tasks_of (Job_ID orig) db);
}.

(** The cloned job's row as it is inserted. *)
Record cloned_row (db : DB) (orig : Job) (refID : string) (c : Job) : Prop := {
  cloned_id : Job_ID c ∉ map Job_ID (db_jobs db);
  cloned_owner : Job_ID c ∉ map Task_JobID (db_tasks db);
  cloned_parent : Job_ParentJobID c = Some (Job_ID orig);
  cloned_name : Job_Name c = Job_Name orig;
  cloned_status : Job_Status c = JobStatusPending;
  cloned_ref : Job_UniqueReferenceID c = Some refID;
  cloned_metadata : Job_Metadata c = Job_Metadata orig;
  cloned_created : Job_CreatedAt c ≠ zero_time;
}.

(** ** Lemmas: paging *)

#[global] Instance seq_le_trans : Transitive seq_le.
Proof. intros a b c. unfold seq_le. lia. Qed.
#[global] Instance seq_le_total : Total seq_le.
Proof. intros a b. unfold seq_le. lia. Qed.

#[export] Instance filter_permutation {A} (p : A -> bool) :
  Proper ((≡ₚ) ==> (≡ₚ)) (List.filter p).
Proof.
  intros l l'. induction 1 as [|x l l' _ IH|x y l|l1 l2 l3 _ IH1 _ IH2]; cbn; [done| | |by etrans].
  - by destruct (p x); [constructor|].
  - destruct (p x), (p y); try done. constructor.
Qed.

Lemma filter_andb {A} (p q r : A -> bool) l :
  List.filter (fun x => p x && q x && r x) l = List.filter q (List.filter (fun x => p x && r x) l).
Proof.
  induction l as [|x l IH]; [done|]. cbn. destruct (p x), (r x), (q x) eqn:Hq; cbn; rewrite ?Hq, ?IH; done.
Qed.

(** A split of the ordered tasks at a sequence number. *)
Definition split_at (l pre post : list Task) (after : Z) : Prop :=
  l = pre ++ post /\ Forall (fun t => Task_SequenceNumber t <= after) pre /\
  Forall (fun t => after < Task_SequenceNumber t) post.

Lemma page_after jobID statuses db pre post after limit now :
  numbered jobID db -> split_at (tasks_in_order jobID statuses db) pre post after ->
  select_tasks_batch jobID statuses after limit now db = (db, Ok (take (Z.to_nat limit) post)).
Proof.
  intros [Hnd _] (Hl & Hpre & Hpost). unfold select_tasks_batch. do 3 f_equal.
  rewrite filter_andb. set (l := List.filter _ (db_tasks db)).
  assert (Hperm : List.filter (fun t => after <? Task_SequenceNumber t) l ≡ₚ post).
  { unfold tasks_in_order in Hl. fold l in Hl.
    rewrite <- (merge_sort_Permutation seq_le l) at 1. rewrite Hl, List.filter_app.
    rewrite filter_none, filter_all; [done| |].
    - eapply Forall_impl; [exact Hpost|]. intros t Ht. by apply Z.ltb_lt.
    - intros t Ht. rewrite Forall_forall in Hpre. apply Z.ltb_ge. by apply Hpre. }
  apply (StronglySorted_unique_strong seq_le).
  - intros a b Ha Hb Hab Hba.
    rewrite merge_sort_Permutation, Hperm in Ha.
    assert (Hin : forall t, t ∈ post -> t ∈ tasks_of jobID db).
    { intros t Ht. assert (t ∈ l) as Htl.
      { rewrite <- (merge_sort_Permutation seq_le l). unfold tasks_in_order in Hl. fold l in Hl.
        rewrite Hl. apply elem_of_app. by right. }
      subst l. apply list_elem_of_In, filter_In in Htl as [? [? _]%andb_true_iff].
      apply list_elem_of_In, filter_In. done. }
    apply Hin in Ha, Hb. unfold seq_le in *.
    assert (Task_SequenceNumber a = Task_SequenceNumber b) as Heq by lia.
    revert Hnd Ha Hb Heq. clear. generalize (tasks_of jobID db) as l. intros l.
    induction l as [|t l IH]; intros Hnd Ha Hb Heq; [by apply not_elem_of_nil in Ha|].
    cbn in Hnd. apply NoDup_cons in Hnd as [Ht Hnd].
    assert (Hout : forall x, x ∈ l -> Task_SequenceNumber x ≠ Task_SequenceNumber t).
    { intros x Hx Hxt. apply Ht. rewrite <- Hxt. by apply list_elem_of_In, in_map, list_elem_of_In. }
    apply elem_of_cons in Ha as [->|Ha], Hb as [->|Hb]; eauto; exfalso; by eapply Hout; eauto.
  - apply StronglySorted_merge_sort; apply _.
  - assert (StronglySorted seq_le (pre ++ post)) as Hs.
    { rewrite <- Hl. apply StronglySorted_merge_sort; apply _. }
    by apply StronglySorted_app_1_r in Hs.
  - by rewrite merge_sort_Permutation.
Qed.

Definition seq_lt (a b : Task) : Prop := Task_SequenceNumber a < Task_SequenceNumber b.

Lemma strictly_sorted l :
  StronglySorted seq_le l -> NoDup (map Task_SequenceNumber l) -> StronglySorted seq_lt l.
Proof.
  induction 1 as [|x l Hl IH Hx]; intros Hnd; [constructor|]. cbn in Hnd. apply NoDup_cons in Hnd as [Hn Hnd].
  constructor; [by apply IH|]. rewrite Forall_forall in *. intros y Hy. specialize (Hx y Hy).
  unfold seq_le, seq_lt in *.
  assert (Task_SequenceNumber y ≠ Task_SequenceNumber x); [|lia].
  intros Heq. apply Hn. rewrite <- Heq. by apply list_elem_of_In, in_map, list_elem_of_In.
Qed.

Lemma tasks_in_order_sorted jobID statuses db :
  numbered jobID db -> StronglySorted seq_lt (tasks_in_order jobID statuses db).
Proof.
  intros [Hnd _]. apply strictly_sorted; [apply StronglySorted_merge_sort; apply _|].
  unfold tasks_in_order. rewrite merge_sort_Permutation.
  assert (List.filter (fun t => task_of_job jobID t && statuses_match statuses t) (db_tasks db) =
          List.filter (statuses_match statuses) (tasks_of jobID db)) as ->.
  { unfold tasks_of. induction (db_tasks db) as [|t l IH]; [done|]. cbn.
    destruct (task_of_job jobID t), (statuses_match statuses t) eqn:Ht; cbn; rewrite ?Ht, ?IH; done. }
  by apply nodup_map_filter.
Qed.

Lemma split_at_start jobID statuses db :
  numbered jobID db ->
  split_at (tasks_in_order jobID statuses db) [] (tasks_in_order jobID statuses db) (-1).
Proof.
  intros [_ Hpos]. split; [done|]. split; [constructor|]. rewrite Forall_forall in *. intros t Ht.
  unfold tasks_in_order in Ht. rewrite merge_sort_Permutation in Ht.
  apply list_elem_of_In, filter_In in Ht as [Ht [Hj _]%andb_true_iff].
  assert (t ∈ tasks_of jobID db) as Hin by (by apply list_elem_of_In, filter_In).
  apply Hpos in Hin. lia.
Qed.

(** The next page moves the split past its last task. *)
Lemma split_at_next l pre post after n :
  StronglySorted seq_lt l -> split_at l pre post after -> take n post ≠ [] ->
  split_at l (pre ++ take n post) (drop n post) (lastSeq after (take n post)).
Proof.
  intros Hs (Hl & Hpre & Hpost) Hne. unfold split_at.
  destruct (exists_last Hne) as (page & t & Hpage).
  assert (Ht : lastSeq after (take n post) = Task_SequenceNumber t).
  { unfold lastSeq. rewrite Hpage. by rewrite last_snoc. }
  rewrite Ht. rewrite <- app_assoc, take_drop. splits; [done| |].
  - rewrite Hpage. apply Forall_app. split.
    + rewrite <- (take_drop n post), Hpage in Hpost. apply Forall_app in Hpost as [Hp _].
      apply Forall_app in Hp as [_ Hp]. inversion Hp; subst.
      eapply Forall_impl; [exact Hpre|]. cbn. intros; lia.
    + apply Forall_app. split; [|repeat constructor; lia].
      rewrite Hl, <- (take_drop n post), Hpage in Hs. apply StronglySorted_app_1_r in Hs.
      rewrite <- app_assoc in Hs. rewrite Forall_forall. intros x Hx.
      assert (seq_lt x t); [|unfold seq_lt in *; lia].
      eapply StronglySorted_app_1_elem_of; [exact Hs|done|]. by left.
  - rewrite Hl, <- (take_drop n post), Hpage in Hs. apply StronglySorted_app_1_r in Hs.
    rewrite Forall_forall. intros x Hx. unfold seq_lt in Hs.
    eapply (StronglySorted_app_1_elem_of seq_lt (page ++ [t])); [exact Hs| |done].
    apply elem_of_app. right. left.
Qed.

Lemma in_order_of jobID statuses db t : t ∈ tasks_in_order jobID statuses db -> t ∈ tasks_of jobID db.
Proof.
  unfold tasks_in_order. rewrite merge_sort_Permutation.
  intros [Ht [Hj _]%andb_true_iff]%list_elem_of_In%filter_In. by apply list_elem_of_In, filter_In.
Qed.

Lemma in_order_fit jobID statuses db :
  Forall (fun t => task_fits t = true) (tasks_of jobID db) ->
  Forall (fun t => task_fits t = true) (tasks_in_order jobID statuses db).
Proof. rewrite !Forall_forall. intros Hall t Ht. apply Hall. by eapply in_order_of. Qed.

(** A clone fits the columns its source fits, and has an encoding. *)
Lemma cloneTask_fits c id t : task_fits t = true -> task_fits (cloneTask c id t) = true.
Proof.
  unfold task_fits. rewrite !andb_true_iff. intros Hrow. destruct_and! Hrow. by cbn -[pg_varchar pg_integer]; split_and!.
Qed.

Lemma cloneTask_json c id t :
  task_fits t = true -> json_time (Job_CreatedAt c) = true -> json_task (cloneTask c id t) = true.
Proof.
  unfold task_fits, json_task. rewrite !andb_true_iff. intros Hrow Hc. destruct_and! Hrow.
  by cbn -[json_time json_opt_time]; split_and!.
Qed.

Lemma cloneTasks_ok c ids batch :
  Forall (fun t => task_fits t = true) batch ->
  let clones := zip_with (cloneTask c) ids batch in
  Forall (fun t => task_fits t = true) clones /\
  (json_time (Job_CreatedAt c) = true -> Forall (fun t => json_task t = true) clones).
Proof.
  intros Hfit. cbv zeta. revert ids. induction Hfit as [|t batch Ht Hfit IH]; intros [|i ids]; cbn; try done.
  destruct (IH ids) as [Hf Hj]. split; [by constructor; [apply cloneTask_fits|]|].
  intros Hc. by constructor; [apply cloneTask_json|apply Hj].
Qed.

Lemma new_clone_fits id orig refID now :
  job_fits orig = true -> pg_varchar 255 refID = true -> job_fits (job_defaults now (new_clone id orig refID)) = true.
Proof.
  intros Hrow Href. apply job_fits_defaults. unfold job_fits in *. rewrite !andb_true_iff in *. destruct_and! Hrow.
  by cbn -[pg_varchar pg_integer]; split_and!.
Qed.

(** ** Lemmas: the loops *)
Section loops.
Context `{UuidText} `{FsmLaws} `{Pgtype} `{FloatConv} `{Codec}.

Lemma enough_next n : (retryBatchSize <= Z.of_nat n)%Z -> 
  enough n = S (enough (n - Z.to_nat retryBatchSize)).
Proof.
  unfold enough, retryBatchSize, TaskInsertBatchSize. intros Hn. f_equal.
  change (Z.to_nat 1000) with 1000%nat.
  replace n with ((n - 1000) + 1 * 1000)%nat at 1 by lia. rewrite Nat.div_add by lia. lia.
Qed.

Lemma run_streamPublishTasks_from E w jobID cfg fuel pre post after :
  reliable E -> Cfg_Publisher cfg = Some NewTaskPublisher -> numbered jobID (w_db w) ->
  split_at (tasks_in_order jobID [] (w_db w)) pre post after -> (enough (length post) <= fuel)%nat ->
  exists n,
    run E (streamPublishTasks_from fuel after jobID cfg) w =
    (mkWorld (w_db w) (w_kafka w ++ omap (task_message (Kafka_TaskTopic (Cfg_Kafka cfg))) post)
       (w_hooks w) n, Some (Ok ())).
Proof.
  intros HE Hp Hnum. revert w pre post after Hnum.
  induction fuel as [|fuel IH]; intros w pre post after Hnum Hsplit Hfuel; [unfold enough in Hfuel; lia|].
  cbn [streamPublishTasks_from]. unfold FindTasksByJobIDAndStatusesBatch.
  rewrite run_bind, (run_query E _ w (Ok (take (Z.to_nat retryBatchSize) post)) HE)
    by (intros now; by apply (page_after jobID [] (w_db w) pre)).
  cbn [fst snd].
  pose proof (split_at_next _ _ _ _ (Z.to_nat retryBatchSize) (tasks_in_order_sorted jobID [] _ Hnum) Hsplit) as Hnext.
  pose proof (length_take post (Z.to_nat retryBatchSize)) as Hlen.
  pose proof (take_drop (Z.to_nat retryBatchSize) post) as Htd.
  destruct (take (Z.to_nat retryBatchSize) post) as [|t page] eqn:Hpage.
  { destruct post; [|done]. exists (w_tick (tick w)). by rewrite app_nil_r. }
  rewrite run_bind. unfold cfg_PublishTasks. rewrite Hp.
  destruct (run_write E (tick w) (omap (task_message (Kafka_TaskTopic (Cfg_Kafka cfg))) (t :: page)) HE)
    as [n Hn].
  cbn [PublishTasks NewTaskPublisher]. unfold publisher_PublishTasks. rewrite Hn. cbn [fst snd].
  case_match eqn:Hlt.
  - apply Z.ltb_lt in Hlt. exists n.
    assert (drop (Z.to_nat retryBatchSize) post = []) as Hd by (apply drop_ge; lia).
    rewrite Hd, app_nil_r in Htd. by rewrite Htd.
  - apply Z.ltb_ge in Hlt.
    set (w1 := mkWorld _ _ _ n).
    destruct (IH w1 (pre ++ t :: page) (drop (Z.to_nat retryBatchSize) post) (lastSeq after (t :: page)))
      as [n' ->]; [done|by apply Hnext| |].
    + rewrite length_drop. rewrite enough_next in Hfuel by lia. lia.
    + exists n'. subst w1. cbn [w_db w_kafka w_hooks tick]. by rewrite <- app_assoc, <- omap_app, Htd.
Qed.

(** The identifiers the environment gives from call [m] on. *)
Definition ids_from (E : env) (m n : nat) : list uuid := map (env_uuid E) (seq m n).

Lemma run_cloneBatch E w c batch :
  run E (cloneBatch c batch) w =
  (ticks (length batch) w, zip_with (cloneTask c) (ids_from E (w_tick w) (length batch)) batch).
Proof.
  revert w. induction batch as [|t batch IH]; intros w; [by destruct w|].
  cbn [cloneBatch]. rewrite run_bind, run_NewUUID. cbn [fst snd]. rewrite run_bind, IH. cbn [fst snd].
  rewrite run_Ret. f_equal. unfold ticks, tick. cbn. f_equal. lia.
Qed.

Lemma clones_ids c ids batch :
  length ids = length batch -> map Task_ID (zip_with (cloneTask c) ids batch) = ids.
Proof.
  revert batch. induction ids as [|i ids IH]; intros [|t batch]; try done. cbn. intros [= Hl]. by rewrite IH.
Qed.

Lemma clones_inserted c now ids batch :
  length ids = length batch -> Job_CreatedAt c ≠ zero_time ->
  Forall2 (clone_of c) batch (map (task_defaults now) (zip_with (cloneTask c) ids batch)).
Proof.
  intros Hl Hc. revert ids Hl. induction batch as [|t batch IH]; intros [|i ids]; try done; cbn.
  intros [= Hl]. constructor; [|by apply IH].
  destruct (task_defaults_fields now (cloneTask c i t)) as (F1 & F2 & F3 & F4 & F5 & F6 & F7 & F8 & F9).
  assert (IsZero (Job_CreatedAt c) = false) as Hz by (by apply Z.eqb_neq).
  cbn in *. rewrite Hz in F9. by split.
Qed.

(** The clones do not show among the tasks of the source. *)
Lemma tasks_in_order_other src statuses db c batch clones :
  Forall2 (clone_of c) batch clones -> Job_ID c ≠ src ->
  let db' := mkDB (db_jobs db) (db_tasks db ++ clones) in
  tasks_in_order src statuses db' = tasks_in_order src statuses db /\
  tasks_of src db' = tasks_of src db.
Proof.
  intros Hcl Hne. cbv zeta. unfold tasks_in_order, tasks_of. cbn [db_tasks].
  assert (Hno : forall t, t ∈ clones -> task_of_job src t = false).
  { intros t Ht. apply list_elem_of_lookup in Ht as [i Hi].
    destruct (Forall2_lookup_r _ _ _ _ _ Hcl Hi) as (x & _ & Hx). apply N.eqb_neq.
    by rewrite (clone_job _ _ _ Hx). }
  rewrite !List.filter_app. rewrite !(filter_none _ clones), !app_nil_r; [done|done|].
  intros t Ht. by rewrite Hno.
Qed.

Lemma run_CreateTasks E w ts :
  reliable E -> Forall (fun t => task_fits t = true) ts -> NoDup (map Task_ID ts) ->
  (forall t, t ∈ ts -> Task_ID t ∉ map Task_ID (db_tasks (w_db w))) ->
  exists now n, reading E now /\ (w_tick w <= n)%nat /\
    run E (CreateTasks ts) w =
    (mkWorld (mkDB (db_jobs (w_db w)) (db_tasks (w_db w) ++ map (task_defaults now) ts))
       (w_kafka w) (w_hooks w) n, Ok (map (task_defaults now) ts)).
Proof.
  intros HE Hfit Hnd Hnew. unfold CreateTasks. exists (env_now E (w_tick w)). destruct ts as [|t ts].
  - exists (w_tick w). splits; [by eexists|lia|]. cbn. rewrite app_nil_r. by destruct w as [[] ? ? ?].
  - exists (S (w_tick w)). splits; [by eexists|lia|].
    rewrite run_sql_reliable by done. unfold create_tasks_tx. by rewrite insert_tasks_new.
Qed.

(** What the identifiers still to come must avoid. *)
Definition new_ids (E : env) (w : World) : Prop :=
  (forall m n, env_uuid E m = env_uuid E n -> m = n) /\
  forall n, (w_tick w <= n)%nat -> env_uuid E n ∉ map Task_ID (db_tasks (w_db w)).

Lemma ids_from_nodup E w m n : new_ids E w -> NoDup (ids_from E m n).
Proof.
  intros [Hinj _]. unfold ids_from. revert m. induction n as [|n IH]; intros m; cbn; constructor; [|apply IH].
  rewrite list_elem_of_In, in_map_iff. intros (x & Hx & Hin). apply Hinj in Hx as ->.
  apply in_seq in Hin. lia.
Qed.

(** What [rows_ok] says of tasks. *)
Definition tasks_ok (E : env) (ts : list Task) : Prop :=
  Forall (fun t => task_fits t = true) ts /\
  ((forall n, json_time (env_now E n) = true) -> Forall (fun t => json_task t = true) ts).

Lemma clones_ok E c now ids batch :
  Forall (fun t => task_fits t = true) batch -> reading E (Job_CreatedAt c) -> reading E now ->
  tasks_ok E (map (task_defaults now) (zip_with (cloneTask c) ids batch)).
Proof.
  intros Hfit [a Ha] [b ->]. destruct (cloneTasks_ok c ids batch Hfit) as [Hf Hj]. split.
  - apply Forall_map. eapply Forall_impl; [exact Hf|]. intros t. apply task_fits_defaults.
  - intros Hclock. apply Forall_map. eapply Forall_impl; [apply Hj; by rewrite Ha|].
    intros t. apply json_task_defaults, Hclock.
Qed.

(** One page: read, clone, insert. *)
Lemma run_clone_page E w c page :
  reliable E -> new_ids E w -> Job_CreatedAt c ≠ zero_time -> reading E (Job_CreatedAt c) ->
  Forall (fun t => task_fits t = true) page ->
  exists clones n,
    run E (batch ← cloneBatch c page; CreateTasks batch) w =
    (mkWorld (mkDB (db_jobs (w_db w)) (db_tasks (w_db w) ++ clones)) (w_kafka w) (w_hooks w) n, Ok clones) /\
    (Forall2 (clone_of c) page clones /\ tasks_ok E clones) /\
    (unique_tasks (w_db w) -> NoDup (map Task_ID (db_tasks (w_db w) ++ clones))) /\
    forall w', w_db w' = mkDB (db_jobs (w_db w)) (db_tasks (w_db w) ++ clones) -> (n <= w_tick w')%nat ->
      new_ids E w'.
Proof.
  intros HE Hids Hc Hread Hfit. rewrite run_bind, run_cloneBatch. cbn [fst snd].
  set (ids := ids_from E (w_tick w) (length page)).
  assert (Hl : length ids = length page) by (subst ids; unfold ids_from; by rewrite length_map, length_seq).
  assert (Hnd : NoDup (map Task_ID (zip_with (cloneTask c) ids page))).
  { rewrite clones_ids by done. by eapply ids_from_nodup. }
  assert (Hnew : forall i, i ∈ ids -> i ∉ map Task_ID (db_tasks (w_db w))).
  { intros i Hin. apply list_elem_of_In, in_map_iff in Hin as (m & <- & Hm%in_seq). apply Hids. lia. }
  destruct (run_CreateTasks E (ticks (length page) w) (zip_with (cloneTask c) ids page) HE)
    as (now & n & Hnow & Hn & Hrun).
  { by apply cloneTasks_ok. }
  { exact Hnd. }
  { intros t Ht. apply Hnew. rewrite <- (clones_ids c ids page Hl). by apply list_elem_of_In, in_map, list_elem_of_In. }
  assert (Hdef : map Task_ID (map (task_defaults now) (zip_with (cloneTask c) ids page)) = ids).
  { rewrite map_map, (map_ext _ Task_ID) by apply task_defaults_ID. by apply clones_ids. }
  rewrite Hrun. do 2 eexists. split; [done|]. split; [by split; [apply clones_inserted|apply clones_ok]|]. split.
  { intros Hu. apply unique_inserted; [done|by rewrite Hdef, <- (clones_ids c ids page Hl)|].
    intros t Ht. apply Hnew. rewrite <- Hdef. by apply list_elem_of_In, in_map, list_elem_of_In. }
  clear Hnew.
  intros w' Hw' Htick. destruct Hids as [Hinj Hnew]. split; [done|]. intros m Hm. rewrite Hw'. cbn.
  rewrite map_app, elem_of_app. cbn in Hn. intros [Hin|Hin].
  - by apply (Hnew m); [lia|].
  - rewrite Hdef in Hin. apply list_elem_of_In, in_map_iff in Hin as (k & Hk & Hk'%in_seq). apply Hinj in Hk. lia.
Qed.

Lemma run_write_tick E w msgs :
  reliable E ->
  exists n, (w_tick w <= n)%nat /\
    run E (write msgs) w = (mkWorld (w_db w) (w_kafka w ++ msgs) (w_hooks w) n, Ok ()).
Proof.
  intros HE. destruct msgs as [|m ms].
  - exists (w_tick w). rewrite app_nil_r. split; [lia|by destruct w].
  - eexists. split; [|unfold write; by rewrite run_write_reliable]. lia.
Qed.

Lemma new_ids_later E w w' :
  new_ids E w -> w_db w' = w_db w -> (w_tick w <= w_tick w')%nat -> new_ids E w'.
Proof. intros [Hinj Hnew] Hdb Ht. split; [done|]. intros n Hn. rewrite Hdb. apply Hnew. lia. Qed.

Lemma run_streamClone_from E w src c statuses cfg fuel pre post after total :
  reliable E -> Cfg_Publisher cfg = Some NewTaskPublisher -> numbered src (w_db w) ->
  new_ids E w -> Job_CreatedAt c ≠ zero_time -> reading E (Job_CreatedAt c) -> Job_ID c ≠ src ->
  Forall (fun t => task_fits t = true) post ->
  split_at (tasks_in_order src statuses (w_db w)) pre post after -> (enough (length post) <= fuel)%nat ->
  exists clones n,
    run E (streamCloneAndPublish_from fuel after total src c statuses cfg) w =
    (mkWorld (mkDB (db_jobs (w_db w)) (db_tasks (w_db w) ++ clones))
       (w_kafka w ++ omap (task_message (Kafka_TaskTopic (Cfg_Kafka cfg))) clones)
       (w_hooks w) n, Some (total + Z.of_nat (length post), None)) /\
    (Forall2 (clone_of c) post clones /\ tasks_ok E clones) /\
    (unique_tasks (w_db w) -> NoDup (map Task_ID (db_tasks (w_db w) ++ clones))).
Proof.
  intros HE Hp Hnum Hids Hc Hread Hne Hfit. revert w pre post after total Hnum Hids Hfit.
  induction fuel as [|fuel IH]; intros w pre post after total Hnum Hids Hfit Hsplit Hfuel; [unfold enough in Hfuel; lia|].
  cbn [streamCloneAndPublish_from]. unfold FindTasksByJobIDAndStatusesBatch.
  rewrite run_bind, (run_query E _ w (Ok (take (Z.to_nat retryBatchSize) post)) HE)
    by (intros now; by apply (page_after src statuses (w_db w) pre)).
  cbn [fst snd].
  pose proof (split_at_next _ _ _ _ (Z.to_nat retryBatchSize) (tasks_in_order_sorted src statuses _ Hnum) Hsplit) as Hnext.
  pose proof (length_take post (Z.to_nat retryBatchSize)) as Hlen.
  pose proof (take_drop (Z.to_nat retryBatchSize) post) as Htd.
  destruct (take (Z.to_nat retryBatchSize) post) as [|t page0] eqn:Hpage.
  { destruct post; [|done]. exists [], (w_tick (tick w)). cbn. rewrite !app_nil_r, Z.add_0_r.
    splits; [by destruct w as [[] ? ? ?]|constructor|by split|done]. }
  set (page := t :: page0) in *.
  assert (Hfits := Hfit). rewrite <- Htd in Hfits. apply Forall_app in Hfits as [Hfp Hfd].
  destruct (run_clone_page E (tick w) c page HE) as (cl & n & Hrun & [Hcl Hok] & Hu & Hids'); [|done|done|done|].
  { eapply new_ids_later; [exact Hids|done|cbn; lia]. }
  rewrite run_bind in Hrun. rewrite run_bind, run_bind, Hrun. cbn [fst snd].
  rewrite run_bind. unfold cfg_PublishTasks. rewrite Hp. cbn [PublishTasks NewTaskPublisher].
  set (w1 := mkWorld _ _ _ n).
  destruct (run_write_tick E w1 (omap (task_message (Kafka_TaskTopic (Cfg_Kafka cfg))) cl) HE) as (n1 & Hn1 & Hw).
  unfold publisher_PublishTasks. rewrite Hw. cbn [fst snd]. clear Hw.
  pose proof (Forall2_length _ _ _ Hcl) as Hcll. rewrite <- Hcll.
  case_match eqn:Hlt.
  - apply Z.ltb_lt in Hlt. exists cl, n1.
    assert (drop (Z.to_nat retryBatchSize) post = []) as Hd by (apply drop_ge; lia).
    rewrite Hd, app_nil_r in Htd. by rewrite <- Htd.
  - apply Z.ltb_ge in Hlt. set (w2 := mkWorld _ _ _ n1).
    destruct (tasks_in_order_other src statuses (w_db w) c page cl Hcl Hne) as [Hord Hof].
    destruct (IH w2 (pre ++ page) (drop (Z.to_nat retryBatchSize) post) (lastSeq after page)
                (total + Z.of_nat (length page))) as (cl2 & n2 & -> & [Hcl2 Hok2] & Hu2).
    + unfold numbered. cbn in Hof |- *. by rewrite Hof.
    + by apply Hids'.
    + done.
    + cbn in Hord |- *. rewrite Hord. by apply Hnext.
    + rewrite length_drop. rewrite enough_next in Hfuel by lia. lia.
    + exists (cl ++ cl2), n2. subst w2 w1. cbn [w_db w_kafka w_hooks tick db_jobs db_tasks].
      rewrite omap_app, !app_assoc. splits.
      * do 3 f_equal. rewrite <- Htd at 2. rewrite length_app. lia.
      * rewrite <- Htd. by apply Forall2_app.
      * destruct Hok as [Ho1 Ho2], Hok2 as [Ho3 Ho4].
        split; [by apply Forall_app|]. intros Hk. apply Forall_app. by split; [apply Ho2|apply Ho4].
      * intros Hut. exact (Hu2 (Hu Hut)).
Qed.

Context (jobs : gmap string JobConfig).

Lemma run_prepareAndStreamRetry E w orig cfg fuel fullRetry refID :
  reliable E -> retriable E jobs (w_db w) orig cfg -> pg_varchar 255 refID = true ->
  let src := tasks_in_order (Job_ID orig) (retryStatuses fullRetry) (w_db w) in
  (enough (length src) <= fuel)%nat ->
  exists c clones n,
    run E (prepareAndStreamRetry jobs fuel orig fullRetry refID) w =
    (mkWorld (mkDB (db_jobs (w_db w) ++ [c]) (db_tasks (w_db w) ++ clones))
       (w_kafka w ++ omap (task_message (Kafka_TaskTopic (Cfg_Kafka cfg))) clones)
       (w_hooks w) n, Some (Ok (c, Z.of_nat (length src)))) /\
    (cloned_row (w_db w) orig refID c /\ Forall2 (clone_of c) src clones /\ rows_ok E c clones) /\
    (unique_tasks (w_db w) -> NoDup (map Task_ID (db_tasks (w_db w) ++ clones))).
Proof.
  intros HE [Hfresh Hclock Hfound Hover Hcfg Hp Hnoclone Hnum [Hfj Hft]] Href src Hfuel.
  unfold prepareAndStreamRetry. rewrite Hcfg. unfold FindPendingJobByParentID.
  rewrite run_bind, (run_query E _ w (Ok None) HE) by (intros; by rewrite Hnoclone).
  cbn [fst snd]. rewrite run_bind, run_NewUUID. cbn [fst snd]. rewrite run_bind.
  set (id := env_uuid E _). set (c0 := new_clone id orig refID).
  edestruct (run_CreateJobAndTasks_now E (tick (tick w)) c0 [] HE) as (now & Hnow & ->);
    [intros; by apply new_clone_fits|constructor|apply Hfresh|constructor|by intros t ?%elem_of_nil|].
  cbn [fst snd map w_db tick db_jobs db_tasks]. rewrite app_nil_r, run_bind.
  set (c := job_defaults now c0). set (w1 := tick (with_db _ _)).
  destruct (job_defaults_fields now c0) as (Hn & Hu & Hpa & Hm & _ & Hs & _ & Hc). fold c in Hn, Hu, Hpa, Hm, Hs, Hc.
  assert (Hid : Job_ID c = id) by apply job_defaults_ID.
  assert (Hcr : Job_CreatedAt c ≠ zero_time) by (rewrite Hc; cbn; rewrite Hnow; apply Hclock).
  assert (Hread : reading E (Job_CreatedAt c)) by (rewrite Hc; cbn; rewrite Hnow; by eexists).
  assert (Hne : Job_ID c ≠ Job_ID orig).
  { rewrite Hid. intros Heq. apply (fresh_job _ _ Hfresh (w_tick (tick w))). fold id. rewrite Heq.
    assert (In orig (List.filter (job_has_id (Job_ID orig)) (db_jobs (w_db w)))) as Hin by (rewrite Hfound; by left).
    apply filter_In in Hin as [Hin _]. by apply list_elem_of_In, in_map. }
  unfold streamCloneAndPublish.
  destruct (run_streamClone_from E w1 (Job_ID orig) c (retryStatuses fullRetry) cfg fuel [] src (-1) 0 HE Hp Hnum)
    as (cl & n & -> & [Hcl [Hok1 Hok2]] & Huq); [|done|done|done|by apply in_order_fit|by apply split_at_start|done|].
  { destruct Hfresh. by split. }
  exists c, cl, n. cbn [fst snd run]. split; [done|]. split; [|done]. splits; [|done|].
  - split; rewrite ?Hid; try done; [apply Hfresh|apply Hfresh].
  - split; [by apply new_clone_fits|done|]. intros Hk. split; [|by apply Hok2].
    apply json_job_defaults; [by rewrite Hnow|]. unfold job_fits in Hfj. apply andb_true_iff in Hfj as [_ Hdoc].
    unfold json_job. cbn. by rewrite Hdoc.
Qed.

Lemma run_find_job E w id j :
  reliable E -> List.filter (job_has_id id) (db_jobs (w_db w)) = [j] ->
  run E (FindJobByID id) w = (tick w, Ok j).
Proof.
  intros HE Hf. apply (run_query E _ w (Ok j) HE). intros now. unfold select_job_by_id. by rewrite Hf.
Qed.

Lemma run_retryJob_prepared E w orig fuel fullRetry refID w1 prepared :
  reliable E -> List.filter (job_has_id (Job_ID orig)) (db_jobs (w_db w)) = [orig] ->
  Job_IsExecutionPending orig = false ->
  run E (prepareAndStreamRetry jobs fuel orig fullRetry refID) (tick w) = (w1, Some (Ok prepared)) ->
  run E (retryJob jobs fuel (Job_ID orig) fullRetry refID) w =
  run E (let '(clonedJob, taskCount) := prepared in
         if Job_IsRunning clonedJob then Ret (Some (Ok None))
         else if Job_IsPending clonedJob then
           clonedJob ← startClonedJob clonedJob;
           _ ← (if taskCount =? 0 then maybeFinalizeJob jobs (Job_ID clonedJob) else Ret None);
           Ret (Some (Ok (Some clonedJob)))
         else Ret (Some (Ok (Some clonedJob)))) w1.
Proof.
  intros HE Hf Hover Hprep. unfold retryJob. rewrite run_bind, (run_find_job E w _ _ HE Hf). cbn [fst snd].
  rewrite Hover, run_bind, Hprep. by destruct prepared.
Qed.

Lemma run_startClonedJob E w c :
  reliable E -> Job_Status c = JobStatusPending ->
  exists c' s u n,
    run E (startClonedJob c) w =
    (mkWorld (update_jobs (job_has_id (Job_ID c)) (row_started s u) (w_db w)) (w_kafka w) (w_hooks w) n, c') /\
    Job_Status c' = JobStatusRunning /\ Job_ID c' = Job_ID c /\ reading E s /\ reading E u.
Proof.
  intros HE Hst. unfold startClonedJob. rewrite run_bind.
  destruct (run_transition_start E w c HE Hst) as (c' & s & u & n & -> & Hs & Hid & _ & Hrs & Hru).
  by exists c', s, u, n.
Qed.

(** The tail of [retryJob] for a PENDING clone that has tasks. *)
Lemma run_retry_start E w (c : Job) (taskCount : Z) :
  reliable E -> Job_Status c = JobStatusPending -> taskCount ≠ 0 ->
  exists c' s u n,
    run E (let '(clonedJob, taskCount) := (c, taskCount) in
         if Job_IsRunning clonedJob then Ret (Some (Ok None))
         else if Job_IsPending clonedJob then
           clonedJob ← startClonedJob clonedJob;
           _ ← (if taskCount =? 0 then maybeFinalizeJob jobs (Job_ID clonedJob) else Ret None);
           Ret (Some (Ok (Some clonedJob)))
         else Ret (Some (Ok (Some clonedJob)))) w =
    (mkWorld (update_jobs (job_has_id (Job_ID c)) (row_started s u) (w_db w)) (w_kafka w) (w_hooks w) n,
     Some (Ok (Some c') : res (option Job))) /\
    Job_Status c' = JobStatusRunning /\ Job_ID c' = Job_ID c /\ reading E s /\ reading E u.
Proof.
  intros HE Hst Hne. cbv beta iota. unfold Job_IsRunning, Job_IsPending. rewrite Hst.
  change (bool_decide (JobStatusPending = JobStatusRunning)) with false.
  change (bool_decide (JobStatusPending = JobStatusPending)) with true. cbv beta iota.
  rewrite run_bind. destruct (run_startClonedJob E w c HE Hst) as (c' & s & u & n & -> & Hs & Hid & Hrs & Hru).
  cbn [fst snd]. rewrite (proj2 (Z.eqb_neq _ _)) by done. rewrite run_bind, !run_Ret.
  by exists c', s, u, n.
Qed.
End loops.

(** The sample retry of job 1 the witnesses use. *)
Lemma sample_retriable tasks :
  Forall (fun t => (Task_ID t < 100)%N /\ (Task_JobID t < 100)%N) tasks -> numbered 1 (mkDB [] tasks) ->
  forallb task_fits tasks = true ->
  @retriable sample_codec env_ok sample_jobs (mkDB [sample_job 1 JobStatusPartialFailed] tasks)
    (sample_job 1 JobStatusPartialFailed) sample_cfg.
Proof.
  intros Ht Hnum Hfit. rewrite Forall_forall in Ht. split; try done.
  - split; cbn; [lia|..].
    + intros n ?%list_elem_of_singleton. lia.
    + intros n Hin. apply list_elem_of_In, in_map_iff in Hin as (x & Hx & Hin%list_elem_of_In%Ht). lia.
    + intros n Hin. apply list_elem_of_In, in_map_iff in Hin as (x & Hx & Hin%list_elem_of_In%Ht). lia.
  - intros n. cbn [env_now env_ok sample_env]. unfold zero_time. lia.
  - split; [by vm_compute|]. apply Forall_forall. intros t [Ht0 _]%list_elem_of_In%filter_In.
    by apply (proj1 (forallb_forall _ _) Hfit).
Qed.

Lemma retryJob_clones_lemma `{UuidText} `{FsmLaws} `{Codec} E w jobs orig cfg fuel fullRetry refID :
  reliable E -> retriable E jobs (w_db w) orig cfg -> pg_varchar 255 refID = true ->
  let src := tasks_in_order (Job_ID orig) (retryStatuses fullRetry) (w_db w) in
  src ≠ [] -> (enough (length src) <= fuel)%nat ->
  exists c c' clones started upd n,
    run E (retryJob jobs fuel (Job_ID orig) fullRetry refID) w =
    (mkWorld (update_jobs (job_has_id (Job_ID c)) (row_started started upd)
                (mkDB (db_jobs (w_db w) ++ [c]) (db_tasks (w_db w) ++ clones)))
       (w_kafka w ++ omap (task_message (Kafka_TaskTopic (Cfg_Kafka cfg))) clones) (w_hooks w) n,
     Some (Ok (Some c'))) /\
    Job_Status c' = JobStatusRunning /\ Job_ID c' = Job_ID c /\
    (cloned_row (w_db w) orig refID c /\ Forall2 (clone_of c) src clones /\ rows_ok E c clones) /\
    (reading E started /\ reading E upd) /\
    (unique_tasks (w_db w) -> NoDup (map Task_ID (db_tasks (w_db w) ++ clones))).
Proof.
  intros HE Hret Href src Hne Hfuel.
  destruct (run_prepareAndStreamRetry jobs E (tick w) orig cfg fuel fullRetry refID HE Hret Href Hfuel)
    as (c & clones & n & Hprep & (Hrow & Hcl & Hok) & Hu).
  rewrite (run_retryJob_prepared jobs E w orig fuel fullRetry refID _ _ HE (retry_found _ _ _ _ _ Hret)
             (retry_over _ _ _ _ _ Hret) Hprep).
  set (w1 := mkWorld _ _ _ n).
  destruct (run_retry_start jobs E w1 c (Z.of_nat (length src)) HE (cloned_status _ _ _ _ Hrow))
    as (c' & s & u & n' & Hrun & Hs & Hid & Hrs & Hru).
  { destruct src; [done|]. cbn. lia. }
  exists c, c', clones, s, u, n'. by splits.
Qed.

(** ** Properties *)

(** C5: retrying a finished job without an open clone makes one clone with the
    original as its parent and the given reference, which fits its column, and a fresh
    copy (PENDING, attempt 1, same parameters, key and sequence number) of every task of the original, or of every exhausted
    one for a partial retry, and publishes exactly those copies in sequence order;
    the loop over pages of 1000 ends within [n / 1000 + 1] turns for [n] tasks.  The
    clone then runs; the original job and its tasks are left as they were. *)
Theorem retryJob_clones `{UuidText} `{FsmLaws} `{Codec} E w jobs orig cfg fuel fullRetry refID :
  reliable E -> retriable E jobs (w_db w) orig cfg -> pg_varchar 255 refID = true ->
  let src := tasks_in_order (Job_ID orig) (retryStatuses fullRetry) (w_db w) in
  src ≠ [] -> (enough (length src) <= fuel)%nat ->
  exists c c' clones started upd n,
    run E (retryJob jobs fuel (Job_ID orig) fullRetry refID) w =
    (mkWorld (update_jobs (job_has_id (Job_ID c)) (row_started started upd)
                (mkDB (db_jobs (w_db w) ++ [c]) (db_tasks (w_db w) ++ clones)))
       (w_kafka w ++ omap (task_message (Kafka_TaskTopic (Cfg_Kafka cfg))) clones) (w_hooks w) n,
     Some (Ok (Some c'))) /\
    Job_Status c' = JobStatusRunning /\ Job_ID c' = Job_ID c /\
    cloned_row (w_db w) orig refID c /\ Forall2 (clone_of c) src clones.
Proof.
  intros HE Hret Href src Hne Hfuel.
  destruct (retryJob_clones_lemma E w jobs orig cfg fuel fullRetry refID HE Hret Href Hne Hfuel)
    as (c & c' & clones & s & u & n & Hrun & Hs & Hid & (Hrow & Hcl & _) & _).
  exists c, c', clones, s, u, n. by splits.
Qed.

Theorem retryJob_clones_witness :
  let orig := sample_job 1 JobStatusPartialFailed in
  let tasks := [sample_row 2 1 TaskStatusCompleted 1; sample_row 3 1 TaskStatusMaxRetriesExhausted 3] in
  let w := sample_world [orig] tasks in
  exists c c' clone,
    let '(w', r) := run env_ok (@retryJob sample_uuid_text sample_fsm sample_jobs 1 1 false "again") w in
    r = Some (Ok (Some c')) /\ db_tasks (w_db w') = tasks ++ [clone] /\
    Job_Status c' = JobStatusRunning /\ Job_ParentJobID c = Some 1%N /\
    clone_of c (sample_row 3 1 TaskStatusMaxRetriesExhausted 3) clone.
Proof.
  intros orig tasks w.
  assert (@retriable sample_codec env_ok sample_jobs (w_db w) orig sample_cfg) as Hret.
  { apply sample_retriable; [by repeat constructor| |by vm_compute].
    split; [apply (bool_decide_unpack _); by vm_compute|by repeat constructor]. }
  destruct (@retryJob_clones sample_uuid_text sample_fsm sample_fsm_laws sample_codec env_ok w sample_jobs
              orig sample_cfg 1 false "again" env_ok_reliable Hret ltac:(by vm_compute) ltac:(done) ltac:(vm_compute; lia))
    as (c & c' & clones & s & u & n & Hrun & Hs & Hid & Hrow & Hcl).
  change (tasks_in_order _ _ _) with [sample_row 3 1 TaskStatusMaxRetriesExhausted 3] in Hcl.
  apply Forall2_cons_inv_l in Hcl as (clone & rest & Hc & Hrest & ->).
  apply Forall2_nil_inv_l in Hrest as ->.
  exists c, c', clone. cbv zeta. change (Job_ID orig) with 1%N in Hrun. rewrite Hrun.
  splits; [done|done|exact Hs|exact (cloned_parent _ _ _ _ Hrow)|exact Hc].
Defined.

(** A retry that selects no task (a partial retry of a job none of whose tasks
    is MAX_RETRIES_EXHAUSTED, whatever FAILED or CANCELLED tasks it has) makes an
    empty clone that is COMPLETED on the spot, and publishes nothing. *)
Theorem retryJob_nothing `{UuidText} `{FsmLaws} `{Codec} E w jobs orig cfg fuel fullRetry refID :
  reliable E -> retriable E jobs (w_db w) orig cfg -> pg_varchar 255 refID = true ->
  tasks_in_order (Job_ID orig) (retryStatuses fullRetry) (w_db w) = [] -> (1 <= fuel)%nat ->
  exists c c' fin upd s u n,
    run E (retryJob jobs fuel (Job_ID orig) fullRetry refID) w =
    (mkWorld (update_jobs (job_has_id (Job_ID c))
                (fun j => finalized JobStatusCompleted fin upd (row_started s u j))
                (mkDB (db_jobs (w_db w) ++ [c]) (db_tasks (w_db w))))
       (w_kafka w) (w_hooks w ++ [OnJobFinished (Job_Name orig) refID JobStatusCompleted 0]) n,
     Some (Ok (Some c'))) /\
    cloned_row (w_db w) orig refID c.
Proof.
  intros HE Hret Href Hnil Hfuel.
  destruct (run_prepareAndStreamRetry jobs E (tick w) orig cfg fuel fullRetry refID HE Hret Href)
    as (c & clones & n & Hprep & (Hrow & Hcl & _) & _).
  { cbn [tick w_db]. by rewrite Hnil. }
  cbn [tick w_db] in *. rewrite Hnil in Hprep, Hcl. apply Forall2_nil_inv_l in Hcl as ->.
  rewrite (run_retryJob_prepared jobs E w orig fuel fullRetry refID _ _ HE (retry_found _ _ _ _ _ Hret)
             (retry_over _ _ _ _ _ Hret) Hprep).
  pose proof (cloned_status _ _ _ _ Hrow) as Hst. unfold Job_IsRunning, Job_IsPending. rewrite Hst.
  cbn [omap list_omap length Z.of_nat]. rewrite !app_nil_r.
  change (bool_decide (JobStatusPending = JobStatusRunning)) with false.
  change (bool_decide (JobStatusPending = JobStatusPending)) with true. cbv beta iota.
  rewrite run_bind. set (w1 := mkWorld _ _ _ n).
  destruct (run_startClonedJob E w1 c HE Hst) as (c' & s & u & n' & -> & _ & Hid & _). cbn [fst snd].
  change (Z.of_nat 0 =? 0) with true. cbv iota. rewrite run_bind, Hid.
  edestruct (run_finalize_started jobs E) as (fin & upd & n2 & ->);
    [done|rewrite (cloned_name _ _ _ _ Hrow); exact (retry_cfg _ _ _ _ _ Hret)| | |reflexivity|];
    cbn [w1 w_db db_jobs].
  { rewrite List.filter_app. cbn. rewrite (proj2 (job_has_id_true _ _)) by done.
    rewrite filter_none; [done|]. intros j Hj. apply job_has_id_false. intros Heq.
    apply (cloned_id _ _ _ _ Hrow). cbn. rewrite <- Heq. by apply list_elem_of_In, in_map, list_elem_of_In. }
  { unfold tasks_of. cbn [w1 w_db db_tasks]. apply filter_none. intros t Ht. apply N.eqb_neq. intros Heq.
    apply (cloned_owner _ _ _ _ Hrow). rewrite <- Heq. by apply list_elem_of_In, in_map, list_elem_of_In. }
  cbn [fst snd run]. rewrite (cloned_name _ _ _ _ Hrow), (cloned_ref _ _ _ _ Hrow).
  by exists c, c', fin, upd, s, u, n2.
Qed.

Theorem retryJob_nothing_witness :
  let orig := sample_job 1 JobStatusPartialFailed in
  let tasks := [sample_row 2 1 TaskStatusFailed 1; sample_row 3 1 TaskStatusCancelled 1] in
  let w := sample_world [orig] tasks in
  exists c' n fin,
    let '(w', r) := run env_ok (@retryJob sample_uuid_text sample_fsm sample_jobs 1 1 false "again") w in
    r = Some (Ok (Some c')) /\ w_tick w' = n /\ w_kafka w' = [] /\ db_tasks (w_db w') = tasks /\
    fin = JobStatusCompleted /\ w_hooks w' = [OnJobFinished "job" "again" fin 0].
Proof.
  intros orig tasks w.
  assert (@retriable sample_codec env_ok sample_jobs (w_db w) orig sample_cfg) as Hret.
  { apply sample_retriable; [by repeat constructor| |by vm_compute].
    split; [apply (bool_decide_unpack _); by vm_compute|by repeat constructor]. }
  destruct (@retryJob_nothing sample_uuid_text sample_fsm sample_fsm_laws sample_codec env_ok w sample_jobs
              orig sample_cfg 1 false "again" env_ok_reliable Hret ltac:(by vm_compute) eq_refl ltac:(lia))
    as (c & c' & fin & upd & s & u & n & Hrun & Hrow).
  exists c', n, JobStatusCompleted. cbv zeta. change (Job_ID orig) with 1%N in Hrun. rewrite Hrun.
  by splits.
Defined.

(** C29: retrying a job whose previous clone is still open makes no second clone: a
    PENDING clone, whose first publication did not get to its start, has all its
    tasks published again in order and is started; a RUNNING one has them published
    again and the call returns no job. *)
Theorem retryJob_resumes `{UuidText} `{FsmLaws} `{Codec} E w jobs orig cfg fuel fullRetry refID c :
  reliable E -> List.filter (job_has_id (Job_ID orig)) (db_jobs (w_db w)) = [orig] ->
  Job_IsExecutionPending orig = false -> jobs !! Job_Name orig = Some cfg ->
  Cfg_Publisher cfg = Some NewTaskPublisher ->
  pick newest_first (List.filter (is_pending_clone (Job_ID orig)) (db_jobs (w_db w))) = Some c ->
  numbered (Job_ID c) (w_db w) ->
  let ts := tasks_in_order (Job_ID c) [] (w_db w) in
  ts ≠ [] -> (enough (length ts) <= fuel)%nat ->
  exists c' started upd n,
    run E (retryJob jobs fuel (Job_ID orig) fullRetry refID) w =
    (mkWorld (if Job_IsRunning c then w_db w
              else update_jobs (job_has_id (Job_ID c)) (row_started started upd) (w_db w))
       (w_kafka w ++ omap (task_message (Kafka_TaskTopic (Cfg_Kafka cfg))) ts) (w_hooks w) n,
     Some (Ok (if Job_IsRunning c then None else Some c'))) /\
    Job_Status c' = JobStatusRunning /\ Job_ID c' = Job_ID c.
Proof.
  intros HE Hf Hover Hcfg Hp Hpick Hnum ts Hne Hfuel.
  assert (Hlen : Summary_Total (summarize (List.filter (task_of_job (Job_ID c)) (db_tasks (w_db w)))) =
                 Z.of_nat (length ts)).
  { cbn. rewrite count_all. f_equal. subst ts. unfold tasks_in_order. rewrite merge_sort_Permutation.
    f_equal. apply List.filter_ext. intros t. by rewrite andb_true_r. }
  assert (Hprep : exists n, run E (prepareAndStreamRetry jobs fuel orig fullRetry refID) (tick w) =
            (mkWorld (w_db w) (w_kafka w ++ omap (task_message (Kafka_TaskTopic (Cfg_Kafka cfg))) ts) (w_hooks w) n,
             Some (Ok (c, Z.of_nat (length ts))))).
  { unfold prepareAndStreamRetry. rewrite Hcfg. unfold FindPendingJobByParentID.
    rewrite run_bind, (run_query E _ (tick w) (Ok (Some c)) HE) by (intros; by rewrite <- Hpick).
    cbn [fst snd]. rewrite run_bind. unfold streamPublishTasks.
    destruct (run_streamPublishTasks_from E (tick (tick w)) (Job_ID c) cfg fuel [] ts (-1) HE Hp Hnum)
      as [n ->]; [by apply split_at_start|done|].
    cbn [fst snd]. unfold GetTaskStatusSummary. rewrite run_bind. set (w1 := mkWorld _ _ _ n).
    rewrite (run_query E _ w1 (Ok (summarize (List.filter (task_of_job (Job_ID c)) (db_tasks (w_db w))))) HE) by done.
    cbn [fst snd]. rewrite Hlen. by eexists. }
  destruct Hprep as [n Hprep].
  rewrite (run_retryJob_prepared jobs E w orig fuel fullRetry refID _ _ HE Hf Hover Hprep).
  destruct (Job_IsRunning c) eqn:Hrun.
  - exists (Job_set_Status JobStatusRunning c), 0, 0, n. by splits.
  - assert (Hst : Job_Status c = JobStatusPending).
    { apply pick_elem, list_elem_of_In, filter_In in Hpick as [_ [_ Hin]%andb_true_iff].
      apply contains_spec in Hin. unfold Job_IsRunning in Hrun. apply bool_decide_eq_false in Hrun.
      apply elem_of_cons in Hin as [?|?%list_elem_of_singleton]; done. }
    set (w1 := mkWorld _ _ _ n).
    destruct (run_retry_start jobs E w1 c (Z.of_nat (length ts)) HE Hst) as (c' & s & u & n' & Hrun' & Hs & Hid & _).
    { destruct ts; [done|]. cbn. lia. }
    exists c', s, u, n'. rewrite Hrun in Hrun'. by splits.
Qed.

Theorem retryJob_resumes_witness :
  let orig := sample_job 1 JobStatusFailed in
  let c := mkJob 4 (Some 1%N) "job" JobStatusPending 3 (Some "again"%string) 30 30 None None None sample_params in
  let w := sample_world [orig; c] [sample_row 5 4 TaskStatusPending 1] in
  exists c' n s u,
    run env_ok (@retryJob sample_uuid_text sample_fsm sample_jobs 1 1 true "again") w =
    (mkWorld (update_jobs (job_has_id 4) (row_started s u) (w_db w))
       (omap (@task_message sample_codec "tasks") [sample_row 5 4 TaskStatusPending 1]) [] n,
     Some (Ok (Some c'))) /\ Job_ID c' = 4%N.
Proof.
  intros orig c w.
  destruct (@retryJob_resumes sample_uuid_text sample_fsm sample_fsm_laws sample_codec env_ok w sample_jobs
              orig sample_cfg 1 true "again" c env_ok_reliable eq_refl eq_refl eq_refl eq_refl eq_refl)
    as (c' & s & u & n & Hrun & _ & Hid).
  - split; [apply (bool_decide_unpack _); by vm_compute|by repeat constructor].
  - done.
  - vm_compute. lia.
  - exists c', n, s, u. split; [exact Hrun|exact Hid].
Defined.
