(* ===== verification/Recovery.v ===== *)
(** * Recovery: a finished job run again, to its end

    The composition of [Retry] with the consumers and the completion cron, and of a
    whole run ([Pipeline]) with the partial retry of what it left undone. *)
From S2P Require Import Prelude Go Domain Effects Repository WellFormed JobConfig Transport Instances Lifecycle.
From S2P Require Import Finalizer TriggerFailure JobExecutor TaskExecutor Trace Delivery Pipeline Retry.

Section recovery.
  Context `{UuidText} `{Fsm} `{Pgtype} `{FloatConv} `{Codec}.
  Context (jobs : gmap string JobConfig) (cfg : JobConfig).

(** Retry the job, consume, check. *)
Definition retry_pipeline (E : env) (plan : delivery_plan) (loops fuel : nat) (jobID : uuid) (name : string)
    (fullRetry : bool) (refID : string) (w : World) : option World :=
  run_to_end jobs cfg (retryJob jobs loops jobID fullRetry refID) E plan fuel name w.

Definition retry_calls (E : env) (plan : delivery_plan) (loops fuel : nat) (jobID : uuid) (name : string)
    (fullRetry : bool) (refID : string) (w : World) : list (handle * gomap) :=
  calls_to_end jobs cfg (retryJob jobs loops jobID fullRetry refID) E plan fuel name w.

(** Every job is published by the library's publisher, as a registration sets it up. *)
Definition library_publishers : Prop :=
  forall name c, jobs !! name = Some c -> Cfg_Publisher c = Some NewTaskPublisher.

(** ** A retry runs no task *)
#[local] Hint Resolve idle_transitionJob idle_maybeFinalizeJob : idle.

Lemma idle_cloneBatch c batch : idle (cloneBatch c batch).
Proof. induction batch as [|t batch IH]; cbn [cloneBatch]; idle_go. Qed.
#[local] Hint Resolve idle_cloneBatch : idle.

Context (Hlib : library_publishers).

Lemma idle_streamClone_from name c fuel after total src clone statuses :
  jobs !! name = Some c -> idle (streamCloneAndPublish_from fuel after total src clone statuses c).
Proof.
  intros Hc. pose proof (fun ts topic => idle_cfg_PublishTasks c ts topic (Hlib _ _ Hc)) as Hpub.
  revert after total. induction fuel as [|fuel IH]; intros after total; cbn [streamCloneAndPublish_from]; [done|].
  unfold FindTasksByJobIDAndStatusesBatch, CreateTasks. idle_go.
Qed.

Lemma idle_streamPublish_from name c fuel after jobID :
  jobs !! name = Some c -> idle (streamPublishTasks_from fuel after jobID c).
Proof.
  intros Hc. pose proof (fun ts topic => idle_cfg_PublishTasks c ts topic (Hlib _ _ Hc)) as Hpub.
  revert after. induction fuel as [|fuel IH]; intros after; cbn [streamPublishTasks_from]; [done|].
  unfold FindTasksByJobIDAndStatusesBatch. idle_go.
Qed.

Lemma idle_retryJob loops jobID fullRetry refID : idle (retryJob jobs loops jobID fullRetry refID).
Proof.
  unfold retryJob, prepareAndStreamRetry, startClonedJob, FindJobByID, FindPendingJobByParentID, GetTaskStatusSummary,
    CreateJobAndTasks, streamPublishTasks, streamCloneAndPublish.
  apply idle_bind; [idle_go|]. intros [orig|e]; [|done]. destruct (Job_IsExecutionPending orig); [done|].
  apply idle_bind; [|intros r; idle_go].
  destruct (jobs !! Job_Name orig) as [c|] eqn:Hc; [|done].
  pose proof (fun fuel after total src clone st => idle_streamClone_from _ c fuel after total src clone st Hc).
  pose proof (fun fuel after id => idle_streamPublish_from _ c fuel after id Hc). idle_go.
Qed.
End recovery.

(** ** Specification *)

(** A row made for an item under a configuration. *)
Definition made_of `{Pgtype} (cfg : JobConfig) (d : TaskData) (t : Task) : Prop :=
  JSONB_Set (TaskData_Params d) = Ok (Task_Params t) /\ Task_MaxRetries t = retries_of cfg.

(** Parents are in the table. *)
Definition parents_known (db : DB) : Prop :=
  forall j p, j ∈ db_jobs db -> Job_ParentJobID j = Some p -> p ∈ map Job_ID (db_jobs db).

(** ** Lemmas *)
Section whole.
  Context `{UuidText} `{FsmLaws} `{PgtypeLaws} `{FloatConv} `{CodecLaws}.
  Context (jobs : gmap string JobConfig) (cfg : JobConfig) (E : env) (x : handle) (w : World) (orig : Job).
  Context (fullRetry : bool) (refID : string) (data : list TaskData) (plan : delivery_plan) (loops fuel : nat).
  Context (HE : reliable E) (Hwired : wired cfg x) (Hclock : json_clock E cfg).
  Context (Hret : retriable E jobs (w_db w) orig cfg) (Href : pg_varchar 255 refID = true).
Let src : list Task := tasks_in_order (Job_ID orig) (retryStatuses fullRetry) (w_db w).
  Context (Hmade : Forall2 (made_of cfg) data src).
  Context (Hne : data ≠ []) (Hdata : forall d, d ∈ data -> exists p, receives d p).
  Context (Huj : unique_jobs (w_db w)) (Hut : unique_tasks (w_db w)).
  Context (Hlen : (instances_of (Job_Name orig) (w_db w) < 200)%nat).
  Context (Hloops : (enough (length data) <= loops)%nat) (Hfuel : turns cfg (length data) + redeliveries plan fuel <= Z.of_nat fuel).

Lemma source_retries : retries_of cfg <= max_int64.
Proof using Hret Hmade Hne.
  clear Hdata Hloops Hfuel Hlen. pose proof (in_order_fit _ (retryStatuses fullRetry) _ (proj2 (retry_columns _ _ _ _ _ Hret))) as Hfit.
  fold src in Hfit. destruct Hmade as [|d t data' ts [_ Hr] _]; [done|]. apply Forall_cons in Hfit as [Hfit _].
  unfold task_fits in Hfit. rewrite !andb_true_iff in Hfit. destruct_and! Hfit.
  match goal with Hm : pg_integer (Task_MaxRetries t) = true |- _ => apply pg_integer_spec in Hm; rewrite Hr in Hm end.
  unfold max_int64. lia.
Qed.

(** The clones are rows of the same items, with the same number of retries. *)
Lemma clones_untried c j clones :
  Forall (fun t => task_fits t = true) clones -> Forall (fun t => json_task t = true) clones ->
  Forall2 (clone_of c) src clones -> Job_ID j = Job_ID c -> Job_CreatedAt j = Job_CreatedAt c ->
  Forall2 (untried j (retries_of cfg)) data clones.
Proof.
  intros Hfit Hjs Hcl Hid Hcr. clear Hne Hdata Hloops Hfuel. revert data Hmade Hfit Hjs.
  induction Hcl as [|s t src clones Hc _ IH]; intros data Hmade Hfit Hjs; inversion Hmade as [|d ? data' ? [Hp Hr]]; subst; constructor;
    apply Forall_cons in Hfit as [Hft Hfit]; apply Forall_cons in Hjs as [Hjt Hjs].
  - destruct Hc as [F1 F2 F3 F4 F5 _ _ _ F9]. split; [|done]. split; try congruence.
    assert (retries_of cfg ≠ 0) as Hz by (unfold retries_of; destruct (Z.eqb_spec (Retry_MaxRetries (Cfg_Retry cfg)) 0); done).
    by rewrite F5, Hr, (proj2 (Z.eqb_neq _ _) Hz).
  - by apply IH.
Qed.

(** A retry leaves one message for each clone. *)
Lemma retry_start :
  exists c clones s u,
    let j := row_started s u c in
    let w1 := (run E (retryJob jobs loops (Job_ID orig) fullRetry refID) w).1 in
    let q := map (fun t => Some (Task_ID t)) clones in
    cloned_row (w_db w) orig refID c /\ json_job j = true /\ Forall2 (untried j (retries_of cfg)) data clones /\
    w_db w1 = update_jobs (job_has_id (Job_ID c)) (row_started s u)
                (mkDB (db_jobs (w_db w) ++ [c]) (db_tasks (w_db w) ++ clones)) /\
    tasks_of (Job_ID j) (w_db w1) = clones /\
    draining cfg E x j (retries_of cfg) data (w_db w1) (drop (length (w_kafka w)) (w_kafka w1)) q /\
    measure j (w_db w1) q + redeliveries plan fuel <= Z.of_nat fuel.
Proof.
  assert (Hsrc : src ≠ []) by (intros Hnil; rewrite Hnil in Hmade; by inversion Hmade; subst).
  pose proof (Forall2_length _ _ _ Hmade) as Hl.
  destruct (retryJob_clones_lemma E w jobs orig cfg loops fullRetry refID HE Hret Href Hsrc)
    as (c & c' & clones & s & u & n & Hrun & _ & _ & (Hrow & Hcl & [_ Hfit Hjs]) & [Hrs Hru] & Huq); [by rewrite Hl in Hloops|].
  exists c, clones, s, u. cbv zeta. rewrite Hrun. cbn [fst w_db w_kafka]. rewrite drop_app_length.
  set (j := row_started s u c). destruct (Hjs (clock_now _ _ Hclock)) as [Hcj Htj].
  assert (Hjj : json_job j = true) by (eapply row_started_json; [exact (clock_now _ _ Hclock)|done..]).
  assert (Hun : Forall2 (untried j (retries_of cfg)) data clones) by (by eapply clones_untried).
  assert (Hown : tasks_of (Job_ID j) (mkDB (db_jobs (w_db w) ++ [c]) (db_tasks (w_db w) ++ clones)) = clones).
  { unfold tasks_of. cbn [db_tasks]. rewrite List.filter_app, filter_none, filter_all; [done| |].
    - apply Forall_forall. intros t [i Hi]%list_elem_of_lookup.
      destruct (Forall2_lookup_r _ _ _ _ _ Hcl Hi) as (s0 & _ & Hc). apply N.eqb_eq. exact (clone_job _ _ _ Hc).
    - intros t Ht. apply N.eqb_neq. intros Heq. apply (cloned_owner _ _ _ _ Hrow).
      change (Job_ID c) with (Job_ID j). rewrite <- Heq. by apply list_elem_of_In, in_map, list_elem_of_In. }
  destruct (draining_untried cfg E x
              (update_jobs (job_has_id (Job_ID c)) (row_started s u)
                 (mkDB (db_jobs (w_db w) ++ [c]) (db_tasks (w_db w) ++ clones))) j (retries_of cfg) data clones)
    as [Hdr Hmeas]; [|exact (Huq Hut)|exact Hown|exact Hun|].
  - cbn [db_jobs update_jobs]. rewrite filter_update_hit by done. by rewrite filter_inserted by apply Hrow.
  - splits; [exact Hrow|exact Hjj|exact Hun|done|exact Hown|exact Hdr|]. rewrite Hmeas. exact Hfuel.
Qed.

Lemma retry_ends :
  exists w' c,
    retry_pipeline jobs cfg E plan loops fuel (Job_ID orig) (Job_Name orig) fullRetry refID w = Some w' /\
    (c ∈ db_jobs (w_db w') /\ Job_ID c ∉ map Job_ID (db_jobs (w_db w))) /\
    (Job_Name c = Job_Name orig /\ Job_UniqueReferenceID c = Some refID /\ Job_ParentJobID c = Some (Job_ID orig)) /\
    Forall2 (settled_as E x) data (tasks_of (Job_ID c) (w_db w')) /\
    Job_Status c = job_outcome (tasks_of (Job_ID c) (w_db w')) /\
    OnJobFinished (Job_Name orig) refID (Job_Status c) 0 ∈ w_hooks w' /\
    orig ∈ db_jobs (w_db w') /\ tasks_of (Job_ID orig) (w_db w') = tasks_of (Job_ID orig) (w_db w).
Proof.
  unfold retry_pipeline, run_to_end. destruct retry_start as (c & clones & s & u & Hrow & Hjj & Hun & Hdb & Hcl & Hdr & Hmeas).
  set (w1 := (run E (retryJob jobs loops (Job_ID orig) fullRetry refID) w).1) in *. set (j := row_started s u c) in *.
  destruct Hrow as [Hnew Hown Hparent Hname _ Hcref _ _].
  assert (Hid : map job_identity (db_jobs (w_db w1)) = map job_identity (db_jobs (w_db w)) ++ [job_identity c]).
  { rewrite Hdb. cbn [db_jobs update_jobs]. rewrite update_where_map_inv by done. cbn [db_jobs]. apply map_app. }
  destruct (one_more_job (Job_Name j) (w_db w) (w_db w1) c Hid Hnew Huj) as [Hu1 Hlen1].
  assert (Hlen2 : (instances_of (Job_Name j) (w_db w1) <= 200)%nat).
  { change (Job_Name j) with (Job_Name c) in *. rewrite Hname in *. lia. }
  assert (Hjn : Job_Name j = Job_Name orig) by exact Hname.
  destruct (drain_and_check jobs cfg E x HE Hwired Hclock w1 j data (retries_of cfg) plan fuel _ _ Hne
              ltac:(rewrite Hjn; exact (retry_cfg _ _ _ _ _ Hret)) eq_refl Hjj (retry_publisher _ _ _ _ _ Hret) source_retries Hdata Hu1 Hlen2 Hdr Hmeas)
    as (w2 & -> & Hrun). rewrite Hjn in Hrun. cbv zeta in Hrun. cbn [mbind option_bind].
  destruct Hrun as ([_ _ _ _ Hoth _] & _ & Hset & (fin & upd & Hin) & Hh & Hrest).
  assert (Ho : orig ∈ db_jobs (w_db w)).
  { assert (In orig [orig]) as Hi by by left. rewrite <- (retry_found _ _ _ _ _ Hret) in Hi.
    by apply filter_In in Hi as [?%list_elem_of_In _]. }
  assert (Hno : Job_ID orig ≠ Job_ID c).
  { intros Heq. apply Hnew. rewrite <- Heq. by apply list_elem_of_In, in_map, list_elem_of_In. }
  eexists _, (finalized _ fin upd j). splits; [done|exact Hin|done|done|done|done| |done| | |].
  - eapply Forall2_impl; [exact Hset|]. by intros d t [_ ?].
  - change (Job_UniqueReferenceID j) with (Job_UniqueReferenceID c) in Hh. by rewrite Hcref in Hh.
  - apply Hrest.
    + rewrite Hdb. apply update_where_other; [apply elem_of_app; by left|]. by apply job_has_id_false.
    + pose proof (retry_over _ _ _ _ _ Hret) as Hover. unfold Job_IsExecutionPending, Job_IsRunning in *.
      apply bool_decide_eq_false. intros Hst. by rewrite Hst in Hover.
  - etrans; [exact (Hoth _ Hno)|]. unfold tasks_of. cbn [db_tasks]. rewrite Hdb. cbn [db_tasks update_jobs].
    rewrite List.filter_app, (filter_none _ clones), app_nil_r; [done|].
    intros t Ht. apply N.eqb_neq. intros Heq. rewrite <- Hcl in Ht.
    apply list_elem_of_In, filter_In in Ht as [_ Ht%N.eqb_eq]. cbn in Ht. congruence.
Qed.

Lemma retry_calls_once :
  library_publishers jobs -> (forall d, d ∈ data -> always_succeeds E x d) ->
  exists ps, Forall2 receives data ps /\
    retry_calls jobs cfg E plan loops fuel (Job_ID orig) (Job_Name orig) fullRetry refID w ≡ₚ map (pair x) ps.
Proof.
  intros Hlib Hok. unfold retry_calls. destruct retry_start as (c & clones & s & u & Hrow & Hjj & Hun & Hdb & Hcl & Hdr & Hmeas).
  exists (map params_of (List.filter is_pending clones)). split; [by eapply todo_receives|].
  rewrite (calls_to_end_todo jobs cfg E x HE Hwired Hclock _ w (row_started s u c) data (retries_of cfg) plan fuel (Job_Name orig)
             (map (fun t => Some (Task_ID t)) clones)); try done.
  - unfold todo. by rewrite Hcl.
  - cbn. rewrite (cloned_name _ _ _ _ Hrow). exact (retry_cfg _ _ _ _ _ Hret).
  - exact (retry_publisher _ _ _ _ _ Hret).
  - exact source_retries.
  - by apply idle_retryJob.
Qed.
End whole.

(** The rows a partial retry takes are those of the items that failed. *)
Lemma exhausted_rows `{Pgtype} cfg E x j (fails : TaskData -> bool) data ts :
  Forall2 (fun d t => item_row j (retries_of cfg) d t /\ settled_as E x d t) data ts ->
  (forall d, d ∈ data -> if fails d then always_fails E x d else always_succeeds E x d) ->
  Forall2 (made_of cfg) (List.filter fails data) (List.filter (statuses_match (retryStatuses false)) ts).
Proof.
  intros Hrows Hf. induction Hrows as [|d t data ts [Hrow Hset] _ IH]; [constructor|].
  assert (Hd : if fails d then always_fails E x d else always_succeeds E x d) by (apply Hf; left).
  cbn [List.filter]. destruct Hset as [_ Hok Hbad].
  assert (IH' := IH (fun d' Hd' => Hf d' (list_elem_of_further _ _ _ Hd'))).
  assert (statuses_match (retryStatuses false) t = fails d) as ->.
  { unfold statuses_match, task_status_in. cbn [retryStatuses]. destruct (fails d); [by rewrite (Hbad Hd)|by rewrite (Hok Hd)]. }
  destruct (fails d); [|exact IH']. constructor; [|exact IH']. destruct Hrow. by split.
Qed.

Lemma job_outcome_over j ts : Job_Status j = job_outcome ts -> Job_IsExecutionPending j = false.
Proof. unfold Job_IsExecutionPending. intros ->. unfold job_outcome. by repeat case_match. Qed.

(** What a run leaves of its job can be retried. *)
Lemma run_retriable `{Codec} E jobs cfg db db' job n :
  map job_identity (db_jobs db') = map job_identity (db_jobs db) ++ [job_identity job] ->
  job ∈ db_jobs db' -> Job_ID job ∉ map Job_ID (db_jobs db) -> Job_ParentJobID job = None ->
  unique_jobs db' -> parents_known db ->
  map Task_SequenceNumber (tasks_of (Job_ID job) db') = seqZ 0 (Z.of_nat n) ->
  Job_IsExecutionPending job = false -> jobs !! Job_Name job = Some cfg -> Cfg_Publisher cfg = Some NewTaskPublisher ->
  fresh_uuids E db' -> (forall n, env_now E n ≠ zero_time) ->
  job_fits job = true -> Forall (fun t => task_fits t = true) (tasks_of (Job_ID job) db') ->
  retriable E jobs db' job cfg.
Proof.
  intros Hid Hin Hnew Hpar Hu Hknown Hseq Hover Hcfg Hpub Hfresh Hclock Hfj Hft. split; try done.
  - by apply filter_job_unique.
  - apply filter_none. intros j Hj. apply andb_false_iff. left. apply bool_decide_eq_false. intros Hjp.
    assert (job_identity j ∈ map job_identity (db_jobs db')) as Hi by (by apply list_elem_of_In, in_map, list_elem_of_In).
    rewrite Hid in Hi. apply elem_of_app in Hi as [Hi|Hi%list_elem_of_singleton].
    + apply list_elem_of_In, in_map_iff in Hi as (j0 & Hj0 & Hi%list_elem_of_In).
      apply Hnew, (Hknown j0); [done|]. unfold job_identity in Hj0. congruence.
    + unfold job_identity in Hi. congruence.
  - split.
    + rewrite Hseq. apply NoDup_seqZ.
    + apply Forall_forall. intros t Ht.
      assert (Task_SequenceNumber t ∈ seqZ 0 (Z.of_nat n)) as Hs%elem_of_seqZ; [|lia].
      rewrite <- Hseq. by apply list_elem_of_In, in_map, list_elem_of_In.
Qed.

Lemma retried_in_order jobID statuses db :
  tasks_in_order jobID statuses db ≡ₚ List.filter (statuses_match statuses) (tasks_of jobID db).
Proof. unfold tasks_in_order, tasks_of. by rewrite merge_sort_Permutation, filter_and. Qed.

Lemma Forall2_permutation_r {A B} (R : A -> B -> Prop) l k k' :
  Forall2 R l k -> k ≡ₚ k' -> exists l', l ≡ₚ l' /\ Forall2 R l' k'.
Proof.
  intros Hall Hp. apply Forall2_flip in Hall. destruct (Permutation_Forall2 Hp Hall) as (l' & Hl & Hall').
  exists l'. split; [done|]. by apply Forall2_flip.
Qed.

(** ** Properties *)

(** A retry together with its consumers and the completion check.  In a reliable
    environment a finished job without an open clone, whose selected tasks (all of them
    for a full retry, the exhausted ones for a partial one) are rows of the items [data],
    gets one clone that ends like a run of those items: each task COMPLETED or
    MAX_RETRIES_EXHAUSTED as the caller's code behaves, the status of the clone theirs,
    reported under the clone's reference; the original and its tasks stay as they were. *)
Theorem retry_completes `{UuidText} `{FsmLaws} `{PgtypeLaws} `{FloatConv} `{CodecLaws}
    jobs cfg E x w orig fullRetry refID data plan loops fuel :
  reliable E -> wired cfg x -> json_clock E cfg -> retriable E jobs (w_db w) orig cfg ->
  pg_varchar 255 refID = true ->
  Forall2 (made_of cfg) data (tasks_in_order (Job_ID orig) (retryStatuses fullRetry) (w_db w)) ->
  data ≠ [] -> (forall d, d ∈ data -> exists p, receives d p) ->
  unique_jobs (w_db w) -> unique_tasks (w_db w) ->
  (instances_of (Job_Name orig) (w_db w) < 200)%nat ->
  (enough (length data) <= loops)%nat -> turns cfg (length data) + redeliveries plan fuel <= Z.of_nat fuel ->
  exists w' c,
    retry_pipeline jobs cfg E plan loops fuel (Job_ID orig) (Job_Name orig) fullRetry refID w = Some w' /\
    (c ∈ db_jobs (w_db w') /\ Job_ID c ∉ map Job_ID (db_jobs (w_db w))) /\
    (Job_Name c = Job_Name orig /\ Job_UniqueReferenceID c = Some refID /\ Job_ParentJobID c = Some (Job_ID orig)) /\
    Forall2 (settled_as E x) data (tasks_of (Job_ID c) (w_db w')) /\
    Job_Status c = job_outcome (tasks_of (Job_ID c) (w_db w')) /\
    OnJobFinished (Job_Name orig) refID (Job_Status c) 0 ∈ w_hooks w' /\
    orig ∈ db_jobs (w_db w') /\ tasks_of (Job_ID orig) (w_db w') = tasks_of (Job_ID orig) (w_db w).
Proof. intros. by eapply retry_ends. Qed.

Theorem retry_completes_witness :
  let orig := sample_job 1 JobStatusPartialFailed in
  let tasks := [sample_row 2 1 TaskStatusCompleted 1; sample_row 3 1 TaskStatusMaxRetriesExhausted 3] in
  let data := [mkTaskData "a" (Some ∅) ""; mkTaskData "b" (Some ∅) ""] in
  exists w' c,
    @retry_pipeline sample_uuid_text sample_fsm sample_pgtype sample_codec sample_jobs sample_cfg env_ok sample_plan 1 16 1 "job"
      true "again" (sample_world [orig] tasks) = Some w' /\
    c ∈ db_jobs (w_db w') /\ Job_ParentJobID c = Some 1%N /\ Job_Status c = JobStatusCompleted /\
    Forall2 (fun _ t => Task_Status t = TaskStatusCompleted) data (tasks_of (Job_ID c) (w_db w')) /\
    tasks_of 1 (w_db w') = tasks.
Proof.
  intros orig tasks data.
  assert (Hord : tasks_in_order 1 (retryStatuses true) (mkDB [orig] tasks) = tasks) by by vm_compute.
  assert (Hok : forall d, d ∈ data -> @always_succeeds sample_pgtype env_ok 0%nat d) by (intros d _ p n _; by eexists).
  destruct (@retry_completes sample_uuid_text sample_fsm sample_fsm_laws sample_pgtype sample_pgtype_laws sample_float_conv sample_codec
              sample_codec_laws sample_jobs sample_cfg env_ok 0%nat (sample_world [orig] tasks) orig true "again" data sample_plan 1 16)
    as (w' & c & Hrun & [Hc _] & (_ & _ & Hpar) & Hset & Hst & _ & _ & Htasks).
  - done.
  - by split.
  - apply sample_env_clock.
  - apply sample_retriable; [by repeat constructor| |by vm_compute].
    split; [apply (bool_decide_unpack _); by vm_compute|by repeat constructor].
  - by vm_compute.
  - change (Job_ID orig) with 1%N. cbn [w_db sample_world]. rewrite Hord. by repeat constructor.
  - done.
  - intros d Hd. apply list_elem_of_In in Hd as [<-|[<-|[]]]; eexists; by apply sample_receives.
  - apply NoDup_singleton.
  - apply (bool_decide_unpack _). by vm_compute.
  - vm_compute. lia.
  - vm_compute. lia.
  - vm_compute. discriminate.
  - destruct (all_succeed _ _ _ _ Hset Hok) as [_ Hout]. exists w', c. splits; [exact Hrun|exact Hc|exact Hpar|by rewrite Hst| |exact Htasks].
    eapply Forall2_impl; [exact Hset|]. intros d t [_ Hs _]. apply Hs. intros p n _. by eexists.
Defined.

(** Updates of task rows that a retry does not depend on. *)
Lemma retriable_update_tasks `{Codec} E jobs db orig cfg p f :
  (forall t, Task_ID (f t) = Task_ID t /\ Task_JobID (f t) = Task_JobID t /\ Task_SequenceNumber (f t) = Task_SequenceNumber t) ->
  (forall t, task_fits t = true -> task_fits (f t) = true) ->
  retriable E jobs db orig cfg -> retriable E jobs (update_tasks p f db) orig cfg.
Proof.
  intros Hf Hfits [[Finj Fjob Ftask Fown] ? ? ? ? ? ? [Hnd Hpos] [Hfj Hft]].
  assert (Hown : tasks_of (Job_ID orig) (update_tasks p f db) = update_where p f (tasks_of (Job_ID orig) db)).
  { unfold tasks_of. cbn. apply filter_update_comm. intros t. unfold task_of_job. by destruct (Hf t) as (_ & -> & _). }
  assert (Hseq : map Task_SequenceNumber (tasks_of (Job_ID orig) (update_tasks p f db)) =
                 map Task_SequenceNumber (tasks_of (Job_ID orig) db)).
  { rewrite Hown. apply update_where_map_inv. intros t. apply Hf. }
  split; try done.
  - split; cbn; try done; rewrite update_where_map_inv; try done; intros t; apply Hf.
  - split; [by rewrite Hseq|]. rewrite Hown. apply Forall_forall. intros t (x & Hx & ->)%elem_of_update_where.
    rewrite Forall_forall in Hpos. specialize (Hpos x Hx). destruct (Hf x) as (_ & _ & Hs). case_match; lia.
  - split; [done|]. rewrite Hown. apply Forall_forall. intros t (x & Hx & ->)%elem_of_update_where.
    rewrite Forall_forall in Hft. specialize (Hft x Hx). case_match; [by apply Hfits|done].
Qed.

(** C6: what a partial retry is for.  A run in which some items fail for good ([fails])
    and the others succeed, then, once the cause is gone, a partial retry (under a
    reference that fits its column) with its consumers and a completion check, while the
    clock reads years that JSON can carry: there is a clone of the run's job, COMPLETED, with
    one COMPLETED task for each failed item; the executor is called exactly once for each
    of those, with its parameters, and for no item that had succeeded; the first job and
    its tasks stay as the run left them. *)
Theorem retry_recovers `{UuidText} `{FsmLaws} `{PgtypeLaws} `{FloatConv} `{CodecLaws}
    jobs cfg E1 E2 x w w1 job name ref ref2 metadata data (fails : TaskData -> bool) plan plan2 loops fuel :
  wired cfg x -> json_clock E1 cfg -> json_clock E2 cfg -> library_publishers jobs ->
  (forall d, d ∈ data -> exists p, receives d p) ->
  unique_jobs (w_db w) -> unique_tasks (w_db w) -> parents_known (w_db w) ->
  (instances_of name (w_db w) < 199)%nat ->
  (enough (length data) <= loops)%nat -> turns cfg (length data) + redeliveries plan fuel <= Z.of_nat fuel ->
  turns cfg (length data) + redeliveries plan2 fuel <= Z.of_nat fuel ->
  reliable E1 -> triggerable E1 jobs (w_db w) name ref metadata cfg data -> switched E1 cfg true ->
  (forall d, d ∈ data -> if fails d then always_fails E1 x d else always_succeeds E1 x d) ->
  List.filter fails data ≠ [] ->
  pipeline jobs cfg E1 plan fuel name ref metadata w = Some w1 ->
  job ∈ db_jobs (w_db w1) -> Job_ID job ∉ map Job_ID (db_jobs (w_db w)) ->
  reliable E2 -> fresh_uuids E2 (w_db w1) -> (forall n, env_now E2 n ≠ zero_time) ->
  pg_varchar 255 ref2 = true -> (forall d, d ∈ data -> always_succeeds E2 x d) ->
  exists w2 c ps,
    retry_pipeline jobs cfg E2 plan2 loops fuel (Job_ID job) name false ref2 w1 = Some w2 /\
    (c ∈ db_jobs (w_db w2) /\ Job_ID c ∉ map Job_ID (db_jobs (w_db w1))) /\
    (Job_Name c = name /\ Job_UniqueReferenceID c = Some ref2 /\ Job_ParentJobID c = Some (Job_ID job)) /\
    Job_Status c = JobStatusCompleted /\
    length (tasks_of (Job_ID c) (w_db w2)) = length (List.filter fails data) /\
    Forall (fun t => Task_Status t = TaskStatusCompleted) (tasks_of (Job_ID c) (w_db w2)) /\
    Forall2 receives (List.filter fails data) ps /\
    retry_calls jobs cfg E2 plan2 loops fuel (Job_ID job) name false ref2 w1 ≡ₚ map (pair x) ps /\
    job ∈ db_jobs (w_db w2) /\ tasks_of (Job_ID job) (w_db w2) = tasks_of (Job_ID job) (w_db w1).
Proof.
  intros Hwired Hck1 Hck2 Hlib Hdata Huj Hut Hknown Hlen Hloops Hfuel Hfuel2 HE1 Htr Hsw Hf Hne Hrun Hin Hnew HE2 Hfresh Hclock Href2 Hok.
  assert (Hne0 : data ≠ []) by (by intros ->).
  destruct (pipeline_ends jobs cfg E1 x w name ref metadata data plan fuel HE1 Hwired Hck1 Htr Hsw Hne0 Hdata Huj Hut
              ltac:(lia) Hfuel) as (w1' & j & Hrun' & [Hj Hjnew] & (Hn & _ & Hpar & Hfj) & Hrows & Hst & _ & Hid & Hut1 & Hseq).
  rewrite Hrun in Hrun'. injection Hrun' as <-.
  destruct (one_more_job name (w_db w) (w_db w1) j Hid Hjnew Huj) as [Huj1 Hlen1].
  assert (job = j) as ->.
  { apply (unique_jobs_inj (w_db w1)); try done.
    assert (Job_ID job ∈ map Job_ID (db_jobs (w_db w1))) as Hi by (by apply list_elem_of_In, in_map, list_elem_of_In).
    rewrite map_Job_ID, Hid, map_app, <- map_Job_ID in Hi. apply elem_of_app in Hi as [?|Hi%list_elem_of_singleton]; done. }
  assert (Hret : retriable E2 jobs (w_db w1) j cfg).
  { eapply run_retriable; try done; [by eapply job_outcome_over|rewrite Hn; apply Htr|..].
    - exact (trigger_publisher _ _ _ _ _ _ _ _ Htr).
    - clear -Hrows. induction Hrows as [|d t data ts [Hrow _] _ IH]; constructor; [apply Hrow|done]. }
  destruct (Forall2_permutation_r _ _ _ _ (exhausted_rows cfg E1 x j fails data _ Hrows Hf)
              (Permutation_sym (retried_in_order (Job_ID j) (retryStatuses false) (w_db w1)))) as (data' & Hp & Hmade).
  assert (Hsub : forall d, d ∈ data' -> d ∈ data).
  { intros d. rewrite <- Hp. rewrite !list_elem_of_In. by intros [? _]%filter_In. }
  assert (Hle : (length data' <= length data)%nat) by (rewrite <- Hp; apply filter_length_le).
  assert (Hne' : data' ≠ []) by (intros ->; by apply Permutation_nil_r in Hp).
  assert (Hloops' : (enough (length data') <= loops)%nat).
  { etrans; [|exact Hloops]. unfold enough. by apply le_n_S, Nat.Div0.div_le_mono. }
  assert (Hfuel' : turns cfg (length data') + redeliveries plan2 fuel <= Z.of_nat fuel).
  { etrans; [|exact Hfuel2]. unfold turns, task_attempts. nia. }
  rewrite <- Hn in Hlen1, Hlen |- *.
  destruct (retry_ends jobs cfg E2 x w1 j false ref2 data' plan2 loops fuel HE2 Hwired Hck2 Hret Href2 Hmade Hne'
              (fun d Hd => Hdata d (Hsub d Hd)) Huj1 Hut1 ltac:(lia) Hloops' Hfuel')
    as (w2 & c & Hrun2 & Hc & Hcols & Hset & Hcst & _ & Hjk & Htk).
  destruct (retry_calls_once jobs cfg E2 x w1 j false ref2 data' plan2 loops fuel HE2 Hwired Hck2 Hret Href2 Hmade Hne'
              (fun d Hd => Hdata d (Hsub d Hd)) Hut1 Hloops' Hfuel' Hlib (fun d Hd => Hok d (Hsub d Hd)))
    as (ps & Hps & Hcalls).
  destruct (all_succeed E2 x data' _ Hset (fun d Hd => Hok d (Hsub d Hd))) as [Hall Hout].
  destruct (Permutation_Forall2 (Permutation_sym Hp) Hps) as (ps' & Hpp & Hps').
  exists w2, c, ps'. destruct Hc, Hcols as (? & ? & ?). splits; try done.
  - by rewrite Hcst.
  - by rewrite <- (Forall2_length _ _ _ Hset), Hp.
  - by rewrite Hcalls, Hpp.
Qed.

(** The sample items: the second fails in [picky_env]. *)
Definition sample_items : list TaskData :=
  [mkTaskData "a" (Some ∅) "k"; mkTaskData "b" (Some {["bad"%string := VBool true]}) ""].
Definition breaks (d : TaskData) : bool := bool_decide (TaskData_Name d = "b"%string).

(** Later the cause is gone. *)
Definition mended_env : env :=
  mkEnv (fun n => Z.min (2 ^ 62) (1000000 * Z.of_nat n + 1000)) (fun n => N.of_nat (1000 + n)) (fun _ => SqlDone) (fun _ => WriteDone)
    (fun _ _ _ => Ok sample_items) (fun _ _ _ => Ok (Some ∅)) (fun _ _ => true).

Lemma mended_clock : json_clock mended_env sample_cfg.
Proof.
  assert (2 ^ 62 + 1000 < year_9999) as Hy by done.
  split; intros n; apply json_time_range; cbn [env_now mended_env sample_cfg Cfg_Retry Retry_RetryDelay]; unfold Add; lia.
Qed.

Definition before_run : World := sample_world [sample_job 1 JobStatusCompleted] [sample_row 2 1 TaskStatusCompleted 1].
Definition after_run : World :=
  default before_run (@pipeline sample_uuid_text sample_fsm sample_pgtype sample_float_conv sample_codec sample_jobs sample_cfg
    (picky_env sample_items) sample_plan 16 "job" "new" None before_run).

Lemma sample_items_triggerable :
  @triggerable sample_pgtype sample_codec (picky_env sample_items) sample_jobs (w_db before_run) "job" "new" None
    sample_cfg sample_items.
Proof.
  apply sample_triggerable; [| |done|repeat constructor; by eexists|by repeat constructor|done].
  - intros j ->%list_elem_of_singleton. done.
  - intros t ->%list_elem_of_singleton. done.
Qed.

Lemma sample_items_receive d : d ∈ sample_items -> exists p, @receives sample_pgtype d p.
Proof. intros Hd. apply list_elem_of_In in Hd as [<-|[<-|[]]]; eexists; by apply sample_receives. Qed.

Lemma sample_items_split d : d ∈ sample_items ->
  if breaks d then @always_fails sample_pgtype (picky_env sample_items) 0%nat d
  else @always_succeeds sample_pgtype (picky_env sample_items) 0%nat d.
Proof.
  intros Hd. apply list_elem_of_In in Hd as [<-|[<-|[]]].
  - by eapply sample_succeeds; [apply sample_receives|..].
  - by eapply sample_fails; [apply sample_receives|..|eexists].
Qed.

Lemma mended_fresh db :
  forallb (fun i => (i <? 1000)%N)
    (map Job_ID (db_jobs db) ++ map Task_ID (db_tasks db) ++ map Task_JobID (db_tasks db)) = true ->
  fresh_uuids mended_env db.
Proof.
  rewrite !forallb_app, !andb_true_iff, !forallb_forall. intros (H1 & H2 & H3).
  split; [cbn; lia|..]; intros n Hin%list_elem_of_In; cbn [env_uuid mended_env] in Hin.
  - specialize (H1 _ Hin). apply N.ltb_lt in H1. lia.
  - specialize (H2 _ Hin). apply N.ltb_lt in H2. lia.
  - specialize (H3 _ Hin). apply N.ltb_lt in H3. lia.
Qed.

Theorem retry_recovers_witness :
  exists w2 c,
    @retry_pipeline sample_uuid_text sample_fsm sample_pgtype sample_codec sample_jobs sample_cfg
      mended_env sample_plan 1 16 102 "job" false "again" after_run = Some w2 /\
    c ∈ db_jobs (w_db w2) /\ Job_ParentJobID c = Some 102%N /\ Job_Status c = JobStatusCompleted /\
    @retry_calls sample_uuid_text sample_fsm sample_pgtype sample_codec sample_jobs sample_cfg
      mended_env sample_plan 1 16 102 "job" false "again" after_run = [(0%nat, Some {["bad"%string := VBool true]})].
Proof.
  destruct (@retry_recovers sample_uuid_text sample_fsm sample_fsm_laws sample_pgtype sample_pgtype_laws sample_float_conv sample_codec
              sample_codec_laws sample_jobs sample_cfg (picky_env sample_items) mended_env 0%nat before_run after_run
              (List.last (db_jobs (w_db after_run)) (sample_job 1 JobStatusCompleted)) "job" "new" "again" None sample_items
              breaks sample_plan sample_plan 1 16)
    as (w2 & c & ps & Hrun & [Hc _] & (_ & _ & Hpar) & Hst & _ & _ & Hps & Hcalls & _).
  - by split.
  - apply sample_env_clock.
  - apply mended_clock.
  - unfold library_publishers, sample_jobs. by intros name cfg [_ <-]%lookup_singleton_Some.
  - apply sample_items_receive.
  - apply NoDup_singleton.
  - apply NoDup_singleton.
  - by intros j p ->%list_elem_of_singleton.
  - vm_compute. lia.
  - vm_compute. lia.
  - vm_compute. discriminate.
  - vm_compute. discriminate.
  - done.
  - apply sample_items_triggerable.
  - done.
  - apply sample_items_split.
  - done.
  - vm_compute. reflexivity.
  - vm_compute. right. left.
  - vm_compute. by intros [=]%list_elem_of_singleton.
  - done.
  - apply mended_fresh. by vm_compute.
  - intros n. cbn [env_now mended_env]. unfold zero_time. lia.
  - by vm_compute.
  - intros d Hd p n _. by eexists.
  - assert (Hid : Job_ID (List.last (db_jobs (w_db after_run)) (sample_job 1 JobStatusCompleted)) = 102%N) by (vm_compute; reflexivity).
    rewrite Hid in Hrun, Hpar, Hcalls. exists w2, c. splits; [exact Hrun|exact Hc|exact Hpar|exact Hst|].
    change (List.filter breaks sample_items) with [mkTaskData "b" (Some {["bad"%string := VBool true]}) ""] in Hps.
    inversion Hps as [|? p1 ? ps' Hr Hnil]; subst. inversion Hnil; subst.
    rewrite (receives_inj "b" {["bad"%string := VBool true]} "" p1) in Hcalls; [|by apply sample_receives|done|exact Hr].
    by apply Permutation_singleton_r in Hcalls.
Defined.

(** C28: a repeated trigger undoes what a partial retry needs.  The reference of a
    trigger is meant to be repeated: on a job that is over nothing runs again, but
    every one of its tasks gets the job's status, so a partial retry, which selects the
    tasks in MAX_RETRIES_EXHAUSTED, then finds none: it answers with a clone (its
    reference fits its column) without tasks, COMPLETED at once, publishes nothing, and
    the failed items are never run. *)
Theorem retrigger_defeats_retry `{UuidText} `{FsmLaws} `{Pgtype} `{FloatConv} `{Codec}
    E w jobs cfg job ref metadata loops ref2 :
  reliable E -> pick newest_first (List.filter (has_ref ref) (db_jobs (w_db w))) = Some job -> job_typed job ->
  retriable E jobs (w_db w) job cfg -> pg_varchar 255 ref2 = true -> (1 <= loops)%nat ->
  exists w' c c',
    run E (executeJob jobs (Job_Name job) ref metadata ≫= (fun _ => retryJob jobs loops (Job_ID job) false ref2)) w =
      (w', Some (Ok (Some c'))) /\
    (c ∈ db_jobs (w_db w') /\ (Job_ID c ∉ map Job_ID (db_jobs (w_db w))) /\ Job_ParentJobID c = Some (Job_ID job)) /\
    Job_Status c = JobStatusCompleted /\ tasks_of (Job_ID c) (w_db w') = [] /\ w_kafka w' = w_kafka w /\
    map Task_Status (tasks_of (Job_ID job) (w_db w')) = map (fun _ => Job_Status job) (tasks_of (Job_ID job) (w_db w)).
Proof.
  intros HE Hpick Hty Hret Href2 Hloops. rewrite run_bind.
  destruct (run_executeJob_over E w jobs (Job_Name job) ref metadata cfg job HE (retry_cfg _ _ _ _ _ Hret) Hpick
              (retry_over _ _ _ _ _ Hret)) as (upd & d & n & ->). cbn [fst snd].
  set (f := Task_UpdateStatus (Job_Status job) upd). set (w1 := mkWorld _ _ _ n).
  assert (Hret1 : retriable E jobs (w_db w1) job cfg) .
  { apply retriable_update_tasks; [done| |done]. destruct (retry_columns _ _ _ _ _ Hret) as [Hfj _].
    intros t. unfold task_fits, job_fits in *. rewrite !andb_true_iff in *. destruct_and! Hfj. intros Ht. destruct_and! Ht.
    by cbn -[pg_varchar pg_integer]; split_and!. }
  assert (Hown : tasks_of (Job_ID job) (w_db w1) = map f (tasks_of (Job_ID job) (w_db w))).
  { unfold tasks_of. cbn [w1 w_db db_tasks update_tasks]. rewrite filter_update_comm by done.
    apply map_ext_in. intros t [_ ->]%filter_In. done. }
  assert (Hnil : tasks_in_order (Job_ID job) (retryStatuses false) (w_db w1) = []).
  { unfold tasks_in_order. rewrite filter_none; [done|]. intros t Ht. apply andb_false_iff.
    destruct (task_of_job (Job_ID job) t) eqn:Ho; [right|by left].
    assert (t ∈ tasks_of (Job_ID job) (w_db w1)) as Hin by (apply list_elem_of_In, filter_In; split; [by apply list_elem_of_In|done]).
    rewrite Hown in Hin. apply list_elem_of_In, in_map_iff in Hin as (t0 & <- & _). cbn.
    apply not_true_is_false. intros Hst%contains_spec%list_elem_of_singleton. unfold job_typed in Hty.
    change (Job_Status job = TaskStatusMaxRetriesExhausted) in Hst. rewrite Hst in Hty. by apply contains_spec in Hty. }
  destruct (retryJob_nothing E w1 jobs job cfg loops false ref2 HE Hret1 Href2 Hnil Hloops)
    as (c & c' & fin & u1 & s & u & n' & -> & Hrow).
  set (done_row := fun j => finalized JobStatusCompleted fin u1 (row_started s u j)).
  eexists _, (done_row c), c'. splits; [reflexivity|..]; cbn [w_db w_kafka].
  - cbn. unfold update_where. rewrite map_app. apply elem_of_app. right. cbn. rewrite (proj2 (job_has_id_true _ _)) by done. left.
  - exact (cloned_id _ _ _ _ Hrow).
  - exact (cloned_parent _ _ _ _ Hrow).
  - done.
  - unfold tasks_of. cbn. apply filter_none. intros t Ht. apply N.eqb_neq. intros Heq.
    apply (cloned_owner _ _ _ _ Hrow). change (Job_ID (done_row c)) with (Job_ID c) in Heq. rewrite <- Heq.
    by apply list_elem_of_In, in_map, list_elem_of_In.
  - done.
  - change (tasks_of (Job_ID job) _) with (tasks_of (Job_ID job) (w_db w1)) at 1. rewrite Hown, map_map. done.
Qed.

Theorem retrigger_defeats_retry_witness :
  let job := sample_job 1 JobStatusPartialFailed in
  let w := sample_world [job] [sample_row 2 1 TaskStatusCompleted 1; sample_row 3 1 TaskStatusMaxRetriesExhausted 3] in
  exists w' c,
    (run env_ok (@executeJob sample_uuid_text sample_fsm sample_pgtype sample_float_conv sample_jobs "job" "ref" None ≫=
                 (fun _ => @retryJob sample_uuid_text sample_fsm sample_jobs 1 1 false "again")) w).1 = w' /\
    c ∈ db_jobs (w_db w') /\ Job_Status c = JobStatusCompleted /\ tasks_of (Job_ID c) (w_db w') = [] /\
    map Task_Status (db_tasks (w_db w')) = [JobStatusPartialFailed; JobStatusPartialFailed].
Proof.
  intros job w.
  assert (@retriable sample_codec env_ok sample_jobs (w_db w) job sample_cfg) as Hret.
  { apply sample_retriable; [by repeat constructor| |by vm_compute].
    split; [apply (bool_decide_unpack _); by vm_compute|by repeat constructor]. }
  destruct (@retrigger_defeats_retry sample_uuid_text sample_fsm sample_fsm_laws sample_pgtype sample_float_conv sample_codec
              env_ok w sample_jobs sample_cfg job "ref" None 1 "again" env_ok_reliable eq_refl
              ltac:(apply contains_spec; reflexivity) Hret ltac:(by vm_compute) ltac:(lia))
    as (w' & c & c' & Hrun & (Hc & _) & Hst & Hnone & _).
  change (Job_Name job) with "job"%string in Hrun. change (Job_ID job) with 1%N in Hrun.
  exists w', c. rewrite Hrun. splits; [done|exact Hc|exact Hst|exact Hnone|].
  apply (f_equal fst) in Hrun. cbn [fst] in Hrun. rewrite <- Hrun. by vm_compute.
Defined.
