(* ===== verification/Scheduler.v ===== *)
(** * Scheduler: registration, wiring and shutdown of a service

    [internal/scheduler/service.go] and [config.go], and the [ConsumerRegistry] of
    [internal/transport/consumer.go].  A registration that fails may already have
    changed the service: each operation returns the service it leaves behind with
    its error.  The asynq scheduler ([Scheduler.Register], which parses the cron
    expression) and the constructor of Kafka readers are parameters. *)
From stdpp Require Import pretty.
From S2P Require Import Prelude Go Domain Effects Repository JobConfig Transport Instances Lifecycle.
From S2P Require Import Finalizer TriggerFailure JobExecutor TaskExecutor Kafka.

(** ** Consumers *)

(** A (consumer group, topic) pair: [consumerKey] and [consumerRef]. *)
Abbreviation consumer_key := (string * string)%type.

Record Consumer : Type := mkConsumer { Consumer_reader : handle; Consumer_isRetry : bool }.

Abbreviation registry := (gmap consumer_key Consumer).

Definition registry_Start (reader : option handle) (isRetry : bool) (group topic : string) (r : registry) :
    registry * option error :=
  match reader with
  | None => (r, Some (ErrText "message reader cannot be nil"))
  | Some reader =>
      match r !! (group, topic) with
      | Some _ => (r, None)
      | None => (<[(group, topic) := mkConsumer reader isRetry]> r, None)
      end
  end.

(** The readers it closes, and the registry it leaves. *)
Definition registry_StopAll (r : registry) : registry * list handle :=
  (∅, map (fun kc => Consumer_reader kc.2) (map_to_list r)).

Definition registry_Len (r : registry) : Z := Z.of_nat (size r).

(** ** Configurations as they are completed *)

Definition default_retries (n : Z) : Z := if n =? 0 then 3 else n.

(** The job configuration with its transport side filled in. *)
Definition complete_job (cfg : JobConfig) (kafka : KafkaConfig) (taskExecutor : option handle)
    (publisher : option Publisher) (taskReader retryReader : option handle) : JobConfig :=
  mkJobConfig (Cfg_Name cfg) (Cfg_JobExecutor cfg) taskExecutor kafka (Cfg_Schedule cfg)
    (mkRetryConfig (default_retries (Retry_MaxRetries (Cfg_Retry cfg))) (Retry_RetryDelay (Cfg_Retry cfg)))
    (Cfg_CancelPrevious cfg) (Cfg_Enabled cfg) (MergeHooks (Cfg_Hooks cfg)) publisher taskReader retryReader
    (Cfg_JobCompletionCron cfg).

(** [x], or the value made when it is nil. *)
Definition or_else {A} (x : option A) (y : A) : option A :=
  match x with Some _ => x | None => Some y end.

Record Service : Type := mkService {
  Svc_jobs : gmap string JobConfig;
  Svc_registry : registry;
  Svc_shared : gset consumer_key;
  Svc_entries : list (string * string);
}.

Definition Svc_set_jobs (j : gmap string JobConfig) (s : Service) : Service :=
  mkService j (Svc_registry s) (Svc_shared s) (Svc_entries s).
Definition Svc_set_registry (r : registry) (s : Service) : Service :=
  mkService (Svc_jobs s) r (Svc_shared s) (Svc_entries s).
Definition Svc_set_shared (x : gset consumer_key) (s : Service) : Service :=
  mkService (Svc_jobs s) (Svc_registry s) x (Svc_entries s).
Definition Svc_add_entry (e : string * string) (s : Service) : Service :=
  mkService (Svc_jobs s) (Svc_registry s) (Svc_shared s) (Svc_entries s ++ [e]).

(** The part of [New] after the checks. *)
Definition new_service : Service := mkService ∅ ∅ ∅ [].

Definition isSharedConsumer (group topic : string) (s : Service) : bool :=
  bool_decide ((group, topic) ∈ Svc_shared s).

Definition reserveSharedConsumer (group topic : string) (s : Service) : Service :=
  Svc_set_shared ({[(group, topic)]} ∪ Svc_shared s) s.

(** The owner named is the first one in the map's order, which Go leaves open. *)
Definition consumerOwner (group topic : string) (s : Service) : option string :=
  if isSharedConsumer group topic s then Some "a shared consumer"%string
  else
    match List.filter (fun nj => bool_decide (Kafka_ConsumerGroup (Cfg_Kafka nj.2) = group) &&
                                 bool_decide (Kafka_TaskTopic (Cfg_Kafka nj.2) = topic))
            (map_to_list (Svc_jobs s)) with
    | (name, _) :: _ => Some ("job " ++ quote name)%string
    | [] => None
    end.

Definition retry_group (k : KafkaConfig) : string := (Kafka_ConsumerGroup k ++ "-retry")%string.

Section service.
  Context `{Codec}.
  (** [asynq.Scheduler.Register] on a cron expression: the error it returns, if any. *)
  Context (cron_error : string -> option error).
  (** [kafkago.NewReader]. *)
  Context (kafkago_NewReader : ReaderConfig -> handle).

(** [s.scheduler.Register(spec, NewTask(taskType))]. *)
Definition schedule (spec taskType : string) (s : Service) : Service * option error :=
  match cron_error spec with
  | Some e => (s, Some e)
  | None => (Svc_add_entry (spec, taskType) s, None)
  end.

(** The retry reader of a configuration, made when there is a retry topic. *)
Definition retry_reader (given : option handle) (k : KafkaConfig) : option handle :=
  match given with
  | Some _ => given
  | None =>
      if bool_decide (Kafka_TaskRetryTopic k = ""%string) then None
      else Some (NewKafkaReader kafkago_NewReader k (retry_group k) (Kafka_TaskRetryTopic k))
  end.

(** Both consumers of a configuration; [what] names the caller in the errors. *)
Definition start_consumers (what : string) (k : KafkaConfig) (taskReader retryReader : option handle)
    (s : Service) : Service * option error :=
  let '(r, err) := registry_Start taskReader false (Kafka_ConsumerGroup k) (Kafka_TaskTopic k) (Svc_registry s) in
  let s := Svc_set_registry r s in
  match err with
  | Some e => (s, Some (ErrWrap ("start " ++ what ++ "task consumer") e))
  | None =>
      match retryReader with
      | None => (s, None)
      | Some _ =>
          let '(r, err) := registry_Start retryReader true (retry_group k) (Kafka_TaskRetryTopic k) (Svc_registry s) in
          let s := Svc_set_registry r s in
          (s, match err with
              | Some e => Some (ErrWrap ("start " ++ what ++ "retry consumer") e)
              | None => None
              end)
      end
  end%string.

Definition setupJobInfra (jobCfg : JobConfig) (s : Service) : Service * result error JobConfig :=
  let k := Cfg_Kafka jobCfg in
  if isSharedConsumer (Kafka_ConsumerGroup k) (Kafka_TaskTopic k) s then
    (s, Err (ErrText ("consumer group " ++ quote (Kafka_ConsumerGroup k) ++ " with topic " ++
                      quote (Kafka_TaskTopic k) ++ " is managed by a shared consumer; register this job " ++
                      "together with the others via RegisterShared")))
  else
    let jobCfg := complete_job jobCfg k (Cfg_TaskExecutor jobCfg)
                    (or_else (Cfg_Publisher jobCfg) NewTaskPublisher)
                    (or_else (Cfg_TaskReader jobCfg) (NewKafkaReader kafkago_NewReader k (Kafka_ConsumerGroup k) (Kafka_TaskTopic k)))
                    (retry_reader (Cfg_RetryReader jobCfg) k) in
    let '(s, err) := start_consumers "" k (Cfg_TaskReader jobCfg) (Cfg_RetryReader jobCfg) s in
    match err with
    | Some e => (s, Err e)
    | None =>
        if bool_decide (Cfg_JobCompletionCron jobCfg = ""%string) then (s, Ok jobCfg)
        else
          let '(s, err) := schedule (Cfg_JobCompletionCron jobCfg) (CompletionCheckTaskType (Cfg_Name jobCfg)) s in
          match err with
          | Some e => (s, Err (ErrWrap ("register completion cron for " ++ Cfg_Name jobCfg) e))
          | None => (s, Ok jobCfg)
          end
    end%string.

Definition already_registered (name : string) : error :=
  ErrText ("job " ++ name ++ " already registered").

Definition Register (jobCfg : JobConfig) (s : Service) : Service * option error :=
  match Validate jobCfg with
  | Some e => (s, Some e)
  | None =>
  match Svc_jobs s !! Cfg_Name jobCfg with
  | Some _ => (s, Some (already_registered (Cfg_Name jobCfg)))
  | None =>
  let '(s, r) := setupJobInfra jobCfg s in
  match r with
  | Err e => (s, Some e)
  | Ok jobCfg =>
      let s := Svc_set_jobs (<[Cfg_Name jobCfg := jobCfg]> (Svc_jobs s)) s in
      let '(s, err) := schedule (Cfg_Schedule jobCfg) (Cfg_Name jobCfg) s in
      match err with
      | Some e => (s, Some (ErrWrap ("register asynq schedule for " ++ Cfg_Name jobCfg) e))
      | None => (s, None)
      end
  end end end%string.

Definition RegisterManual (jobCfg : JobConfig) (s : Service) : Service * option error :=
  match ValidateManual jobCfg with
  | Some e => (s, Some e)
  | None =>
  match Svc_jobs s !! Cfg_Name jobCfg with
  | Some _ => (s, Some (already_registered (Cfg_Name jobCfg)))
  | None =>
  let '(s, r) := setupJobInfra jobCfg s in
  match r with
  | Err e => (s, Some e)
  | Ok jobCfg => (Svc_set_jobs (<[Cfg_Name jobCfg := jobCfg]> (Svc_jobs s)) s, None)
  end end end.

(** The loop that completes and schedules the jobs of a shared registration. *)
Fixpoint prepareShared (cfg : SharedKafkaConfig) (publisher : option Publisher) (jobs : list JobConfig)
    (s : Service) : Service * result error (list JobConfig) :=
  match jobs with
  | [] => (s, Ok [])
  | jobCfg :: jobs =>
      let jobCfg := complete_job jobCfg (Shared_Kafka cfg) (Shared_TaskExecutor cfg) publisher
                      (Cfg_TaskReader jobCfg) (Cfg_RetryReader jobCfg) in
      let '(s, err) := schedule (Cfg_JobCompletionCron jobCfg) (CompletionCheckTaskType (Cfg_Name jobCfg)) s in
      match err with
      | Some e => (s, Err (ErrWrap ("register completion cron for " ++ Cfg_Name jobCfg) e))
      | None =>
          let '(s, err) :=
            if bool_decide (Cfg_Schedule jobCfg = ""%string) then (s, None)
            else schedule (Cfg_Schedule jobCfg) (Cfg_Name jobCfg) s in
          match err with
          | Some e => (s, Err (ErrWrap ("register asynq schedule for " ++ Cfg_Name jobCfg) e))
          | None =>
              let '(s, rest) := prepareShared cfg publisher jobs s in
              (s, result_map (cons jobCfg) rest)
          end
      end
  end%string.

Definition commit_jobs (jobs : list JobConfig) (m : gmap string JobConfig) : gmap string JobConfig :=
  fold_left (fun m jobCfg => <[Cfg_Name jobCfg := jobCfg]> m) jobs m.

Definition RegisterShared (cfg : SharedKafkaConfig) (s : Service) : Service * option error :=
  match ValidateShared cfg with
  | Some e => (s, Some e)
  | None =>
  match List.filter (fun j => negb (is_nil (Svc_jobs s !! Cfg_Name j))) (Shared_Jobs cfg) with
  | j :: _ => (s, Some (already_registered (Cfg_Name j)))
  | [] =>
  let k := Shared_Kafka cfg in
  match consumerOwner (Kafka_ConsumerGroup k) (Kafka_TaskTopic k) s with
  | Some owner =>
      (s, Some (ErrText ("consumer group " ++ quote (Kafka_ConsumerGroup k) ++ " with topic " ++
                         quote (Kafka_TaskTopic k) ++ " already in use by " ++ owner)))
  | None =>
  let publisher := or_else (Shared_Publisher cfg) NewTaskPublisher in
  let taskReader := or_else (Shared_TaskReader cfg) (NewKafkaReader kafkago_NewReader k (Kafka_ConsumerGroup k) (Kafka_TaskTopic k)) in
  let retryReader := retry_reader (Shared_RetryReader cfg) k in
  let '(s, r) := prepareShared cfg publisher (Shared_Jobs cfg) s in
  match r with
  | Err e => (s, Some e)
  | Ok prepared =>
      let '(s, err) := start_consumers "shared " k taskReader retryReader s in
      match err with
      | Some e => (s, Some e)
      | None =>
          let s := Svc_set_jobs (commit_jobs prepared (Svc_jobs s)) s in
          (reserveSharedConsumer (Kafka_ConsumerGroup k) (Kafka_TaskTopic k) s, None)
      end
  end end end end%string.
End service.

Definition GetRegisteredJobs (s : Service) : gmap string JobConfig := Svc_jobs s.

(** ** Running a service *)

(** What [Start] installs for a task type. *)
Inductive handler : Type :=
| HandleTrigger
| HandleCompletionCheck (jobName : string).

Definition start_handlers (name : string) (cfg : JobConfig) : list (string * handler) :=
  (if bool_decide (Cfg_Schedule cfg = ""%string) then [] else [(name, HandleTrigger)]) ++
  (if bool_decide (Cfg_JobCompletionCron cfg = ""%string) then []
   else [(CompletionCheckTaskType name, HandleCompletionCheck name)]).

(** The handlers of [Start], in the order of the jobs map, which Go leaves open. *)
Definition Start (s : Service) : list (string * handler) :=
  concat (map (fun nj => start_handlers nj.1 nj.2) (map_to_list (Svc_jobs s))).

(** The metadata a scheduled trigger passes on. *)
Definition trigger_metadata (taskID : string) (retryCount maxRetry : Z) : gmap string value :=
  <[metadataAsynqTaskID := VString taskID]>
    (<[metadataAsynqRetryCnt := VInt retryCount]> (<[metadataAsynqMaxRetry := VInt maxRetry]> ∅)).

Section run.
  Context `{UuidText} `{Fsm} `{Pgtype} `{FloatConv}.

Definition Service_ExecuteJob (s : Service) (jobName refID : string) (metadata : gomap) : prog (option error) :=
  ExecuteJob (Svc_jobs s) jobName refID metadata.

Definition Trigger (s : Service) (jobName refID : string) (metadata : gomap) : prog (option error) :=
  Service_ExecuteJob s jobName refID metadata.

(** What a handler does with an asynq task. *)
Definition handle_task (s : Service) (h : handler) (taskType taskID : string) (retryCount maxRetry : Z) :
    prog (option error) :=
  match h with
  | HandleTrigger => Service_ExecuteJob s taskType taskID (Some (trigger_metadata taskID retryCount maxRetry))
  | HandleCompletionCheck name => CheckJobCompletions (Svc_jobs s) name
  end.

Definition Service_TerminateJob (jobID : uuid) : prog (res unit) :=
  try (TerminateJob jobID) (ErrWrap ("terminate job " ++ uuid_String jobID)) (fun x => Ret (Ok x)).
End run.

Definition Stop (s : Service) : Service * list handle :=
  let '(r, closed) := registry_StopAll (Svc_registry s) in (Svc_set_registry r s, closed).

(** ** Bootstrap configuration *)
Record DatabaseConfig : Type := mkDatabaseConfig {
  Db_Host : string;
  Db_Port : Z;
  Db_User : string;
  Db_Password : string;
  Db_DBName : string;
  Db_SSLMode : string;
  Db_MaxOpenConns : Z;
  Db_MaxIdleConns : Z;
}.

Record Config : Type := mkConfig {
  Config_ServiceName : string;
  Config_Database : DatabaseConfig;
  Config_RedisAddr : string;
  Config_RedisDB : Z;
  Config_Logger : option handle;
  Config_DB : option handle;
}.

(** [strings.Join]. *)
Fixpoint join (sep : string) (l : list string) : string :=
  match l with
  | [] => ""
  | [s] => s
  | s :: l => s ++ sep ++ join sep l
  end%string.

Definition database_errors (db : DatabaseConfig) : list string :=
  (if blank (Db_Host db) then ["host is required"%string] else []) ++
  (if Db_Port db <=? 0 then ["port must be greater than 0"%string] else []) ++
  (if blank (Db_User db) then ["user is required"%string] else []) ++
  (if blank (Db_DBName db) then ["database name is required"%string] else []).

Definition validateDatabaseConfig (db : DatabaseConfig) : option error :=
  match database_errors db with
  | [] => None
  | errs => Some (ErrText (join ", " errs))
  end.

Definition validateConfig (cfg : Config) : option error :=
  match
    guards
      [(blank (Config_ServiceName cfg), "service name is required");
       (blank (Config_RedisAddr cfg), "redis address is required");
       ((Config_RedisDB cfg <? 0)%Z, "redis DB cannot be negative");
       (is_nil (Config_Logger cfg), "logger is required")]%string
  with
  | Some e => Some e
  | None =>
      match Config_DB cfg with
      | Some _ => None
      | None =>
          match validateDatabaseConfig (Config_Database cfg) with
          | Some e => Some (ErrWrap "database config" e)
          | None => None
          end
      end
  end.

(** [testing] is [testing.Testing()]. *)
Definition buildDSN (testing : bool) (db : DatabaseConfig) : string :=
  let host := if testing then "localhost"%string else Db_Host db in
  let sslMode := if bool_decide (Db_SSLMode db = ""%string) then "disable"%string else Db_SSLMode db in
  let maxOpen := if Db_MaxOpenConns db <=? 0 then 25 else Db_MaxOpenConns db in
  let maxIdle := if Db_MaxIdleConns db <=? 0 then 5 else Db_MaxIdleConns db in
  ("host=" ++ host ++ " user=" ++ Db_User db ++ " password=" ++ Db_Password db ++ " dbname=" ++ Db_DBName db ++
   " port=" ++ pretty (Db_Port db) ++ " sslmode=" ++ sslMode ++ " TimeZone=UTC pool_max_conns=" ++ pretty maxOpen ++
   " pool_min_conns=" ++ pretty maxIdle)%string.

(** ** Specification *)

(** A registered job has everything the executors use. *)
Record complete (c : JobConfig) : Prop := {
  complete_executor : is_Some (Cfg_JobExecutor c);
  complete_task_executor : is_Some (Cfg_TaskExecutor c);
  complete_publisher : is_Some (Cfg_Publisher c);
  complete_retries : Retry_MaxRetries (Cfg_Retry c) ≠ 0;
  complete_hooks :
    is_Some (Hooks_OnTasksPublished (Cfg_Hooks c)) /\ is_Some (Hooks_OnTaskStarted (Cfg_Hooks c)) /\
    is_Some (Hooks_OnTaskFinished (Cfg_Hooks c)) /\ is_Some (Hooks_OnJobFinished (Cfg_Hooks c));
}.

Definition key_of (k : KafkaConfig) : consumer_key := (Kafka_ConsumerGroup k, Kafka_TaskTopic k).

(** The consumers a job's messages need. *)
Definition consumed (r : registry) (k : KafkaConfig) : Prop :=
  is_Some (r !! key_of k) /\
  (Kafka_TaskRetryTopic k ≠ ""%string -> is_Some (r !! (retry_group k, Kafka_TaskRetryTopic k))).

(** The invariant of a service. *)
Record svc_ok (s : Service) : Prop := {
  svc_names : forall n c, Svc_jobs s !! n = Some c -> Cfg_Name c = n;
  svc_complete : forall n c, Svc_jobs s !! n = Some c -> complete c;
  svc_consumed : forall n c, Svc_jobs s !! n = Some c -> consumed (Svc_registry s) (Cfg_Kafka c);
  svc_shared : forall n1 c1 n2 c2, Svc_jobs s !! n1 = Some c1 -> Svc_jobs s !! n2 = Some c2 ->
    key_of (Cfg_Kafka c1) = key_of (Cfg_Kafka c2) -> key_of (Cfg_Kafka c1) ∈ Svc_shared s ->
    Cfg_TaskExecutor c1 = Cfg_TaskExecutor c2;
}.

Inductive registration : Type :=
| RegScheduled (cfg : JobConfig)
| RegManual (cfg : JobConfig)
| RegShared (cfg : SharedKafkaConfig).

Definition register `{Codec} cron_error kafkago_NewReader (x : registration) : Service -> Service * option error :=
  match x with
  | RegScheduled cfg => Register cron_error kafkago_NewReader cfg
  | RegManual cfg => RegisterManual cron_error kafkago_NewReader cfg
  | RegShared cfg => RegisterShared cron_error kafkago_NewReader cfg
  end.

(** A service after a sequence of registrations, failed ones included. *)
Definition registered `{Codec} cron_error kafkago_NewReader (xs : list registration) : Service :=
  fold_left (fun s x => (register cron_error kafkago_NewReader x s).1) xs new_service.

(** ** Lemmas *)

(** Nothing but the registry and the cron entries may have grown. *)
Definition grown (s s' : Service) : Prop :=
  Svc_jobs s' = Svc_jobs s /\ Svc_shared s' = Svc_shared s /\ Svc_registry s ⊆ Svc_registry s'.

Lemma grown_refl s : grown s s.
Proof. done. Qed.

Lemma grown_trans a b c : grown a b -> grown b c -> grown a c.
Proof.
  intros (Hj & Hs & Hr) (Hj' & Hs' & Hr'). split; [congruence|]. split; [congruence|]. by etrans.
Qed.

Lemma consumed_mono r r' k : r ⊆ r' -> consumed r k -> consumed r' k.
Proof.
  intros Hr [[x Hx] Hretry]. split; [exists x; by eapply lookup_weaken|].
  intros Ht. destruct (Hretry Ht) as [y Hy]. exists y. by eapply lookup_weaken.
Qed.

Lemma svc_ok_grown s s' : grown s s' -> svc_ok s -> svc_ok s'.
Proof.
  intros (Hj & Hs & Hr) [Hn Hc Hcons Hsh]. split; rewrite ?Hj, ?Hs; try done.
  intros n c Hl. eapply consumed_mono; [exact Hr|by eapply Hcons].
Qed.

Lemma registry_Start_spec reader isRetry g t r :
  let '(r', err) := registry_Start (Some reader) isRetry g t r in
  err = None /\ r ⊆ r' /\ is_Some (r' !! (g, t)).
Proof.
  unfold registry_Start. destruct (r !! (g, t)) as [c|] eqn:Hl.
  - splits; [done|done|by eexists].
  - splits; [done|by apply insert_subseteq|]. rewrite lookup_insert_eq. by eexists.
Qed.

Lemma start_consumers_spec what k tr rr s :
  is_Some tr -> (Kafka_TaskRetryTopic k ≠ ""%string -> is_Some rr) ->
  let '(s', err) := start_consumers what k tr rr s in
  err = None /\ grown s s' /\ Svc_entries s' = Svc_entries s /\ consumed (Svc_registry s') k.
Proof.
  intros [tr' ->] Hrr. unfold start_consumers.
  pose proof (registry_Start_spec tr' false (Kafka_ConsumerGroup k) (Kafka_TaskTopic k) (Svc_registry s)) as Hst.
  destruct (registry_Start (Some tr') _ _ _ _) as [r1 err1]. destruct Hst as (-> & Hsub & Hin).
  destruct rr as [rr'|].
  - cbn [Svc_registry Svc_set_registry].
    pose proof (registry_Start_spec rr' true (retry_group k) (Kafka_TaskRetryTopic k) r1) as Hst.
    destruct (registry_Start (Some rr') _ _ _ _) as [r2 err2]. destruct Hst as (-> & Hsub2 & Hin2).
    splits; [done| |done|].
    + split; [done|]. split; [done|]. cbn. by etrans.
    + destruct Hin as [x Hx]. split; cbn; [exists x; by eapply lookup_weaken|done].
  - splits; [done|by split; [|split]|done|]. split; [done|]. intros Ht. by destruct (Hrr Ht).
Qed.

Lemma schedule_grown cron_error spec ty s : grown s (schedule cron_error spec ty s).1.
Proof. unfold schedule. by case_match. Qed.

Lemma MergeHooks_set h :
  is_Some (Hooks_OnTasksPublished (MergeHooks h)) /\ is_Some (Hooks_OnTaskStarted (MergeHooks h)) /\
  is_Some (Hooks_OnTaskFinished (MergeHooks h)) /\ is_Some (Hooks_OnJobFinished (MergeHooks h)).
Proof. destruct h as [[] [] [] []]; cbn; splits; by eexists. Qed.

Lemma complete_job_complete cfg k te p tr rr :
  is_Some (Cfg_JobExecutor cfg) -> is_Some te -> is_Some p -> complete (complete_job cfg k te p tr rr).
Proof.
  intros He Hte Hp. split; try done; [|apply MergeHooks_set].
  cbn. unfold default_retries. case_match; lia.
Qed.

Lemma or_else_Some {A} (x : option A) y : is_Some (or_else x y).
Proof. destruct x; by eexists. Qed.

Lemma retry_reader_Some kafkago_NewReader given k :
  Kafka_TaskRetryTopic k ≠ ""%string -> is_Some (retry_reader kafkago_NewReader given k).
Proof. intros Hne. unfold retry_reader. destruct given; [by eexists|]. rewrite bool_decide_eq_false_2 by done. by eexists. Qed.

Section infra.
Context `{Codec} (cron_error : string -> option error) (kafkago_NewReader : ReaderConfig -> handle).

Lemma setupJobInfra_spec cfg s :
  job_ok cfg ->
  let '(s', r) := setupJobInfra cron_error kafkago_NewReader cfg s in
  grown s s' /\
  forall cfg', r = Ok cfg' ->
    Cfg_Name cfg' = Cfg_Name cfg /\ complete cfg' /\ consumed (Svc_registry s') (Cfg_Kafka cfg') /\
    key_of (Cfg_Kafka cfg') ∉ Svc_shared s.
Proof.
  intros [_ He Hte _ _ _ _]. unfold setupJobInfra, isSharedConsumer.
  case_bool_decide as Hsh; [by split|].
  set (cfg' := complete_job _ _ _ _ _ _).
  assert (Hcomp : complete cfg') by (apply complete_job_complete; [done|done|apply or_else_Some]).
  pose proof (start_consumers_spec "" (Cfg_Kafka cfg) (Cfg_TaskReader cfg') (Cfg_RetryReader cfg') s) as Hst.
  specialize (Hst (or_else_Some _ _) (retry_reader_Some kafkago_NewReader (Cfg_RetryReader cfg) _)).
  destruct (start_consumers "" _ _ _ s) as [s1 err]. destruct Hst as (-> & Hg & _ & Hcons).
  case_bool_decide.
  - split; [done|]. intros ? [= <-]. by splits.
  - pose proof (schedule_grown cron_error (Cfg_JobCompletionCron cfg') (CompletionCheckTaskType (Cfg_Name cfg')) s1) as Hg2.
    destruct (schedule _ _ _ s1) as [s2 err2]. cbn [fst] in Hg2.
    assert (Hg' : grown s s2) by (by eapply grown_trans).
    destruct err2; (split; [done|]); [done|]. intros ? [= <-]. splits; [done|done| |done].
    eapply consumed_mono; [apply Hg2|exact Hcons].
Qed.

Lemma svc_ok_insert s c :
  svc_ok s -> complete c -> consumed (Svc_registry s) (Cfg_Kafka c) ->
  key_of (Cfg_Kafka c) ∉ Svc_shared s -> svc_ok (Svc_set_jobs (<[Cfg_Name c := c]> (Svc_jobs s)) s).
Proof.
  intros [Hn Hc Hcons Hsh] Hcomp Hco Hkey. split; cbn.
  - intros n x [[<- <-]|[_ Hl]]%lookup_insert_Some; [done|by apply Hn].
  - intros n x [[<- <-]|[_ Hl]]%lookup_insert_Some; [done|by eapply Hc].
  - intros n x [[<- <-]|[_ Hl]]%lookup_insert_Some; [done|by eapply Hcons].
  - intros n1 c1 n2 c2 [[<- <-]|[_ H1]]%lookup_insert_Some [[<- <-]|[_ H2]]%lookup_insert_Some Heq Hin;
      [done|done| |by eapply Hsh].
    rewrite Heq in Hin. done.
Qed.

Lemma Register_ok cfg s : svc_ok s -> svc_ok (Register cron_error kafkago_NewReader cfg s).1.
Proof.
  intros Hs. unfold Register. destruct (Validate cfg) eqn:Hv; [done|].
  destruct (Svc_jobs s !! Cfg_Name cfg); [done|].
  assert (Hok : job_ok cfg).
  { apply ValidateManual_ok. unfold Validate in Hv. by destruct (ValidateManual cfg). }
  pose proof (setupJobInfra_spec cfg s Hok) as Hset.
  destruct (setupJobInfra cron_error kafkago_NewReader cfg s) as [s1 [cfg'|e]]; destruct Hset as [Hg Hset];
    [|by eapply svc_ok_grown].
  destruct (Hset cfg' eq_refl) as (Hname & Hcomp & Hcons & Hkey).
  set (s2 := Svc_set_jobs _ s1).
  pose proof (schedule_grown cron_error (Cfg_Schedule cfg') (Cfg_Name cfg') s2) as Hg2.
  assert (Hs2 : svc_ok s2).
  { apply svc_ok_insert; [by eapply svc_ok_grown|done|done|]. destruct Hg as (_ & Hsh & _). by rewrite Hsh. }
  destruct (schedule _ _ _ s2) as [s3 [e|]]; by eapply svc_ok_grown.
Qed.

Lemma RegisterManual_ok cfg s : svc_ok s -> svc_ok (RegisterManual cron_error kafkago_NewReader cfg s).1.
Proof.
  intros Hs. unfold RegisterManual. destruct (ValidateManual cfg) eqn:Hv; [done|].
  destruct (Svc_jobs s !! Cfg_Name cfg); [done|].
  pose proof (setupJobInfra_spec cfg s (proj1 (ValidateManual_ok cfg) Hv)) as Hset.
  destruct (setupJobInfra cron_error kafkago_NewReader cfg s) as [s1 [cfg'|e]]; destruct Hset as [Hg Hset];
    [|by eapply svc_ok_grown].
  destruct (Hset cfg' eq_refl) as (Hname & Hcomp & Hcons & Hkey).
  apply svc_ok_insert; [by eapply svc_ok_grown|done|done|]. destruct Hg as (_ & Hsh & _). by rewrite Hsh.
Qed.

(** A configuration with everything a registration fills in, when the caller leaves the
    publisher and the readers to it. *)
Definition registered_config (cfg : JobConfig) : JobConfig :=
  let k := Cfg_Kafka cfg in
  complete_job cfg k (Cfg_TaskExecutor cfg) (Some NewTaskPublisher)
    (Some (NewKafkaReader kafkago_NewReader k (Kafka_ConsumerGroup k) (Kafka_TaskTopic k)))
    (Some (NewKafkaReader kafkago_NewReader k (retry_group k) (Kafka_TaskRetryTopic k))).

(** The registry with the consumers of a configuration. *)
Definition with_consumers (k : KafkaConfig) (r : registry) : registry :=
  <[(retry_group k, Kafka_TaskRetryTopic k) := mkConsumer (NewKafkaReader kafkago_NewReader k (retry_group k) (Kafka_TaskRetryTopic k)) true]>
    (<[(Kafka_ConsumerGroup k, Kafka_TaskTopic k) :=
         mkConsumer (NewKafkaReader kafkago_NewReader k (Kafka_ConsumerGroup k) (Kafka_TaskTopic k)) false]> r).

(** Nothing of the configuration is in the service yet. *)
Record unused (cfg : JobConfig) (s : Service) : Prop := {
  unused_name : Svc_jobs s !! Cfg_Name cfg = None;
  unused_shared : key_of (Cfg_Kafka cfg) ∉ Svc_shared s;
  unused_consumer : Svc_registry s !! key_of (Cfg_Kafka cfg) = None;
  unused_retry : Svc_registry s !! (retry_group (Cfg_Kafka cfg), Kafka_TaskRetryTopic (Cfg_Kafka cfg)) = None;
  unused_topics : Kafka_TaskRetryTopic (Cfg_Kafka cfg) ≠ Kafka_TaskTopic (Cfg_Kafka cfg);
  unused_retries : Kafka_TaskRetryTopic (Cfg_Kafka cfg) ≠ ""%string;
  unused_cron : Cfg_JobCompletionCron cfg ≠ ""%string;
  unused_transport : Cfg_Publisher cfg = None /\ Cfg_TaskReader cfg = None /\ Cfg_RetryReader cfg = None;
}.

Lemma setupJobInfra_fresh cfg s :
  unused cfg s -> cron_error (Cfg_JobCompletionCron cfg) = None ->
  setupJobInfra cron_error kafkago_NewReader cfg s =
  (mkService (Svc_jobs s) (with_consumers (Cfg_Kafka cfg) (Svc_registry s)) (Svc_shared s)
     (Svc_entries s ++ [(Cfg_JobCompletionCron cfg, CompletionCheckTaskType (Cfg_Name cfg))]), Ok (registered_config cfg)).
Proof.
  intros [_ Hsh Hc Hr Ht Hrt Hcron (Hp & Htr & Hrr)] He. unfold setupJobInfra, isSharedConsumer, key_of in *.
  rewrite bool_decide_eq_false_2 by done. rewrite Hp, Htr, Hrr. cbn [or_else]. unfold retry_reader.
  rewrite bool_decide_eq_false_2 by done. unfold start_consumers, registry_Start.
  cbn [Cfg_TaskReader Cfg_RetryReader Cfg_JobCompletionCron Cfg_Name complete_job Svc_registry Svc_set_registry].
  rewrite Hc. cbn [Svc_registry Svc_set_registry]. rewrite lookup_insert_ne by congruence. rewrite Hr.
  rewrite bool_decide_eq_false_2 by done. unfold schedule. rewrite He. done.
Qed.

Lemma Register_fresh cfg s :
  Validate cfg = None -> unused cfg s -> cron_error (Cfg_JobCompletionCron cfg) = None ->
  cron_error (Cfg_Schedule cfg) = None ->
  Register cron_error kafkago_NewReader cfg s =
  (mkService (<[Cfg_Name cfg := registered_config cfg]> (Svc_jobs s)) (with_consumers (Cfg_Kafka cfg) (Svc_registry s))
     (Svc_shared s)
     (Svc_entries s ++ [(Cfg_JobCompletionCron cfg, CompletionCheckTaskType (Cfg_Name cfg)); (Cfg_Schedule cfg, Cfg_Name cfg)]),
   None).
Proof.
  intros Hv Hu Hc Hs. unfold Register. rewrite Hv, (unused_name _ _ Hu), setupJobInfra_fresh by done.
  unfold schedule. cbn [Cfg_Schedule registered_config complete_job]. rewrite Hs. unfold Svc_add_entry. cbn. by rewrite <- app_assoc.
Qed.

Lemma Register_known cfg s :
  Validate cfg = None -> is_Some (Svc_jobs s !! Cfg_Name cfg) ->
  Register cron_error kafkago_NewReader cfg s = (s, Some (already_registered (Cfg_Name cfg))).
Proof. intros Hv [c Hc]. unfold Register. by rewrite Hv, Hc. Qed.

Lemma RegisterManual_fresh cfg s :
  ValidateManual cfg = None -> unused cfg s -> cron_error (Cfg_JobCompletionCron cfg) = None ->
  RegisterManual cron_error kafkago_NewReader cfg s =
  (mkService (<[Cfg_Name cfg := registered_config cfg]> (Svc_jobs s)) (with_consumers (Cfg_Kafka cfg) (Svc_registry s))
     (Svc_shared s) (Svc_entries s ++ [(Cfg_JobCompletionCron cfg, CompletionCheckTaskType (Cfg_Name cfg))]), None).
Proof.
  intros Hv Hu Hc. unfold RegisterManual. by rewrite Hv, (unused_name _ _ Hu), setupJobInfra_fresh by done.
Qed.

(** The jobs a shared registration prepares. *)
Lemma prepareShared_spec cfg p jobs s :
  Forall shared_job_ok jobs -> is_Some (Shared_TaskExecutor cfg) -> is_Some p ->
  let '(s', r) := prepareShared cron_error cfg p jobs s in
  grown s s' /\
  forall prepared, r = Ok prepared ->
    map Cfg_Name prepared = map Cfg_Name jobs /\
    Forall (fun c => complete c /\ Cfg_Kafka c = Shared_Kafka cfg /\
                     Cfg_TaskExecutor c = Shared_TaskExecutor cfg) prepared.
Proof.
  intros Hjobs Hte Hp. revert s. induction Hjobs as [|j jobs Hj Hjobs IH]; intros s; cbn [prepareShared].
  { split; [done|]. intros ? [= <-]. by split. }
  set (c := complete_job _ _ _ _ _ _).
  pose proof (schedule_grown cron_error (Cfg_JobCompletionCron c) (CompletionCheckTaskType (Cfg_Name c)) s) as Hg1.
  destruct (schedule _ _ _ s) as [s1 [e|]]; cbn [fst] in Hg1; [by split|].
  assert (Hg2 : grown s1 (if bool_decide (Cfg_Schedule c = ""%string) then (s1, None)
                          else (schedule cron_error (Cfg_Schedule c) (Cfg_Name c) s1)).1).
  { case_bool_decide; [done|apply schedule_grown]. }
  destruct (if bool_decide _ then _ else _) as [s2 [e|]]; cbn [fst] in Hg2; [split; [by eapply grown_trans|done]|].
  specialize (IH s2). destruct (prepareShared _ _ _ _ s2) as [s3 [rest|e]]; destruct IH as [Hg3 Hrest].
  - split; [by eapply grown_trans; [|eapply grown_trans]|]. intros ? [= <-].
    destruct (Hrest rest eq_refl) as [Hn Hall]. split; [cbn; by rewrite Hn|]. constructor; [|done].
    split; [|done]. apply complete_job_complete; [apply Hj|done|done].
  - split; [by eapply grown_trans; [|eapply grown_trans]|done].
Qed.

Lemma commit_jobs_lookup l m n c :
  commit_jobs l m !! n = Some c -> (c ∈ l /\ Cfg_Name c = n) \/ m !! n = Some c.
Proof.
  unfold commit_jobs. revert m. induction l as [|x l IH]; intros m; cbn; [by right|].
  intros Hl. destruct (IH _ Hl) as [[? ?]|Hm]; [left; split; [by right|done]|].
  apply lookup_insert_Some in Hm as [[<- <-]|[_ ?]]; [left; split; [left|done]|by right].
Qed.

Lemma consumerOwner_None g t s :
  consumerOwner g t s = None ->
  ((g, t) ∉ Svc_shared s) /\ forall n c, Svc_jobs s !! n = Some c -> key_of (Cfg_Kafka c) ≠ (g, t).
Proof.
  unfold consumerOwner, isSharedConsumer. case_bool_decide as Hsh; [done|].
  destruct (List.filter _ _) as [|[n0 c0] l] eqn:Hf; [|done]. intros _. split; [done|].
  intros n c Hc [= Hg Ht]. apply elem_of_map_to_list in Hc.
  assert (In (n, c) []) as []. rewrite <- Hf. apply filter_In. split; [by apply list_elem_of_In|].
  cbn. by rewrite !bool_decide_eq_true_2.
Qed.

Lemma RegisterShared_ok cfg s : svc_ok s -> svc_ok (RegisterShared cron_error kafkago_NewReader cfg s).1.
Proof.
  intros Hs. unfold RegisterShared. destruct (ValidateShared cfg) eqn:Hv; [done|].
  apply ValidateShared_ok in Hv as [_ _ _ Hte _ Hjobs _].
  destruct (List.filter _ (Shared_Jobs cfg)); [|done].
  destruct (consumerOwner _ _ s) eqn:Hown; [done|]. apply consumerOwner_None in Hown as [Hnsh Hnone].
  pose proof (prepareShared_spec cfg _ (Shared_Jobs cfg) s Hjobs Hte (or_else_Some (Shared_Publisher cfg) NewTaskPublisher)) as Hprep.
  destruct (prepareShared _ _ _ _ s) as [s1 [prepared|e]]; destruct Hprep as [Hg Hprep]; [|by eapply svc_ok_grown].
  destruct (Hprep prepared eq_refl) as [_ Hall].
  pose proof (start_consumers_spec "shared " (Shared_Kafka cfg)
                (or_else (Shared_TaskReader cfg) (NewKafkaReader kafkago_NewReader (Shared_Kafka cfg)
                   (Kafka_ConsumerGroup (Shared_Kafka cfg)) (Kafka_TaskTopic (Shared_Kafka cfg))))
                (retry_reader kafkago_NewReader (Shared_RetryReader cfg) (Shared_Kafka cfg)) s1
                (or_else_Some _ _) (retry_reader_Some kafkago_NewReader (Shared_RetryReader cfg) _)) as Hst.
  destruct (start_consumers "shared " _ _ _ s1) as [s2 err]. destruct Hst as (-> & Hg2 & _ & Hcons).
  assert (Hg' : grown s s2) by (by eapply grown_trans). destruct (svc_ok_grown _ _ Hg' Hs) as [Hn Hc Hco Hsh].
  destruct Hg' as (Hj & Hshs & _). rewrite Forall_forall in Hall. cbn [fst].
  assert (Hlook : forall n c, commit_jobs prepared (Svc_jobs s2) !! n = Some c ->
            (c ∈ prepared /\ Cfg_Name c = n) \/ (Svc_jobs s2 !! n = Some c /\ key_of (Cfg_Kafka c) ≠ key_of (Shared_Kafka cfg))).
  { intros n c [?|Hl]%commit_jobs_lookup; [by left|right]. split; [done|]. rewrite Hj in Hl. by eapply Hnone. }
  split; cbn.
  - intros n c [[_ ?]|[Hl _]]%Hlook; [done|by apply Hn].
  - intros n c [[Hin _]|[Hl _]]%Hlook; [by apply Hall|by eapply Hc].
  - intros n c [[Hin _]|[Hl _]]%Hlook; [|by eapply Hco]. by destruct (Hall c Hin) as (_ & -> & _).
  - intros n1 c1 n2 c2 [[H1 _]|[H1 K1]]%Hlook [[H2 _]|[H2 K2]]%Hlook Heq Hin.
    + destruct (Hall _ H1) as (_ & _ & ->), (Hall _ H2) as (_ & _ & ->). done.
    + destruct (Hall _ H1) as (_ & Hk & _). rewrite Hk in Heq. congruence.
    + destruct (Hall _ H2) as (_ & Hk & _). rewrite Hk in Heq. congruence.
    + eapply Hsh; eauto. apply elem_of_union in Hin as [Hin%elem_of_singleton|Hin]; [|done]. done.
Qed.
End infra.

(** The sample registration context: one cron expression does not parse. *)
Definition sample_cron (spec : string) : option error :=
  if bool_decide (spec = "bad"%string) then Some (ErrForeign "failed to parse cron spec") else None.
Definition sample_reader (c : ReaderConfig) : handle := String.length (Reader_Topic c).

(** A [kafkago.ReaderConfig] template as a caller leaves it. *)
Definition plain_template : ReaderConfig := mkReaderConfig [] "" "" 0.

(** A job named [name] on consumer (group, topic). *)
Definition sample_registration (name sched group topic : string) (executor : handle) : JobConfig :=
  mkJobConfig name (Some 0%nat) (Some executor)
    (mkKafkaConfig ["broker"%string] topic (topic ++ "-retry") "" group plain_template None)
    sched (mkRetryConfig 0 1000) false None (mkHooks None None None None) None None None "* * * * *".

Definition sample_shared_job (name sched cron : string) : JobConfig :=
  mkJobConfig name (Some 0%nat) None (mkKafkaConfig [] "" "" "" "" plain_template None)
    sched (mkRetryConfig 0 1000) false None (mkHooks None None None None) None None None cron.

Definition sample_shared (jobs : list JobConfig) : SharedKafkaConfig :=
  mkSharedKafkaConfig (mkKafkaConfig ["broker"%string] "shared-tasks" "" "" "shared-group" plain_template None)
    (Some 9%nat) jobs None None None.

Abbreviation sample_Register := (@Register sample_codec sample_cron sample_reader).
Abbreviation sample_RegisterShared := (@RegisterShared sample_codec sample_cron sample_reader).

(** ** Properties *)

(** C14: after any sequence of registrations, failed ones included, every job of the
    service is registered under its own name, has both executors, a publisher, all
    four hooks and a non-zero retry limit, has a running consumer for its task topic
    and, if it has a retry topic, for that one; and jobs that read from the consumer
    of a shared registration all have its one task executor. *)
Theorem registrations_ok `{Codec} cron_error kafkago_NewReader (xs : list registration) :
  svc_ok (registered cron_error kafkago_NewReader xs).
Proof.
  unfold registered. assert (Hs : svc_ok new_service) by done. revert Hs. generalize new_service as s.
  induction xs as [|x xs IH]; intros s Hs; [done|]. cbn. apply IH.
  destruct x; [by apply Register_ok|by apply RegisterManual_ok|by apply RegisterShared_ok].
Qed.

(** A registration that leaves its transport to the library reads the task topic and
    the retry topic through readers of their own: the brokers, the group and the topic
    are the library's whatever the caller's template says, every other setting is the
    template's, which itself stays as it was; no other consumer changes. *)
Theorem Register_readers `{Codec} cron_error kafkago_NewReader cfg s :
  Validate cfg = None -> unused cfg s -> cron_error (Cfg_JobCompletionCron cfg) = None ->
  cron_error (Cfg_Schedule cfg) = None ->
  let k := Cfg_Kafka cfg in
  let made group topic :=
    kafkago_NewReader (mkReaderConfig (Kafka_Brokers k) group topic (Reader_Rest (Kafka_ConsumerConfig k))) in
  let '(s', err) := Register cron_error kafkago_NewReader cfg s in
  err = None /\
  Svc_registry s' !! key_of k = Some (mkConsumer (made (Kafka_ConsumerGroup k) (Kafka_TaskTopic k)) false) /\
  Svc_registry s' !! (retry_group k, Kafka_TaskRetryTopic k) =
    Some (mkConsumer (made (retry_group k) (Kafka_TaskRetryTopic k)) true) /\
  (forall key, key ≠ key_of k -> key ≠ (retry_group k, Kafka_TaskRetryTopic k) ->
     Svc_registry s' !! key = Svc_registry s !! key) /\
  Cfg_Kafka <$> Svc_jobs s' !! Cfg_Name cfg = Some k.
Proof.
  intros Hv Hu Hc Hs. cbv zeta. rewrite (Register_fresh cron_error kafkago_NewReader cfg s Hv Hu Hc Hs).
  pose proof (unused_topics _ _ Hu) as Ht. unfold key_of, with_consumers. cbn [Svc_registry Svc_jobs]. splits.
  - done.
  - rewrite lookup_insert_ne by congruence. apply lookup_insert_eq.
  - apply lookup_insert_eq.
  - intros key H1 H2. by rewrite !lookup_insert_ne.
  - by rewrite lookup_insert_eq.
Qed.

Theorem Register_readers_witness :
  let template := mkReaderConfig ["elsewhere"%string] "mine" "other" 7 in
  let k := mkKafkaConfig ["broker"%string] "t" "t-retry" "" "g" template None in
  let cfg := mkJobConfig "job" (Some 0%nat) (Some 1%nat) k "* * * * *" (mkRetryConfig 0 1000) false None
               (mkHooks None None None None) None None None "* * * * *" in
  let kafkago c := (String.length (Reader_GroupID c) + 100 * Reader_Rest c)%nat in
  let '(s', err) := @Register sample_codec sample_cron kafkago cfg new_service in
  err = None /\ Svc_registry s' !! ("g", "t")%string = Some (mkConsumer 701 false) /\
  Svc_registry s' !! ("g-retry", "t-retry")%string = Some (mkConsumer 707 true).
Proof.
  intros template k cfg kafkago.
  pose proof (@Register_readers sample_codec sample_cron kafkago cfg new_service eq_refl) as Hspec. cbv zeta in Hspec.
  destruct (Register _ _ _ _) as [s' err]. destruct Hspec as (He & Ht & Hr & _); [|done|done|].
  - by split.
  - splits; [exact He|exact Ht|exact Hr].
Defined.

(** C36: a shared registration that fails adds no job, reserves no consumer and
    leaves every job of the service as it was (only cron entries and consumers may
    remain). *)
Theorem RegisterShared_atomic `{Codec} cron_error kafkago_NewReader cfg s e :
  (RegisterShared cron_error kafkago_NewReader cfg s).2 = Some e ->
  grown s (RegisterShared cron_error kafkago_NewReader cfg s).1.
Proof.
  unfold RegisterShared. destruct (ValidateShared cfg) eqn:Hv; [done|].
  apply ValidateShared_ok in Hv as [_ _ _ Hte _ Hjobs _].
  destruct (List.filter _ (Shared_Jobs cfg)); [|done].
  destruct (consumerOwner _ _ s); [done|].
  pose proof (prepareShared_spec cron_error cfg _ (Shared_Jobs cfg) s Hjobs Hte
                (or_else_Some (Shared_Publisher cfg) NewTaskPublisher)) as Hprep.
  destruct (prepareShared _ _ _ _ s) as [s1 [prepared|e']]; destruct Hprep as [Hg _]; [|done].
  pose proof (start_consumers_spec "shared " (Shared_Kafka cfg)
                (or_else (Shared_TaskReader cfg) (NewKafkaReader kafkago_NewReader (Shared_Kafka cfg)
                   (Kafka_ConsumerGroup (Shared_Kafka cfg)) (Kafka_TaskTopic (Shared_Kafka cfg))))
                (retry_reader kafkago_NewReader (Shared_RetryReader cfg) (Shared_Kafka cfg)) s1
                (or_else_Some _ _) (retry_reader_Some kafkago_NewReader (Shared_RetryReader cfg) _)) as Hst.
  destruct (start_consumers "shared " _ _ _ s1) as [s2 err]. by destruct Hst as (-> & _).
Qed.

Theorem RegisterShared_atomic_witness :
  let cfg := sample_shared [sample_shared_job "a" "" "* * * * *"; sample_shared_job "b" "" "bad"] in
  let '(s', err) := sample_RegisterShared cfg new_service in
  grown new_service s' /\ is_Some err /\ Svc_jobs s' = ∅ /\ Start s' = [] /\
  Svc_entries s' = [("* * * * *", CompletionCheckTaskType "a")]%string.
Proof.
  intros cfg.
  pose proof (@RegisterShared_atomic sample_codec sample_cron sample_reader cfg new_service
    (ErrWrap "register completion cron for b" (ErrForeign "failed to parse cron spec")) eq_refl) as Hspec.
  vm_compute in Hspec |- *. split; [exact Hspec|]. split; [eexists; reflexivity|]. repeat split.
Defined.

(** [Register] of a job whose schedule does not parse returns an error but
    leaves the job registered: it runs on demand, its consumers and completion cron
    are started, and registering it again with a correct schedule is refused. *)
Theorem Register_bad_schedule :
  let bad := sample_registration "job" "bad" "g" "t" 1 in
  let good := sample_registration "job" "* * * * *" "g" "t" 1 in
  let '(s1, err1) := sample_Register bad new_service in
  let '(s2, err2) := sample_Register good s1 in
  err1 = Some (ErrWrap "register asynq schedule for job" (ErrForeign "failed to parse cron spec")) /\
  is_Some (Svc_jobs s1 !! "job"%string) /\ registry_Len (Svc_registry s1) = 2 /\
  err2 = Some (already_registered "job") /\ s2 = s1.
Proof.
  cbv zeta. set (r1 := sample_Register _ _). rewrite (surjective_pairing r1).
  assert (Hin : is_Some (Svc_jobs r1.1 !! "job"%string)) by (apply is_nil_false; vm_compute; reflexivity).
  rewrite (Register_known sample_cron sample_reader _ r1.1); [|by vm_compute|exact Hin].
  subst r1. splits; [by vm_compute|exact Hin|by vm_compute|done|done].
Qed.

(** Two separate registrations with the same consumer group and task topic are
    both accepted, and the second silently reads through the consumer, and the
    reader, of the first. *)
Theorem Register_same_consumer :
  let a := sample_registration "a" "* * * * *" "g" "t" 1 in
  let b := sample_registration "b" "* * * * *" "g" "t" 2 in
  let '(s1, err1) := sample_Register a new_service in
  let '(s2, err2) := sample_Register b s1 in
  err1 = None /\ err2 = None /\
  is_Some (Svc_jobs s2 !! "a"%string) /\ is_Some (Svc_jobs s2 !! "b"%string) /\
  Svc_registry s2 = Svc_registry s1 /\ registry_Len (Svc_registry s2) = 2.
Proof.
  cbv zeta. set (r1 := sample_Register _ _). rewrite (surjective_pairing r1). set (r2 := sample_Register _ r1.1).
  rewrite (surjective_pairing r2). subst r2 r1.
  splits; first [apply is_nil_false|idtac]; vm_compute; reflexivity.
Qed.
