(* ===== verification/Payroll.v ===== *)
(** * Payroll: the jobs of the sample program

    [examples/payroll]: the store ([store.go]) and the executors of the two jobs
    ([payroll_job.go], [bonus_job.go]), which split the employees into batches and pay
    one batch per task.  The store is guarded by a mutex, so each of its methods is a
    step of its own; an executor that pays returns the store it leaves. *)
From stdpp Require Import pretty.
From Stdlib Require Import Floats.SpecFloat.
From S2P Require Import Prelude Go Format JsonStruct Params Calendar Domain Effects Repository JobExecutor Scheduler.

(** ** The store *)
Record employee : Type := mkEmployee {
  Emp_ID : string;
  Emp_Name : string;
  Emp_MonthlySalary : spec_float;
}.

Record employeeStore : Type := mkStore {
  Store_employees : list employee;
  Store_payouts : list string;
}.

Definition newEmployeeStore : employeeStore :=
  mkStore
    [mkEmployee "emp-001" "Alice" (float_of_int 5000);
     mkEmployee "emp-002" "Bob" (float_of_int 6200);
     mkEmployee "emp-003" "Carol" (float_of_int 4800);
     mkEmployee "emp-004" "Dave" (float_of_int 7100);
     mkEmployee "emp-005" "Eve" (float_of_int 5500)] [].

Definition ListEmployees (s : employeeStore) : res (list employee) := Ok (Store_employees s).

Definition GetEmployee (id : string) (s : employeeStore) : option employee :=
  List.find (fun emp => bool_decide (Emp_ID emp = id)) (Store_employees s).

Definition Store_append (line : string) (s : employeeStore) : employeeStore :=
  mkStore (Store_employees s) (Store_payouts s ++ [line]).

Definition payout_line (emp : employee) (payPeriod : string) : string :=
  ("payout employee=" ++ Emp_ID emp ++ " name=" ++ Emp_Name emp ++ " amount=" ++
   format_f2 (Emp_MonthlySalary emp) ++ " period=" ++ payPeriod)%string.

Definition ProcessPayout (emp : employee) (payPeriod : string) (s : employeeStore) : employeeStore * option error :=
  (Store_append (payout_line emp payPeriod) s, None).

Definition bonus_amount (emp : employee) (bonusPct : spec_float) : spec_float :=
  SFdiv 53 1024 (SFmul 53 1024 (Emp_MonthlySalary emp) bonusPct) (float_of_int 100).

Definition bonus_line (emp : employee) (bonusPct : spec_float) : string :=
  ("bonus employee=" ++ Emp_ID emp ++ " name=" ++ Emp_Name emp ++ " salary=" ++ format_f2 (Emp_MonthlySalary emp) ++
   " bonus_pct=" ++ format_f2 bonusPct ++ "% amount=" ++ format_f2 (bonus_amount emp bonusPct))%string.

Definition ProcessBonus (emp : employee) (bonusPct : spec_float) (s : employeeStore) : employeeStore * option error :=
  (Store_append (bonus_line emp bonusPct) s, None).

Definition Payouts (s : employeeStore) : list string := Store_payouts s.

(** ** Batches *)

(** [items[i:end]]; [None] is a panic. *)
Definition slice_of {A} (items : list A) (i stop : Z) : option (list A) :=
  if (0 <=? i) && (i <=? stop) && (stop <=? Z.of_nat (length items))
  then Some (take (Z.to_nat (stop - i)) (drop (Z.to_nat i) items)) else None.

Fixpoint chunk_from {A} (fuel : nat) (items : list A) (size i : Z) : option (list (list A)) :=
  if i <? Z.of_nat (length items) then
    match fuel with
    | O => None
    | S fuel =>
        let stop := wrap64 (i + size) in
        let stop := if Z.of_nat (length items) <? stop then Z.of_nat (length items) else stop in
        batch ← slice_of items i stop;
        cons batch <$> chunk_from fuel items size (wrap64 (i + size))
    end
  else Some [].

Definition chunkEmployees (items : list employee) (size : Z) : option (list (list employee)) :=
  let size := if size <=? 0 then 1 else size in
  chunk_from (length items) items size 0.

(** ** Task payloads *)
Record taskPayload : Type := mkTaskPayload {
  Payload_Name : string;
  Payload_EmployeeIDs : option (list string);
  Payload_PayPeriod : string;
  Payload_BatchNumber : Z;
  Payload_TotalBatches : Z;
}.

Definition taskPayload_fields (p : taskPayload) : list (string * value) :=
  [("name", VString (Payload_Name p)); ("employee_ids", strings_value (Payload_EmployeeIDs p));
   ("pay_period", VString (Payload_PayPeriod p)); ("batch_number", VInt (Payload_BatchNumber p));
   ("total_batches", VInt (Payload_TotalBatches p))]%string.

Definition taskPayload_toMap (p : taskPayload) : res gomap := struct_to_map (taskPayload_fields p).

(** A payload being decoded, with the array behind its slice. *)
Definition taskPayload_names : list string :=
  ["name"; "employee_ids"; "pay_period"; "batch_number"; "total_batches"]%string.

Definition taskPayload_set (field : string) (v : value) (st : taskPayload * list string) :
    option (taskPayload * list string) :=
  let '(mkTaskPayload n ids per b tot, arr) := st in
  if bool_decide (field = "name") then n ← decode_string v n; Some (mkTaskPayload n ids per b tot, arr)
  else if bool_decide (field = "employee_ids") then
    sl ← decode_strings v (mkStrings ids arr); Some (mkTaskPayload n (sl_value sl) per b tot, sl_array sl)
  else if bool_decide (field = "pay_period") then per ← decode_string v per; Some (mkTaskPayload n ids per b tot, arr)
  else if bool_decide (field = "batch_number") then b ← decode_int v b; Some (mkTaskPayload n ids per b tot, arr)
  else tot ← decode_int v tot; Some (mkTaskPayload n ids per b tot, arr).

Definition parseTaskPayload (params : gomap) : res taskPayload :=
  result_map fst (map_to_struct taskPayload_names taskPayload_set params (mkTaskPayload "" None "" 0 0, [])).

Record bonusTaskPayload : Type := mkBonusPayload {
  Bonus_EmployeeIDs : option (list string);
  Bonus_BonusPct : spec_float;
  Bonus_BatchNumber : Z;
  Bonus_TotalBatches : Z;
}.

Definition bonusTaskPayload_fields (p : bonusTaskPayload) : list (string * value) :=
  [("employee_ids", strings_value (Bonus_EmployeeIDs p)); ("bonus_pct", VFloat64 (Bonus_BonusPct p));
   ("batch_number", VInt (Bonus_BatchNumber p)); ("total_batches", VInt (Bonus_TotalBatches p))]%string.

Definition bonusTaskPayload_toMap (p : bonusTaskPayload) : res gomap := struct_to_map (bonusTaskPayload_fields p).

Definition bonusTaskPayload_names : list string :=
  ["employee_ids"; "bonus_pct"; "batch_number"; "total_batches"]%string.

Definition bonusTaskPayload_set (field : string) (v : value) (st : bonusTaskPayload * list string) :
    option (bonusTaskPayload * list string) :=
  let '(mkBonusPayload ids pct b tot, arr) := st in
  if bool_decide (field = "employee_ids") then
    sl ← decode_strings v (mkStrings ids arr); Some (mkBonusPayload (sl_value sl) pct b tot, sl_array sl)
  else if bool_decide (field = "bonus_pct") then pct ← decode_float v pct; Some (mkBonusPayload ids pct b tot, arr)
  else if bool_decide (field = "batch_number") then b ← decode_int v b; Some (mkBonusPayload ids pct b tot, arr)
  else tot ← decode_int v tot; Some (mkBonusPayload ids pct b tot, arr).

Definition parseBonusTaskPayload (params : gomap) : res bonusTaskPayload :=
  result_map fst
    (map_to_struct bonusTaskPayload_names bonusTaskPayload_set params (mkBonusPayload None (S754_zero false) 0 0, [])).

(** ** The executors *)

(** The pay period, in the zone of the clock. *)
Definition previousMonthPeriod (loc : Location) (now : time) : string :=
  let '(y, m, _) := Time_Date loc now in
  let firstOfMonth := time_Date loc y m 1 0 0 0 0 in
  let prev := AddDate loc 0 (-1) 0 firstOfMonth in
  Format_year_month loc prev.

Definition payrollTaskName : string := "payroll_payout_task".
Definition bonusTaskName : string := "bonus_payout_task".

(** The loops that make a task per batch; [i] is the index of the first. *)
Fixpoint payroll_tasks (payPeriod : string) (total i : Z) (batches : list (list employee)) : res (list TaskData) :=
  match batches with
  | [] => Ok []
  | batch :: batches =>
      let ids := map Emp_ID batch in
      match taskPayload_toMap (mkTaskPayload payrollTaskName (Some ids) payPeriod (i + 1) total) with
      | Err e => Err (ErrWrap ("marshal batch " ++ pretty (i + 1)) e)
      | Ok params =>
          result_map (cons (mkTaskData payrollTaskName params (join "_" ids)))
            (payroll_tasks payPeriod total (i + 1) batches)
      end
  end.

Fixpoint bonus_tasks (bonusPct : spec_float) (total i : Z) (batches : list (list employee)) : res (list TaskData) :=
  match batches with
  | [] => Ok []
  | batch :: batches =>
      let ids := map Emp_ID batch in
      match bonusTaskPayload_toMap (mkBonusPayload (Some ids) bonusPct (i + 1) total) with
      | Err e => Err (ErrWrap ("marshal batch " ++ pretty (i + 1)) e)
      | Ok params =>
          result_map (cons (mkTaskData bonusTaskName params (join "_" ids)))
            (bonus_tasks bonusPct total (i + 1) batches)
      end
  end.

(** [payrollBatchJobExecutor.Execute] at time [now]; [None] is a panic. *)
Definition payrollBatchJobExecutor_Execute (loc : Location) (batchSize : Z) (now : time) (s : employeeStore)
    (metadata : gomap) : option (res (list TaskData)) :=
  match ListEmployees s with
  | Err e => Some (Err e)
  | Ok [] => Some (Ok [])
  | Ok employees =>
      let payPeriod := previousMonthPeriod loc now in
      batches ← chunkEmployees employees batchSize;
      Some (payroll_tasks payPeriod (Z.of_nat (length batches)) 0 batches)
  end.

(** [metadata["bonus_pct"].(float64)]. *)
Definition metadata_float (key : string) (metadata : gomap) : option spec_float :=
  match gomap_lookup metadata key with Some (VFloat64 f) => Some f | _ => None end.

Definition bad_bonus (metadata : gomap) : error :=
  ErrText ("bonus_pct must be a positive number, got: " ++
           format_v (default VNil (gomap_lookup metadata "bonus_pct"))).

Definition bonusBatchJobExecutor_Execute (batchSize : Z) (s : employeeStore) (metadata : gomap) :
    option (res (list TaskData)) :=
  match metadata_float "bonus_pct" metadata with
  | None => Some (Err (bad_bonus metadata))
  | Some bonusPct =>
      if SFleb bonusPct (S754_zero false) then Some (Err (bad_bonus metadata))
      else
        match ListEmployees s with
        | Err e => Some (Err e)
        | Ok [] => Some (Ok [])
        | Ok employees =>
            batches ← chunkEmployees employees batchSize;
            Some (bonus_tasks bonusPct (Z.of_nat (length batches)) 0 batches)
        end
  end.

(** The loop over the employees of a batch: the store as the payments before the
    error, if any, leave it. *)
Fixpoint pay_each (process : employee -> employeeStore -> employeeStore * option error) (what : string)
    (ids : list string) (s : employeeStore) : employeeStore * option error :=
  match ids with
  | [] => (s, None)
  | id :: ids =>
      match GetEmployee id s with
      | None => (s, Some (ErrText ("employee not found: " ++ id)))
      | Some emp =>
          match process emp s with
          | (s, Some e) => (s, Some (ErrWrap (what ++ id) e))
          | (s, None) => pay_each process what ids s
          end
      end
  end.

Definition payrollPayoutTaskExecutor_Execute (params : gomap) (s : employeeStore) : employeeStore * res gomap :=
  match parseTaskPayload params with
  | Err e => (s, Err e)
  | Ok p =>
      let ids := default [] (Payload_EmployeeIDs p) in
      match pay_each (fun emp => ProcessPayout emp (Payload_PayPeriod p)) "payout employee " ids s with
      | (s, Some e) => (s, Err e)
      | (s, None) =>
          (s, Ok (Some (list_to_map
            [("processed_employees", VInt (Z.of_nat (length ids))); ("pay_period", VString (Payload_PayPeriod p));
             ("batch_number", VInt (Payload_BatchNumber p)); ("total_batches", VInt (Payload_TotalBatches p))])))
      end
  end%string.

Definition bonusPayoutTaskExecutor_Execute (params : gomap) (s : employeeStore) : employeeStore * res gomap :=
  match parseBonusTaskPayload params with
  | Err e => (s, Err e)
  | Ok p =>
      let ids := default [] (Bonus_EmployeeIDs p) in
      match pay_each (fun emp => ProcessBonus emp (Bonus_BonusPct p)) "bonus for employee " ids s with
      | (s, Some e) => (s, Err e)
      | (s, None) =>
          (s, Ok (Some (list_to_map
            [("processed_employees", VInt (Z.of_nat (length ids))); ("bonus_pct", VFloat64 (Bonus_BonusPct p));
             ("batch_number", VInt (Bonus_BatchNumber p)); ("total_batches", VInt (Bonus_TotalBatches p))])))
      end
  end%string.

(** ** Batches are a partition *)

(** [batches] cuts [items] into pieces of [size], the last one what is left. *)
Inductive cut {A} (size : nat) : list A -> list (list A) -> Prop :=
| cut_end : cut size [] []
| cut_last l : l ≠ [] -> (length l <= size)%nat -> cut size l [l]
| cut_more l rest batches : length l = size -> rest ≠ [] -> cut size rest batches -> cut size (l ++ rest) (l :: batches).

Lemma cut_concat {A} size (items : list A) batches : cut size items batches -> concat batches = items.
Proof. induction 1 as [|l|l rest batches _ _ _ IH]; cbn; [done|by rewrite app_nil_r|by rewrite IH]. Qed.

Lemma cut_sizes {A} size (items : list A) batches :
  (0 < size)%nat -> cut size items batches -> Forall (fun b => (1 <= length b <= size)%nat) batches.
Proof.
  intros Hs. induction 1 as [|l Hl ?|l rest batches Hl _ _ IH]; [constructor| |constructor; [lia|done]].
  constructor; [|constructor]. destruct l; [done|]. cbn in *. lia.
Qed.

Lemma slice_of_ok {A} (items : list A) i stop :
  0 <= i -> i <= stop -> stop <= Z.of_nat (length items) ->
  slice_of items i stop = Some (take (Z.to_nat (stop - i)) (drop (Z.to_nat i) items)).
Proof. intros. unfold slice_of. by rewrite !(proj2 (Z.leb_le _ _)) by lia. Qed.

Lemma chunk_from_spec {A} fuel (items : list A) size i :
  0 < size -> 0 <= i -> i + size <= max_int64 -> Z.of_nat (length items) + size <= max_int64 ->
  Z.of_nat (length items) - i <= Z.of_nat fuel ->
  exists batches, chunk_from fuel items size i = Some batches /\ cut (Z.to_nat size) (drop (Z.to_nat i) items) batches.
Proof.
  intros Hs. revert i. induction fuel as [|fuel IH]; intros i Hi Hmax Hlen Hf; cbn [chunk_from].
  all: destruct (Z.ltb_spec i (Z.of_nat (length items))) as [Hlt|Hge]; [|exists []; rewrite drop_ge by lia; split; [done|constructor]].
  { lia. }
  rewrite wrap64_id by (unfold min_int64; lia). cbv zeta.
  destruct (Z.ltb_spec (Z.of_nat (length items)) (i + size)) as [Hlast|Hfull].
  - rewrite slice_of_ok by lia. cbn [mbind option_bind].
    destruct fuel as [|fuel]; cbn [chunk_from]; rewrite (proj2 (Z.ltb_ge _ _)) by lia; cbn.
    all: eexists; split; [done|]; rewrite take_ge by (rewrite length_drop; lia); apply cut_last;
      [intros Hd%(f_equal length); rewrite length_drop in Hd; cbn in Hd; lia|rewrite length_drop; lia].
  - rewrite slice_of_ok by lia. cbn [mbind option_bind].
    destruct (Z.eq_dec (i + size) (Z.of_nat (length items))) as [Heq|Hne].
    + destruct fuel as [|fuel]; cbn [chunk_from]; rewrite (proj2 (Z.ltb_ge _ _)) by lia; cbn.
      all: eexists; split; [done|]; rewrite take_ge by (rewrite length_drop; lia); apply cut_last;
        [intros Hd%(f_equal length); rewrite length_drop in Hd; cbn in Hd; lia|rewrite length_drop; lia].
    + destruct (IH (i + size)) as (batches & -> & Hcut); [lia..|]. eexists. split; [done|].
      replace (i + size - i) with size by lia.
      rewrite <- (take_drop (Z.to_nat size) (drop (Z.to_nat i) items)) at 1.
      rewrite drop_drop in *. replace (Z.to_nat (i + size)) with (Z.to_nat i + Z.to_nat size)%nat in Hcut by lia.
      apply cut_more; [rewrite length_take, length_drop; lia| |done].
      intros Hd%(f_equal length). rewrite length_drop in Hd. cbn in Hd. lia.
Qed.

(** The size used: at least one. *)
Definition batch_size (n : Z) : nat := Z.to_nat (Z.max 1 n).
Lemma batch_size_pos n : (0 < batch_size n)%nat.
Proof. unfold batch_size. lia. Qed.

Lemma chunkEmployees_cut items size :
  Z.of_nat (length items) + Z.max 1 size <= max_int64 ->
  exists batches, chunkEmployees items size = Some batches /\ cut (batch_size size) items batches.
Proof.
  intros Hmax. unfold chunkEmployees.
  assert ((if size <=? 0 then 1 else size) = Z.max 1 size) as -> by (destruct (Z.leb_spec size 0); lia).
  apply (chunk_from_spec (length items) items (Z.max 1 size) 0); lia.
Qed.

(** ** Payloads survive the JSON column *)

Lemma taskPayload_keys (v1 v2 v3 v4 v5 : value) :
  sort_keys (map_to_list (list_to_map (M := gmap string value)
    [("name", v1); ("employee_ids", v2); ("pay_period", v3); ("batch_number", v4); ("total_batches", v5)]))%string =
  [("batch_number", v4); ("employee_ids", v2); ("name", v1); ("pay_period", v3); ("total_batches", v5)]%string.
Proof. vm_compute. reflexivity. Qed.

Lemma bonusTaskPayload_keys (v1 v2 v3 v4 : value) :
  sort_keys (map_to_list (list_to_map (M := gmap string value)
    [("employee_ids", v1); ("bonus_pct", v2); ("batch_number", v3); ("total_batches", v4)]))%string =
  [("batch_number", v3); ("bonus_pct", v2); ("employee_ids", v1); ("total_batches", v4)]%string.
Proof. vm_compute. reflexivity. Qed.

Lemma strings_value_normal l : normal (strings_value l).
Proof. destruct l; [apply normal_strings|done]. Qed.

Lemma strings_value_encodable l : json_encodable (strings_value l) = true.
Proof. destruct l; [apply encodable_strings|done]. Qed.

Lemma decode_strings_value l old : exists array, decode_strings (strings_value l) old = Some (mkStrings l array).
Proof. destruct l; [apply decode_strings_ok|by eexists]. Qed.

Definition small (z : Z) : Prop := 0 < z < 2 ^ 53.

(** One key of an object: its field, then the value stored. *)
Ltac field_step conversion :=
  erewrite decode_object_cons;
    [|reflexivity
     |unfold taskPayload_set, bonusTaskPayload_set;
      repeat (first [rewrite bool_decide_eq_true_2 by done|rewrite bool_decide_eq_false_2 by done]);
      first [rewrite conversion by done|idtac]; reflexivity].

Lemma taskPayload_roundtrip p :
  small (Payload_BatchNumber p) -> small (Payload_TotalBatches p) ->
  exists m, taskPayload_toMap p = Ok (Some m) /\ normal_map m /\ json_encodable (gomap_value (Some m)) = true /\
    parseTaskPayload (Some m) = Ok p.
Proof.
  intros Hb Ht. unfold taskPayload_toMap. rewrite struct_to_map_ok.
  2: { cbn. by rewrite strings_value_encodable. }
  eexists. split; [done|]. cbn [map fst snd taskPayload_fields].
  rewrite (strings_value_normal (Payload_EmployeeIDs p)). cbn [json_norm]. split; [|split].
  - apply normal_list_to_map. repeat constructor. apply strings_value_normal.
  - apply encodable_list_to_map. repeat constructor; cbn [snd]; [apply strings_value_encodable|by apply encodable_int..].
  - unfold parseTaskPayload, map_to_struct. rewrite encodable_list_to_map.
    2: { repeat constructor; cbn [snd]; [apply strings_value_encodable|by apply encodable_int..]. }
    rewrite taskPayload_keys. destruct p as [n ids per b tot].
    cbn [Payload_Name Payload_EmployeeIDs Payload_PayPeriod Payload_BatchNumber Payload_TotalBatches] in *.
    destruct (decode_strings_value ids (mkStrings None [])) as [array Hs].
    field_step decode_int_ok. field_step Hs. do 3 field_step decode_int_ok. done.
Qed.

(** The JSON form of a float exists, whatever its value, when it is finite. *)
Definition finite (f : spec_float) : Prop := json_encodable (VFloat64 f) = true.

Lemma decode_float_ok f old : finite f -> decode_float (VFloat64 f) old = Some f.
Proof. by destruct f. Qed.

Lemma bonusTaskPayload_roundtrip p :
  finite (Bonus_BonusPct p) -> small (Bonus_BatchNumber p) -> small (Bonus_TotalBatches p) ->
  exists m, bonusTaskPayload_toMap p = Ok (Some m) /\ normal_map m /\ json_encodable (gomap_value (Some m)) = true /\
    parseBonusTaskPayload (Some m) = Ok p.
Proof.
  intros Hf Hb Ht. unfold bonusTaskPayload_toMap. rewrite struct_to_map_ok.
  2: { cbn [forallb bonusTaskPayload_fields fst snd]. by rewrite strings_value_encodable, Hf. }
  eexists. split; [done|]. cbn [map fst snd bonusTaskPayload_fields].
  rewrite (strings_value_normal (Bonus_EmployeeIDs p)). cbn [json_norm].
  destruct p as [ids pct b tot]. cbn [Bonus_EmployeeIDs Bonus_BonusPct Bonus_BatchNumber Bonus_TotalBatches] in *.
  assert (Hen : json_encodable (gomap_value (Some (list_to_map
    [("employee_ids", strings_value ids); ("bonus_pct", VFloat64 pct); ("batch_number", VFloat64 (float_of_int b));
     ("total_batches", VFloat64 (float_of_int tot))])))%string = true).
  { apply encodable_list_to_map. repeat constructor; [apply strings_value_encodable|done|by apply encodable_int..]. }
  split; [|split; [exact Hen|]].
  - apply normal_list_to_map. repeat constructor. apply strings_value_normal.
  - unfold parseBonusTaskPayload, map_to_struct. rewrite Hen, bonusTaskPayload_keys. clear Hen.
    destruct (decode_strings_value ids (mkStrings None [])) as [array Hs].
    field_step decode_int_ok. field_step decode_float_ok. field_step Hs. field_step decode_int_ok. done.
Qed.

(** ** The split *)

(** The item of a batch carries the batch, and survives the JSON column. *)
Definition payroll_item (payPeriod : string) (batch : list employee) (d : TaskData) : Prop :=
  exists k total m, TaskData_Params d = Some m /\ normal_map m /\ json_encodable (gomap_value (Some m)) = true /\
    parseTaskPayload (Some m) = Ok (mkTaskPayload payrollTaskName (Some (map Emp_ID batch)) payPeriod k total).

Definition bonus_item (bonusPct : spec_float) (batch : list employee) (d : TaskData) : Prop :=
  exists k total m, TaskData_Params d = Some m /\ normal_map m /\ json_encodable (gomap_value (Some m)) = true /\
    parseBonusTaskPayload (Some m) = Ok (mkBonusPayload (Some (map Emp_ID batch)) bonusPct k total).

Lemma payroll_tasks_items payPeriod total i batches :
  0 <= i -> i + Z.of_nat (length batches) <= total -> total < 2 ^ 53 ->
  exists data, payroll_tasks payPeriod total i batches = Ok data /\ Forall2 (payroll_item payPeriod) batches data.
Proof.
  revert i. induction batches as [|b batches IH]; intros i Hi Hle Ht; cbn [payroll_tasks length] in *.
  { exists []. by split; [|constructor]. }
  set (p := mkTaskPayload _ _ _ _ _).
  destruct (taskPayload_roundtrip p) as (m & -> & Hn & He & Hp); [subst p; unfold small; cbn [Payload_BatchNumber Payload_TotalBatches]; lia..|].
  destruct (IH (i + 1)) as (data & -> & Hd); [lia..|]. eexists. split; [done|]. constructor; [|done].
  exists (i + 1), total, m. by splits.
Qed.

Lemma bonus_tasks_items bonusPct total i batches :
  finite bonusPct -> 0 <= i -> i + Z.of_nat (length batches) <= total -> total < 2 ^ 53 ->
  exists data, bonus_tasks bonusPct total i batches = Ok data /\ Forall2 (bonus_item bonusPct) batches data.
Proof.
  intros Hf. revert i. induction batches as [|b batches IH]; intros i Hi Hle Ht; cbn [bonus_tasks length] in *.
  { exists []. by split; [|constructor]. }
  set (p := mkBonusPayload _ _ _ _).
  destruct (bonusTaskPayload_roundtrip p) as (m & -> & Hn & He & Hp); [done|subst p; unfold small; cbn [Bonus_BatchNumber Bonus_TotalBatches]; lia..|].
  destruct (IH (i + 1)) as (data & -> & Hd); [lia..|]. eexists. split; [done|]. constructor; [|done].
  exists (i + 1), total, m. by splits.
Qed.

(** The names and the keys of the items fit their columns when the employees' ids are
    texts that PostgreSQL stores. *)
Definition storable_ids (emps : list employee) : Prop := Forall (fun emp => pg_text (Emp_ID emp) = true) emps.

Lemma pg_text_app a b : pg_text a = true -> pg_text b = true -> pg_text (a ++ b) = true.
Proof.
  unfold pg_text, string_bytes. intros Ha Hb.
  assert (String.list_ascii_of_string (a ++ b) = String.list_ascii_of_string a ++ String.list_ascii_of_string b) as ->.
  { clear. induction a as [|c a IH]; [done|]. exact (f_equal (cons c) IH). }
  rewrite map_app. destruct (utf8_length _) as [x|] eqn:Hx in Ha; [|done].
  destruct (utf8_length _) as [y|] eqn:Hy in Hb; [|done]. by rewrite (utf8_length_app _ _ x y).
Qed.

Lemma pg_text_join sep l : pg_text sep = true -> Forall (fun s => pg_text s = true) l -> pg_text (join sep l) = true.
Proof.
  intros Hsep Hl. induction Hl as [|s l Hs Hl IH]; [done|]. cbn [join]. destruct l; [done|].
  by repeat apply pg_text_app.
Qed.

Lemma item_columns_key name params ids :
  pg_varchar 255 name = true -> Forall (fun s => pg_text s = true) ids ->
  item_columns (mkTaskData name params (join "_" ids)) = true.
Proof. intros Hn Hids. unfold item_columns. cbn [TaskData_Name TaskData_DistributionKey]. by rewrite Hn, pg_text_join. Qed.

Lemma storable_keys emps : storable_ids emps -> Forall (fun s => pg_text s = true) (map Emp_ID emps).
Proof. intros Hs. by apply Forall_map. Qed.

Lemma payroll_tasks_columns payPeriod total i batches data :
  Forall storable_ids batches -> payroll_tasks payPeriod total i batches = Ok data ->
  Forall (fun d => item_columns d = true) data.
Proof.
  intros Hb. revert i data. induction Hb as [|b bs Hb _ IH]; intros i data; cbn [payroll_tasks]; [by intros [= <-]|].
  destruct (taskPayload_toMap _); [|done]. destruct (payroll_tasks payPeriod total (i + 1) bs) as [ds|] eqn:Hds; [|done].
  intros [= <-]. constructor; [|by eapply IH]. apply item_columns_key; [done|by apply storable_keys].
Qed.

Lemma bonus_tasks_columns bonusPct total i batches data :
  Forall storable_ids batches -> bonus_tasks bonusPct total i batches = Ok data ->
  Forall (fun d => item_columns d = true) data.
Proof.
  intros Hb. revert i data. induction Hb as [|b bs Hb _ IH]; intros i data; cbn [bonus_tasks]; [by intros [= <-]|].
  destruct (bonusTaskPayload_toMap _); [|done]. destruct (bonus_tasks bonusPct total (i + 1) bs) as [ds|] eqn:Hds; [|done].
  intros [= <-]. constructor; [|by eapply IH]. apply item_columns_key; [done|by apply storable_keys].
Qed.

Lemma cut_storable size emps batches : cut size emps batches -> storable_ids emps -> Forall storable_ids batches.
Proof.
  intros <-%cut_concat. unfold storable_ids. induction batches as [|b bs IH]; cbn; [constructor|].
  intros [Hb Hbs]%Forall_app. constructor; [done|by apply IH].
Qed.

Lemma cut_length {A} size (items : list A) batches :
  (0 < size)%nat -> cut size items batches -> (length batches <= length items)%nat.
Proof.
  intros Hs Hcut. pose proof (cut_sizes size items batches Hs Hcut) as Hall. rewrite <- (cut_concat _ _ _ Hcut).
  clear Hcut. induction Hall as [|b bs Hb _ IH]; cbn; [lia|]. rewrite length_app. lia.
Qed.

(** Enough room for the counters, and a store that can be paid out. *)
Record payable (batchSize : Z) (s : employeeStore) : Prop := {
  payable_some : Store_employees s ≠ [];
  payable_ids : NoDup (map Emp_ID (Store_employees s));
  payable_count : Z.of_nat (length (Store_employees s)) <= 2 ^ 31;
  payable_room : Z.of_nat (length (Store_employees s)) + Z.max 1 batchSize <= max_int64;
  payable_keys : storable_ids (Store_employees s);
}.

Lemma payroll_split loc batchSize now s metadata :
  payable batchSize s ->
  exists batches data,
    payrollBatchJobExecutor_Execute loc batchSize now s metadata = Some (Ok data) /\
    cut (batch_size batchSize) (Store_employees s) batches /\
    Forall2 (payroll_item (previousMonthPeriod loc now)) batches data /\ Forall (fun d => item_columns d = true) data.
Proof.
  intros [Hne _ Hc Hroom Hkeys]. unfold payrollBatchJobExecutor_Execute, ListEmployees.
  destruct (chunkEmployees_cut _ _ Hroom) as (batches & Hb & Hcut).
  pose proof (cut_length _ _ _ (batch_size_pos batchSize) Hcut).
  destruct (payroll_tasks_items (previousMonthPeriod loc now) (Z.of_nat (length batches)) 0 batches)
    as (data & Hd & Hitems); [lia..|].
  pose proof (payroll_tasks_columns _ _ _ _ _ (cut_storable _ _ _ Hcut Hkeys) Hd).
  exists batches, data. destruct (Store_employees s) eqn:He; [done|]. rewrite Hb. cbn. by rewrite Hd.
Qed.

Lemma bonus_split batchSize s metadata bonusPct :
  payable batchSize s -> metadata_float "bonus_pct" metadata = Some bonusPct ->
  SFleb bonusPct (S754_zero false) = false -> finite bonusPct ->
  exists batches data,
    bonusBatchJobExecutor_Execute batchSize s metadata = Some (Ok data) /\
    cut (batch_size batchSize) (Store_employees s) batches /\ Forall2 (bonus_item bonusPct) batches data /\
    Forall (fun d => item_columns d = true) data.
Proof.
  intros [Hne _ Hc Hroom Hkeys] Hm Hpos Hf. unfold bonusBatchJobExecutor_Execute, ListEmployees. rewrite Hm, Hpos.
  destruct (chunkEmployees_cut _ _ Hroom) as (batches & Hb & Hcut).
  pose proof (cut_length _ _ _ (batch_size_pos batchSize) Hcut).
  destruct (bonus_tasks_items bonusPct (Z.of_nat (length batches)) 0 batches) as (data & Hd & Hitems); [done|lia..|].
  pose proof (bonus_tasks_columns _ _ _ _ _ (cut_storable _ _ _ Hcut Hkeys) Hd).
  exists batches, data. destruct (Store_employees s) eqn:He; [done|]. rewrite Hb. cbn. by rewrite Hd.
Qed.

(** ** Paying *)

Definition paid (s : employeeStore) (lines : list string) : employeeStore :=
  mkStore (Store_employees s) (Store_payouts s ++ lines).

Lemma GetEmployee_member s emp :
  NoDup (map Emp_ID (Store_employees s)) -> emp ∈ Store_employees s -> GetEmployee (Emp_ID emp) s = Some emp.
Proof.
  unfold GetEmployee. induction (Store_employees s) as [|e l IH]; intros Hnd Hin; [by apply elem_of_nil in Hin|].
  cbn in *. apply NoDup_cons in Hnd as [Hni Hnd]. case_bool_decide as Heq.
  - apply elem_of_cons in Hin as [->|Hin]; [done|]. exfalso. apply Hni. rewrite Heq.
    by apply list_elem_of_In, in_map, list_elem_of_In.
  - apply elem_of_cons in Hin as [->|Hin]; [done|]. by apply IH.
Qed.

Lemma GetEmployee_paid id s lines : GetEmployee id (paid s lines) = GetEmployee id s.
Proof. done. Qed.

(** The employees before the first unknown one are paid, whatever comes after. *)
Lemma pay_each_known process line what emps rest s :
  (forall emp st, process emp st = (Store_append (line emp) st, None)) ->
  (forall emp, emp ∈ emps -> GetEmployee (Emp_ID emp) s = Some emp) ->
  pay_each process what (map Emp_ID emps ++ rest) s = pay_each process what rest (paid s (map line emps)).
Proof.
  intros Hp. revert s. induction emps as [|emp emps IH]; intros s Hk; cbn [map app pay_each].
  { unfold paid. rewrite app_nil_r. by destruct s. }
  rewrite Hk by left. rewrite Hp. rewrite IH.
  - unfold paid. cbn. by rewrite <- app_assoc.
  - intros e He. by apply Hk; right.
Qed.

Lemma pay_each_all process line what emps s :
  (forall emp st, process emp st = (Store_append (line emp) st, None)) ->
  (forall emp, emp ∈ emps -> GetEmployee (Emp_ID emp) s = Some emp) ->
  pay_each process what (map Emp_ID emps) s = (paid s (map line emps), None).
Proof.
  intros Hp Hk. rewrite <- (app_nil_r (map Emp_ID emps)). by rewrite (pay_each_known process line).
Qed.

(** ** The executors on the items of a split *)

Definition payouts_of (payPeriod : string) (emps : list employee) : list string :=
  map (fun emp => payout_line emp payPeriod) emps.
Definition bonuses_of (bonusPct : spec_float) (emps : list employee) : list string :=
  map (fun emp => bonus_line emp bonusPct) emps.

Lemma batch_known s emps :
  NoDup (map Emp_ID (Store_employees s)) -> emps ⊆ Store_employees s ->
  forall emp, emp ∈ emps -> GetEmployee (Emp_ID emp) s = Some emp.
Proof. intros Hnd Hsub emp Hemp. apply GetEmployee_member; [done|]. by apply Hsub. Qed.

Lemma payroll_execute payPeriod batch d s m :
  payroll_item payPeriod batch d -> TaskData_Params d = Some m ->
  NoDup (map Emp_ID (Store_employees s)) -> batch ⊆ Store_employees s ->
  exists out, payrollPayoutTaskExecutor_Execute (Some m) s = (paid s (payouts_of payPeriod batch), Ok out).
Proof.
  intros (k & total & m' & Hm' & _ & _ & Hp) Hm Hnd Hsub. rewrite Hm in Hm'. injection Hm' as <-.
  unfold payrollPayoutTaskExecutor_Execute. rewrite Hp. cbn [Payload_EmployeeIDs Payload_PayPeriod from_option id].
  rewrite (pay_each_all _ (fun emp => payout_line emp payPeriod)) by (done || by apply batch_known). by eexists.
Qed.

Lemma bonus_execute bonusPct batch d s m :
  bonus_item bonusPct batch d -> TaskData_Params d = Some m ->
  NoDup (map Emp_ID (Store_employees s)) -> batch ⊆ Store_employees s ->
  exists out, bonusPayoutTaskExecutor_Execute (Some m) s = (paid s (bonuses_of bonusPct batch), Ok out).
Proof.
  intros (k & total & m' & Hm' & _ & _ & Hp) Hm Hnd Hsub. rewrite Hm in Hm'. injection Hm' as <-.
  unfold bonusPayoutTaskExecutor_Execute. rewrite Hp. cbn [Bonus_EmployeeIDs Bonus_BonusPct from_option id].
  rewrite (pay_each_all _ (fun emp => bonus_line emp bonusPct)) by (done || by apply batch_known). by eexists.
Qed.

(** ** The pay period *)

Lemma previous_period loc now y m d off off' :
  Time_Date loc now = (y, m, d) ->
  steady_offset loc off (seconds_of y m 1 0 0 0) -> steady_offset loc off' (seconds_of y (m - 1) 1 0 0 0) ->
  previousMonthPeriod loc now = if m =? 1 then year_month (y - 1) 12 else year_month y (m - 1).
Proof.
  intros Hd H1 H2. pose proof (Time_Date_month _ _ _ _ _ Hd) as Hm.
  unfold previousMonthPeriod. rewrite Hd.
  destruct (first_of_month loc off y m H1) as (Hd1 & Hc1 & Hn1).
  unfold AddDate. rewrite Hd1, Hc1, Hn1, (month_of_id y m Hm), Z.add_0_r. cbn [Z.add].
  change (1 + 0) with 1. replace (m + -1) with (m - 1) by lia.
  destruct (first_of_month loc off' y (m - 1) H2) as (Hd2 & _ & _).
  unfold Format_year_month. rewrite Hd2. unfold month_of.
  destruct (Z.eqb_spec m 1) as [->|Hne].
  - done.
  - assert ((m - 1 - 1) / 12 = 0) as -> by (Z.div_mod_to_equations; lia).
    assert ((m - 1 - 1) mod 12 = m - 2) as -> by (Z.div_mod_to_equations; lia). f_equal; lia.
Qed.

(** ** Properties *)

(** C30: the pay period is the month before the current one, in the zone of the clock:
    December of the year before in January.  The zone may change its offset, but not
    within a day of the midnights that start the two months. *)
Theorem previousMonthPeriod_previous loc now y m d off off' :
  Time_Date loc now = (y, m, d) ->
  steady_offset loc off (seconds_of y m 1 0 0 0) -> steady_offset loc off' (seconds_of y (m - 1) 1 0 0 0) ->
  previousMonthPeriod loc now = if m =? 1 then year_month (y - 1) 12 else year_month y (m - 1).
Proof. apply previous_period. Qed.

(** Berlin in 2024: one hour ahead of UTC, two from March 31 to October 27, 01:00 UTC. *)
Definition Berlin2024 : Location :=
  mkLocation 3600 [(seconds_of 2024 3 31 1 0 0, 7200); (seconds_of 2024 10 27 1 0 0, 3600)].

Lemma offset_at_between loc sec off lo hi :
  (forall s, lo <= s < hi -> offset_at loc s = off) -> Z.abs off < 86400 ->
  lo <= sec - 86400 -> sec + 86400 < hi -> steady_offset loc off sec.
Proof. intros Ho Hoff Hlo Hhi. split; [done|]. intros s Hs. apply Ho. lia. Qed.

Theorem previousMonthPeriod_previous_witness :
  previousMonthPeriod Berlin2024 (time_Date Berlin2024 2024 6 15 0 0 0 0) = "2024-05"%string.
Proof.
  assert (forall s, seconds_of 2024 3 31 1 0 0 <= s < seconds_of 2024 10 27 1 0 0 -> offset_at Berlin2024 s = 7200) as Hs.
  { intros s [Hlo Hhi]. unfold offset_at, loc_lookup, Berlin2024. cbn [loc_first loc_changes lookup_zone].
    by rewrite (proj2 (Z.ltb_ge _ _)), (proj2 (Z.ltb_lt _ _)). }
  rewrite (previousMonthPeriod_previous Berlin2024 _ 2024 6 15 7200 7200); [reflexivity|vm_compute; reflexivity| |].
  all: apply (offset_at_between _ _ _ _ _ Hs); [lia|vm_compute; discriminate|vm_compute; reflexivity].
Defined.

(** Asuncion in 2017: four hours behind UTC, three from October 1, 04:00 UTC. *)
Definition Asuncion2017 : Location := mkLocation (-14400) [(seconds_of 2017 10 1 4 0 0, -10800)].

(** C31: where the clocks go forward at the midnight that starts a month, west of
    Greenwich, the pay period of the month after is a month too early: [time.Date]
    answers for the first of the month with an instant of the day before, so a run in
    the next month is for the month before the one that has just ended. *)
Theorem previousMonthPeriod_gap loc now y m d off o1 o2 :
  Time_Date loc now = (y, m, d) ->
  steady_offset loc off (seconds_of y m 1 0 0 0) -> gap loc o1 o2 (seconds_of y (m - 1) 1 0 0 0) ->
  previousMonthPeriod loc now = if m <=? 2 then year_month (y - 1) (m + 10) else year_month y (m - 2).
Proof.
  intros Hd Hs Hg. pose proof (Time_Date_month _ _ _ _ _ Hd) as Hm.
  unfold previousMonthPeriod. rewrite Hd.
  destruct (first_of_month loc off y m Hs) as (Hd1 & Hc1 & Hn1).
  unfold AddDate. rewrite Hd1, Hc1, Hn1, (month_of_id y m Hm), Z.add_0_r. cbn [Z.add].
  change (1 + 0) with 1. replace (m + -1) with (m - 1) by lia.
  pose proof (gap_day loc o1 o2 y (m - 1) Hg) as Hday. unfold Format_year_month. unfold month_of in Hday. rewrite Hday.
  destruct (Z.leb_spec m 2); f_equal; Z.div_mod_to_equations; lia.
Qed.

(** In November 2017 the payroll of Asuncion was for September. *)
Theorem previousMonthPeriod_gap_witness :
  previousMonthPeriod Asuncion2017 (time_Date Asuncion2017 2017 11 15 12 0 0 0) = "2017-09"%string.
Proof.
  set (T := seconds_of 2017 10 1 4 0 0).
  assert (Hoff : forall s, offset_at Asuncion2017 s = if s <? T then -14400 else -10800).
  { intros s. unfold offset_at, loc_lookup, Asuncion2017. cbn [loc_first loc_changes lookup_zone]. fold T. by destruct (s <? T). }
  assert (HT : T - seconds_of 2017 (11 - 1) 1 0 0 0 = 14400) by (vm_compute; reflexivity).
  rewrite (previousMonthPeriod_gap Asuncion2017 _ 2017 11 15 (-10800) (-14400) (-10800)); [reflexivity|vm_compute; reflexivity| |].
  - split; [lia|]. intros s Hs. rewrite Hoff, (proj2 (Z.ltb_ge _ _)); [done|].
    assert (seconds_of 2017 11 1 0 0 0 - T = 2664000) by (vm_compute; reflexivity). lia.
  - split; [lia|lia|vm_compute; reflexivity|..].
    + intros s Hs. by rewrite Hoff, (proj2 (Z.ltb_lt _ _)) by lia.
    + by rewrite Hoff, (proj2 (Z.ltb_ge _ _)) by lia.
Defined.

(** The batches of a split cut the employees into pieces of the batch size (one
    if it is not positive) in their order, the last one shorter, none empty; the slice
    expression never panics. *)
Theorem chunkEmployees_partition items size :
  Z.of_nat (length items) + Z.max 1 size <= max_int64 ->
  exists batches, chunkEmployees items size = Some batches /\ concat batches = items /\
    Forall (fun b => 1 <= length b <= batch_size size)%nat batches /\ cut (batch_size size) items batches.
Proof.
  intros Hroom. destruct (chunkEmployees_cut items size Hroom) as (batches & Hb & Hcut). exists batches.
  splits; [done|by eapply cut_concat|eapply cut_sizes; [apply batch_size_pos|exact Hcut]|done].
Qed.

Theorem chunkEmployees_partition_witness :
  exists batches, chunkEmployees (Store_employees newEmployeeStore) 2 = Some batches /\
    map length batches = [2; 2; 1]%nat /\ concat batches = Store_employees newEmployeeStore.
Proof.
  destruct (chunkEmployees_partition (Store_employees newEmployeeStore) 2) as (batches & Hb & Hc & _ & _).
  { vm_compute. discriminate. }
  exists batches. splits; [exact Hb| |exact Hc].
  enough (Some (map length batches) = Some [2; 2; 1]%nat) as [= ->] by reflexivity.
  transitivity (map length <$> chunkEmployees (Store_employees newEmployeeStore) 2); [by rewrite Hb|].
  vm_compute. reflexivity.
Defined.

(** A batch with an employee the store does not know fails, after the employees
    before that one have been paid: running the task again pays them again. *)
Theorem payroll_batch_partial s params payload pre who post :
  parseTaskPayload params = Ok payload -> Payload_EmployeeIDs payload = Some (map Emp_ID pre ++ who :: post) ->
  NoDup (map Emp_ID (Store_employees s)) -> pre ⊆ Store_employees s -> GetEmployee who s = None ->
  let lines := payouts_of (Payload_PayPeriod payload) pre in
  payrollPayoutTaskExecutor_Execute params s = (paid s lines, Err (ErrText ("employee not found: " ++ who))) /\
  payrollPayoutTaskExecutor_Execute params (paid s lines) =
    (paid s (lines ++ lines), Err (ErrText ("employee not found: " ++ who))).
Proof.
  intros Hp Hids Hnd Hsub Hwho. cbv zeta.
  assert (Hrun : forall st, Store_employees st = Store_employees s ->
    payrollPayoutTaskExecutor_Execute params st =
    (paid st (payouts_of (Payload_PayPeriod payload) pre), Err (ErrText ("employee not found: " ++ who)))).
  { intros st Hst. unfold payrollPayoutTaskExecutor_Execute. rewrite Hp, Hids. cbn [from_option id].
    rewrite (pay_each_known _ (fun emp => payout_line emp (Payload_PayPeriod payload))).
    - cbn [pay_each]. rewrite GetEmployee_paid. unfold GetEmployee in *. by rewrite Hst, Hwho.
    - done.
    - apply batch_known; by rewrite Hst. }
  split; [by apply Hrun|]. rewrite Hrun by done. unfold paid. cbn. by rewrite <- app_assoc.
Qed.

Theorem payroll_batch_partial_witness :
  let params := Some (list_to_map [("employee_ids", VSlice [VString "emp-001"; VString "emp-999"])])%string in
  let alice := mkEmployee "emp-001" "Alice" (float_of_int 5000) in
  payrollPayoutTaskExecutor_Execute params newEmployeeStore =
  (paid newEmployeeStore (payouts_of "" [alice]), Err (ErrText "employee not found: emp-999")).
Proof.
  intros params alice.
  refine (proj1 (payroll_batch_partial newEmployeeStore params (mkTaskPayload "" (Some ["emp-001"; "emp-999"]) "" 0 0)
            [alice] "emp-999" [] _ _ _ _ _)); try (vm_compute; reflexivity).
  - by repeat (constructor; [vm_compute; intros Hin; repeat (apply elem_of_cons in Hin as [[=]|Hin]); by apply elem_of_nil in Hin|]); constructor.
  - intros emp ->%list_elem_of_singleton. left.
Defined.
