(* ===== verification/Console.v ===== *)
(** * Console: the job history API

    [internal/console]: the read-only queries, the view of asynq's failed triggers,
    the pages merged from both, and the handlers that list, retry and terminate.
    An HTTP response is a value of [response]; a run-time panic of a handler is
    [RPanic].  The asynq inspector is a parameter.  [sort.Slice] is not stable: the
    order of equal keys is that of [merge_sort]. *)
From stdpp Require Import pretty.
From S2P Require Import Prelude Go Params Domain Effects Repository JobConfig Transport Instances.
From S2P Require Import Queries Lifecycle Finalizer TriggerFailure JobExecutor TaskExecutor Retry.
From S2P Require Import Scheduler.

(** ** Rows and filters *)
Record JobFilter : Type := mkJobFilter {
  Filter_Name : string;
  Filter_Status : string;
  Filter_RefID : string;
  Filter_From : option time;
  Filter_To : option time;
  Filter_Limit : Z;
  Filter_Offset : Z;
}.

Record JobSummary : Type := mkJobSummary {
  JS_ID : uuid;
  JS_ParentJobID : option uuid;
  JS_Name : string;
  JS_Status : string;
  JS_UniqueReferenceID : option string;
  JS_CreatedAt : time;
  JS_UpdatedAt : time;
  JS_StartedAt : option time;
  JS_FinishedAt : option time;
  JS_DurationMs : option Z;
  JS_Total : Z;
  JS_Completed : Z;
  JS_Failed : Z;
  JS_Running : Z;
  JS_Pending : Z;
  JS_Source : string;
  JS_AsynqQueue : string;
  JS_AsynqTaskID : string;
  JS_Metadata : gomap;
}.

Definition JS_set_Source (s : string) (j : JobSummary) : JobSummary :=
  mkJobSummary (JS_ID j) (JS_ParentJobID j) (JS_Name j) (JS_Status j) (JS_UniqueReferenceID j)
    (JS_CreatedAt j) (JS_UpdatedAt j) (JS_StartedAt j) (JS_FinishedAt j) (JS_DurationMs j)
    (JS_Total j) (JS_Completed j) (JS_Failed j) (JS_Running j) (JS_Pending j) s
    (JS_AsynqQueue j) (JS_AsynqTaskID j) (JS_Metadata j).

Definition defaultConsolePageSize : Z := 50.
Definition maxConsolePageSize : Z := 200.
Definition maxAsynqOrphans : Z := 500.
Definition defaultAsynqQueue : string := "default".
Definition asynqJobIDPrefix : string := "asynq:".

Record TaskFilter : Type := mkTaskFilter {
  TF_JobID : uuid;
  TF_Status : string;
  TF_Limit : Z;
  TF_Offset : Z;
}.

Record TaskPage : Type := mkTaskPage {
  Page_Tasks : list Task;
  Page_Total : Z;
  Page_Limit : Z;
  Page_Offset : Z;
}.

(** The clamps both listings apply. *)
Definition clamp_limit (limit : Z) : Z :=
  let limit := if limit <=? 0 then defaultConsolePageSize else limit in
  if maxConsolePageSize <? limit then maxConsolePageSize else limit.
Definition clamp_offset (offset : Z) : Z := if offset <? 0 then 0 else offset.

(** [LIMIT l OFFSET o]. *)
Definition page {A} (limit offset : Z) (l : list A) : list A :=
  take (Z.to_nat limit) (drop (Z.to_nat offset) l).

(** An optional filter. *)
Definition given (s : string) (p : string -> bool) : bool := if bool_decide (s = ""%string) then true else p s.
Definition given_time (t : option time) (p : time -> bool) : bool :=
  match t with Some t => p t | None => true end.

Definition job_selected (f : JobFilter) (j : Job) : bool :=
  given (Filter_Name f) (fun s => bool_decide (Job_Name j = s)) &&
  given (Filter_Status f) (fun s => bool_decide (Job_Status j = s)) &&
  given (Filter_RefID f) (fun s => bool_decide (Job_UniqueReferenceID j = Some s)) &&
  given_time (Filter_From f) (fun t => t <=? Job_CreatedAt j) &&
  given_time (Filter_To f) (fun t => Job_CreatedAt j <=? t).

(** The row of the list query, with the counts of the joined tasks. *)
Definition summary_of (db : DB) (j : Job) : JobSummary :=
  let ts := tasks_of (Job_ID j) db in
  mkJobSummary (Job_ID j) (Job_ParentJobID j) (Job_Name j) (Job_Status j) (Job_UniqueReferenceID j)
    (Job_CreatedAt j) (Job_UpdatedAt j) (Job_StartedAt j) (Job_FinishedAt j) (Job_DurationMs j)
    (count (fun _ => true) ts)
    (count (task_status_in [TaskStatusCompleted]) ts)
    (count (task_status_in [TaskStatusFailed; TaskStatusMaxRetriesExhausted]) ts)
    (count (task_status_in [TaskStatusRunning]) ts)
    (count (task_status_in [TaskStatusPending]) ts)
    "" "" "" None.

Definition created_ge (a b : Job) : Prop := Job_CreatedAt b <= Job_CreatedAt a.
#[global] Instance created_ge_dec : RelDecision created_ge.
Proof. intros a b. apply Z_le_dec. Defined.

Definition select_job_summaries (f : JobFilter) : stmt (list JobSummary) := fun _ db =>
  (db, Ok (map (summary_of db)
    (page (clamp_limit (Filter_Limit f)) (clamp_offset (Filter_Offset f))
      (merge_sort created_ge (List.filter (job_selected f) (db_jobs db)))))).

Definition ListJobs (f : JobFilter) : prog (res (list JobSummary)) := sql (select_job_summaries f).

(** The distinct references among [refIDs] that some job has. *)
Definition select_existing_refs (refIDs : list string) : stmt (gset string) := fun _ db =>
  (db, Ok (list_to_set (omap (fun j => match Job_UniqueReferenceID j with
                                       | Some r => if contains refIDs r then Some r else None
                                       | None => None
                                       end) (db_jobs db)))).

Definition ListExistingRefIDs (refIDs : list string) : prog (res (gset string)) :=
  match refIDs with [] => Ret (Ok ∅) | _ => sql (select_existing_refs refIDs) end.

Definition CountTasksForJob (jobID : uuid) : prog (res Z) :=
  sql (fun _ db => (db, Ok (count (task_of_job jobID) (db_tasks db)))).

Definition task_selected (f : TaskFilter) (t : Task) : bool :=
  task_of_job (TF_JobID f) t && given (TF_Status f) (fun s => bool_decide (Task_Status t = s)).

Definition count_tasks (f : TaskFilter) : stmt Z := fun _ db =>
  (db, Ok (count (task_selected f) (db_tasks db))).
Definition select_task_page (f : TaskFilter) : stmt (list Task) := fun _ db =>
  (db, Ok (page (clamp_limit (TF_Limit f)) (clamp_offset (TF_Offset f))
             (merge_sort seq_le (List.filter (task_selected f) (db_tasks db))))).

Definition ListTasksForJob (f : TaskFilter) : prog (res TaskPage) :=
  try (sql (count_tasks f)) id (fun total =>
  try (sql (select_task_page f)) id (fun tasks =>
    Ret (Ok (mkTaskPage tasks total (clamp_limit (TF_Limit f)) (clamp_offset (TF_Offset f)))))).

(** The retry chain of a job: its parent and its clones, oldest first. *)
Definition in_lineage (job j : Job) : bool :=
  bool_decide (Job_ParentJobID j = Some (Job_ID job)) ||
  match Job_ParentJobID job with Some p => job_has_id p j | None => false end.

Definition lineage_row (j : Job) : JobSummary :=
  mkJobSummary (Job_ID j) (Job_ParentJobID j) (Job_Name j) (Job_Status j) (Job_UniqueReferenceID j)
    (Job_CreatedAt j) (Job_UpdatedAt j) (Job_StartedAt j) (Job_FinishedAt j) (Job_DurationMs j)
    0 0 0 0 0 "" "" "" None.

Definition jobLineage (job : Job) : prog (res (list JobSummary)) :=
  sql (fun _ db => (db, Ok (map lineage_row
        (merge_sort (flip created_ge) (List.filter (in_lineage job) (db_jobs db)))))).

Definition GetJobDetail (jobID : uuid) : prog (res (Job * list JobSummary)) :=
  try (sql (select_job_by_id jobID)) id (fun job =>
  try (jobLineage job) id (fun lineage => Ret (Ok (job, lineage)))).

(** ** Failed triggers in asynq *)

(** The fields of [asynq.TaskInfo] the console reads: its state as whether it is
    [TaskStateRetry] and as text, and its next time as the RFC 3339 text in the
    task's own time zone, absent when that time is zero. *)
Record TaskInfo : Type := mkTaskInfo {
  Info_ID : string;
  Info_Type : string;
  Info_Queue : string;
  Info_Retrying : bool;
  Info_StateName : string;
  Info_LastFailedAt : time;
  Info_NextProcessAt : option string;
  Info_Retried : Z;
  Info_MaxRetry : Z;
  Info_LastErr : string;
  Info_IsOrphaned : bool;
}.

Record triggerType : Type := mkTriggerType { TT_displayName : string; TT_triggerKind : string }.

Definition registeredTriggerTypes (jobs : gmap string JobConfig) : gmap string triggerType :=
  fold_left (fun types nj =>
      <[CompletionCheckTaskType nj.1 := mkTriggerType nj.1 "completion_check"]>
        (<[nj.1 := mkTriggerType nj.1 "schedule"]> types))
    (map_to_list jobs) ∅.

Definition taskInfoToSummary (info : TaskInfo) (trig : triggerType) : prog JobSummary :=
  let status := if Info_Retrying info then JobStatusPending else JobStatusFailed in
  createdAt ← (if IsZero (Info_LastFailedAt info) then Now else Ret (Info_LastFailedAt info));
  let meta : gmap string value :=
    <["asynq_task_id" := VString (Info_ID info)]>
    (<["asynq_state" := VString (Info_StateName info)]>
    (<["asynq_queue" := VString (Info_Queue info)]>
    (<["trigger_kind" := VString (TT_triggerKind trig)]>
    (<["asynq_retry_count" := VInt (Info_Retried info)]>
    (<["asynq_max_retry" := VInt (Info_MaxRetry info)]>
    (<["error" := VString (Info_LastErr info)]>
    (<["source" := VString "asynq"]> ∅))))))) in
  let meta := match Info_NextProcessAt info with
              | Some t => <["next_process_at" := VString t]> meta
              | None => meta
              end in
  let meta := if Info_IsOrphaned info then <["is_orphaned" := VBool true]> meta else meta in
  Ret (mkJobSummary 0 None (TT_displayName trig) status (Some (Info_ID info)) createdAt createdAt
    (Some createdAt) (Some createdAt) (Some 0) 0 0 0 0 0 "asynq" (Info_Queue info) (Info_ID info) (Some meta)).

(** The loop over the listed tasks. *)
Fixpoint selectTriggers (filter : JobFilter) (types : gmap string triggerType) (tasks : list TaskInfo) :
    prog (list JobSummary) :=
  match tasks with
  | [] => Ret []
  | info :: tasks =>
      match types !! Info_Type info with
      | None => selectTriggers filter types tasks
      | Some trig =>
          if given (Filter_RefID filter) (fun s => bool_decide (s = Info_ID info)) &&
             given (Filter_Name filter) (fun s => bool_decide (s = TT_displayName trig))
          then
            summary ← taskInfoToSummary info trig;
            rest ← selectTriggers filter types tasks;
            Ret (if given (Filter_Status filter) (fun s => bool_decide (JS_Status summary = s)) &&
                    given_time (Filter_From filter) (fun t => negb (Before (JS_CreatedAt summary) t)) &&
                    given_time (Filter_To filter) (fun t => negb (After (JS_CreatedAt summary) t))
                 then summary :: rest else rest)
          else selectTriggers filter types tasks
      end
  end.

(** What the asynq inspector answers: the two listings for a queue and a page
    size, the task of a queue with an id, and the error of running it. *)
Record Inspector : Type := mkInspector {
  ListArchivedTasks : string -> Z -> res (list TaskInfo);
  ListRetryTasks : string -> Z -> res (list TaskInfo);
  GetTaskInfo : string -> string -> res TaskInfo;
  RunTask : string -> string -> option error;
}.

Definition listAsynqTriggers (insp : Inspector) (jobs : gmap string JobConfig) (filter : JobFilter) :
    prog (res (list JobSummary)) :=
  let types := registeredTriggerTypes jobs in
  if bool_decide (types = ∅) then Ret (Ok [])
  else
    match ListArchivedTasks insp defaultAsynqQueue maxAsynqOrphans,
          ListRetryTasks insp defaultAsynqQueue maxAsynqOrphans with
    | Ok archived, Ok retrying =>
        summaries ← selectTriggers filter types (archived ++ retrying); Ret (Ok summaries)
    | Err e, _ | _, Err e => Ret (Err (ErrWrap "list asynq triggers" e))
    end.

Definition getAsynqTrigger (insp : Inspector) (jobs : gmap string JobConfig) (queue taskID : string) :
    prog (res JobSummary) :=
  let queue := if bool_decide (queue = ""%string) then defaultAsynqQueue else queue in
  match GetTaskInfo insp queue taskID with
  | Err e => Ret (Err e)
  | Ok info =>
      match registeredTriggerTypes jobs !! Info_Type info with
      | None => Ret (Err (ErrText ("task " ++ taskID ++ " is not a registered trigger")))
      | Some trig => summary ← taskInfoToSummary info trig; Ret (Ok summary)
      end
  end.

Definition summarySortTime (s : JobSummary) : time :=
  match JS_FinishedAt s with
  | Some t => t
  | None => match JS_StartedAt s with Some t => t | None => JS_CreatedAt s end
  end.

Definition newer (a b : JobSummary) : Prop := summarySortTime b <= summarySortTime a.
#[global] Instance newer_dec : RelDecision newer.
Proof. intros a b. apply Z_le_dec. Defined.

(** [l[lo:hi]] with the bounds check of a slice expression. *)
Definition slice {A} (l : list A) (lo hi : Z) : option (list A) :=
  if (0 <=? lo) && (lo <=? hi) && (hi <=? Z.of_nat (length l))
  then Some (take (Z.to_nat (hi - lo)) (drop (Z.to_nat lo) l)) else None.

(** [None] is a panic. *)
Definition mergeJobSummaries (pg asynq : list JobSummary) (offset limit : Z) : option (list JobSummary) :=
  let merged := merge_sort newer (pg ++ asynq) in
  let n := Z.of_nat (length merged) in
  if n <=? offset then Some []
  else
    let end_ := wrap64 (offset + limit) in
    let end_ := if n <? end_ then n else end_ in
    slice merged offset end_.

Definition parseAsynqJobID (raw : string) : option (string * string) :=
  if HasPrefix raw asynqJobIDPrefix then Some (defaultAsynqQueue, TrimPrefix raw asynqJobIDPrefix) else None.

Definition asynqJobID (taskID : string) : string := (asynqJobIDPrefix ++ taskID)%string.

(** ** Views *)
Record progressView : Type := mkProgress {
  Progress_Total : Z; Progress_Completed : Z; Progress_Failed : Z; Progress_Running : Z; Progress_Pending : Z;
}.

Record jobView : Type := mkJobView {
  JV_ID : string;
  JV_ParentJobID : option string;
  JV_Name : string;
  JV_Status : string;
  JV_UniqueReferenceID : option string;
  JV_CreatedAt : time;
  JV_StartedAt : option time;
  JV_FinishedAt : option time;
  JV_DurationMs : option Z;
  JV_Metadata : value;
  JV_Source : string;
  JV_Progress : progressView;
}.

Record taskView : Type := mkTaskView {
  TV_ID : string;
  TV_Name : string;
  TV_Status : string;
  TV_Attempt : Z;
  TV_MaxRetries : Z;
  TV_SequenceNumber : Z;
  TV_Params : value;
  TV_Result : value;
  TV_CreatedAt : time;
  TV_StartedAt : option time;
  TV_FinishedAt : option time;
  TV_DurationMs : option Z;
}.

Definition decodeJSONB (j : JSONB) : value :=
  if negb (bool_decide (JSONB_Status j = Present)) then VNil
  else match JSONB_Bytes j with
       | JEmpty => VNil
       | JDoc v => v
       | JBad s => VString s
       end.

(** What a handler answers; the constructors but [RError] and [RPanic] are 200. *)
Inductive response : Type :=
| RJobs (jobs : list jobView) (limit offset : Z)
| RDetail (job : jobView) (lineage : list jobView)
| RTasks (tasks : list taskView) (total limit offset : Z)
| RRetriedAsynq (taskID : string)
| RRetriedTrigger (clonedID : string) (job : jobView)
| RRetriedJob (clonedID : string) (job : jobView)
| RNotRetried
| RTerminated (jobID : string)
| RError (status : Z) (e : error)
| RPanic.

Section views.
  Context `{UuidText}.

Definition uuidPtrToString (id : option uuid) : option string := uuid_String <$> id.

Definition summaryToView (s : JobSummary) : jobView :=
  let id := uuid_String (JS_ID s) in
  let source := if bool_decide (JS_Source s = ""%string) then "postgres"%string else JS_Source s in
  let id := if bool_decide (source = "asynq"%string) then asynqJobID (JS_AsynqTaskID s) else id in
  let metadata := match JS_Metadata s with Some m => gomap_value (Some m) | None => VNil end in
  mkJobView id (uuidPtrToString (JS_ParentJobID s)) (JS_Name s) (JS_Status s) (JS_UniqueReferenceID s)
    (JS_CreatedAt s) (JS_StartedAt s) (JS_FinishedAt s) (JS_DurationMs s) metadata source
    (mkProgress (JS_Total s) (JS_Completed s) (JS_Failed s) (JS_Running s) (JS_Pending s)).

Definition jobToView (j : Job) : jobView :=
  mkJobView (uuid_String (Job_ID j)) (uuidPtrToString (Job_ParentJobID j)) (Job_Name j) (Job_Status j)
    (Job_UniqueReferenceID j) (Job_CreatedAt j) (Job_StartedAt j) (Job_FinishedAt j) (Job_DurationMs j)
    (decodeJSONB (Job_Metadata j)) "postgres" (mkProgress 0 0 0 0 0).

Definition taskToView (t : Task) : taskView :=
  mkTaskView (uuid_String (Task_ID t)) (Task_Name t) (Task_Status t) (Task_Attempt t) (Task_MaxRetries t)
    (Task_SequenceNumber t) (decodeJSONB (Task_Params t)) (decodeJSONB (Task_Result t)) (Task_CreatedAt t)
    (Task_StartedAt t) (Task_FinishedAt t) (Task_DurationMs t).

(** ** Handlers *)

(** [x, err := p; if err != nil { writeError(w, status, err); return }]. *)
Definition or_error {A} (p : prog (res A)) (status : Z) (k : A -> prog response) : prog response :=
  r ← p; match r with Ok a => k a | Err e => Ret (RError status e) end.

Definition parse_id (rawID : string) (k : uuid -> prog response) : prog response :=
  match uuid_Parse rawID with
  | Err msg => Ret (RError 400 (ErrForeign msg))
  | Ok jobID => k jobID
  end.

Context (insp : Inspector).
Context (jobs : gmap string JobConfig).

Definition handleMeta : list string * list string * list string :=
  (map fst (map_to_list jobs), TerminalJobStates,
   [JobStatusPending; JobStatusRunning; JobStatusCompleted; JobStatusFailed; JobStatusPartialFailed;
    JobStatusRejected; JobStatusCancelled]).

Definition list_filter (q : query) : JobFilter :=
  mkJobFilter (Get q "name") (Get q "status") (TrimSpace (Get q "ref_id")) (parseTimeParam (Get q "from"))
    (parseTimeParam (Get q "to")) (atoiOr (Get q "limit") defaultConsolePageSize) (atoiOr (Get q "offset") 0).

(** [pgFetch]. *)
Definition pg_fetch (f : JobFilter) : JobFilter :=
  let limit := wrap64 (wrap64 (Filter_Offset f + Filter_Limit f) + maxAsynqOrphans) in
  mkJobFilter (Filter_Name f) (Filter_Status f) (Filter_RefID f) (Filter_From f) (Filter_To f)
    (if maxConsolePageSize <? limit then maxConsolePageSize else limit) 0.

Definition orphan (existingRefs : gset string) (s : JobSummary) : bool :=
  match JS_UniqueReferenceID s with
  | Some ref => bool_decide (ref ∉ existingRefs)
  | None => true
  end.

Definition handleListJobs (q : query) : prog response :=
  let filter := list_filter q in
  let pgFetch := pg_fetch filter in
  or_error (listAsynqTriggers insp jobs filter) 500 (fun asynqCandidates =>
  let asynqRefIDs := omap JS_UniqueReferenceID asynqCandidates in
  or_error (ListExistingRefIDs asynqRefIDs) 500 (fun existingRefs =>
  let asynqSummaries := List.filter (orphan existingRefs) asynqCandidates in
  or_error (ListJobs pgFetch) 500 (fun pgSummaries =>
  let pgSummaries := map (JS_set_Source "postgres") pgSummaries in
  Ret match mergeJobSummaries pgSummaries asynqSummaries (Filter_Offset filter) (Filter_Limit filter) with
      | None => RPanic
      | Some summaries => RJobs (map summaryToView summaries) (Filter_Limit filter) (Filter_Offset filter)
      end))).

Definition handleJobDetail (rawID : string) : prog response :=
  match parseAsynqJobID rawID with
  | Some (queue, taskID) =>
      or_error (getAsynqTrigger insp jobs queue taskID) 404 (fun summary =>
        Ret (RDetail (summaryToView summary) []))
  | None =>
      parse_id rawID (fun jobID =>
      or_error (GetJobDetail jobID) 404 (fun '(job, lineage) =>
        Ret (RDetail (jobToView job) (map summaryToView lineage))))
  end.

Definition handleListJobTasks (rawID : string) (q : query) : prog response :=
  match parseAsynqJobID rawID with
  | Some _ =>
      Ret (RTasks [] 0 (atoiOr (Get q "limit") defaultConsolePageSize) (atoiOr (Get q "offset") 0))
  | None =>
      parse_id rawID (fun jobID =>
      let filter := mkTaskFilter jobID (Get q "status") (atoiOr (Get q "limit") defaultConsolePageSize)
                      (atoiOr (Get q "offset") 0) in
      or_error (ListTasksForJob filter) 500 (fun page =>
        Ret (RTasks (map taskToView (Page_Tasks page)) (Page_Total page) (Page_Limit page) (Page_Offset page))))
  end.

(** [Service.RetryAsynqTask]. *)
Definition RetryAsynqTask (queue taskID : string) : option error :=
  let queue := if bool_decide (queue = ""%string) then "default"%string else queue in
  match RunTask insp queue taskID with
  | Some e => Some (ErrWrap ("retry asynq task " ++ taskID) e)
  | None => None
  end.

Definition handleTerminate (rawID : string) : prog response :=
  match parseAsynqJobID rawID with
  | Some _ => Ret (RError 400 (ErrText "cannot terminate an asynq-only trigger; retry it instead"))
  | None =>
      parse_id rawID (fun jobID =>
      r ← Service_TerminateJob jobID;
      Ret match r with
          | Err e => if errors_Is e ErrJobAlreadyTerminal then RError 409 e else RError 500 e
          | Ok _ => RTerminated (uuid_String jobID)
          end)
  end.
End views.

Section retry.
  Context `{UuidText} `{Fsm} `{Pgtype} `{FloatConv}.
  Context (insp : Inspector).
  Context (jobs : gmap string JobConfig).

(** The last part of [handleRetry]; [None] is [retryJob] out of fuel. *)
Definition retry_as_job (fuel : nat) (jobID : uuid) (full : bool) (refID : string) : prog (option response) :=
  r ← RetryJob jobs fuel jobID full refID;
  Ret match r with
      | None => None
      | Some (Err e) => Some (RError 400 e)
      | Some (Ok None) => Some RNotRetried
      | Some (Ok (Some cloned)) => Some (RRetriedJob (uuid_String (Job_ID cloned)) (jobToView cloned))
      end.

Definition retry_as_trigger (jobID : uuid) (refID : string) : prog (option response) :=
  r ← RetryTriggerJob jobs jobID refID;
  Ret (Some match r with
            | Err e => RError 400 e
            | Ok cloned => RRetriedTrigger (uuid_String (Job_ID cloned)) (jobToView cloned)
            end).

Definition handleRetry (fuel : nat) (rawID : string) (q : query) : prog (option response) :=
  let full := bool_decide (Get q "full" = "true"%string) in
  match parseAsynqJobID rawID with
  | Some (queue, taskID) =>
      Ret (Some match RetryAsynqTask insp queue taskID with
                | Some e => RError 400 e
                | None => RRetriedAsynq taskID
                end)
  | None =>
  match uuid_Parse rawID with
  | Err msg => Ret (Some (RError 400 (ErrForeign msg)))
  | Ok jobID =>
  id ← NewUUID;
  let refID := uuid_String id in
  found ← FindJobByID jobID;
  match found with
  | Err e => Ret (Some (RError 404 e))
  | Ok job =>
  if IsTriggerFailureJob (Some job) then
    counted ← CountTasksForJob jobID;
    match counted with
    | Err e => Ret (Some (RError 500 e))
    | Ok taskCount =>
        if taskCount =? 0 then retry_as_trigger jobID refID else retry_as_job fuel jobID full refID
    end
  else retry_as_job fuel jobID full refID
  end end end.
End retry.

(** ** Specification *)

(** The instant a job is listed by: its end, or its start while it has not ended, or its
    creation while it has not started. *)
Inductive shown_time : JobSummary -> time -> Prop :=
| shown_end s t : JS_FinishedAt s = Some t -> shown_time s t
| shown_start s t : JS_FinishedAt s = None -> JS_StartedAt s = Some t -> shown_time s t
| shown_creation s : JS_FinishedAt s = None -> JS_StartedAt s = None -> shown_time s (JS_CreatedAt s).

Definition newest_first_shown (a b : JobSummary) : Prop :=
  forall s t, shown_time a s -> shown_time b t -> t <= s.

(** Every task of a job a listing selects, in the order of the listing. *)
Definition listed_tasks (job : uuid) (status : string) (db : DB) : list Task :=
  merge_sort seq_le (List.filter (task_selected (mkTaskFilter job status 0 0)) (db_tasks db)).

(** The tasks of page [k] when a client pages through a job by [limit]. *)
Definition task_page (E : env) (w : World) (job : uuid) (status : string) (limit : Z) (k : nat) : list Task :=
  match (run E (ListTasksForJob (mkTaskFilter job status limit (limit * Z.of_nat k))) w).2 with
  | Ok p => Page_Tasks p
  | Err _ => []
  end.

(** The arguments for which [merged[offset:end]] is in range. *)
Definition sliceable (n offset limit : Z) : Prop :=
  0 <= offset /\ (offset < n -> 0 <= limit /\ offset + limit <= max_int64).

(** ** Lemmas *)

#[global] Instance newer_trans : Transitive newer.
Proof. intros a b c. unfold newer. lia. Qed.
#[global] Instance newer_total : Total newer.
Proof. intros a b. unfold newer. lia. Qed.

Lemma clamp_limit_le l : clamp_limit l <= maxConsolePageSize.
Proof. unfold clamp_limit, maxConsolePageSize, defaultConsolePageSize. case_match; lia. Qed.

Lemma clamp_limit_id l : 1 <= l <= maxConsolePageSize -> clamp_limit l = l.
Proof.
  unfold clamp_limit, maxConsolePageSize, defaultConsolePageSize. intros Hl.
  destruct (Z.leb_spec l 0); [lia|]. destruct (Z.ltb_spec 200 l); lia.
Qed.

Lemma clamp_offset_id o : 0 <= o -> clamp_offset o = o.
Proof. unfold clamp_offset. intros. destruct (Z.ltb_spec o 0); lia. Qed.

Lemma page_length {A} limit offset (l : list A) : Z.of_nat (length (page limit offset l)) <= Z.max 0 limit.
Proof. unfold page. rewrite length_take. lia. Qed.

(** Consecutive pages are the list. *)
Lemma concat_pages {A} (limit : Z) (l : list A) n :
  0 <= limit ->
  concat (map (fun k => page limit (limit * Z.of_nat k) l) (seq 0 n)) = take (Z.to_nat limit * n) l.
Proof.
  intros Hl. induction n as [|n IH]; [by rewrite Nat.mul_0_r|].
  rewrite seq_S, map_app, concat_app, IH. cbn. rewrite app_nil_r. unfold page.
  replace (Z.to_nat (limit * Z.of_nat n)) with (Z.to_nat limit * n)%nat by nia.
  rewrite take_take_drop. f_equal. lia.
Qed.

Lemma run_ListTasksForJob E w f :
  reliable E ->
  run E (ListTasksForJob f) w =
  (tick (tick w), Ok (mkTaskPage
     (page (clamp_limit (TF_Limit f)) (clamp_offset (TF_Offset f))
        (merge_sort seq_le (List.filter (task_selected f) (db_tasks (w_db w)))))
     (count (task_selected f) (db_tasks (w_db w)))
     (clamp_limit (TF_Limit f)) (clamp_offset (TF_Offset f)))).
Proof.
  intros HE. unfold ListTasksForJob. rewrite run_try.
  rewrite (run_query E (count_tasks f) w (Ok (count (task_selected f) (db_tasks (w_db w))))) by done.
  cbn [fst snd]. rewrite run_try. erewrite run_query; [|done|done]. done.
Qed.

Lemma merged_slice (l : list JobSummary) offset limit :
  0 <= offset -> offset < Z.of_nat (length l) -> 0 <= limit -> offset + limit <= max_int64 ->
  slice l offset (if Z.of_nat (length l) <? wrap64 (offset + limit) then Z.of_nat (length l)
                  else wrap64 (offset + limit)) = Some (page limit offset l).
Proof.
  intros Ho Hn Hl Hm. rewrite wrap64_id by (unfold min_int64; lia). unfold slice, page.
  destruct (Z.ltb_spec (Z.of_nat (length l)) (offset + limit)).
  - replace ((0 <=? offset) && (offset <=? Z.of_nat (length l)) && (Z.of_nat (length l) <=? Z.of_nat (length l)))
      with true by lia.
    f_equal. rewrite !take_ge; [done|rewrite length_drop; lia..].
  - replace ((0 <=? offset) && (offset <=? offset + limit) && (offset + limit <=? Z.of_nat (length l)))
      with true by lia.
    do 2 f_equal. lia.
Qed.

Lemma wrap64_over z : max_int64 < z <= 2 * max_int64 -> wrap64 z < 0.
Proof.
  unfold wrap64, max_int64. intros Hz.
  replace (z + 2 ^ 63) with (z - 2 ^ 63 + 1 * 2 ^ 64) by lia.
  rewrite Z_mod_plus_full, Z.mod_small; lia.
Qed.

Lemma slice_below {A} (l : list A) lo hi : hi < lo -> slice l lo hi = None.
Proof. intros H. unfold slice. replace (lo <=? hi) with false by lia. by rewrite andb_false_r. Qed.

Lemma run_or_error {A} E (p : prog (res A)) status k w :
  run E (or_error p status k) w =
  match (run E p w).2 with
  | Ok a => run E (k a) (run E p w).1
  | Err e => ((run E p w).1, RError status e)
  end.
Proof. unfold or_error. rewrite run_bind. by destruct (run E p w).2. Qed.

(** Listing triggers does not touch the tables, and fails only with the inspector. *)
Lemma run_selectTriggers_db E f types ts w :
  w_db (run E (selectTriggers f types ts) w).1 = w_db w.
Proof.
  revert w. induction ts as [|info ts IH]; intros w; [done|]. cbn [selectTriggers].
  destruct (types !! Info_Type info) as [trig|]; [|apply IH].
  destruct (given _ _ && given _ _); [|apply IH].
  rewrite !run_bind, run_Ret. cbn [fst]. rewrite IH. unfold taskInfoToSummary.
  rewrite run_bind. by destruct (IsZero _).
Qed.

Lemma run_listAsynqTriggers E insp jobs f w a r :
  ListArchivedTasks insp defaultAsynqQueue maxAsynqOrphans = Ok a ->
  ListRetryTasks insp defaultAsynqQueue maxAsynqOrphans = Ok r ->
  exists l w', run E (listAsynqTriggers insp jobs f) w = (w', Ok l) /\ w_db w' = w_db w /\
    (a ++ r = [] -> l = []).
Proof.
  intros Ha Hr. unfold listAsynqTriggers. destruct (bool_decide _); [by exists [], w|].
  rewrite Ha, Hr, run_bind. eexists _, _. split; [done|]. split; [apply run_selectTriggers_db|].
  intros Hnil. by rewrite Hnil.
Qed.

Lemma run_ListExistingRefIDs E refs w :
  reliable E -> exists x w', run E (ListExistingRefIDs refs) w = (w', Ok x) /\ w_db w' = w_db w.
Proof.
  intros HE. unfold ListExistingRefIDs. destruct refs as [|r refs]; [by eexists _, _|].
  erewrite run_query by done. by eexists _, _.
Qed.

Lemma run_ListJobs E f w :
  reliable E -> exists l, run E (ListJobs f) w = (tick w, Ok l) /\
    Z.of_nat (length l) <= maxConsolePageSize.
Proof.
  intros HE. unfold ListJobs. erewrite run_query by done. eexists. split; [done|].
  rewrite length_map. pose proof (clamp_limit_le (Filter_Limit f)).
  etrans; [apply page_length|]. unfold maxConsolePageSize in *. lia.
Qed.

(** The page a listing shows: the merge of what the two sources answered. *)
Lemma run_handleListJobs E insp jobs q w a r `{UuidText} :
  reliable E -> ListArchivedTasks insp defaultAsynqQueue maxAsynqOrphans = Ok a ->
  ListRetryTasks insp defaultAsynqQueue maxAsynqOrphans = Ok r ->
  exists pg asynq w', Z.of_nat (length pg) <= maxConsolePageSize /\ (a ++ r = [] -> asynq = []) /\
    w_db w' = w_db w /\
    run E (handleListJobs insp jobs q) w =
    (w', match mergeJobSummaries pg asynq (Filter_Offset (list_filter q)) (Filter_Limit (list_filter q)) with
         | None => RPanic
         | Some l => RJobs (map summaryToView l) (Filter_Limit (list_filter q)) (Filter_Offset (list_filter q))
         end).
Proof.
  intros HE Ha Hr. unfold handleListJobs. cbv zeta.
  destruct (run_listAsynqTriggers E insp jobs (list_filter q) w a r Ha Hr) as (l & w1 & H1 & Hdb1 & Hnil).
  rewrite run_or_error, H1. cbn [fst snd].
  destruct (run_ListExistingRefIDs E (omap JS_UniqueReferenceID l) w1 HE) as (refs & w2 & H2 & Hdb2).
  rewrite run_or_error, H2. cbn [fst snd].
  destruct (run_ListJobs E (pg_fetch (list_filter q)) w2 HE) as (pg & H3 & Hlen).
  rewrite run_or_error, H3. cbn [fst snd].
  exists (map (JS_set_Source "postgres") pg), (List.filter (orphan refs) l), (tick w2).
  rewrite length_map. splits; [done| |cbn; congruence|done].
  intros Hn. by rewrite Hnil.
Qed.

Lemma mergeJobSummaries_sorted pg asynq offset limit :
  mergeJobSummaries pg asynq offset limit =
  let l := merge_sort newer (pg ++ asynq) in
  if Z.of_nat (length l) <=? offset then Some []
  else slice l offset (if Z.of_nat (length l) <? wrap64 (offset + limit) then Z.of_nat (length l)
                       else wrap64 (offset + limit)).
Proof. done. Qed.

Lemma shown_time_sort s t : shown_time s t -> summarySortTime s = t.
Proof. unfold summarySortTime. intros Hs. destruct Hs as [s t Hf|s t Hf Hs|s Hf Hs]; by rewrite Hf, ?Hs. Qed.

Lemma merged_newest_first l : StronglySorted newest_first_shown (merge_sort newer l).
Proof.
  assert (StronglySorted newer (merge_sort newer l)) as Hs by (apply StronglySorted_merge_sort; apply _).
  induction Hs as [|x k _ IH Hx]; constructor; [done|]. eapply Forall_impl; [exact Hx|].
  unfold newer. intros b Hb s t <-%shown_time_sort <-%shown_time_sort. exact Hb.
Qed.

(** The detail of a listed trigger is the trigger itself. *)
Lemma selectTriggers_elem E f types ts w s :
  s ∈ (run E (selectTriggers f types ts) w).2 ->
  exists info trig w', info ∈ ts /\ types !! Info_Type info = Some trig /\
    s = (run E (taskInfoToSummary info trig) w').2.
Proof.
  revert w. induction ts as [|info ts IH]; intros w Hs; [by apply not_elem_of_nil in Hs|].
  cbn [selectTriggers] in Hs.
  assert (Hrest : forall w, s ∈ (run E (selectTriggers f types ts) w).2 ->
            exists info' trig w', info' ∈ info :: ts /\ types !! Info_Type info' = Some trig /\
              s = (run E (taskInfoToSummary info' trig) w').2).
  { intros w1 H1. destruct (IH w1 H1) as (i & t & w2 & ? & ? & ?). exists i, t, w2. splits; [by right|done..]. }
  destruct (types !! Info_Type info) as [trig|] eqn:Htype; [|by eapply Hrest].
  destruct (given _ _ && given _ _); [|by eapply Hrest].
  rewrite !run_bind, run_Ret in Hs. cbn [snd] in Hs.
  destruct (_ && given_time _ _); [|by eapply Hrest].
  apply elem_of_cons in Hs as [->|Hs]; [|by eapply Hrest].
  exists info, trig, w. splits; [left|done|done].
Qed.

(** The parts of a trigger's summary that do not depend on when it is read. *)
Lemma taskInfoToSummary_stable E info trig w w' :
  let s := (run E (taskInfoToSummary info trig) w).2 in
  let s' := (run E (taskInfoToSummary info trig) w').2 in
  JS_Source s = "asynq"%string /\ JS_AsynqTaskID s = Info_ID info /\ JS_AsynqTaskID s' = Info_ID info /\
  JS_Source s' = JS_Source s /\ JS_Name s' = JS_Name s /\ JS_Status s' = JS_Status s /\
  JS_UniqueReferenceID s' = JS_UniqueReferenceID s /\ JS_Metadata s' = JS_Metadata s.
Proof. cbv zeta. unfold taskInfoToSummary. by destruct (IsZero _). Qed.

Lemma substring_all s : String.substring 0 (String.length s) s = s.
Proof. induction s as [|c s IH]; [done|]. cbn. by rewrite IH. Qed.

Lemma parse_asynqJobID id : parseAsynqJobID (asynqJobID id) = Some (defaultAsynqQueue, id).
Proof.
  unfold parseAsynqJobID, asynqJobID, HasPrefix, TrimPrefix, asynqJobIDPrefix, String.append. cbn.
  rewrite Nat.sub_0_r. destruct id as [|c id]; [done|]. cbn. by rewrite substring_all.
Qed.

Lemma find_job E w id j :
  reliable E -> List.filter (job_has_id id) (db_jobs (w_db w)) = [j] ->
  run E (FindJobByID id) w = (tick w, Ok j).
Proof. intros HE Hf. apply (run_query E _ w (Ok j) HE). intros now. unfold select_job_by_id. by rewrite Hf. Qed.

(** Both ways of retrying refuse a job that is not over. *)
Lemma retry_as_job_open `{UuidText} `{Fsm} E w jobs fuel id j full refID :
  reliable E -> List.filter (job_has_id id) (db_jobs (w_db w)) = [j] -> Job_IsExecutionPending j = true ->
  exists e, run E (retry_as_job jobs fuel id full refID) w = (tick w, Some (RError 400 e)).
Proof.
  intros HE Hf Hopen. unfold retry_as_job, RetryJob, retryJob. rewrite !run_bind, (find_job E w id j HE Hf).
  cbn [fst snd]. rewrite Hopen. by eexists.
Qed.

Lemma retry_as_trigger_open `{UuidText} `{Fsm} `{Pgtype} `{FloatConv} E w jobs id j refID :
  reliable E -> List.filter (job_has_id id) (db_jobs (w_db w)) = [j] -> Job_IsExecutionPending j = true ->
  exists e, run E (retry_as_trigger jobs id refID) w = (tick w, Some (RError 400 e)).
Proof.
  intros HE Hf Hopen. unfold retry_as_trigger, RetryTriggerJob, retryTriggerJob.
  rewrite run_bind, run_try, (find_job E w id j HE Hf). cbn [fst snd].
  destruct (IsTriggerFailureJob (Some j)); cbn [negb]; rewrite ?Hopen; by eexists.
Qed.

(** ** Properties *)

(** A client that reads the pages of a job's tasks one after the other sees
    each task of the job with the requested status exactly once, in the order of
    their sequence numbers; every page answers the total and is no longer than its
    limit. *)
Theorem ListTasksForJob_pages E w job status limit n :
  reliable E -> 1 <= limit <= maxConsolePageSize ->
  (length (listed_tasks job status (w_db w)) <= Z.to_nat limit * n)%nat ->
  concat (map (task_page E w job status limit) (seq 0 n)) = listed_tasks job status (w_db w) /\
  listed_tasks job status (w_db w) ≡ₚ
    List.filter (task_selected (mkTaskFilter job status 0 0)) (db_tasks (w_db w)) /\
  Sorted seq_le (listed_tasks job status (w_db w)) /\
  (forall k, Z.of_nat (length (task_page E w job status limit k)) <= limit /\
     exists w' p, run E (ListTasksForJob (mkTaskFilter job status limit (limit * Z.of_nat k))) w = (w', Ok p) /\
       Page_Total p = Z.of_nat (length (listed_tasks job status (w_db w))) /\ w_db w' = w_db w).
Proof.
  intros HE Hl Hn.
  assert (Hpage : forall k, task_page E w job status limit k =
            page limit (limit * Z.of_nat k) (listed_tasks job status (w_db w))).
  { intros k. unfold task_page. rewrite run_ListTasksForJob by done. cbn [snd TF_Limit TF_Offset Page_Tasks].
    rewrite clamp_limit_id, clamp_offset_id by lia. done. }
  assert (Hperm := merge_sort_Permutation seq_le
            (List.filter (task_selected (mkTaskFilter job status 0 0)) (db_tasks (w_db w)))).
  splits; [| exact Hperm | apply Sorted_merge_sort; apply _ | intros k; split].
  - rewrite (map_ext _ _ Hpage), concat_pages by lia. by apply take_ge.
  - rewrite Hpage. etrans; [apply page_length|lia].
  - rewrite run_ListTasksForJob by done. eexists _, _. split; [done|]. cbn [Page_Total fst]. split; [|done].
    unfold listed_tasks. rewrite Hperm. done.
Qed.

Theorem ListTasksForJob_pages_witness :
  let w := sample_world [sample_job 1 JobStatusRunning]
             [sample_row 4 1 TaskStatusPending 1; sample_row 2 1 TaskStatusPending 1;
              sample_row 3 1 TaskStatusRunning 1; sample_row 5 9 TaskStatusPending 1] in
  map Task_ID (concat (map (task_page env_ok w 1 "" 2) (seq 0 2))) = [2; 3; 4]%N.
Proof.
  intros w.
  assert (Hlen : (length (listed_tasks 1 "" (w_db w)) <= Z.to_nat 2 * 2)%nat) by (vm_compute; lia).
  assert (Hl : 1 <= 2 <= maxConsolePageSize) by (unfold maxConsolePageSize; lia).
  destruct (ListTasksForJob_pages env_ok w 1 "" 2 2 env_ok_reliable Hl Hlen) as [-> _].
  vm_compute. reflexivity.
Defined.

(** C37: merging the two sources of the job list shows a window of one list, the
    summaries of both sources sorted newest first, by the time they finished, or started
    if they have not finished, or were created if they have not started; the slice expression is in range
    exactly for a non-negative offset whose window has a non-negative length that
    does not overflow, or is past the end: every other page is a panic. *)
Theorem mergeJobSummaries_pages pg asynq :
  Z.of_nat (length (pg ++ asynq)) <= max_int64 ->
  exists l, l ≡ₚ pg ++ asynq /\ StronglySorted newest_first_shown l /\
    forall offset limit,
      min_int64 <= offset <= max_int64 -> min_int64 <= limit <= max_int64 ->
      (sliceable (Z.of_nat (length l)) offset limit ->
         mergeJobSummaries pg asynq offset limit = Some (page limit offset l)) /\
      (~ sliceable (Z.of_nat (length l)) offset limit -> mergeJobSummaries pg asynq offset limit = None).
Proof.
  intros Hlen. exists (merge_sort newer (pg ++ asynq)).
  assert (Hperm := merge_sort_Permutation newer (pg ++ asynq)).
  assert (length (merge_sort newer (pg ++ asynq)) = length (pg ++ asynq)) as Hlen' by (by rewrite Hperm).
  splits; [exact Hperm | apply merged_newest_first |].
  intros offset limit Ho Hl. rewrite mergeJobSummaries_sorted. cbv zeta.
  set (l := merge_sort newer (pg ++ asynq)) in *. unfold sliceable.
  destruct (Z.leb_spec (Z.of_nat (length l)) offset) as [Hpast|Hin].
  - split; [|lia]. intros _. unfold page. rewrite drop_ge by lia. by rewrite take_nil.
  - split.
    + intros [? Hw]. apply merged_slice; lia.
    + intros Hbad. destruct (Z.ltb_spec offset 0).
      * unfold slice. by replace (0 <=? offset) with false by lia.
      * apply slice_below. pose proof (wrap64_over (offset + limit)).
        destruct (Z.ltb_spec limit 0).
        -- rewrite wrap64_id by (unfold min_int64, max_int64 in *; lia).
           destruct (Z.ltb_spec (Z.of_nat (length l)) (offset + limit)); lia.
        -- assert (wrap64 (offset + limit) < 0) by lia.
           destruct (Z.ltb_spec (Z.of_nat (length l)) (wrap64 (offset + limit))); lia.
Qed.

Theorem mergeJobSummaries_pages_witness :
  let s id t := lineage_row (Job_set_FinishedAt (Some t) (sample_job id JobStatusCompleted)) in
  exists l, l ≡ₚ [s 1%N 30; s 2%N 50; s 3%N 40] /\
    mergeJobSummaries [s 1%N 30; s 2%N 50] [s 3%N 40] 1 5 = Some (page 5 1 l) /\
    mergeJobSummaries [s 1%N 30; s 2%N 50] [s 3%N 40] 0 (-1) = None.
Proof.
  intros s. destruct (mergeJobSummaries_pages [s 1%N 30; s 2%N 50] [s 3%N 40]) as (l & Hp & _ & Hl).
  { cbn. unfold max_int64. lia. }
  exists l. assert (Z.of_nat (length l) = 3) as Hlen by (by rewrite Hp).
  split; [exact Hp|]. unfold sliceable in Hl. rewrite Hlen in Hl. unfold min_int64, max_int64 in Hl.
  split; [apply (Hl 1 5); lia | apply (Hl 0 (-1)); lia].
Defined.

(** C38: the job list reaches 200 stored jobs at most: when asynq lists no trigger,
    a page that starts at offset 200 or later is empty however many jobs the table
    holds; and a negative offset makes the handler panic. *)
Theorem handleListJobs_offsets `{UuidText} E insp jobs q w a r :
  reliable E -> ListArchivedTasks insp defaultAsynqQueue maxAsynqOrphans = Ok a ->
  ListRetryTasks insp defaultAsynqQueue maxAsynqOrphans = Ok r ->
  let offset := Filter_Offset (list_filter q) in
  let limit := Filter_Limit (list_filter q) in
  let '(w', answer) := run E (handleListJobs insp jobs q) w in
  w_db w' = w_db w /\
  (offset < 0 -> answer = RPanic) /\
  (a = [] -> r = [] -> maxConsolePageSize <= offset -> answer = RJobs [] limit offset).
Proof.
  intros HE Ha Hr offset limit.
  destruct (run_handleListJobs E insp jobs q w a r HE Ha Hr) as (pg & asynq & w' & Hlen & Hnil & Hdb & ->).
  fold offset limit. rewrite mergeJobSummaries_sorted. cbv zeta.
  set (l := merge_sort newer (pg ++ asynq)). splits; [exact Hdb | |].
  - intros Ho. destruct (Z.leb_spec (Z.of_nat (length l)) offset); [lia|].
    unfold slice. by replace (0 <=? offset) with false by lia.
  - intros -> -> Ho. assert (length l = length pg) as Hl.
    { unfold l. rewrite merge_sort_Permutation, Hnil by done. by rewrite app_nil_r. }
    destruct (Z.leb_spec (Z.of_nat (length l)) offset); [done|lia].
Qed.

Theorem handleListJobs_offsets_witness :
  let jobs := map (fun n => sample_job (N.of_nat n) JobStatusCompleted) (seq 0 250) in
  let q : query := <["offset" := "200"]> (<["limit" := "50"]> ∅) in
  let insp := mkInspector (fun _ _ => Ok []) (fun _ _ => Ok []) (fun _ _ => Err ErrRecordNotFound) (fun _ _ => None) in
  (run env_ok (@handleListJobs sample_uuid_text insp sample_jobs q) (sample_world jobs [])).2 = RJobs [] 50 200.
Proof.
  intros jobs q insp.
  pose proof (@handleListJobs_offsets sample_uuid_text env_ok insp sample_jobs q (sample_world jobs []) [] []
                env_ok_reliable eq_refl eq_refl) as Hspec.
  cbv zeta in Hspec. destruct (run _ _ _) as [w' answer]. destruct Hspec as (_ & _ & Hpast).
  cbn [snd]. assert (list_filter q = mkJobFilter "" "" "" None None 50 200) as Hq by (vm_compute; reflexivity).
  rewrite Hq in Hpast. apply Hpast; [done..|]. unfold maxConsolePageSize. cbn. lia.
Defined.

(** The terminate endpoint answers 200 exactly when the job was PENDING or
    RUNNING and is now cancelled with its PENDING tasks; a job that is over or unknown is answered
    with 409, an id that does not parse and an asynq trigger with 400, and then no
    row changes. *)
Theorem handleTerminate_codes `{UuidText} E w raw :
  reliable E ->
  let '(w', answer) := run E (handleTerminate raw) w in
  match parseAsynqJobID raw, uuid_Parse raw with
  | Some _, _ | None, Err _ => w' = w /\ exists e, answer = RError 400 e
  | None, Ok id =>
      (exists j now, j ∈ db_jobs (w_db w) /\ Job_ID j = id /\ open_job j /\ answer = RTerminated (uuid_String id) /\
         jobs_change (fun j => Job_ID j = id /\ open_job j) (Job_UpdateStatus JobStatusCancelled now)
           (w_db w) (w_db w') /\
         tasks_change (fun t => Task_JobID t = id /\ Task_Status t = TaskStatusPending)
           (Task_UpdateStatus TaskStatusCancelled now) (w_db w) (w_db w')) \/
      ((forall j, j ∈ db_jobs (w_db w) -> Job_ID j = id -> ~ open_job j) /\ w_db w' = w_db w /\
         exists e, answer = RError 409 e)
  end.
Proof.
  intros HE. unfold handleTerminate. destruct (parseAsynqJobID raw) as [[queue taskID]|]; [by (cbn; split; eauto)|].
  unfold parse_id. destruct (uuid_Parse raw) as [id|msg]; [|by (cbn; split; eauto)].
  unfold Service_TerminateJob, TerminateJob. rewrite run_bind, run_try, run_sql_reliable by done. cbn [fst snd].
  destruct (terminate_tx_cases id (env_now E (w_tick w)) (w_db w))
    as [(j & Hj & Hid & Hopen & Hr & Hjobs & Htasks)|[Hnone Hr]]; rewrite Hr; cbn.
  - left. exists j, (env_now E (w_tick w)). by splits.
  - right. splits; [done|done|by eexists].
Qed.

Theorem handleTerminate_codes_witness :
  let w := sample_world [sample_job 1 JobStatusRunning; sample_job 2 JobStatusCompleted] [] in
  let answer id := (run env_ok (@handleTerminate sample_uuid_text (N_text id "")) w).2 in
  answer 1%N = RTerminated (N_text 1 "") /\ exists e, answer 2%N = RError 409 e.
Proof.
  intros w answer. unfold answer.
  pose proof (@handleTerminate_codes sample_uuid_text env_ok w (N_text 1 "") env_ok_reliable) as H1.
  pose proof (@handleTerminate_codes sample_uuid_text env_ok w (N_text 2 "") env_ok_reliable) as H2.
  destruct (run _ (handleTerminate (N_text 1 "")) w) as [w1 a1], (run _ (handleTerminate (N_text 2 "")) w) as [w2 a2].
  cbn [snd]. split.
  - destruct H1 as [(j & now & _ & _ & _ & Ha & _)|(Hnone & _)]; [exact Ha|].
    exfalso. apply (Hnone (sample_job 1 JobStatusRunning)); [left|done|by right].
  - destruct H2 as [(j & now & Hj & Hid & Ho & _)|(_ & _ & Ha)]; [|exact Ha].
    apply elem_of_cons in Hj as [->|[->|[]%not_elem_of_nil]%elem_of_cons]; [done|].
    by destruct Ho.
Defined.

(** The retry endpoint never touches a job that is not over: whether it
    would be retried as a job or as a failed trigger, the answer is 400 and no row,
    message or hook call is added. *)
Theorem handleRetry_refuses_open `{UuidText} `{Fsm} `{Pgtype} `{FloatConv} E w insp jobs fuel raw q id j :
  reliable E -> parseAsynqJobID raw = None -> uuid_Parse raw = Ok id ->
  List.filter (job_has_id id) (db_jobs (w_db w)) = [j] -> Job_IsExecutionPending j = true ->
  exists w' e, run E (handleRetry insp jobs fuel raw q) w = (w', Some (RError 400 e)) /\
    w_db w' = w_db w /\ w_kafka w' = w_kafka w /\ w_hooks w' = w_hooks w.
Proof.
  intros HE Hraw Hid Hf Hopen. unfold handleRetry. rewrite Hraw, Hid, run_bind, run_NewUUID. cbn [fst snd].
  rewrite run_bind, (find_job E (tick w) id j HE Hf). cbn [fst snd].
  destruct (IsTriggerFailureJob (Some j)).
  - rewrite run_bind. unfold CountTasksForJob. erewrite run_query by done. cbn [fst snd].
    destruct (_ =? 0).
    + edestruct retry_as_trigger_open as [e ->]; [done..|]. by eexists _, e.
    + edestruct retry_as_job_open as [e ->]; [done..|]. by eexists _, e.
  - edestruct retry_as_job_open as [e ->]; [done..|]. by eexists _, e.
Qed.

Theorem handleRetry_refuses_open_witness :
  let w := sample_world [sample_job 1 JobStatusRunning] [] in
  let insp := mkInspector (fun _ _ => Ok []) (fun _ _ => Ok []) (fun _ _ => Err ErrRecordNotFound) (fun _ _ => None) in
  exists w' e,
    run env_ok (@handleRetry sample_uuid_text sample_fsm sample_pgtype sample_float_conv insp sample_jobs 1
                  (N_text 1 "") ∅) w = (w', Some (RError 400 e)) /\ w_db w' = w_db w.
Proof.
  intros w insp.
  destruct (@handleRetry_refuses_open sample_uuid_text sample_fsm sample_pgtype sample_float_conv env_ok w insp
              sample_jobs 1 (N_text 1 "") ∅ 1%N (sample_job 1 JobStatusRunning) env_ok_reliable eq_refl eq_refl
              eq_refl eq_refl) as (w' & e & Hrun & Hdb & _).
  exists w', e. split; [exact Hrun|exact Hdb].
Defined.

(** C39: the id under which the job list shows a failed trigger leads back to it:
    the detail page of that id is the trigger with the same name, status, reference
    and metadata, as long as asynq still has the task. *)
Theorem asynq_detail_agrees `{UuidText} E w w0 insp jobs filter a r s :
  ListArchivedTasks insp defaultAsynqQueue maxAsynqOrphans = Ok a ->
  ListRetryTasks insp defaultAsynqQueue maxAsynqOrphans = Ok r ->
  (forall info, info ∈ a ++ r -> GetTaskInfo insp defaultAsynqQueue (Info_ID info) = Ok info) ->
  (exists l, (run E (listAsynqTriggers insp jobs filter) w0).2 = Ok l /\ s ∈ l) ->
  let v := summaryToView s in
  exists w' v', run E (handleJobDetail insp jobs (JV_ID v)) w = (w', RDetail v' []) /\ w_db w' = w_db w /\
    JV_ID v' = JV_ID v /\ JV_Name v' = JV_Name v /\ JV_Status v' = JV_Status v /\
    JV_UniqueReferenceID v' = JV_UniqueReferenceID v /\ JV_Metadata v' = JV_Metadata v.
Proof.
  intros Ha Hr Hget (l & Hl & Hs) v. unfold listAsynqTriggers in Hl.
  destruct (bool_decide _); [injection Hl as <-; by apply not_elem_of_nil in Hs|].
  rewrite Ha, Hr, run_bind, run_Ret in Hl. cbn [snd] in Hl. injection Hl as <-.
  apply selectTriggers_elem in Hs as (info & trig & w1 & Hin & Htype & ->).
  destruct (taskInfoToSummary_stable E info trig w1 w) as (Hsrc & Hid & Hid' & Hsrc' & Hn & Hst & Href & Hmeta).
  assert (JV_ID v = asynqJobID (Info_ID info)) as Hv.
  { unfold v, summaryToView. cbn [JV_ID]. rewrite Hsrc, Hid. done. }
  unfold handleJobDetail. rewrite Hv, parse_asynqJobID, run_or_error. unfold getAsynqTrigger.
  change (bool_decide (defaultAsynqQueue = ""%string)) with false. cbn match.
  rewrite Hget by done. rewrite Htype, run_bind. cbn [fst snd run].
  eexists _, _. split; [done|].
  unfold v, summaryToView. cbn [JV_ID JV_Name JV_Status JV_UniqueReferenceID JV_Metadata].
  rewrite Hsrc', Hsrc, Hid', Hn, Hst, Href, Hmeta. splits; try done.
  unfold taskInfoToSummary. by destruct (IsZero _).
Qed.

Theorem asynq_detail_agrees_witness :
  let info := mkTaskInfo "t1" "job" "default" false "archived" 5 None 3 3 "boom" false in
  let insp := mkInspector (fun _ _ => Ok [info]) (fun _ _ => Ok []) (fun _ _ => Ok info) (fun _ _ => None) in
  let w := sample_world [] [] in
  exists w' v, run env_ok (@handleJobDetail sample_uuid_text insp sample_jobs "asynq:t1") w = (w', RDetail v []) /\
    JV_Name v = "job"%string /\ JV_Status v = JobStatusFailed.
Proof.
  intros info insp w.
  set (filter := mkJobFilter "" "" "" None None 50 0).
  destruct (run env_ok (listAsynqTriggers insp sample_jobs filter) w) as [w1 l] eqn:Hl.
  assert (Hlist : exists s, l = Ok [s] /\ @summaryToView sample_uuid_text s =
            mkJobView "asynq:t1" None "job" "FAILED" (Some "t1"%string) 5 (Some 5) (Some 5) (Some 0)
              (JV_Metadata (@summaryToView sample_uuid_text s)) "asynq" (mkProgress 0 0 0 0 0)).
  { vm_compute in Hl. injection Hl as _ <-. eexists. split; [reflexivity|]. vm_compute. reflexivity. }
  destruct Hlist as (s & -> & Hview).
  destruct (@asynq_detail_agrees sample_uuid_text env_ok w w insp sample_jobs filter [info] [] s)
    as (w' & v & Hrun & _ & _ & Hn & Hst & _).
  - reflexivity.
  - reflexivity.
  - intros i [<-|[]]%list_elem_of_In. reflexivity.
  - exists [s]. rewrite Hl. split; [reflexivity|left].
  - rewrite Hview in Hrun, Hn, Hst. exists w', v. splits; [exact Hrun|exact Hn|exact Hst].
Defined.
