(* ===== verification/Stats.v ===== *)
(** * Stats: the console's aggregates and its view of the schedule

    [internal/console/stats.go] and [schedule.go].  Parameters are what lies outside
    the repository: PostgreSQL's [date_trunc], its collation of names and the
    rounding of an average to a [float64], and [cron.ParseStandard]. *)
From Stdlib Require Import Floats.SpecFloat QArith.QArith_base.
From S2P Require Import Prelude Go Params Domain Effects Repository JobConfig Instances Scheduler.
From S2P Require Import Console.
#[local] Open Scope Z_scope.

Record jobStatusCount : Type := mkJobStatusCount { JSC_Name : string; JSC_Status : string; JSC_Count : Z }.

Record timeseriesBucket : Type := mkBucket { Bucket_T : time; Bucket_Succeeded : Z; Bucket_Failed : Z; Bucket_Other : Z }.

Record jobMetricRow : Type := mkMetricRow {
  Metric_Name : string;
  Metric_Success : Z;
  Metric_Error : Z;
  Metric_Total : Z;
  Metric_AvgMs : spec_float;
}.

Record jobMetricView : Type := mkMetricView {
  MV_Name : string;
  MV_NextRun : option time;
  MV_AvgMs : spec_float;
  MV_Success : Z;
  MV_Error : Z;
  MV_ErrorPct : spec_float;
}.

Definition hours (n : Z) : duration := n * 3600 * 1000000000.

Definition resolveBucket (bucket : string) (from to : option time) : prog string :=
  if contains ["minute"; "hour"; "day"]%string bucket then Ret bucket
  else
    match from with
    | None => Ret "day"%string
    | Some from =>
        end_ ← (match to with Some t => Ret t | None => Now end);
        let width := Sub end_ from in
        Ret (if width <=? hours 2 then "minute"%string else if width <=? hours 48 then "hour"%string
             else "day"%string)
    end.

(** [createdAtRange], as the condition it adds. *)
Definition createdAtRange (from to : option time) (t : time) : bool :=
  given_time from (fun f => f <=? t) && given_time to (fun u => t <=? u).

(** The distinct values of a grouping key. *)
Definition groups {A K} `{EqDecision K} (key : A -> K) (l : list A) : list K := remove_dups (map key l).
Definition group_of {A K} `{EqDecision K} (key : A -> K) (k : K) (l : list A) : list A :=
  List.filter (fun x => bool_decide (key x = k)) l.

(** Ordering rows by a key. *)
Definition on {A K} (key : A -> K) (R : K -> K -> Prop) (a b : A) : Prop := R (key a) (key b).
#[global] Instance on_dec {A K} (key : A -> K) R `{!RelDecision R} : RelDecision (on key R).
Proof. intros a b. unfold on. apply _. Defined.
#[global] Instance on_trans {A K} (key : A -> K) R `{!Transitive R} : Transitive (on key R).
Proof. intros a b c. unfold on. by etrans. Qed.
#[global] Instance on_total {A K} (key : A -> K) R `{!Total R} : Total (on key R).
Proof. intros a b. apply (total R). Qed.

(** Go's order of strings. *)
Definition byte_le (a b : string) : Prop := String.leb a b = true.
#[global] Instance byte_le_dec : RelDecision byte_le.
Proof. intros a b. unfold byte_le. apply _. Defined.
#[global] Instance Zle_rel_dec : RelDecision Z.le := Z_le_dec.
#[global] Instance Zle_total : Total Z.le.
Proof. intros a b. lia. Qed.

(** The three outcome groups of [outcomeFilters]. *)
Definition succeeded : Task -> bool := task_status_in [TaskStatusCompleted].
Definition failed : Task -> bool := task_status_in [TaskStatusFailed; TaskStatusMaxRetriesExhausted].
Definition other (t : Task) : bool :=
  negb (task_status_in [TaskStatusCompleted; TaskStatusFailed; TaskStatusMaxRetriesExhausted] t).

(** The rows of the time series: each task in range, once per job of the name it joins. *)
Definition series_rows (job : string) (from to : option time) (db : DB) : list Task :=
  List.filter (fun t => createdAtRange from to (Task_CreatedAt t))
    (if bool_decide (job = ""%string) then db_tasks db
     else concat (map (fun t =>
            map (fun _ => t) (List.filter (fun j => job_has_id (Task_JobID t) j && bool_decide (Job_Name j = job))
                                (db_jobs db))) (db_tasks db))).

Section postgres.
  Context (date_trunc : string -> time -> time).
  Context (collate : string -> string -> Prop) `{!RelDecision collate}.
  Context (scan_float : Q -> spec_float).

(** [coalesce(avg(duration_ms) FILTER (WHERE duration_ms IS NOT NULL), 0)]. *)
Definition avg_ms (l : list Job) : Q :=
  match omap Job_DurationMs l with
  | [] => 0%Q
  | ds => Qmake (foldr Z.add 0 ds) (Pos.of_nat (length ds))
  end.

Definition select_counts (from to : option time) : stmt (list jobStatusCount) := fun _ db =>
  let rows := List.filter (fun j => createdAtRange from to (Job_CreatedAt j)) (db_jobs db) in
  let key j := (Job_Name j, Job_Status j) in
  (db, Ok (map (fun '(name, status) =>
              mkJobStatusCount name status (Z.of_nat (length (group_of key (name, status) rows))))
            (merge_sort (on fst collate) (groups key rows)))).

Definition JobExecutionCounts (from to : option time) : prog (res (list jobStatusCount)) :=
  sql (select_counts from to).

Definition select_series (job : string) (from to : option time) (unit : string) : stmt (list timeseriesBucket) :=
  fun _ db =>
  let rows := series_rows job from to db in
  let key t := date_trunc unit (Task_CreatedAt t) in
  (db, Ok (map (fun k => let g := group_of key k rows in
              mkBucket k (count succeeded g) (count failed g) (count other g))
            (merge_sort Z.le (groups key rows)))).

Definition TaskTimeseries (job : string) (from to : option time) (unit : string) :
    prog (res (list timeseriesBucket)) := sql (select_series job from to unit).

Definition metric_row (rows : list Job) (name : string) : jobMetricRow :=
  let g := group_of Job_Name name rows in
  mkMetricRow name (count (job_status_in [JobStatusCompleted]) g)
    (count (job_status_in [JobStatusFailed; JobStatusPartialFailed]) g)
    (Z.of_nat (length g)) (scan_float (avg_ms g)).

Definition select_metrics (from to : option time) : stmt (list jobMetricRow) := fun _ db =>
  let rows := List.filter (fun j => createdAtRange from to (Job_CreatedAt j)) (db_jobs db) in
  (db, Ok (map (metric_row rows) (groups Job_Name rows))).

Definition JobMetrics (from to : option time) : prog (res (gmap string jobMetricRow)) :=
  try (sql (select_metrics from to)) id (fun rows =>
    Ret (Ok (list_to_map (map (fun r => (Metric_Name r, r)) rows)))).

(** ** Handlers *)
Inductive stats_response : Type :=
| SCounts (counts : list jobStatusCount)
| SSeries (buckets : list timeseriesBucket) (bucket job : string)
| SMetrics (jobs : list jobMetricView)
| SError (status : Z) (e : error).

Definition stats_or_error {A} (p : prog (res A)) (k : A -> prog stats_response) : prog stats_response :=
  r ← p; match r with Ok a => k a | Err e => Ret (SError 500 e) end.

Definition handleStatsJobs (q : query) : prog stats_response :=
  stats_or_error (JobExecutionCounts (parseTimeParam (Get q "from")) (parseTimeParam (Get q "to")))
    (fun rows => Ret (SCounts rows)).

Definition handleStatsTimeseries (q : query) : prog stats_response :=
  let from := parseTimeParam (Get q "from") in
  let to := parseTimeParam (Get q "to") in
  unit ← resolveBucket (Get q "bucket") from to;
  stats_or_error (TaskTimeseries (Get q "job") from to unit) (fun buckets =>
    Ret (SSeries buckets unit (Get q "job"))).

(** [cron.ParseStandard]: the schedule's [Next], or an error. *)
Context (ParseStandard : string -> res (time -> time)).
Context (jobs : gmap string JobConfig).

(** [float64(e) / float64(finished) * 100]. *)
Definition error_pct (success err : Z) : spec_float :=
  let finished := wrap64 (success + err) in
  if 0 <? finished
  then SFmul 53 1024 (SFdiv 53 1024 (float_of_int err) (float_of_int finished)) (float_of_int 100)
  else S754_zero false.

Definition metric_view (now : time) (metrics : gmap string jobMetricRow) (jc : JobConfig) : jobMetricView :=
  let m := default (mkMetricRow "" 0 0 0 (S754_zero false)) (metrics !! Cfg_Name jc) in
  let nextRun := match ParseStandard (Cfg_Schedule jc) with Ok next => Some (next now) | Err _ => None end in
  mkMetricView (Cfg_Name jc) nextRun (Metric_AvgMs m) (Metric_Success m) (Metric_Error m)
    (error_pct (Metric_Success m) (Metric_Error m)).

Definition handleStatsJobMetrics (q : query) : prog stats_response :=
  stats_or_error (JobMetrics (parseTimeParam (Get q "from")) (parseTimeParam (Get q "to"))) (fun metrics =>
    now ← Now;
    Ret (SMetrics (merge_sort (on MV_Name byte_le)
                     (map (fun nj => metric_view now metrics nj.2) (map_to_list jobs))))).

(** ** The schedule *)
Definition defaultUpcomingCount : Z := 5.
Definition maxUpcomingCount : Z := 20.

Record jobConfigView : Type := mkConfigView {
  CV_Name : string;
  CV_Schedule : string;
  CV_Manual : bool;
  CV_Enabled : bool;
  CV_MaxRetries : Z;
  CV_CancelPrevious : bool;
  CV_Brokers : list string;
  CV_TaskTopic : string;
  CV_TaskRetryTopic : string;
  CV_TaskDLQTopic : string;
  CV_ConsumerGroup : string;
  CV_RetryDelayMs : Z;
  CV_ParseError : string;
}.

Record upcomingRunView : Type := mkUpcoming { Up_JobName : string; Up_Schedule : string; Up_RunAt : time }.

Definition config_view (jc : JobConfig) : prog jobConfigView :=
  let isManual := bool_decide (TrimSpace (Cfg_Schedule jc) = ""%string) in
  let k := Cfg_Kafka jc in
  enabled ← IsEnabled jc;
  let parseError := if isManual then ""%string
                    else match ParseStandard (Cfg_Schedule jc) with Ok _ => ""%string | Err e => error_string e end in
  Ret (mkConfigView (Cfg_Name jc) (Cfg_Schedule jc) isManual enabled (Retry_MaxRetries (Cfg_Retry jc))
         (Cfg_CancelPrevious jc) (Kafka_Brokers k) (Kafka_TaskTopic k) (Kafka_TaskRetryTopic k)
         (Kafka_TaskDLQTopic k) (Kafka_ConsumerGroup k) (Milliseconds (Retry_RetryDelay (Cfg_Retry jc))) parseError).

Fixpoint config_views (l : list JobConfig) : prog (list jobConfigView) :=
  match l with
  | [] => Ret []
  | jc :: l => v ← config_view jc; rest ← config_views l; Ret (v :: rest)
  end.

Definition handleConfig : prog (list jobConfigView) :=
  views ← config_views (map snd (map_to_list jobs));
  Ret (merge_sort (on CV_Name byte_le) views).

(** The inner loop: [count] times at most, until the schedule has no next time. *)
Fixpoint upcoming_from (count : nat) (sched : time -> time) (jc : JobConfig) (next : time) : list upcomingRunView :=
  match count with
  | O => []
  | S count =>
      let next := sched next in
      if IsZero next then []
      else mkUpcoming (Cfg_Name jc) (Cfg_Schedule jc) next :: upcoming_from count sched jc next
  end.

Definition upcoming_count (q : query) : Z :=
  let count := atoiOr (Get q "count") defaultUpcomingCount in
  let count := if count <=? 0 then defaultUpcomingCount else count in
  if maxUpcomingCount <? count then maxUpcomingCount else count.

Definition upcoming_runs (count : Z) (now : time) : list upcomingRunView :=
  concat (map (fun nj => match ParseStandard (Cfg_Schedule nj.2) with
                         | Err _ => []
                         | Ok sched => upcoming_from (Z.to_nat count) sched nj.2 now
                         end) (map_to_list jobs)).

Definition handleUpcoming (q : query) : prog (list upcomingRunView) :=
  now ← Now;
  Ret (merge_sort (on Up_RunAt Z.le) (upcoming_runs (upcoming_count q) now)).
End postgres.

(** ** Specification *)

(** The units [date_trunc] may be given. *)
Definition whitelisted (unit : string) : Prop := unit ∈ ["minute"; "hour"; "day"]%string.

(** ** Lemmas *)

Lemma count_group_cons {A K} `{EqDecision K} (key : A -> K) (p : A -> bool) k ks l :
  k ∉ ks ->
  count p (List.filter (fun x => bool_decide (key x ∈ k :: ks)) l) =
  count p (group_of key k l) + count p (List.filter (fun x => bool_decide (key x ∈ ks)) l).
Proof.
  intros Hk. unfold group_of. induction l as [|x l IH]; [done|]. cbn.
  destruct (decide (key x = k)) as [Hx|Hx].
  - rewrite (bool_decide_eq_true_2 (key x ∈ k :: ks)) by (rewrite Hx; left).
    rewrite (bool_decide_eq_true_2 (key x = k)) by done.
    rewrite (bool_decide_eq_false_2 (key x ∈ ks)) by congruence.
    rewrite !count_cons, IH. lia.
  - rewrite (bool_decide_eq_false_2 (key x = k)) by done.
    rewrite (bool_decide_ext (key x ∈ k :: ks) (key x ∈ ks)) by (rewrite elem_of_cons; tauto).
    destruct (bool_decide (key x ∈ ks)); rewrite ?count_cons, IH; lia.
Qed.

(** Grouping loses no row and counts none twice. *)
Lemma total_groups {A K} `{EqDecision K} (key : A -> K) (p : A -> bool) l :
  total_of (fun k => count p (group_of key k l)) (groups key l) = count p l.
Proof.
  assert (Hsum : forall ks, NoDup ks -> total_of (fun k => count p (group_of key k l)) ks =
            count p (List.filter (fun x => bool_decide (key x ∈ ks)) l)).
  { induction 1 as [|k ks Hk Hnd IH].
    - unfold total_of. cbn. rewrite filter_none; [done|]. intros x _. apply bool_decide_eq_false_2, not_elem_of_nil.
    - rewrite count_group_cons by done. cbn. unfold total_of in IH. by rewrite IH. }
  unfold groups. rewrite Hsum by apply NoDup_remove_dups. f_equal. apply filter_all, Forall_forall.
  intros x Hx. by apply bool_decide_eq_true_2, elem_of_remove_dups, list_elem_of_fmap_2.
Qed.

Lemma groups_some {A K} `{EqDecision K} (key : A -> K) (k : K) l : k ∈ groups key l -> group_of key k l ≠ [].
Proof.
  unfold groups, group_of. rewrite elem_of_remove_dups. intros (x & <- & Hx%list_elem_of_In)%list_elem_of_In%in_map_iff Hnil.
  assert (In x (List.filter (fun y => bool_decide (key y = key x)) l)) as Hin.
  { apply filter_In. split; [by apply list_elem_of_In|by apply bool_decide_eq_true_2]. }
  by rewrite Hnil in Hin.
Qed.

Lemma sorted_lt (l : list Z) : NoDup l -> Sorted Z.le l -> Sorted Z.lt l.
Proof.
  intros Hnd Hs. apply Sorted_StronglySorted in Hs; [|intros a b c; lia].
  apply StronglySorted_Sorted. induction Hs as [|x l Hs IH Hx]; [constructor|].
  apply NoDup_cons in Hnd as [Hnin Hnd]. constructor; [by apply IH|].
  apply Forall_forall. intros y Hy. rewrite Forall_forall in Hx. specialize (Hx y Hy).
  assert (x ≠ y) by congruence. lia.
Qed.

(** Every task is in exactly one outcome group. *)
Lemma outcomes_partition l : count succeeded l + count failed l + count other l = Z.of_nat (length l).
Proof.
  induction l as [|t l IH]; [done|]. rewrite !count_cons. cbn [length].
  assert ((if succeeded t then 1 else 0) + (if failed t then 1 else 0) + (if other t then 1 else 0) = 1); [|lia].
  unfold succeeded, failed, other, task_status_in, contains, TaskStatusCompleted, TaskStatusFailed,
    TaskStatusMaxRetriesExhausted.
  destruct (decide (Task_Status t = "COMPLETED"%string)) as [->|H1]; [done|].
  destruct (decide (Task_Status t = "FAILED"%string)) as [->|H2]; [done|].
  destruct (decide (Task_Status t = "MAX_RETRIES_EXHAUSTED"%string)) as [->|H3]; [done|].
  rewrite !bool_decide_eq_false_2 by (rewrite ?elem_of_cons, ?elem_of_nil; tauto). done.
Qed.

Lemma resolveBucket_run E bucket from to w :
  exists unit w', run E (resolveBucket bucket from to) w = (w', unit) /\ w_db w' = w_db w /\ whitelisted unit /\
    (whitelisted bucket -> unit = bucket).
Proof.
  unfold resolveBucket, whitelisted.
  destruct (contains _ bucket) eqn:Hb; [apply contains_spec in Hb; by eexists _, _|].
  assert (Hno : forall unit, bucket ∈ ["minute"; "hour"; "day"]%string -> unit = bucket).
  { intros unit Hin%contains_spec. congruence. }
  destruct from as [f|]; [|exists "day"%string, w; split_and!; [done|done|set_solver|by apply Hno]].
  rewrite run_bind. destruct to as [t|]; (eexists _, _; split; [done|split; [done|split; [|by apply Hno]]]);
    repeat case_match; rewrite !elem_of_cons; auto.
Qed.

(** ** Properties *)

(** The rows created in the bucket that [t] starts, for buckets of a unit. *)
Definition in_bucket (date_trunc : string -> time -> time) (unit : string) (t : time) (rows : list Task) : list Task :=
  List.filter (fun row => bool_decide (date_trunc unit (Task_CreatedAt row) = t)) rows.

(** C40: whatever its parameters, the time series is truncated by one of the units minute,
    hour and day (the requested one when it is one of these) and never by the text of the
    request: each bucket starts at an instant to which [date_trunc] takes, in that unit, the
    creation of some selected task, and has the outcome counts of the tasks it takes there.
    The buckets are in strictly increasing time order, and their counts together count every
    selected task exactly once. *)
Theorem handleStatsTimeseries_partition date_trunc E w q :
  reliable E ->
  let rows := series_rows (Get q "job") (parseTimeParam (Get q "from")) (parseTimeParam (Get q "to")) (w_db w) in
  exists w' buckets unit,
    run E (handleStatsTimeseries date_trunc q) w = (w', SSeries buckets unit (Get q "job")) /\
    w_db w' = w_db w /\ whitelisted unit /\ (whitelisted (Get q "bucket") -> unit = Get q "bucket") /\
    Forall (fun b => let g := in_bucket date_trunc unit (Bucket_T b) rows in
      g ≠ [] /\ Bucket_Succeeded b = count succeeded g /\ Bucket_Failed b = count failed g /\
      Bucket_Other b = count other g) buckets /\
    Sorted Z.lt (map Bucket_T buckets) /\
    total_of Bucket_Succeeded buckets = count succeeded rows /\
    total_of Bucket_Failed buckets = count failed rows /\
    total_of Bucket_Succeeded buckets + total_of Bucket_Failed buckets + total_of Bucket_Other buckets =
      Z.of_nat (length rows).
Proof.
  intros HE rows. unfold handleStatsTimeseries. cbv zeta.
  destruct (resolveBucket_run E (Get q "bucket") (parseTimeParam (Get q "from")) (parseTimeParam (Get q "to")) w)
    as (unit & w1 & Hrun & Hdb & Hunit & Hasked).
  rewrite run_bind, Hrun. cbn [fst snd]. unfold stats_or_error, TaskTimeseries.
  rewrite run_bind. erewrite run_query by done. cbn [fst snd]. rewrite run_Ret, Hdb. fold rows.
  set (key := fun t => date_trunc unit (Task_CreatedAt t)).
  assert (Hperm := merge_sort_Permutation Z.le (groups key rows)).
  eexists _, _, unit. split; [done|]. split; [done|]. split; [done|]. split; [done|]. split.
  { apply Forall_map, Forall_forall. intros k Hk. rewrite Hperm in Hk. apply (groups_some key) in Hk. by splits. }
  rewrite map_map, !total_of_map. cbn [Bucket_T Bucket_Succeeded Bucket_Failed Bucket_Other].
  rewrite !(total_of_perm _ _ _ Hperm), !total_groups. splits; [|done|done|apply outcomes_partition].
  rewrite map_id. apply sorted_lt.
  - rewrite Hperm. apply NoDup_remove_dups.
  - apply Sorted_merge_sort. apply _.
Qed.

Theorem handleStatsTimeseries_partition_witness :
  let w := sample_world [sample_job 1 JobStatusRunning]
             [sample_row 2 1 TaskStatusCompleted 1; sample_row 3 1 TaskStatusFailed 1;
              sample_row 4 1 TaskStatusRunning 1] in
  let trunc (unit : string) (t : time) := t / 4 * 4 in
  exists w' buckets unit,
    run env_ok (handleStatsTimeseries trunc {["job"%string := "job"%string]}) w =
      (w', SSeries buckets unit "job") /\ whitelisted unit /\
    total_of Bucket_Succeeded buckets + total_of Bucket_Failed buckets + total_of Bucket_Other buckets = 3.
Proof.
  intros w trunc.
  destruct (handleStatsTimeseries_partition trunc env_ok w {["job"%string := "job"%string]} env_ok_reliable)
    as (w' & buckets & unit & Hrun & _ & Hunit & _ & _ & _ & _ & _ & Hsum).
  exists w', buckets, unit. split; [exact Hrun|]. split; [exact Hunit|].
  rewrite Hsum. vm_compute. reflexivity.
Defined.
