(* ===== verification/Server.v ===== *)
(** * Server: a running service and the console it serves

    The rest of [internal/scheduler/service.go]: [New], the methods that forward to
    the executors with the service's jobs, and the consumers' [TaskRunner]; and
    [NewHandler] of [internal/console/handler.go]: the routes and the handler each
    leads to.  A path is the list of its decoded segments, ["/api/jobs"] being
    [["api"; "jobs"]] and ["/"] being [[""]]. *)
From Stdlib Require Import Floats.SpecFloat QArith.QArith_base.
From S2P Require Import Prelude Go Params Domain Effects Repository JobConfig Transport Instances Lifecycle.
From S2P Require Import Finalizer TriggerFailure JobExecutor TaskExecutor Retry Scheduler Console Stats Consumer.
#[local] Open Scope Z_scope.

(** ** The service *)

Section open.
  (** [pgxpool.New] and [gorm.Open]. *)
  Context (pgxpool_New : string -> res handle) (gorm_Open : handle -> res handle) (testing : bool).

Definition openDatabase (dbConfig : DatabaseConfig) : res handle :=
  match pgxpool_New (buildDSN testing dbConfig) with
  | Err e => Err (ErrWrap "create connection pool" e)
  | Ok pool =>
      match gorm_Open pool with
      | Err e => Err (ErrWrap "connect to database" e)
      | Ok db => Ok db
      end
  end.

(** The service and the connection its repository uses. *)
Definition New (cfg : Config) : res (Service * handle) :=
  match validateConfig cfg with
  | Some e => Err (ErrWrap "config validation failed" e)
  | None =>
      match Config_DB cfg with
      | Some db => Ok (new_service, db)
      | None =>
          match openDatabase (Config_Database cfg) with
          | Err e => Err e
          | Ok db => Ok (new_service, db)
          end
      end
  end.
End open.

Section service.
  Context `{UuidText} `{Fsm} `{Pgtype} `{FloatConv} `{Codec}.
  Context (s : Service).

Definition Service_ExecuteTask (message : string) : prog (res unit) := ExecuteTask (Svc_jobs s) message.
Definition Service_RetryJob (fuel : nat) (jobID : uuid) (fullRetry : bool) (refID : string) :
    prog (option (res (option Job))) := RetryJob (Svc_jobs s) fuel jobID fullRetry refID.
Definition Service_RetryTriggerJob (jobID : uuid) (refID : string) : prog (res Job) :=
  RetryTriggerJob (Svc_jobs s) jobID refID.
Definition Service_FindJobByID (jobID : uuid) : prog (res Job) := FindJobByID jobID.
Definition Service_CheckJobCompletions (jobName : string) : prog (option error) :=
  CheckJobCompletions (Svc_jobs s) jobName.
(** The handler [RegisterRetryHandler] installs. *)
Definition RegisterRetryHandler (fuel : nat) (payload : json_text) (taskID : string) : prog (option (option error)) :=
  retryHandler (Svc_jobs s) fuel payload taskID.

(** [db] is [s.DB()]. *)
Definition GetJobTasks (db : option handle) (filter : TaskFilter) : prog (res TaskPage) :=
  match db with
  | None => Ret (Err (ErrText "GetJobTasks requires a database connection"))
  | Some _ => ListTasksForJob filter
  end.

(** [Start]: the handlers it installs; [scheduler_Start] is what asynq's scheduler
    answers. *)
Definition Service_Start (scheduler_Start : option error) : res (list (string * handler)) :=
  match scheduler_Start with
  | Some e => Err (ErrWrap "start asynq scheduler" e)
  | None => Ok (Start s)
  end.

(** The address the console is served on. *)
Definition StartConsole (db : option handle) (addr : string) : res string :=
  match db with
  | None => Err (ErrText "console requires a database connection")
  | Some _ => Ok addr
  end.

(** The goroutine of a registered consumer. *)
Definition service_consumer `{MessageReader} (c : Consumer) (ctx : nat -> bool) (fuel : nat) (r : reader) :
    prog (option (reader * list entry)) :=
  taskConsumer_run Service_ExecuteTask (Consumer_isRetry c) ctx fuel 0 r.
End service.

(** ** Routes *)
Inductive segment : Type := Lit (s : string) | Wild.

Inductive endpoint : Type :=
| EpMeta | EpListJobs | EpListJobTasks | EpJobDetail | EpRetry | EpTerminate | EpConfig | EpUpcoming
| EpStatsJobs | EpStatsTimeseries | EpStatsJobMetrics | EpIndex.

(** A pattern of [mux.HandleFunc]; one that ends in a slash matches every longer path. *)
Record pattern : Type := mkPattern {
  Pat_method : string;
  Pat_path : list segment;
  Pat_prefix : bool;
  Pat_endpoint : endpoint;
}.

Definition api (method : string) (path : list segment) (ep : endpoint) : pattern :=
  mkPattern method (Lit "api" :: path) false ep.

Definition routes : list pattern :=
  [api "GET" [Lit "jobs"; Lit "meta"] EpMeta;
   api "GET" [Lit "jobs"] EpListJobs;
   api "GET" [Lit "jobs"; Wild; Lit "tasks"] EpListJobTasks;
   api "GET" [Lit "jobs"; Wild] EpJobDetail;
   api "POST" [Lit "jobs"; Wild; Lit "retry"] EpRetry;
   api "POST" [Lit "jobs"; Wild; Lit "terminate"] EpTerminate;
   api "GET" [Lit "config"] EpConfig;
   api "GET" [Lit "upcoming"] EpUpcoming;
   api "GET" [Lit "stats"; Lit "jobs"] EpStatsJobs;
   api "GET" [Lit "stats"; Lit "timeseries"] EpStatsTimeseries;
   api "GET" [Lit "stats"; Lit "job-metrics"] EpStatsJobMetrics;
   mkPattern "GET" [] true EpIndex]%string.

(** The wildcards' values when the path matches. *)
Fixpoint match_path (prefix : bool) (pat : list segment) (path : list string) : option (list string) :=
  match pat, path with
  | [], [] => Some []
  | [], _ :: _ => if prefix then Some [] else None
  | Lit s :: pat, x :: path => if bool_decide (x = s) then match_path prefix pat path else None
  | Wild :: pat, x :: path =>
      if bool_decide (x = ""%string) then None else cons x <$> match_path prefix pat path
  | _, [] => None
  end.

(** A pattern for GET also serves HEAD. *)
Definition match_method (pattern method : string) : bool :=
  bool_decide (method = pattern) || (bool_decide (pattern = "GET"%string) && bool_decide (method = "HEAD"%string)).

Inductive routed : Type :=
| Routed (ep : endpoint) (wildcards : list string)
| MethodNotAllowed
| NoRoute.

(** [ServeMux] takes the most specific pattern, which is the first one here
    ([routes_specific]). *)
Definition route (method : string) (path : list string) : routed :=
  let matching := omap (fun p => pair p <$> match_path (Pat_prefix p) (Pat_path p) path) routes in
  match List.filter (fun pw => match_method (Pat_method pw.1) method) matching with
  | (p, ws) :: _ => Routed (Pat_endpoint p) ws
  | [] => match matching with [] => NoRoute | _ => MethodNotAllowed end
  end.

(** [r.PathValue("id")]. *)
Definition PathValue (wildcards : list string) : string := default ""%string (head wildcards).

Inductive reply : Type :=
| ReplyIndex
| ReplyNotFound
| ReplyMethodNotAllowed
| ReplyMeta (meta : list string * list string * list string)
| ReplyConsole (r : response)
| ReplyStats (r : stats_response)
| ReplyConfig (jobs : list jobConfigView)
| ReplyUpcoming (runs : list upcomingRunView).

Section serve.
  Context `{UuidText} `{Fsm} `{Pgtype} `{FloatConv}.
  Context (insp : Inspector) (date_trunc : string -> time -> time) (collate : string -> string -> Prop).
  Context `{!RelDecision collate} (scan_float : Q -> spec_float) (ParseStandard : string -> res (time -> time)).
  Context (jobs : gmap string JobConfig).

Definition handleIndex (path : list string) : reply :=
  if bool_decide (path = [""%string]) then ReplyIndex else ReplyNotFound.

(** [f <$> p]. *)
Definition reply_of {A} (f : A -> reply) (p : prog A) : prog (option reply) := r ← p; Ret (Some (f r)).

(** The handler of a route; [None] is a retry out of fuel. *)
Definition handle_endpoint (fuel : nat) (ep : endpoint) (ws : list string) (path : list string) (q : query) :
    prog (option reply) :=
  match ep with
  | EpMeta => Ret (Some (ReplyMeta (handleMeta jobs)))
  | EpListJobs => reply_of ReplyConsole (handleListJobs insp jobs q)
  | EpListJobTasks => reply_of ReplyConsole (handleListJobTasks (PathValue ws) q)
  | EpJobDetail => reply_of ReplyConsole (handleJobDetail insp jobs (PathValue ws))
  | EpRetry => r ← handleRetry insp jobs fuel (PathValue ws) q; Ret (option_map ReplyConsole r)
  | EpTerminate => reply_of ReplyConsole (handleTerminate (PathValue ws))
  | EpConfig => reply_of ReplyConfig (handleConfig ParseStandard jobs)
  | EpUpcoming => reply_of ReplyUpcoming (handleUpcoming ParseStandard jobs q)
  | EpStatsJobs => reply_of ReplyStats (handleStatsJobs collate q)
  | EpStatsTimeseries => reply_of ReplyStats (handleStatsTimeseries date_trunc q)
  | EpStatsJobMetrics => reply_of ReplyStats (handleStatsJobMetrics scan_float ParseStandard jobs q)
  | EpIndex => Ret (Some (handleIndex path))
  end.

Definition ServeHTTP (fuel : nat) (method : string) (path : list string) (q : query) : prog (option reply) :=
  match route method path with
  | Routed ep ws => handle_endpoint fuel ep ws path q
  | MethodNotAllowed => Ret (Some ReplyMethodNotAllowed)
  | NoRoute => Ret (Some ReplyNotFound)
  end.
End serve.

(** ** Specification *)

(** The requests that may change something. *)
Definition mutating (ep : endpoint) : bool :=
  match ep with EpRetry | EpTerminate => true | _ => false end.

(** A program that only asks: no statement it sends changes a row, and it writes no
    message and calls no hook. *)
Definition ask_only {X} (e : eff X) : Prop :=
  match e with
  | ESql s => forall now db, (s now db).1 = db
  | EWriteMessages _ | EHook _ => False
  | _ => True
  end.

Fixpoint read_only {R} (p : prog R) : Prop :=
  match p with
  | Ret _ => True
  | Vis e k => ask_only e /\ forall x, read_only (k x)
  end.

(** Pattern [a] matches only paths that [b] matches; no path is matched by both. *)
Fixpoint narrower (a b : list segment) (prefix : bool) : bool :=
  match a, b with
  | [], [] => true
  | _, [] => prefix
  | Lit x :: a, Lit y :: b => bool_decide (x = y) && narrower a b prefix
  | Lit x :: a, Wild :: b => negb (bool_decide (x = ""%string)) && narrower a b prefix
  | Wild :: a, Wild :: b => narrower a b prefix
  | _, _ => false
  end.
Fixpoint apart (a b : list segment) : bool :=
  match a, b with
  | Lit x :: a, Lit y :: b => negb (bool_decide (x = y)) || apart a b
  | _ :: a, _ :: b => apart a b
  | [], [] => false
  | _, _ => true
  end.

(** ** Lemmas *)

(** The order of [routes] is that of [ServeMux]'s precedence. *)
Lemma routes_specific i j a b :
  routes !! i = Some a -> routes !! j = Some b -> (i < j)%nat -> Pat_prefix a = false /\
  (narrower (Pat_path a) (Pat_path b) (Pat_prefix b) = true \/
   (Pat_prefix b = false /\ apart (Pat_path a) (Pat_path b) = true)).
Proof.
  intros Hi Hj Hlt.
  assert (forallb (fun i => forallb (fun j =>
    match routes !! i, routes !! j with
    | Some a, Some b =>
        negb (i <? j)%nat || (negb (Pat_prefix a) &&
          (narrower (Pat_path a) (Pat_path b) (Pat_prefix b) || (negb (Pat_prefix b) && apart (Pat_path a) (Pat_path b))))
    | _, _ => true
    end) (seq 0 12)) (seq 0 12) = true) as Hall by by vm_compute.
  rewrite forallb_forall in Hall. pose proof (lookup_lt_Some _ _ _ Hi) as Hi'. pose proof (lookup_lt_Some _ _ _ Hj) as Hj'.
  change (length routes) with 12%nat in Hi', Hj'.
  specialize (Hall i ltac:(apply in_seq; lia)). rewrite forallb_forall in Hall.
  specialize (Hall j ltac:(apply in_seq; lia)). rewrite Hi, Hj in Hall.
  apply orb_true_iff in Hall as [Hall|Hall]; [apply negb_true_iff, Nat.ltb_ge in Hall; lia|].
  apply andb_true_iff in Hall as [Hp%negb_true_iff Hall]. split; [done|].
  apply orb_true_iff in Hall as [?|[?%negb_true_iff ?]%andb_true_iff]; [by left|by right].
Qed.

Lemma match_path_apart pa pb a b path :
  pa = false -> pb = false -> apart a b = true -> is_Some (match_path pa a path) -> match_path pb b path = None.
Proof.
  intros -> ->. revert b path. induction a as [|x a IH]; intros [|y b] path; cbn; try done.
  - intros _ [ws Hm]. destruct path; [|done]. by destruct y.
  - intros _ [ws Hm]. destruct x, path; try done; case_match; done.
  - intros Hap [ws Hm]. destruct path as [|z path]; [by destruct y|].
    destruct x as [x|], y as [y|]; cbn in *.
    + apply orb_true_iff in Hap as [Hne%negb_true_iff%bool_decide_eq_false|Hap].
      * case_bool_decide; [subst|done]. by rewrite bool_decide_eq_false_2.
      * case_bool_decide; [|done]. case_bool_decide; [|done]. by eapply IH.
    + case_bool_decide; [|done]. case_bool_decide; [done|]. rewrite (IH b path Hap); [done|by eexists].
    + case_bool_decide; [done|]. case_bool_decide; [|done]. eapply IH; [done|]. by destruct (match_path false a path).
    + case_bool_decide; [done|]. rewrite (IH b path Hap); [done|]. by destruct (match_path false a path).
Qed.

Lemma match_path_narrower a b prefix path :
  narrower a b prefix = true -> is_Some (match_path false a path) -> is_Some (match_path prefix b path).
Proof.
  revert b path. induction a as [|x a IH]; intros [|y b] path; cbn.
  - intros _ [ws Hm]. by destruct path.
  - done.
  - intros Hpre _. assert (prefix = true) as -> by (by destruct x). destruct path; by eexists.
  - intros Hn [ws Hm]. destruct path as [|z path]; [by destruct x|]. destruct x as [x|], y as [y|]; cbn in *; try done.
    + apply andb_true_iff in Hn as [->%bool_decide_eq_true Hn]. case_bool_decide; [|done]. apply IH; [done|by eexists].
    + apply andb_true_iff in Hn as [Hx%negb_true_iff%bool_decide_eq_false Hn]. case_bool_decide as Hz; [|done].
      subst z. rewrite bool_decide_eq_false_2 by done. destruct (IH b path Hn) as [ws' ->]; by eexists.
    + case_bool_decide; [done|]. destruct (match_path false a path) eqn:Ha; [|done].
      destruct (IH b path Hn) as [ws' ->]; by eexists.
Qed.

(** Of two routes that match a path, the earlier is the more specific. *)
Lemma routes_precedence i j a b path :
  routes !! i = Some a -> routes !! j = Some b -> (i < j)%nat ->
  is_Some (match_path (Pat_prefix a) (Pat_path a) path) -> is_Some (match_path (Pat_prefix b) (Pat_path b) path) ->
  forall path', is_Some (match_path (Pat_prefix a) (Pat_path a) path') ->
    is_Some (match_path (Pat_prefix b) (Pat_path b) path').
Proof.
  intros Hi Hj Hlt Ha [ws Hb] path' Ha'. destruct (routes_specific i j a b Hi Hj Hlt) as [Hp [Hn|[Hq Hap]]].
  - rewrite Hp in Ha'. by eapply match_path_narrower.
  - by rewrite (match_path_apart _ _ _ _ _ Hp Hq Hap Ha) in Hb.
Qed.

(** *** Programs that only ask *)
Lemma read_only_bind {A B} (p : prog A) (f : A -> prog B) :
  read_only p -> (forall a, read_only (f a)) -> read_only (p ≫= f).
Proof.
  intros Hp Hf. induction p as [a|X e k IH]; [apply Hf|]. destruct Hp as [He Hk]. split; [done|].
  intros x. by apply IH.
Qed.

Lemma read_only_try {A B} (p : prog (res A)) wrap (k : A -> prog (res B)) :
  read_only p -> (forall a, read_only (k a)) -> read_only (try p wrap k).
Proof. intros Hp Hk. apply read_only_bind; [done|]. intros [a|e]; [apply Hk|done]. Qed.

Lemma read_only_call {X} (e : eff X) : ask_only e -> read_only (call e).
Proof. done. Qed.

Lemma read_only_run {R} E (p : prog R) w :
  read_only p ->
  let '(w', r) := run E p w in w_db w' = w_db w /\ w_kafka w' = w_kafka w /\ w_hooks w' = w_hooks w.
Proof.
  revert w. induction p as [r|X e k IH]; intros w; [done|]. intros [He Hk]. cbn [run].
  assert (Hgo : forall x w1, w_db w1 = w_db w -> w_kafka w1 = w_kafka w -> w_hooks w1 = w_hooks w ->
    let '(w', r) := run E (k x) w1 in w_db w' = w_db w /\ w_kafka w' = w_kafka w /\ w_hooks w' = w_hooks w).
  { intros x w1 <- <- <-. apply IH, Hk. }
  destruct e; cbn in He; try done; try (apply Hgo; done).
  unfold interp, do_sql. specialize (He (env_now E (w_tick w)) (w_db w)).
  destruct (s (env_now E (w_tick w)) (w_db w)) as [db' r]. cbn in He. subst db'.
  destruct (env_sql E (w_tick w)); by apply Hgo.
Qed.

Create HintDb read_only.
#[export] Hint Resolve read_only_call : read_only.

(** Peel a program call by call. *)
Ltac read_only_step :=
  match goal with
  | |- forall _, read_only _ => intros ?
  | |- read_only (Ret _) => exact I
  | |- read_only (call _) => apply read_only_call; exact I
  | |- read_only (sql _) => apply read_only_call; intros ? ?; reflexivity
  | |- read_only (try _ _ _) => apply read_only_try; [|intros ?]
  | |- read_only (_ ≫= _) => apply read_only_bind; [|intros ?]
  | |- read_only (match ?x with _ => _ end) => destruct x eqn:?
  | |- read_only _ => progress (auto with read_only)
  end.
Ltac read_only_go := repeat read_only_step.

(** *** The handlers of the GET routes *)
Lemma read_only_or_error {A} (p : prog (res A)) status k :
  read_only p -> (forall a, read_only (k a)) -> read_only (or_error p status k).
Proof. intros Hp Hk. apply read_only_bind; [done|]. intros [a|e]; [apply Hk|done]. Qed.

Lemma read_only_stats_or_error {A} (p : prog (res A)) k :
  read_only p -> (forall a, read_only (k a)) -> read_only (stats_or_error p k).
Proof. intros Hp Hk. apply read_only_bind; [done|]. intros [a|e]; [apply Hk|done]. Qed.

Lemma read_only_parse_id `{UuidText} rawID k : (forall id, read_only (k id)) -> read_only (parse_id rawID k).
Proof. intros Hk. unfold parse_id. case_match; [apply Hk|done]. Qed.

Lemma read_only_taskInfoToSummary info trig : read_only (taskInfoToSummary info trig).
Proof. unfold taskInfoToSummary, Now. read_only_go. Qed.
#[export] Hint Resolve read_only_taskInfoToSummary : read_only.

Lemma read_only_selectTriggers filter types tasks : read_only (selectTriggers filter types tasks).
Proof. induction tasks as [|info tasks IH]; cbn [selectTriggers]; read_only_go. Qed.
#[export] Hint Resolve read_only_selectTriggers : read_only.

Lemma read_only_IsEnabled cfg : read_only (IsEnabled cfg).
Proof. unfold IsEnabled. read_only_go. Qed.
#[export] Hint Resolve read_only_IsEnabled : read_only.

Section readers.
  Context `{UuidText} `{Fsm} `{Pgtype} `{FloatConv}.
  Context (insp : Inspector) (date_trunc : string -> time -> time) (collate : string -> string -> Prop).
  Context `{!RelDecision collate} (scan_float : Q -> spec_float) (ParseStandard : string -> res (time -> time)).
  Context (jobs : gmap string JobConfig).

Lemma read_only_handleListJobs q : read_only (handleListJobs insp jobs q).
Proof.
  unfold handleListJobs. apply read_only_or_error; [unfold listAsynqTriggers; read_only_go|intros refs].
  apply read_only_or_error; [unfold ListExistingRefIDs; read_only_go|intros ?].
  apply read_only_or_error; [unfold ListJobs; read_only_go|intros ?; read_only_go].
Qed.

Lemma read_only_handleListJobTasks rawID q : read_only (handleListJobTasks rawID q).
Proof.
  unfold handleListJobTasks. case_match; [done|]. apply read_only_parse_id. intros id.
  apply read_only_or_error; [unfold ListTasksForJob; read_only_go|intros ?; read_only_go].
Qed.

Lemma read_only_handleJobDetail rawID : read_only (handleJobDetail insp jobs rawID).
Proof.
  unfold handleJobDetail. case_match; case_all.
  - apply read_only_or_error; [unfold getAsynqTrigger; read_only_go|intros ?; read_only_go].
  - apply read_only_parse_id. intros id.
    apply read_only_or_error; [unfold GetJobDetail, jobLineage, FindJobByID; read_only_go|intros [] ; read_only_go].
Qed.

Lemma read_only_config_views l : read_only (config_views ParseStandard l).
Proof. induction l as [|jc l IH]; cbn [config_views]; unfold config_view; read_only_go. Qed.

Lemma read_only_stats q :
  read_only (handleStatsJobs collate q) /\ read_only (handleStatsTimeseries date_trunc q) /\
  read_only (handleStatsJobMetrics scan_float ParseStandard jobs q).
Proof.
  unfold handleStatsJobs, handleStatsTimeseries, handleStatsJobMetrics, resolveBucket, JobExecutionCounts,
    TaskTimeseries, JobMetrics, Now. splits.
  - apply read_only_stats_or_error; read_only_go.
  - apply read_only_bind; [read_only_go|]. intros unit. apply read_only_stats_or_error; read_only_go.
  - apply read_only_stats_or_error; read_only_go.
Qed.

Lemma read_only_handle fuel ep ws path q :
  mutating ep = false ->
  read_only (handle_endpoint insp date_trunc collate scan_float ParseStandard jobs fuel ep ws path q).
Proof.
  destruct (read_only_stats q) as (? & ? & ?).
  destruct ep; try done; intros _; cbn [handle_endpoint]; unfold reply_of; (try done);
    apply read_only_bind; try (intros; done);
    auto using read_only_handleListJobs, read_only_handleListJobTasks, read_only_handleJobDetail.
  apply read_only_bind; [apply read_only_config_views|done].
Qed.
End readers.

(** What the paths of the two POST routes have in common. *)
Lemma match_path_id verb path ws :
  match_path false [Lit "api"; Lit "jobs"; Wild; Lit verb] path = Some ws -> exists id, ws = [id].
Proof.
  destruct path as [|x1 [|x2 [|x3 [|x4 [|x5 path]]]]]; cbn; intros Hm;
    repeat (case_bool_decide; cbn in Hm; [|try done]); try done; simplify_eq/=; eauto.
Qed.

Lemma route_mutating method path ep ws :
  route method path = Routed ep ws -> mutating ep = true -> method = "POST"%string /\ exists id, ws = [id].
Proof.
  unfold route. set (matching := omap _ _).
  assert (Hin : forall p w, (p, w) ∈ matching -> mutating (Pat_endpoint p) = true ->
    Pat_method p = "POST"%string /\ exists id, w = [id]).
  { intros p w Hp. apply list_elem_of_omap in Hp as (p' & Hp' & Heq).
    destruct (match_path (Pat_prefix p') (Pat_path p') path) as [w'|] eqn:Hw; [|done]. injection Heq as -> ->.
    apply list_elem_of_In in Hp'. cbn in Hp'. clear -Hp' Hw.
    repeat (destruct Hp' as [<-|Hp']; [first [discriminate | intros _; split; [done|exact (match_path_id _ _ _ Hw)]]|]). done. }
  destruct (List.filter _ matching) as [|[p w] l] eqn:Hf; [by destruct matching|].
  intros [= <- <-] Hm.
  assert (In (p, w) ((p, w) :: l)) as Hpw by by left. rewrite <- Hf in Hpw.
  apply filter_In in Hpw as [Hpw%list_elem_of_In Hmeth]. cbn in Hmeth.
  destruct (Hin _ _ Hpw Hm) as [Hpost Hid]. split; [|done]. rewrite Hpost in Hmeth. unfold match_method in Hmeth.
  apply orb_true_iff in Hmeth as [?%bool_decide_eq_true|Hmeth]; [done|]. by rewrite bool_decide_eq_false_2 in Hmeth.
Qed.

(** ** Properties *)

(** C17: the console reads only, but for two of its routes: whatever fails, and in
    any database, a request that changes a row, publishes a message or calls a hook
    is a POST that the mux has routed to the retry or the terminate handler. *)
Theorem console_reads_only `{UuidText} `{Fsm} `{Pgtype} `{FloatConv} insp date_trunc collate
    `{!RelDecision collate} scan_float ParseStandard jobs E fuel method path q w :
  let '(w', r) := run E (ServeHTTP insp date_trunc collate scan_float ParseStandard jobs fuel method path q) w in
  (w_db w' = w_db w /\ w_kafka w' = w_kafka w /\ w_hooks w' = w_hooks w) \/
  (method = "POST"%string /\
   exists id, route method path = Routed EpRetry [id] \/ route method path = Routed EpTerminate [id]).
Proof.
  unfold ServeHTTP. destruct (route method path) as [ep ws| |] eqn:Hr; [|by left..].
  destruct (mutating ep) eqn:Hm.
  - destruct (run _ _ _) as [w' r]. right.
    destruct (route_mutating _ _ _ _ Hr Hm) as [-> [id ->]]. split; [done|]. exists id.
    destruct ep; try done; [by left|by right].
  - pose proof (read_only_run E _ w (read_only_handle insp date_trunc collate scan_float ParseStandard jobs fuel ep ws path q Hm)) as Hro.
    destruct (run _ _ _) as [w' r]. by left.
Qed.
