(* ===== verification/PayrollService.v ===== *)
(** * PayrollService: the sample program as a client of the library

    [examples/payroll/main.go]: the two registrations, the order of the start, and the
    bonus API; and the environment in which the library's calls of the caller's
    executors are those of [Payroll].  The theorems compose the library's with the
    client's: what a run of the payroll job does to the store. *)
From Stdlib Require Import Floats.SpecFloat.
From S2P Require Import Prelude Go Format JsonStruct Params Calendar Domain Effects Repository JobConfig Transport.
From S2P Require Import Instances Lifecycle Finalizer TriggerFailure JobExecutor TaskExecutor Trace Delivery Pipeline.
From S2P Require Import Kafka Scheduler Server Payroll.
#[local] Open Scope Z_scope.

(** ** Configuration *)
Definition payrollJobName : string := "monthly_payroll_job".
Definition bonusJobName : string := "bonus_payout_job".

Definition envOr (getenv : string -> string) (key fallback : string) : string :=
  let v := getenv key in if bool_decide (v = ""%string) then fallback else v.

(** The objects handed to the library: the executors of each job, and the hooks. *)
Definition payroll_executor : handle := 0%nat.
Definition bonus_executor : handle := 1%nat.
(** The [kafkago.Writer] of the bonus job: no address yet, the hash balancer, and the
    other fields as they are set. *)
Definition bonus_writer : handle := 0%nat.
Definition sample_writers : writers := {[bonus_writer := mkKafkaWriter None (Some Hash) 1]}.
Definition log_hook (f : handle) : option hook_func := Some (UserHook f).

Definition minute : duration := 60 * second.

Section main.
  Context `{Codec}.
  Context (getenv : string -> string).

Definition payroll_Config : Config :=
  mkConfig "payroll-example"
    (mkDatabaseConfig (envOr getenv "PG_HOST" "127.0.0.1") 5432 (envOr getenv "PG_USER" "postgres")
       (envOr getenv "PG_PASSWORD" "postgres") (envOr getenv "PG_DB" "jobscheduler") "disable" 0 0)
    (envOr getenv "REDIS_ADDR" "127.0.0.1:6379") 0 (Some 0%nat) None.

Definition brokers : list string := [envOr getenv "KAFKA_BROKERS" "127.0.0.1:9092"].

Definition payrollJobConfig : JobConfig :=
  mkJobConfig payrollJobName (Some payroll_executor) (Some payroll_executor)
    (mkKafkaConfig brokers "payroll_payout_tasks" "payroll_payout_tasks_retry" "payroll_payout_tasks_dlq"
       "payroll_payout_worker" (mkReaderConfig [] "" "" 0) None)
    "*/5 * * * *" (mkRetryConfig 3 (2 * minute)) false None
    (mkHooks (log_hook 0) None (log_hook 1) None) None None None "* * * * *".

Definition bonusJobConfig : JobConfig :=
  mkJobConfig bonusJobName (Some bonus_executor) (Some bonus_executor)
    (mkKafkaConfig brokers "bonus_payout_tasks" "bonus_payout_tasks_retry" "bonus_payout_tasks_dlq"
       "bonus_payout_worker" (mkReaderConfig [] "" "" 1) (Some bonus_writer))
    "" (mkRetryConfig 3 (2 * minute)) false None
    (mkHooks (log_hook 2) None (log_hook 3) (log_hook 4)) None None None "* * * * *".

(** ** Start-up *)

(** [os.Exit(1)] after a message, or a running program: the service, the handlers on
    the asynq server, and the addresses of the bonus API and of the console. *)
Inductive start_up : Type :=
| Exited (msg : string) (e : error)
| Serving (svc : Service) (handlers : list (string * Scheduler.handler)) (api console : string).

Context (pgxpool_New : string -> res handle) (gorm_Open : handle -> res handle) (testing : bool).
Context (cron_error : string -> option error) (kafkago_NewReader : ReaderConfig -> handle).
Context (scheduler_Start : option error).

Definition main : start_up :=
  match New pgxpool_New gorm_Open testing payroll_Config with
  | Err e => Exited "init scheduler failed" e
  | Ok (svc, db) =>
  match Register cron_error kafkago_NewReader payrollJobConfig svc with
  | (_, Some e) => Exited "register payroll job failed" e
  | (svc, None) =>
  match RegisterManual cron_error kafkago_NewReader bonusJobConfig svc with
  | (_, Some e) => Exited "register bonus job failed" e
  | (svc, None) =>
  match Service_Start svc scheduler_Start with
  | Err e => Exited "start scheduler failed" e
  | Ok handlers =>
  let apiAddr := envOr getenv "API_ADDR" ":8080" in
  match StartConsole (Some db) (envOr getenv "CONSOLE_ADDR" ":3002") with
  | Err e => Exited "start console failed" e
  | Ok console => Serving svc handlers apiAddr console
  end end end end end.
End main.

(** What a signal makes [main] close, in order. *)
Inductive closing : Type :=
| CloseReader (reader : handle)
| ShutdownAsynqServer
| ShutdownServer (addr : string).

(** From [waitForShutdown] on. *)
Definition main_shutdown (svc : Service) (api console : string) : Service * list closing :=
  let '(svc, closed) := Stop svc in
  (svc, map CloseReader closed ++ [ShutdownAsynqServer; ShutdownServer api; ShutdownServer console]).

(** ** The bonus API *)

(** A status and the body's fields. *)
Record api_response : Type := mkApiResponse { Api_status : Z; Api_body : list (string * value) }.

Definition bonusRequest_set (field : string) (v : value) (pct : spec_float) : option spec_float := decode_float v pct.

Section api.
  Context `{UuidText} `{Fsm} `{Pgtype} `{FloatConv}.

Definition bonus_metadata (pct : spec_float) : gomap := Some {["bonus_pct"%string := VFloat64 pct]}.

(** [POST /bonus/trigger]; there is no check of the percentage. *)
Definition bonusTrigger (svc : Service) (body : json_text) : prog api_response :=
  match decode_body ["bonus_pct"%string] bonusRequest_set body (S754_zero false) with
  | Err _ => Ret (mkApiResponse 400 [("error", VString "invalid JSON body")]%string)
  | Ok pct =>
      u ← NewUUID;
      let refID := uuid_String u in
      err ← Trigger svc bonusJobName refID (bonus_metadata pct);
      match err with
      | Some e => Ret (mkApiResponse 500 [("error", VString (error_string e))]%string)
      | None =>
          Ret (mkApiResponse 202
                 [("ref_id", VString refID); ("job", VString bonusJobName); ("bonus_pct", VFloat64 pct)]%string)
      end
  end.

(** [GET /bonus/payouts]. *)
Definition bonusPayouts (s : employeeStore) : api_response :=
  mkApiResponse 200 [("payouts", VSlice (map VString (Payouts s)))]%string.

(** The routes of [bonusAPIHandler]; [None] is the mux's own answer (404 or 405). *)
Definition bonusAPIHandler (svc : Service) (s : employeeStore) (method path : string) (body : json_text) :
    option (prog api_response) :=
  if bool_decide (path = "/bonus/trigger"%string) then
    if bool_decide (method = "POST"%string) then Some (bonusTrigger svc body) else None
  else if bool_decide (path = "/bonus/payouts"%string) then
    if match_method "GET" method then Some (Ret (bonusPayouts s)) else None
  else None.
End api.

(** ** The caller's code in the library's environment *)

Definition panicked : error := ErrForeign "runtime error: slice bounds out of range".

(** What a job executor answers at time [now]. *)
Definition job_executor (loc : Location) (batchSize : Z) (s : employeeStore) (now : time) (x : handle) (metadata : gomap) :
    res (list TaskData) :=
  default (Err panicked)
    (if Nat.eqb x payroll_executor then payrollBatchJobExecutor_Execute loc batchSize now s metadata
     else bonusBatchJobExecutor_Execute batchSize s metadata).

(** A call of a task executor: the store it leaves and its answer. *)
Definition task_executor (x : handle) (params : gomap) (s : employeeStore) : employeeStore * res gomap :=
  if Nat.eqb x payroll_executor then payrollPayoutTaskExecutor_Execute params s
  else bonusPayoutTaskExecutor_Execute params s.

(** [E] with the sample's executors on the store [s]; the answers do not depend on the
    payments recorded, [task_executor_answer]. *)
Definition client_env (loc : Location) (batchSize : Z) (s : employeeStore) (E : env) : env :=
  mkEnv (env_now E) (env_uuid E) (env_sql E) (env_write E)
    (fun n x metadata => job_executor loc batchSize s (env_now E n) x metadata)
    (fun _ x params => (task_executor x params s).2) (env_enabled E).

(** The store after a sequence of calls, and their answers. *)
Definition replay (s : employeeStore) (calls : list (handle * gomap)) : employeeStore :=
  fold_left (fun s '(x, params) => (task_executor x params s).1) calls s.

Fixpoint answers (s : employeeStore) (calls : list (handle * gomap)) : list (res gomap) :=
  match calls with
  | [] => []
  | (x, params) :: calls => let '(s, r) := task_executor x params s in r :: answers s calls
  end.

(** ** Lemmas: the store *)

Lemma pay_each_employees process line what ids s s' :
  (forall emp st, process emp st = (Store_append (line emp) st, None)) ->
  Store_employees s = Store_employees s' ->
  Store_employees (pay_each process what ids s).1 = Store_employees s /\
  (pay_each process what ids s).2 = (pay_each process what ids s').2.
Proof.
  intros Hp. revert s s'. induction ids as [|i ids IH]; intros s s' Hs; [done|]. cbn [pay_each].
  unfold GetEmployee. rewrite Hs. destruct (List.find _ _) as [emp|]; [|done]. rewrite !Hp.
  rewrite <- Hs. exact (IH (Store_append (line emp) s) (Store_append (line emp) s') Hs).
Qed.

(** The executors keep the employees, and answer by them alone. *)
Lemma task_executor_answer x params s s' :
  Store_employees s = Store_employees s' ->
  Store_employees (task_executor x params s).1 = Store_employees s /\
  (task_executor x params s).2 = (task_executor x params s').2.
Proof.
  intros Hs. unfold task_executor, payrollPayoutTaskExecutor_Execute, bonusPayoutTaskExecutor_Execute.
  destruct (Nat.eqb x payroll_executor).
  - destruct (parseTaskPayload params) as [p|e]; [|done].
    destruct (pay_each_employees (fun emp => ProcessPayout emp (Payload_PayPeriod p))
                (fun emp => payout_line emp (Payload_PayPeriod p)) "payout employee " (default [] (Payload_EmployeeIDs p)) s s')
      as [He Ha]; [done|done|].
    destruct (pay_each _ _ _ s) as [s1 [e1|]], (pay_each _ _ _ s') as [s2 [e2|]]; cbn in *; by simplify_eq.
  - destruct (parseBonusTaskPayload params) as [p|e]; [|done].
    destruct (pay_each_employees (fun emp => ProcessBonus emp (Bonus_BonusPct p))
                (fun emp => bonus_line emp (Bonus_BonusPct p)) "bonus for employee " (default [] (Bonus_EmployeeIDs p)) s s')
      as [He Ha]; [done|done|].
    destruct (pay_each _ _ _ s) as [s1 [e1|]], (pay_each _ _ _ s') as [s2 [e2|]]; cbn in *; by simplify_eq.
Qed.

Lemma replay_answers s calls : answers s calls = map (fun '(x, params) => (task_executor x params s).2) calls.
Proof.
  assert (Hgen : forall st, Store_employees st = Store_employees s ->
    answers st calls = map (fun '(x, params) => (task_executor x params s).2) calls); [|by apply Hgen].
  induction calls as [|[x params] calls IH]; intros st Hst; [done|]. cbn [answers map].
  destruct (task_executor_answer x params st s Hst) as [He Ha].
  destruct (task_executor x params st) as [st' r]. cbn in He, Ha. rewrite Ha. f_equal. apply IH. congruence.
Qed.

(** A call that pays [emps]. *)
Definition pays (line : employee -> string) (s : employeeStore) (call : handle * gomap) (emps : list employee) : Prop :=
  forall st, Store_employees st = Store_employees s ->
    (task_executor call.1 call.2 st).1 = paid st (map line emps).

Lemma replay_pays line s calls batches :
  Forall2 (pays line s) calls batches -> replay s calls = paid s (map line (concat batches)).
Proof.
  intros Hall. assert (Hgen : forall st, Store_employees st = Store_employees s ->
    replay st calls = paid st (map line (concat batches))); [|by apply Hgen].
  induction Hall as [|[x params] emps calls batches Hp _ IH]; intros st Hst; cbn [concat].
  { unfold paid, replay. cbn. rewrite app_nil_r. by destruct st. }
  unfold replay. cbn [fold_left]. fold (replay (task_executor x params st).1 calls).
  pose proof (Hp st Hst) as Hpaid. cbn [fst snd] in Hpaid. rewrite Hpaid. rewrite IH by done.
  unfold paid. cbn. by rewrite map_app, app_assoc.
Qed.

(** In whatever order the calls come, the same payments are recorded. *)
Lemma replay_payouts line s calls x ps batches :
  calls ≡ₚ map (pair x) ps -> Forall2 (fun p emps => pays line s (x, p) emps) ps batches ->
  concat batches = Store_employees s ->
  Payouts (replay s calls) ≡ₚ Payouts s ++ map line (Store_employees s).
Proof.
  intros Hc Hps Hb.
  assert (Forall2 (pays line s) (map (pair x) ps) batches) as Hall.
  { clear -Hps. induction Hps; constructor; done. }
  destruct (Permutation_Forall2 (Permutation_sym Hc) Hall) as (batches' & Hperm & Hall').
  rewrite (replay_pays line s calls batches' Hall'). unfold Payouts, paid. cbn.
  apply Permutation_app_head, Permutation_map. rewrite <- Hb. clear -Hperm.
  induction Hperm as [|b l l' _ IH|b1 b2 l|l1 l2 l3 _ IH1 _ IH2]; cbn; [done|by rewrite IH| |by etrans].
  rewrite !app_assoc. apply Permutation_app_tail, Permutation_app_comm.
Qed.

(** ** Lemmas: the items of a split *)
Section items.
  Context `{PgtypeLaws}.

Lemma receives_unique d p p' : encodable d -> receives d p -> receives d p' -> p = p'.
Proof.
  intros [col Hcol] H1 H2.
  set (t := mkTask 0 0 "" "" 0 0 0 None col JSONB_zero zero_time zero_time None None None None).
  pose proof (H1 t Hcol). pose proof (H2 t Hcol). congruence.
Qed.

(** A normal map reaches the executor as it is. *)
Lemma receives_normal d m :
  TaskData_Params d = Some m -> normal_map m -> json_encodable (gomap_value (Some m)) = true ->
  encodable d /\ receives d (Some m).
Proof.
  intros Hd Hn He. unfold encodable, receives. rewrite Hd, (JSONB_Set_Present m He). split; [by eexists|].
  intros t Ht.
  assert (Task_Params t = mkJSONB Present (JDoc (json_norm (gomap_value (Some m))))) as Hcol by congruence.
  unfold Task_GetParams. rewrite Hcol, decide_False by done.
  by rewrite JSONB_AssignTo_Present, (column_roundtrip m Hn).
Qed.
End items.

(** ** Lemmas: the registrations *)
Section registrations.
  Context `{Codec}.
  Context (getenv : string -> string).
  Context (cron_error : string -> option error) (kafkago_NewReader : ReaderConfig -> handle).

(** The service after the first registration, and after both. *)
Definition payroll_service1 : Service :=
  mkService {[payrollJobName := registered_config kafkago_NewReader (payrollJobConfig getenv)]}
    (with_consumers kafkago_NewReader (Cfg_Kafka (payrollJobConfig getenv)) ∅) ∅
    [("* * * * *", CompletionCheckTaskType payrollJobName); ("*/5 * * * *", payrollJobName)]%string.

Definition payroll_service : Service :=
  mkService
    (<[bonusJobName := registered_config kafkago_NewReader (bonusJobConfig getenv)]>
       {[payrollJobName := registered_config kafkago_NewReader (payrollJobConfig getenv)]})
    (with_consumers kafkago_NewReader (Cfg_Kafka (bonusJobConfig getenv))
       (with_consumers kafkago_NewReader (Cfg_Kafka (payrollJobConfig getenv)) ∅)) ∅
    [("* * * * *", CompletionCheckTaskType payrollJobName); ("*/5 * * * *", payrollJobName);
     ("* * * * *", CompletionCheckTaskType bonusJobName)]%string.

Context (every_minute : cron_error "* * * * *"%string = None) (every_five : cron_error "*/5 * * * *"%string = None).

Lemma register_payroll : Register cron_error kafkago_NewReader (payrollJobConfig getenv) new_service = (payroll_service1, None).
Proof.
  rewrite Register_fresh; [done|by vm_compute| |done|done].
  split; try done; by rewrite ?lookup_empty.
Qed.

Lemma register_bonus :
  RegisterManual cron_error kafkago_NewReader (bonusJobConfig getenv) payroll_service1 = (payroll_service, None).
Proof.
  rewrite RegisterManual_fresh; [done|by vm_compute| |done].
  split; try done; unfold payroll_service1, with_consumers; cbn [Svc_jobs Svc_registry]; by rewrite !lookup_insert_ne.
Qed.

(** What is set in the environment is not blank. *)
Definition tidy : Prop := forall key, getenv key = ""%string \/ blank (getenv key) = false.

Lemma envOr_tidy key fallback : tidy -> blank fallback = false -> blank (envOr getenv key fallback) = false.
Proof. intros Ht Hf. unfold envOr. case_bool_decide as Hk; [done|]. by destruct (Ht key). Qed.

Lemma payroll_Config_valid : tidy -> validateConfig (payroll_Config getenv) = None.
Proof.
  intros Ht. unfold validateConfig.
  assert (validateDatabaseConfig (Config_Database (payroll_Config getenv)) = None) as Hdb.
  { unfold validateDatabaseConfig, database_errors, payroll_Config. cbn [Config_Database Db_Host Db_Port Db_User Db_DBName].
    rewrite !envOr_tidy by done. done. }
  unfold guards, payroll_Config in *. cbn [Config_ServiceName Config_RedisAddr Config_RedisDB Config_Logger Config_DB Config_Database] in *.
  rewrite envOr_tidy, Hdb by done. done.
Qed.
End registrations.

(** ** Lemmas: a whole run of a client's job *)
Section client.
  Context `{UuidText} `{FsmLaws} `{PgtypeLaws} `{FloatConv} `{CodecLaws}.
  Context (jobs : gmap string JobConfig) (cfg : JobConfig) (x : handle) (line : employee -> string).
  Context (loc : Location) (batchSize : Z) (s : employeeStore) (E : env) (w : World) (ref : string) (metadata : gomap).
  Context (plan : delivery_plan) (fuel : nat) (batches : list (list employee)) (data : list TaskData).

(** An item whose task pays its batch. *)
Definition item_pays (batch : list employee) (d : TaskData) : Prop :=
  exists m, TaskData_Params d = Some m /\ normal_map m /\ json_encodable (gomap_value (Some m)) = true /\
    forall st, Store_employees st = Store_employees s ->
      exists out, task_executor x (Some m) st = (paid st (map line batch), Ok out).

(** The state of the tables and the world a trigger needs. *)
Record ready : Prop := {
  ready_env : reliable E;
  ready_clock : json_clock E cfg;
  ready_fresh : fresh_uuids E (w_db w);
  ready_ref : List.filter (has_ref ref) (db_jobs (w_db w)) = [];
  ready_ref_column : pg_varchar 255 ref = true;
  ready_metadata : is_Ok (JSONB_Set metadata);
  ready_jobs : unique_jobs (w_db w);
  ready_tasks : unique_tasks (w_db w);
  ready_room : (instances_of (Cfg_Name cfg) (w_db w) < 200)%nat;
}.

Context (Hready : ready) (Hname : pg_varchar 255 (Cfg_Name cfg) = true).
Context (Hcfg : jobs !! Cfg_Name cfg = Some cfg) (Hpub : Cfg_Publisher cfg = Some NewTaskPublisher).
Context (Hjobx : Cfg_JobExecutor cfg = Some x) (Hwired : wired cfg x) (Henabled : Cfg_Enabled cfg = None).
Context (Hretries : retries_of cfg = 3).
Context (Hsplit : forall n, job_executor loc batchSize s (env_now E n) x metadata = Ok data).
Context (Hitems : Forall2 item_pays batches data) (Hcut : cut (batch_size batchSize) (Store_employees s) batches).
Context (Hcols : Forall (fun d => item_columns d = true) data) (Hcount : Z.of_nat (length (Store_employees s)) <= 2 ^ 31).
Context (Hsome : Store_employees s ≠ []) (Hfuel : 4 * Z.of_nat (length (Store_employees s)) + redeliveries plan fuel <= Z.of_nat fuel).

Let E' : env := client_env loc batchSize s E.

Lemma item_receives batch d : item_pays batch d ->
  encodable d /\ exists m, TaskData_Params d = Some m /\ receives d (Some m) /\
    forall st, Store_employees st = Store_employees s ->
      exists out, task_executor x (Some m) st = (paid st (map line batch), Ok out).
Proof.
  intros (m & Hm & Hn & He & Hrun). destruct (receives_normal d m Hm Hn He) as [Hen Hrec]. split; [done|].
  exists m. by splits.
Qed.

Lemma client_reliable : reliable E'.
Proof. destruct (ready_env Hready) as [Hs Hw]. by split. Qed.

Lemma client_item d : d ∈ data -> exists batch, item_pays batch d.
Proof.
  intros [n Hn]%list_elem_of_lookup. destruct (Forall2_lookup_r _ _ _ _ _ Hitems Hn) as (b & _ & Hb). by exists b.
Qed.

Lemma client_triggerable : triggerable E' jobs (w_db w) (Cfg_Name cfg) ref metadata cfg data.
Proof.
  split; try done.
  - destruct (ready_fresh Hready). by split.
  - apply (ready_ref Hready).
  - apply (ready_metadata Hready).
  - exists x. by split.
  - apply Forall_forall. intros d Hd. destruct (client_item d Hd) as [b Hb]. exact (proj1 (item_receives b d Hb)).
  - rewrite JSONB_Set_Present by done. by eexists.
  - unfold job_columns. rewrite Hname, (ready_ref_column Hready). unfold retries_of in Hretries.
    apply pg_integer_spec. case_match; lia.
  - rewrite <- (Forall2_length _ _ _ Hitems).
    pose proof (cut_length _ _ _ (batch_size_pos batchSize) Hcut). lia.
Qed.

Lemma client_clock : json_clock E' cfg.
Proof. destruct (ready_clock Hready) as [Hn Hd]. by split. Qed.

Lemma client_succeeds d : d ∈ data -> always_succeeds E' x d.
Proof.
  intros Hd p n Hp. destruct (client_item d Hd) as [b Hb].
  destruct (item_receives b d Hb) as (Hen & m & _ & Hrec & Hrun).
  rewrite (receives_unique d p (Some m) Hen Hp Hrec). cbn. destruct (Hrun s eq_refl) as [out ->]. by eexists.
Qed.

Lemma client_turns : turns cfg (length data) + redeliveries plan fuel <= Z.of_nat fuel.
Proof.
  unfold turns, task_attempts. rewrite Hretries, <- (Forall2_length _ _ _ Hitems).
  pose proof (cut_length _ _ _ (batch_size_pos batchSize) Hcut). lia.
Qed.

Lemma client_data : data ≠ [].
Proof.
  intros ->. inversion Hitems; subst. pose proof (cut_concat _ _ _ Hcut) as Hc. cbn in Hc. by apply Hsome.
Qed.

Lemma items_pay bs ds ps :
  Forall2 item_pays bs ds -> Forall2 receives ds ps -> Forall2 (fun p emps => pays line s (x, p) emps) ps bs.
Proof.
  intros Hbs. revert ps. induction Hbs as [|b d bs ds Hb _ IH]; intros ps Hps; inversion Hps as [|? p ? ps' Hp Hps']; subst.
  { constructor. }
  constructor; [|by apply IH]. destruct (item_receives b d Hb) as (Hen & m & _ & Hrec & Hrun).
  rewrite (receives_unique d p (Some m) Hen Hp Hrec). intros st Hst. cbn [fst snd]. by destruct (Hrun st Hst) as [out ->].
Qed.

Lemma client_run :
  exists w' job, pipeline jobs cfg E' plan fuel (Cfg_Name cfg) ref metadata w = Some w' /\
    job ∈ db_jobs (w_db w') /\ (Job_ID job ∉ map Job_ID (db_jobs (w_db w))) /\
    Job_Name job = Cfg_Name cfg /\ Job_UniqueReferenceID job = Some ref /\ Job_Status job = JobStatusCompleted /\
    Forall (fun t => Task_Status t = TaskStatusCompleted) (tasks_of (Job_ID job) (w_db w')) /\
    Payouts (replay s (pipeline_calls jobs cfg E' plan fuel (Cfg_Name cfg) ref metadata w)) ≡ₚ
      Payouts s ++ map line (Store_employees s).
Proof.
  assert (Hdata : forall d, d ∈ data -> exists p, receives d p).
  { intros d Hd. destruct (client_item d Hd) as [b Hb]. destruct (item_receives b d Hb) as (_ & m & _ & Hrec & _). eauto. }
  assert (Hsw : switched E' cfg true) by (unfold switched; by rewrite Henabled).
  destruct (pipeline_lemma jobs cfg E' x w (Cfg_Name cfg) ref metadata data plan fuel client_reliable Hwired
              client_clock client_triggerable Hsw client_data Hdata (ready_jobs Hready)
              (ready_tasks Hready) (ready_room Hready) client_turns)
    as (w' & job & Hp & Hin & Hnew & Hn & Hr & Hset & Hst & _).
  destruct (pipeline_calls_lemma jobs cfg E' x w (Cfg_Name cfg) ref metadata data plan fuel client_reliable Hwired
              client_clock client_triggerable Hsw client_data Hdata
              (ready_tasks Hready) client_turns client_succeeds) as (ps & Hps & Hcalls).
  destruct (all_succeed E' x data _ Hset client_succeeds) as [Hall Hout]. rewrite Hout in Hst.
  exists w', job. splits; try done.
  apply (replay_payouts line s _ x ps batches Hcalls); [|by eapply cut_concat].
  by eapply items_pay.
Qed.
End client.

(** *** The two jobs as the service has them *)
Section jobs.
  Context `{UuidText} `{FsmLaws} `{PgtypeLaws} `{FloatConv} `{CodecLaws}.
  Context (getenv : string -> string) (kafkago_NewReader : ReaderConfig -> handle).

Definition payroll_cfg : JobConfig := registered_config kafkago_NewReader (payrollJobConfig getenv).
Definition bonus_cfg : JobConfig := registered_config kafkago_NewReader (bonusJobConfig getenv).
Definition service_jobs : gmap string JobConfig := Svc_jobs (payroll_service getenv kafkago_NewReader).

Lemma service_jobs_payroll : service_jobs !! payrollJobName = Some payroll_cfg.
Proof. unfold service_jobs, payroll_service. cbn [Svc_jobs]. by rewrite lookup_insert_ne, lookup_singleton_eq. Qed.
Lemma service_jobs_bonus : service_jobs !! bonusJobName = Some bonus_cfg.
Proof. unfold service_jobs, payroll_service. cbn [Svc_jobs]. by rewrite lookup_insert_eq. Qed.

Lemma payroll_wired : wired payroll_cfg payroll_executor.
Proof. by split. Qed.
Lemma bonus_wired : wired bonus_cfg bonus_executor.
Proof. by split. Qed.

(** What a job executor that splits into batches gives does not depend on the instant
    within a month. *)
Lemma payroll_same_period loc batchSize s metadata now now' :
  previousMonthPeriod loc now = previousMonthPeriod loc now' ->
  payrollBatchJobExecutor_Execute loc batchSize now s metadata = payrollBatchJobExecutor_Execute loc batchSize now' s metadata.
Proof. intros Hp. unfold payrollBatchJobExecutor_Execute. by rewrite Hp. Qed.

(** Every batch of a cut is of employees of the store. *)
Lemma cut_members (s : employeeStore) size batches b :
  cut size (Store_employees s) batches -> b ∈ batches -> b ⊆ Store_employees s.
Proof.
  intros Hcut Hb e He. rewrite <- (cut_concat _ _ _ Hcut). apply list_elem_of_In, in_concat.
  exists b. by rewrite <- !list_elem_of_In.
Qed.

Lemma Forall2_impl_l {A B} (P : A -> Prop) (R R' : A -> B -> Prop) l l' :
  Forall2 R l l' -> (forall a, a ∈ l -> P a) -> (forall a b, P a -> R a b -> R' a b) -> Forall2 R' l l'.
Proof.
  intros Hall HP HR. induction Hall as [|a b l l' Hab _ IH]; constructor; [apply HR; [apply HP; left|done]|].
  apply IH. intros a' Ha. apply HP. by right.
Qed.

Lemma payroll_item_pays period s size batches data :
  NoDup (map Emp_ID (Store_employees s)) -> cut size (Store_employees s) batches ->
  Forall2 (payroll_item period) batches data ->
  Forall2 (item_pays payroll_executor (fun emp => payout_line emp period) s) batches data.
Proof.
  intros Hnd Hcut Hall. apply (Forall2_impl_l (fun b => b ⊆ Store_employees s) _ _ _ _ Hall).
  { intros b Hb. by eapply cut_members. }
  intros b d Hb Hitem. pose proof Hitem as (k & total & m & Hm & Hn & He & _). exists m. splits; try done.
  intros st Hst. rewrite <- Hst in Hnd, Hb. exact (payroll_execute period b d st m Hitem Hm Hnd Hb).
Qed.

Lemma bonus_item_pays pct s size batches data :
  NoDup (map Emp_ID (Store_employees s)) -> cut size (Store_employees s) batches ->
  Forall2 (bonus_item pct) batches data ->
  Forall2 (item_pays bonus_executor (fun emp => bonus_line emp pct) s) batches data.
Proof.
  intros Hnd Hcut Hall. apply (Forall2_impl_l (fun b => b ⊆ Store_employees s) _ _ _ _ Hall).
  { intros b Hb. by eapply cut_members. }
  intros b d Hb Hitem. pose proof Hitem as (k & total & m & Hm & Hn & He & _). exists m. splits; try done.
  intros st Hst. rewrite <- Hst in Hnd, Hb. exact (bonus_execute pct b d st m Hitem Hm Hnd Hb).
Qed.
End jobs.

(** ** Properties *)

(** C11: the payroll run as a whole.  Under the sample program's configuration, with
    executors that pay out of the store, in a reliable environment whose clock stays in one
    month of a year that JSON can carry ([ready]), and for at most [2 ^ 31] employees whose
    ids are distinct and can be stored ([payable]), a trigger of the payroll job with a new
    reference, the consumption of its messages, in any order and with any redeliveries, and
    one completion check leave a COMPLETED job whose tasks are all COMPLETED, and the calls
    made of the task executor record exactly one payout per employee, for the month's pay
    period. *)
Theorem payroll_pays_everyone `{UuidText} `{FsmLaws} `{PgtypeLaws} `{FloatConv} `{CodecLaws}
    getenv kafkago_NewReader loc batchSize s E w ref metadata plan fuel period :
  ready (payroll_cfg getenv kafkago_NewReader) E w ref metadata -> payable batchSize s ->
  (forall n, previousMonthPeriod loc (env_now E n) = period) ->
  4 * Z.of_nat (length (Store_employees s)) + redeliveries plan fuel <= Z.of_nat fuel ->
  let jobs := service_jobs getenv kafkago_NewReader in
  let cfg := payroll_cfg getenv kafkago_NewReader in
  let E' := client_env loc batchSize s E in
  exists w' job, pipeline jobs cfg E' plan fuel payrollJobName ref metadata w = Some w' /\
    job ∈ db_jobs (w_db w') /\ (Job_ID job ∉ map Job_ID (db_jobs (w_db w))) /\
    Job_Name job = payrollJobName /\ Job_UniqueReferenceID job = Some ref /\ Job_Status job = JobStatusCompleted /\
    Forall (fun t => Task_Status t = TaskStatusCompleted) (tasks_of (Job_ID job) (w_db w')) /\
    Payouts (replay s (pipeline_calls jobs cfg E' plan fuel payrollJobName ref metadata w)) ≡ₚ
      Payouts s ++ payouts_of period (Store_employees s).
Proof.
  intros Hready Hpay Hperiod Hfuel. cbv zeta.
  destruct (payroll_split loc batchSize (env_now E 0) s metadata Hpay) as (batches & data & Hd & Hcut & Hitems & Hcols).
  rewrite Hperiod in Hitems. destruct Hpay as [Hsome Hnd Hcount _ _].
  apply (client_run (service_jobs getenv kafkago_NewReader) (payroll_cfg getenv kafkago_NewReader) payroll_executor
           (fun emp => payout_line emp period) loc batchSize s E w ref metadata plan fuel batches data); try done.
  - intros n. unfold job_executor. cbn [Nat.eqb payroll_executor].
    rewrite (payroll_same_period loc batchSize s metadata _ (env_now E 0)) by (by rewrite !Hperiod). by rewrite Hd.
  - by eapply payroll_item_pays.
Qed.

(** A clock that stands still, and identifiers that do not repeat. *)
Definition june_env : env :=
  mkEnv (fun _ => time_Date Berlin2024 2024 6 15 9 30 0 0) (fun n => N.of_nat (100 + n)) (fun _ => SqlDone) (fun _ => WriteDone)
    (fun _ _ _ => Ok []) (fun _ _ _ => Ok None) (fun _ _ => true).

Definition sample_newReader (c : ReaderConfig) : handle := String.length (Reader_Topic c).

Lemma june_clock cfg : Retry_RetryDelay (Cfg_Retry cfg) = 2 * minute -> json_clock june_env cfg.
Proof. intros Hd. split; intros ?; cbn [env_now june_env]; rewrite ?Hd; vm_compute; reflexivity. Qed.

Lemma june_reliable : reliable june_env.
Proof. done. Qed.
Lemma june_fresh : fresh_uuids june_env (mkDB [] []).
Proof. split; cbn; [lia|intros n []%elem_of_nil..]. Qed.

Lemma june_ready cfg metadata :
  is_Ok (@JSONB_Set sample_pgtype metadata) -> json_clock june_env cfg ->
  @ready sample_pgtype cfg june_env (sample_world [] []) "asynq:1" metadata.
Proof.
  intros Hm Hclock. split; try done.
  - exact june_fresh.
  - apply NoDup_nil_2.
  - apply NoDup_nil_2.
  - cbn. lia.
Qed.

Lemma sample_payable : payable 2 newEmployeeStore.
Proof.
  split; try done; [apply (bool_decide_unpack _); by vm_compute|]. by apply (bool_decide_unpack _); vm_compute.
Qed.

Theorem payroll_pays_everyone_witness :
  let jobs := @service_jobs sample_codec (fun _ => ""%string) sample_newReader in
  let cfg := @payroll_cfg sample_codec (fun _ => ""%string) sample_newReader in
  let E := client_env Berlin2024 2 newEmployeeStore june_env in
  let w := sample_world [] [] in
  exists w' job,
    @pipeline sample_uuid_text sample_fsm sample_pgtype sample_float_conv sample_codec jobs cfg E sample_plan 40
      payrollJobName "asynq:1" None w = Some w' /\
    Job_Status job = JobStatusCompleted /\ job ∈ db_jobs (w_db w') /\
    Payouts (replay newEmployeeStore
      (@pipeline_calls sample_uuid_text sample_fsm sample_pgtype sample_float_conv sample_codec jobs cfg E sample_plan 40
         payrollJobName "asynq:1" None w)) ≡ₚ
    ["payout employee=emp-001 name=Alice amount=5000.00 period=2024-05";
     "payout employee=emp-002 name=Bob amount=6200.00 period=2024-05";
     "payout employee=emp-003 name=Carol amount=4800.00 period=2024-05";
     "payout employee=emp-004 name=Dave amount=7100.00 period=2024-05";
     "payout employee=emp-005 name=Eve amount=5500.00 period=2024-05"]%string.
Proof.
  intros jobs cfg E w.
  destruct (@payroll_pays_everyone sample_uuid_text sample_fsm sample_fsm_laws sample_pgtype sample_pgtype_laws
              sample_float_conv sample_codec sample_codec_laws (fun _ => ""%string) sample_newReader Berlin2024 2
              newEmployeeStore june_env w "asynq:1" None sample_plan 40 "2024-05"
              (june_ready cfg None (ex_intro _ _ eq_refl) (june_clock cfg eq_refl)) sample_payable
              (fun _ => ltac:(vm_compute; reflexivity)) ltac:(vm_compute; discriminate))
    as (w' & job & Hp & Hin & _ & _ & _ & Hst & _ & Hpay).
  exists w', job. splits; [exact Hp|exact Hst|exact Hin|].
  etrans; [exact Hpay|]. vm_compute. reflexivity.
Defined.

(** C12: the bonus run as a whole: triggered with a positive, finite percentage, it ends
    COMPLETED and records exactly one bonus per employee, at that percentage of the
    salary; the percentage reaches every task through the metadata, the parameters, the
    JSON column and back.  (The environment is reliable, its clock reads years that JSON can
    carry, and the employees' ids are distinct and can be stored: [ready] and [payable].) *)
Theorem bonus_pays_everyone `{UuidText} `{FsmLaws} `{PgtypeLaws} `{FloatConv} `{CodecLaws}
    getenv kafkago_NewReader loc batchSize s E w ref pct plan fuel :
  ready (bonus_cfg getenv kafkago_NewReader) E w ref (bonus_metadata pct) -> payable batchSize s ->
  finite pct -> SFleb pct (S754_zero false) = false ->
  4 * Z.of_nat (length (Store_employees s)) + redeliveries plan fuel <= Z.of_nat fuel ->
  let jobs := service_jobs getenv kafkago_NewReader in
  let cfg := bonus_cfg getenv kafkago_NewReader in
  let E' := client_env loc batchSize s E in
  exists w' job, pipeline jobs cfg E' plan fuel bonusJobName ref (bonus_metadata pct) w = Some w' /\
    job ∈ db_jobs (w_db w') /\ (Job_ID job ∉ map Job_ID (db_jobs (w_db w))) /\
    Job_Name job = bonusJobName /\ Job_UniqueReferenceID job = Some ref /\ Job_Status job = JobStatusCompleted /\
    Forall (fun t => Task_Status t = TaskStatusCompleted) (tasks_of (Job_ID job) (w_db w')) /\
    Payouts (replay s (pipeline_calls jobs cfg E' plan fuel bonusJobName ref (bonus_metadata pct) w)) ≡ₚ
      Payouts s ++ bonuses_of pct (Store_employees s).
Proof.
  intros Hready Hpay Hfin Hpos Hfuel. cbv zeta.
  destruct (bonus_split batchSize s (bonus_metadata pct) pct Hpay) as (batches & data & Hd & Hcut & Hitems & Hcols); try done.
  destruct Hpay as [Hsome Hnd Hcount _ _].
  apply (client_run (service_jobs getenv kafkago_NewReader) (bonus_cfg getenv kafkago_NewReader) bonus_executor
           (fun emp => bonus_line emp pct) loc batchSize s E w ref (bonus_metadata pct) plan fuel batches data); try done.
  - intros n. unfold job_executor. cbn [Nat.eqb payroll_executor bonus_executor]. by rewrite Hd.
  - by eapply bonus_item_pays.
Qed.

(** 7.5. *)
Definition seven_half : spec_float := Eval vm_compute in read_decimal 75 (-1).

Lemma bonus_metadata_encodable pct : finite pct -> json_encodable (gomap_value (bonus_metadata pct)) = true.
Proof. intros Hf. apply encodable_map, map_Forall_singleton, Hf. Qed.

Lemma sample_bonus_metadata pct : finite pct -> is_Ok (@JSONB_Set sample_pgtype (bonus_metadata pct)).
Proof.
  intros Hf. eexists. exact (@JSONB_Set_Present sample_pgtype sample_pgtype_laws _ (bonus_metadata_encodable pct Hf)).
Qed.

Theorem bonus_pays_everyone_witness :
  let jobs := @service_jobs sample_codec (fun _ => ""%string) sample_newReader in
  let cfg := @bonus_cfg sample_codec (fun _ => ""%string) sample_newReader in
  let E := client_env Berlin2024 2 newEmployeeStore june_env in
  let w := sample_world [] [] in
  let pct := bonus_metadata seven_half in
  exists w' job,
    @pipeline sample_uuid_text sample_fsm sample_pgtype sample_float_conv sample_codec jobs cfg E sample_plan 40
      bonusJobName "asynq:1" pct w = Some w' /\
    Job_Status job = JobStatusCompleted /\ job ∈ db_jobs (w_db w') /\
    "bonus employee=emp-002 name=Bob salary=6200.00 bonus_pct=7.50% amount=465.00"%string ∈
    Payouts (replay newEmployeeStore
      (@pipeline_calls sample_uuid_text sample_fsm sample_pgtype sample_float_conv sample_codec jobs cfg E sample_plan 40
         bonusJobName "asynq:1" pct w)).
Proof.
  intros jobs cfg E w pct.
  destruct (@bonus_pays_everyone sample_uuid_text sample_fsm sample_fsm_laws sample_pgtype sample_pgtype_laws
              sample_float_conv sample_codec sample_codec_laws (fun _ => ""%string) sample_newReader Berlin2024 2
              newEmployeeStore june_env w "asynq:1" seven_half sample_plan 40
              (june_ready cfg _ (sample_bonus_metadata seven_half eq_refl) (june_clock cfg eq_refl)) sample_payable
              eq_refl eq_refl ltac:(vm_compute; discriminate))
    as (w' & job & Hp & Hin & _ & _ & _ & Hst & _ & Hpay).
  exists w', job. splits; [exact Hp|exact Hst|exact Hin|].
  refine (proj2 (elem_of_Permutation_proper _ _ _ Hpay) _). apply (bool_decide_unpack _). vm_compute. exact I.
Defined.

(** The program starts when the connection opens, the two cron expressions parse and
    what is set in the environment is not blank: it then serves the two jobs, each with
    its own pair of consumers, the payroll job on its schedule, the bonus job only on
    demand, and both with a completion check. *)
Theorem main_serves `{Codec} getenv pgxpool_New gorm_Open testing cron_error kafkago_NewReader pool db :
  tidy getenv -> pgxpool_New (buildDSN testing (Config_Database (payroll_Config getenv))) = Ok pool ->
  gorm_Open pool = Ok db ->
  cron_error "* * * * *"%string = None -> cron_error "*/5 * * * *"%string = None ->
  exists handlers,
    main getenv pgxpool_New gorm_Open testing cron_error kafkago_NewReader None =
      Serving (payroll_service getenv kafkago_NewReader) handlers (envOr getenv "API_ADDR" ":8080") (envOr getenv "CONSOLE_ADDR" ":3002") /\
    handlers ≡ₚ [(payrollJobName, HandleTrigger);
                 (CompletionCheckTaskType payrollJobName, HandleCompletionCheck payrollJobName);
                 (CompletionCheckTaskType bonusJobName, HandleCompletionCheck bonusJobName)] /\
    registry_Len (Svc_registry (payroll_service getenv kafkago_NewReader)) = 4.
Proof.
  intros Ht Hpool Hdb Hmin Hfive. exists (Start (payroll_service getenv kafkago_NewReader)). split; [|split].
  - unfold main, New. rewrite (payroll_Config_valid getenv Ht). cbn [Config_DB payroll_Config].
    unfold openDatabase. change (mkDatabaseConfig _ _ _ _ _ _ _ _) with (Config_Database (payroll_Config getenv)).
    rewrite Hpool, Hdb, register_payroll, register_bonus by done. done.
  - vm_compute. reflexivity.
  - vm_compute. reflexivity.
Qed.

Theorem main_serves_witness :
  exists handlers,
    @main sample_codec (fun _ => ""%string) (fun _ => Ok 7%nat) (fun pool => Ok (S pool)) false (fun _ => None) sample_newReader None =
      Serving (@payroll_service sample_codec (fun _ => ""%string) sample_newReader) handlers ":8080" ":3002" /\
    length handlers = 3%nat.
Proof.
  destruct (@main_serves sample_codec (fun _ => ""%string) (fun _ => Ok 7%nat) (fun pool => Ok (S pool)) false (fun _ => None)
              sample_newReader 7%nat 8%nat ltac:(intros k; left; reflexivity) eq_refl eq_refl eq_refl eq_refl) as (handlers & Hm & Hp & _).
  exists handlers. split; [exact Hm|]. exact (Permutation_length Hp).
Defined.

(** Every consumer is closed before the servers stop taking work: a trigger that the
    asynq server still runs then publishes tasks nobody of this process consumes. *)
Theorem main_stops `{Codec} getenv kafkago_NewReader api console :
  let svc := payroll_service getenv kafkago_NewReader in
  let '(svc', closed) := main_shutdown svc api console in
  Svc_registry svc' = ∅ /\ Svc_jobs svc' = Svc_jobs svc /\
  exists readers, closed = map CloseReader readers ++ [ShutdownAsynqServer; ShutdownServer api; ShutdownServer console] /\
    readers ≡ₚ [NewKafkaReader kafkago_NewReader (Cfg_Kafka (payrollJobConfig getenv)) "payroll_payout_worker" "payroll_payout_tasks";
                NewKafkaReader kafkago_NewReader (Cfg_Kafka (payrollJobConfig getenv)) "payroll_payout_worker-retry" "payroll_payout_tasks_retry";
                NewKafkaReader kafkago_NewReader (Cfg_Kafka (bonusJobConfig getenv)) "bonus_payout_worker" "bonus_payout_tasks";
                NewKafkaReader kafkago_NewReader (Cfg_Kafka (bonusJobConfig getenv)) "bonus_payout_worker-retry" "bonus_payout_tasks_retry"].
Proof.
  unfold main_shutdown, Stop, registry_StopAll. cbn [Svc_registry Svc_jobs Svc_set_registry].
  splits; [done|done|]. eexists. split; [reflexivity|]. unfold payroll_service. cbn [Svc_registry].
  unfold with_consumers, retry_group. rewrite !map_to_list_insert by done. rewrite map_to_list_empty. cbn. solve_Permutation.
Qed.

(** *** A bonus that is not positive *)

Lemma bonus_metadata_plain `{FloatConv} pct : shouldPersistTriggerFailure (bonus_metadata pct) = true.
Proof. done. Qed.

Lemma bonus_refused batchSize s pct :
  SFleb pct (S754_zero false) = true ->
  bonusBatchJobExecutor_Execute batchSize s (bonus_metadata pct) = Some (Err (bad_bonus (bonus_metadata pct))).
Proof.
  intros Hneg. unfold bonusBatchJobExecutor_Execute.
  assert (metadata_float "bonus_pct" (bonus_metadata pct) = Some pct) as -> by done. by rewrite Hneg.
Qed.

Lemma trigger_failure_encodable metadata ref phase e :
  map_Forall (fun _ v => json_encodable v = true) (default ∅ metadata) ->
  json_encodable (gomap_value (Some (triggerFailureMetadata metadata ref phase e))) = true.
Proof.
  intros Hm. apply encodable_map. unfold triggerFailureMetadata. cbv zeta.
  destruct (_ !! metadataAsynqTaskID); repeat apply map_Forall_insert_2; done.
Qed.

(** The bonus API does not check the percentage: a request whose percentage is zero,
    negative or missing is answered 500 with the executor's message; it leaves one FAILED
    job under the fresh reference, which the console recognises as a trigger failure, no
    task, no message and no payment. *)
Theorem bonusTrigger_rejects `{UuidText} `{FsmLaws} `{PgtypeLaws} `{FloatConv} `{CodecLaws}
    getenv kafkago_NewReader loc batchSize s E w body pct :
  reliable E -> fresh_uuids E (w_db w) -> pg_varchar 255 (uuid_String (env_uuid E (w_tick w))) = true ->
  (forall n, List.filter (has_ref (uuid_String (env_uuid E n))) (db_jobs (w_db w)) = []) ->
  decode_body ["bonus_pct"%string] bonusRequest_set body (S754_zero false) = Ok pct ->
  finite pct -> SFleb pct (S754_zero false) = true ->
  exists row d ref,
    let '(w', answer) := run (client_env loc batchSize s E) (bonusTrigger (payroll_service getenv kafkago_NewReader) body) w in
    answer = mkApiResponse 500 [("error", VString (error_string (bad_bonus (bonus_metadata pct))))]%string /\
    w_db w' = mkDB (db_jobs (w_db w) ++ [row]) (db_tasks (w_db w)) /\ w_kafka w' = w_kafka w /\
    Job_Status row = JobStatusFailed /\ Job_UniqueReferenceID row = Some ref /\ IsTriggerFailureJob (Some row) = true /\
    w_hooks w' = w_hooks w ++ [OnJobFinished bonusJobName ref JobStatusFailed d].
Proof.
  intros [Hs Hw] [Hf1 Hf2 Hf3 Hf4] Hcol Href Hbody Hfin Hneg.
  unfold bonusTrigger. rewrite Hbody, run_bind, run_NewUUID. cbn [fst snd].
  set (ref := uuid_String _). rewrite run_bind. unfold Trigger, Service_ExecuteJob, ExecuteJob.
  destruct (executeJob_trigger_failure_lemma (client_env loc batchSize s E) (tick w)
              (Svc_jobs (payroll_service getenv kafkago_NewReader)) bonusJobName ref (bonus_metadata pct)
              (bonus_cfg getenv kafkago_NewReader) bonus_executor (bad_bonus (bonus_metadata pct)))
    as (row & d & Hrun); try done.
  - apply Href.
  - eexists. apply JSONB_Set_Present, encodable_map, map_Forall_singleton, Hfin.
  - by exists true.
  - intros n. cbn [env_job_execute client_env job_executor bonus_executor payroll_executor Nat.eqb].
    unfold job_executor. cbn [Nat.eqb bonus_executor payroll_executor]. by rewrite bonus_refused.
  - apply trigger_failure_encodable, map_Forall_singleton, Hfin.
  - unfold job_columns. change ref with (uuid_String (env_uuid E (w_tick w))). by rewrite Hcol.
  - exists row, d, ref. change (w_db (tick w)) with (w_db w) in Hrun. destruct (run _ _ (tick w)) as [w' err].
    destruct Hrun as (-> & Hk & Hdb & Hst & Hn & Hr & Htf & Hh). cbn [fst snd]. rewrite run_Ret. splits; done.
Qed.

Theorem bonusTrigger_rejects_witness :
  exists row d ref,
    let '(w', answer) :=
      run (client_env Berlin2024 2 newEmployeeStore june_env)
        (@bonusTrigger sample_uuid_text sample_fsm sample_pgtype sample_float_conv
           (@payroll_service sample_codec (fun _ => ""%string) sample_newReader) (JDoc (VMap (Some []))))
        (sample_world [] []) in
    answer = mkApiResponse 500 [("error", VString "bonus_pct must be a positive number, got: 0")]%string /\
    w_db w' = mkDB [row] [] /\ Job_Status row = JobStatusFailed /\
    w_hooks w' = [OnJobFinished bonusJobName ref JobStatusFailed d].
Proof.
  destruct (@bonusTrigger_rejects sample_uuid_text sample_fsm sample_fsm_laws sample_pgtype sample_pgtype_laws
              sample_float_conv sample_codec sample_codec_laws (fun _ => ""%string) sample_newReader Berlin2024 2
              newEmployeeStore june_env (sample_world [] []) (JDoc (VMap (Some []))) (S754_zero false)
              june_reliable june_fresh eq_refl
              (fun _ => eq_refl) eq_refl eq_refl eq_refl)
    as (row & d & ref & Hrun).
  exists row, d, ref. destruct (run _ _ _) as [w' answer].
  destruct Hrun as (-> & Hdb & _ & Hst & _ & _ & Hh). splits; [by vm_compute|exact Hdb|exact Hst|exact Hh].
Defined.
