(* ===== verification/System.v ===== *)
(** * System: what every operation of the service keeps true of its tables

    Everything a service does (triggers, consumers, completion checks, retries,
    terminations, the console's requests), run by any number of threads one call at a
    time, with any failures, keeps the two tables well-formed ([WellFormed]).  Each
    operation is shown [calm]; the theorem about pools is proved once, from that. *)
From Stdlib Require Import Floats.SpecFloat QArith.QArith_base.
From S2P Require Import Prelude Go Params Domain Effects Repository JobConfig Transport Instances Lifecycle.
From S2P Require Import Finalizer TriggerFailure JobExecutor TaskExecutor Retry Scheduler Console Stats Consumer Server.
From S2P Require Import WellFormed.
#[local] Open Scope Z_scope.

(** ** The executors *)

(** A program that does not use the database. *)
Fixpoint no_statements {R} (p : prog R) : Prop :=
  match p with
  | Ret _ => True
  | Vis e k => (match e with ESql _ => False | _ => True end) /\ forall x, no_statements (k x)
  end.

(** The caller's publishers do not touch the two tables. *)
Definition publisher_apart (p : Publisher) : Prop :=
  (forall tasks topic, no_statements (PublishTasks p tasks topic)) /\
  (forall tasks topic d, no_statements (PublishRetryTasks p tasks topic d)).
Definition publishers_apart (jobs : gmap string JobConfig) : Prop :=
  forall name cfg p, jobs !! name = Some cfg -> Cfg_Publisher cfg = Some p -> publisher_apart p.

(** Go's integers: the number of retries of a configuration is a 64-bit one. *)
Definition machine_ints (jobs : gmap string JobConfig) : Prop :=
  forall name cfg, jobs !! name = Some cfg -> Retry_MaxRetries (Cfg_Retry cfg) <= max_int64.

Lemma calm_no_statements {R} N (p : prog R) : no_statements p -> calm N any p.
Proof.
  intros Hp Q K HN HQ. revert K HN HQ Hp. induction p as [r|X e k IH]; intros K HN HQ; cbn.
  - intros _. by apply HQ.
  - intros [He Hk]. destruct e; try done; intros ?; by apply IH.
Qed.

Lemma no_statements_bind {A B} (p : prog A) (f : A -> prog B) :
  no_statements p -> (forall a, no_statements (f a)) -> no_statements (p ≫= f).
Proof.
  intros Hp Hf. induction p as [a|X e k IH]; [apply Hf|]. destruct Hp as [He Hk]. split; [done|]. intros x. by apply IH.
Qed.

Lemma NewTaskPublisher_apart `{Codec} : publisher_apart NewTaskPublisher.
Proof.
  assert (Hw : forall msgs, no_statements (write msgs)) by (intros []; cbn; auto).
  split; cbn; [intros; apply Hw|]. intros tasks topic d. apply no_statements_bind; [|intros; apply Hw].
  induction tasks as [|t tasks IH]; cbn [retry_messages]; [done|].
  apply no_statements_bind; [by split|]. intros now. apply no_statements_bind; [done|]. intros rest. by case_match.
Qed.

Lemma list_elem_all {A} `{EqDecision A} (l : list A) (p : A -> bool) x : forallb p l = true -> x ∈ l -> p x = true.
Proof. rewrite forallb_forall. intros Hl Hx%list_elem_of_In. by apply Hl. Qed.

Section machines.
  Context `{FsmLaws} {N : list fact}.

Lemma fsm_enter evs cur name dst : fsm_Event evs cur name = FsmEnter dst -> fsm_lookup evs cur name = Some dst.
Proof.
  intros He. destruct (fsm_lookup evs cur name) as [d|] eqn:Hl.
  - destruct (decide (d = cur)) as [->|Hne].
    + rewrite (fsm_Event_same _ _ _ Hl) in He. done.
    + rewrite (fsm_Event_enter _ _ _ _ Hl Hne) in He. congruence.
  - destruct (fsm_Event_invalid _ _ _ Hl) as [msg Hm]. congruence.
Qed.

Lemma calm_Job_Event action job :
  job_typed job -> calm N (fun r : Job * option error => job_typed r.1) (Job_Event action job).
Proof.
  intros Hj. unfold Job_Event. destruct (fsm_Event _ _ _) as [dst|e] eqn:He; [|by apply calm_Ret].
  eapply calm_bind; [apply calm_Now|]. intros now _. apply calm_Ret. cbn.
  apply fsm_enter, fsm_lookup_edges in He.
  assert (forallb (fun e => contains JobStates e.2) (edges jobTransitions) = true) as Hall by by vm_compute.
  apply contains_spec. exact (list_elem_all _ _ _ Hall He).
Qed.

(** A row a consumer has loaded, as it is in memory: its number of retries is known. *)
Definition held (N : list fact) (t : Task) : Prop := task_typed t /\ TaskRow (task_limit t) ∈ N.

(** The row it copies, and the attempt it is at. *)
Definition same_counts (a b : Task) : Prop := task_limit a = task_limit b /\ Task_Attempt a = Task_Attempt b.

Lemma held_status s t : s ∈ TaskColumnStates -> held N t -> held N (Task_set_Status s t).
Proof. intros Hs [[Ty1 Ty2 Ty3] Hn]. by split; [split|]. Qed.

Lemma calm_Task_Event action task :
  held N task -> calm N (fun r : Task * option error => held N r.1 /\ same_counts r.1 task) (Task_Event action task).
Proof.
  intros Ht. unfold Task_Event. destruct (fsm_Event _ _ _) as [dst|e] eqn:He; [|by apply calm_Ret].
  eapply calm_bind; [apply calm_Now|]. intros now _. apply calm_Ret. cbn.
  apply fsm_enter, fsm_lookup_edges in He.
  assert (forallb (fun e => contains TaskColumnStates e.2) (edges taskTransitions) = true) as Hall by by vm_compute.
  split; [|done]. destruct (held_status dst task) as [[Ty1 Ty2 Ty3] Hn]; [|done|by split; [split|]].
  apply contains_spec. exact (list_elem_all _ _ _ Hall He).
Qed.

Lemma calm_applyJobAction job action :
  job_typed job -> calm N (fun r : Job * option error => job_typed r.1) (applyJobAction job action).
Proof.
  intros Hj. unfold applyJobAction, Job_Start, Job_Complete, Job_Fail, Job_PartialFail, Job_Cancel.
  repeat (case_bool_decide; [by apply calm_Job_Event|]). by apply calm_Ret.
Qed.

Definition timed (r : Job * list job_column) : Prop := job_typed r.1 /\ Forall job_column_ok r.2.

Lemma calm_jobTimingUpdates job action : job_typed job -> calm N timed (jobTimingUpdates job action).
Proof.
  intros Hj. unfold jobTimingUpdates. eapply calm_bind; [apply calm_Now|]. intros now _.
  assert (Hc : job_column_ok (JobCol_status (Job_Status job))) by done.
  case_bool_decide; [apply calm_Ret; split; [done|columns_ok]|].
  case_match; [case_match|]; apply calm_Ret; (split; [done|columns_ok]).
Qed.
End machines.

Section operations.
  Context `{UuidText} `{FsmLaws} `{Pgtype} `{FloatConv} `{Codec}.
  Context (jobs : gmap string JobConfig) (Hpub : publishers_apart jobs) {N : list fact}.

Lemma calm_cfg_PublishTasks name cfg tasks topic :
  jobs !! name = Some cfg -> calm N any (cfg_PublishTasks cfg tasks topic).
Proof.
  intros Hcfg. unfold cfg_PublishTasks. destruct (Cfg_Publisher cfg) as [p|] eqn:Hp; [|by apply calm_Ret].
  apply calm_no_statements. by eapply Hpub.
Qed.

Lemma calm_cfg_PublishRetryTasks name cfg tasks topic d :
  jobs !! name = Some cfg -> calm N any (cfg_PublishRetryTasks cfg tasks topic d).
Proof.
  intros Hcfg. unfold cfg_PublishRetryTasks. destruct (Cfg_Publisher cfg) as [p|] eqn:Hp; [|by apply calm_Ret].
  apply calm_no_statements. by eapply Hpub.
Qed.

(** *** Completion *)
Lemma calm_transitionJob job action :
  job_typed job -> calm N (fun r : Job * option error => job_typed r.1) (transitionJob job action).
Proof.
  intros Hj. unfold transitionJob. eapply calm_bind; [by apply calm_applyJobAction|].
  intros [job1 [e|]] Hj1; [by apply calm_Ret|].
  eapply calm_bind; [by apply calm_jobTimingUpdates|]. intros [job2 us] [Hj2 Hus].
  eapply calm_bind; [by apply calm_UpdateJob|]. intros r _. by apply calm_Ret.
Qed.

Lemma calm_finalizeRunningJob job action : job_typed job -> calm N any (finalizeRunningJob job action).
Proof.
  intros Hj. unfold finalizeRunningJob. eapply calm_bind; [by apply calm_applyJobAction|].
  intros [job1 [e|]] Hj1; [by apply calm_Ret|].
  eapply calm_bind; [by apply calm_jobTimingUpdates|]. intros [job2 us] [Hj2 Hus].
  eapply calm_bind; [by apply calm_UpdateJobIfStatus|]. intros r _. by apply calm_Ret.
Qed.

Lemma calm_maybeFinalizeJob id : calm N any (maybeFinalizeJob jobs id).
Proof.
  unfold maybeFinalizeJob. eapply calm_bind; [apply calm_FindJobByID|]. intros [job|e] Hj; [|by apply calm_Ret].
  case_match; [by apply calm_Ret|]. eapply calm_bind; [apply calm_GetTaskStatusSummary|].
  intros [summary|e] _; [|by apply calm_Ret]. case_match; [|by apply calm_Ret]. case_bool_decide; [by apply calm_Ret|].
  eapply calm_bind; [by apply calm_finalizeRunningJob|]. intros [job' [[]|e]] _; try by apply calm_Ret.
  case_match; [|by apply calm_Ret]. eapply calm_bind; [apply calm_hook|]. intros; by apply calm_Ret.
Qed.

Lemma calm_checkJobCompletions name : calm N any (checkJobCompletions jobs name).
Proof.
  assert (Hall : forall ids, calm N any (finalizeAll jobs ids)).
  { induction ids as [|id ids IH]; cbn [finalizeAll]; [by apply calm_Ret|].
    eapply calm_bind; [apply calm_maybeFinalizeJob|]. intros _ _. exact IH. }
  unfold checkJobCompletions. eapply calm_bind; [apply calm_FindCompletableJobIDs|].
  intros [ids|e] _; [|by apply calm_Ret]. eapply calm_bind; [apply Hall|]. intros; by apply calm_Ret.
Qed.

(** *** Tasks *)
Lemma task_finish_held task us :
  held N task -> Forall (task_column_ok 1) us ->
  calm N (fun r : Task * list task_column => held N r.1 /\ Forall (task_column_ok 1) r.2) (taskFinishUpdates task us).
Proof.
  intros [[Ty1 Ty2 Ty3] Hn] Hus. unfold taskFinishUpdates. eapply calm_bind; [apply calm_Now|]. intros now _.
  assert (Hu : forall l, Forall (task_column_ok 1) l -> Forall (task_column_ok 1) (us ++ l)) by (intros; by apply Forall_app).
  case_match; apply calm_Ret; (split; [by split; [split|]|]); cbn [fst snd]; rewrite <- ?app_assoc; apply Hu; columns_ok.
Qed.

Lemma set_result_held r t :
  held N t -> held N (set_result r t) /\ same_counts (set_result r t) t.
Proof.
  unfold set_result, Task_SetResult. intros [[Ty1 Ty2 Ty3] Hn].
  repeat case_match; simplify_eq/=; (split; [by split; [split|]|done]).
Qed.

(** The last update of a run. *)
Lemma calm_finish task us :
  held N task -> Forall (task_column_ok 1) us ->
  calm N any ('(task, updates) ← taskFinishUpdates task us; UpdateTask (Task_ID task) updates).
Proof. intros Ht Hus. eapply calm_bind; [by apply task_finish_held|]. intros [t u] [_ Hu]. by apply calm_UpdateTask. Qed.

Lemma calm_task_finished job task status start : calm N any (task_finished job task status start).
Proof. unfold task_finished. eapply calm_bind; [apply calm_Since|]. intros d _. apply calm_hook. Qed.

Lemma held_columns t : held N t -> task_column_ok 1 (TaskCol_status (Task_Status t)).
Proof. intros [[Ty1 _ _] _]. exact Ty1. Qed.
#[local] Hint Resolve held_columns : core.

Lemma calm_startTaskExecution task :
  held N task -> calm N (ok (held N)) (startTaskExecution task).
Proof.
  assert (Hm : forall t, held N t -> calm N (ok (held N)) (markStarted t)).
  { intros t Ht. pose proof (held_columns t Ht). unfold markStarted. eapply calm_bind; [apply calm_Now|]. intros now _.
    eapply calm_bind; [apply calm_UpdateTask; columns_ok|]. destruct Ht as [[Ty1 Ty2 Ty3] Hn].
    intros [|] _; apply calm_Ret; [by split; [split|]|done]. }
  intros Ht. unfold startTaskExecution, Task_Start. eapply calm_bind; [by apply calm_Task_Event|].
  intros [t [e|]] [Ht' _]; [case_match; [by apply calm_Ret|]|]; by apply Hm.
Qed.

Lemma calm_completeTask task output : held N task -> calm N any (completeTask task output).
Proof.
  intros Ht. unfold completeTask, Task_Complete. eapply calm_bind; [by apply calm_Task_Event|].
  intros [t [e|]] [Ht' _]; [by apply calm_Ret|]. destruct (set_result_held (success_result output) t Ht') as [Hr _].
  pose proof (held_columns _ Hr).
  apply (calm_finish (set_result (success_result output) t)); [done|columns_ok].
Qed.

(** The attempt that is written is one the row has left. *)
Lemma calm_retryTask name cfg task e :
  jobs !! name = Some cfg -> held N task -> Task_Attempt task < Task_MaxRetries task -> calm N any (retryTask task e cfg).
Proof.
  intros Hcfg Ht Hlt. unfold retryTask, Task_Retry.
  destruct (set_result_held (failure_result e) task Ht) as [Hr [Hlim Hatt]].
  eapply calm_bind; [by apply calm_Task_Event|]. intros [t [e'|]] [Ht' [Hlim' Hatt']]; [by apply calm_Ret|]. cbn [fst] in *.
  pose proof (held_columns _ Ht') as Hst. destruct Ht' as [[Ty1 Ty2 Ty3] Hn]. rewrite Hlim in Hlim'. injection Hlim' as Hid Hmax.
  assert (wrap64 (Task_Attempt t + 1) = Task_Attempt t + 1) as Hw.
  { apply wrap64_id. unfold min_int64, max_int64 in *. lia. }
  eapply calm_bind; [apply (calm_UpdateTask_attempt (Task_ID t) (Task_MaxRetries t)); [exact Hn|]|].
  { cbn. rewrite Hw. repeat apply List.Forall_cons; [cbn; lia|done|exact Ty1|apply List.Forall_nil]. }
  intros _ _. case_bool_decide; [by apply calm_Ret|].
  eapply calm_bind; [by eapply calm_cfg_PublishRetryTasks|]. intros; by apply calm_Ret.
Qed.

Lemma calm_sendTaskToDLQ name cfg task e :
  jobs !! name = Some cfg -> held N task -> calm N any (sendTaskToDLQ task e cfg).
Proof.
  intros Hcfg Ht. unfold sendTaskToDLQ, Task_ExhaustRetries.
  eapply calm_bind; [by apply calm_Task_Event|]. intros [t err] [Ht' _].
  destruct (set_result_held (failure_result e) t Ht') as [Hr _]. pose proof (held_columns _ Hr).
  eapply calm_bind; [apply (task_finish_held (set_result (failure_result e) t)); [done|columns_ok]|].
  intros [t2 us] [_ Hus]. eapply calm_bind; [by apply calm_UpdateTask|]. intros _ _.
  case_bool_decide; [by apply calm_Ret|].
  eapply calm_bind; [by eapply calm_cfg_PublishTasks|]. intros; by apply calm_Ret.
Qed.

Lemma calm_handleTaskFailure name cfg task e :
  jobs !! name = Some cfg -> held N task -> calm N any (handleTaskFailure task e cfg).
Proof.
  intros Hcfg Ht. unfold handleTaskFailure, updateTaskStatus.
  eapply (calm_bind _ (held N)).
  - eapply calm_bind; [apply calm_UpdateTask; columns_ok|]. intros _ _. apply calm_Ret, held_status; [by apply contains_spec|done].
  - intros t Ht'. destruct (Z.ltb_spec (Task_Attempt t) (Task_MaxRetries t)); [by eapply calm_retryTask|by eapply calm_sendTaskToDLQ].
Qed.

Lemma calm_failTaskWithResult task e : held N task -> calm N any (failTaskWithResult task e).
Proof.
  intros Ht. unfold failTaskWithResult.
  destruct (set_result_held (failure_result e) (Task_set_Status TaskStatusFailed task)) as [Hr _];
    [apply held_status; [by apply contains_spec|done]|]. pose proof (held_columns _ Hr).
  eapply calm_bind; [apply (task_finish_held (set_result _ _)); [exact Hr|columns_ok]|].
  intros [t us] [_ Hus]. eapply calm_bind; [by apply calm_UpdateTask|]. intros; by apply calm_Ret.
Qed.

Lemma calm_runTask name cfg job task start :
  jobs !! name = Some cfg -> held N task -> calm N any (runTask cfg job task start).
Proof.
  intros Hcfg Ht. unfold runTask. eapply calm_bind; [by apply calm_startTaskExecution|].
  assert (Hend : forall t status (r : res unit), calm N any (_ ← task_finished job t status start; Ret r)).
  { intros t status r. eapply calm_bind; [apply calm_task_finished|]. intros; by apply calm_Ret. }
  intros [t|e] Ht'; [|apply Hend]. eapply calm_bind; [apply calm_hook|]. intros _ _.
  destruct (Task_GetParams t) as [params|e]; [|eapply calm_bind; [by apply calm_failTaskWithResult|intros; by apply calm_Ret]].
  eapply (calm_bind _ any); [unfold cfg_TaskExecute; case_match; [by apply calm_call|by apply calm_Ret]|].
  intros [output|e] _.
  - eapply calm_bind; [by apply calm_completeTask|]. intros [|e] _; apply Hend.
  - eapply calm_bind; [by eapply calm_handleTaskFailure|]. intros _ _. apply Hend.
Qed.
End operations.

Section triggers.
  Context `{UuidText} `{FsmLaws} `{Pgtype} `{FloatConv} `{Codec}.
  Context (jobs : gmap string JobConfig) (Hpub : publishers_apart jobs) (Hints : machine_ints jobs) {N : list fact}.

Lemma job_status_column job : job_typed job -> Job_Status job ∈ TaskColumnStates.
Proof.
  intros Hj. assert (forallb (contains TaskColumnStates) JobStates = true) as Hall by by vm_compute.
  apply contains_spec. exact (list_elem_all _ _ _ Hall Hj).
Qed.

(** From the load on: what is loaded is known from then on. *)
Lemma calm_executeTask message : calm N any (executeTask jobs message).
Proof.
  unfold executeTask. eapply calm_bind; [apply calm_Now|]. intros start _.
  destruct (parseTaskMessage message) as [m|e]; [|by apply calm_Ret].
  match goal with |- calm _ _ (try _ _ ?k) =>
    assert (Hk : forall K t j, held K t -> job_typed j -> calm K any (k (t, j))) end.
  { intros K t j Ht Hj. cbv beta iota. destruct (jobs !! Job_Name j) as [cfg|] eqn:Hcfg; [|by apply calm_Ret].
    case_match.
    - eapply (calm_bind _ any).
      + unfold updateTasksStatus. eapply calm_bind; [by apply calm_UpdateTasksStatus, job_status_column|].
        intros; by apply calm_Ret.
      + intros _ _. eapply calm_bind; [apply calm_task_finished|]. intros; by apply calm_Ret.
    - case_match; [|by eapply calm_runTask].
      eapply calm_bind; [apply calm_task_finished|]. intros; by apply calm_Ret. }
  intros Q K HN HQ. unfold loadJobForTask, try. apply safe_bind, safe_bind, safe_FindTaskWithJob.
  intros K1 [[t j]|e] HK1 Hr; [|by apply HQ]. destruct Hr as (Ht & Hj & Hn).
  apply (Hk K1 t j); [by split|done|done|]. intros K2 r HK2 _. apply HQ; [by etrans|done].
Qed.

Lemma calm_consume isRetry msg : calm N any (consume (executeTask jobs) isRetry msg).
Proof.
  assert (Hp : calm N any (processMessage (executeTask jobs) isRetry msg)).
  { unfold processMessage, processRetryMessage. destruct isRetry; [|apply calm_executeTask].
    case_match; [|by apply calm_Ret]. eapply calm_bind; [apply calm_Now|]. intros now _.
    eapply (calm_bind _ any); [case_match; [by apply calm_call|by apply calm_Ret]|]. intros _ _.
    case_match; [apply calm_executeTask|by apply calm_Ret]. }
  unfold consume. eapply calm_bind; [exact Hp|]. intros [|] _; by apply calm_Ret.
Qed.

(** *** Triggers *)
Lemma calm_persistTriggerFailure job refID metadata phase e :
  IsZero (Job_CreatedAt job) = true -> calm N any (persistTriggerFailure job refID metadata phase e).
Proof.
  intros Hz. unfold persistTriggerFailure. eapply (calm_mono _ _ (ok any)); [|done|done].
  eapply calm_try; [apply calm_FindJobWithTasks|]. intros [x|] _; [by apply calm_Ret|].
  destruct (Job_SetMetadata _ job) as [job1|e1] eqn:Hm; [|by apply calm_Ret].
  assert (IsZero (Job_CreatedAt job1) = true) as Hz1.
  { unfold Job_SetMetadata in Hm. by case_match; simplify_eq/=. }
  eapply calm_bind; [apply calm_Now|]. intros now _.
  eapply calm_try; [apply calm_CreateJobAndTasks|intros; by apply calm_Ret].
  - right. by apply contains_spec.
  - split; [exact Hz1|constructor].
Qed.

Lemma calm_triggerFailed job refID metadata phase e :
  IsZero (Job_CreatedAt job) = true -> calm N (fun r => exists err, r = Err err) (triggerFailed job refID metadata phase e).
Proof.
  intros Hz. unfold triggerFailed. case_match; [|apply calm_Ret; by eexists].
  eapply calm_bind; [by apply calm_persistTriggerFailure|]. intros _ _. apply calm_Ret. by eexists.
Qed.

(** A row a trigger makes. *)
Definition fresh_job (job : Job) : Prop := job_typed job /\ IsZero (Job_CreatedAt job) = true.

Lemma fresh_job_metadata m job job' : Job_SetMetadata m job = Ok job' -> fresh_job job -> fresh_job job'.
Proof. unfold Job_SetMetadata. by case_match; intros; simplify_eq/=. Qed.

Lemma buildTask_typed job i data id t :
  buildTask job i data id = Ok t -> Job_Status job = JobStatusPending \/ Job_Status job = JobStatusRejected ->
  Job_MaxRetries job <= max_int64 ->
  task_new t /\ Task_JobID t = Job_ID job /\ IsZero (Task_CreatedAt t) = true.
Proof.
  unfold buildTask, setInitialTaskStatus, Task_SetParams, Task_SetResult, Job_IsExecutionPending, Job_IsRejected.
  intros Ht [Hs|Hs] Hm; rewrite Hs in Ht; cbn -[zero_time] in Ht; repeat case_match; simplify_eq/=;
    (splits; [split; [split; [by apply contains_spec|done|done]|done]|done|done]).
Qed.

Lemma calm_buildTasks job i data :
  Job_Status job = JobStatusPending \/ Job_Status job = JobStatusRejected -> Job_MaxRetries job <= max_int64 ->
  calm N (ok (Forall (fun t => task_new t /\ Task_JobID t = Job_ID job /\ IsZero (Task_CreatedAt t) = true)))
    (buildTasks_from job i data).
Proof.
  intros Hs Hm. revert i. induction data as [|d data IH]; intros i; cbn [buildTasks_from]; [by apply calm_Ret; constructor|].
  eapply calm_bind; [apply calm_NewUUID|]. intros id _.
  destruct (buildTask job i d id) as [t|e] eqn:Ht; [|by apply calm_Ret].
  eapply calm_try; [apply IH|]. intros ts Hts. apply calm_Ret. constructor; [|exact Hts]. by eapply buildTask_typed.
Qed.

Lemma calm_prepareJobAndTasks name cfg metadata refID :
  jobs !! name = Some cfg ->
  calm N (ok (fun '(j, ts) => job_typed j /\ Forall task_typed ts)) (prepareJobAndTasks cfg metadata refID).
Proof.
  intros Hcfg. unfold prepareJobAndTasks. eapply calm_try; [apply calm_FindJobWithTasks|].
  intros [[j ts]|] Hf; [by apply calm_Ret|]. eapply calm_bind; [apply calm_NewUUID|]. intros id _.
  eapply (calm_bind _ any); [unfold IsEnabled; case_match; [by apply calm_call|by apply calm_Ret]|]. intros enabled _.
  set (job0 := setInitialJobStatus _ enabled).
  assert (Hst : Job_Status job0 = JobStatusPending \/ Job_Status job0 = JobStatusRejected)
    by (destruct enabled; [by left|by right]).
  destruct (Job_SetMetadata metadata job0) as [job|e] eqn:Hm; [|by apply calm_Ret].
  assert (Hj : Job_Status job = Job_Status job0 /\ IsZero (Job_CreatedAt job) = true /\ Job_MaxRetries job <= max_int64).
  { unfold Job_SetMetadata in Hm. case_match; simplify_eq/=. pose proof (Hints _ _ Hcfg).
    splits; [done|by destruct enabled|by destruct enabled]. }
  destruct Hj as (Hs & Hz & Hmax). rewrite <- Hs in Hst.
  assert (Hfail : forall phase e, calm N (ok (fun '(j, ts) => job_typed j /\ Forall task_typed ts))
    (triggerFailed job refID metadata phase e)).
  { intros phase e. eapply calm_mono; [by apply calm_triggerFailed|done|]. by intros r [err ->]. }
  eapply (calm_bind _ any); [unfold cfg_JobExecute; case_match; [by apply calm_call|by apply calm_Ret]|].
  intros [data|e] _; [|apply Hfail]. eapply calm_bind; [by apply calm_buildTasks|].
  intros [ts|e] Hts; [|apply Hfail]. eapply calm_try; [apply calm_CreateJobAndTasks; [right|by split]|].
  - unfold job_typed. destruct Hst as [->| ->]; by apply contains_spec.
  - intros x Hx. by apply calm_Ret.
Qed.

Lemma calm_publishTasks name cfg ts : jobs !! name = Some cfg -> calm N any (publishTasks ts cfg).
Proof.
  intros Hcfg. unfold publishTasks. destruct ts as [|t ts]; [by apply calm_Ret|].
  assert (Hb : forall batches, calm N any (publishBatches cfg batches)).
  { induction batches as [|b bs IH]; cbn [publishBatches]; [by apply calm_Ret|].
    eapply (calm_bind _ any); [by eapply calm_cfg_PublishTasks|]. intros [|] _; [exact IH|by apply calm_Ret]. }
  eapply (calm_bind _ any); [apply Hb|]. intros [|] _; [|by apply calm_Ret].
  eapply calm_bind; [apply calm_hook|]. intros; by apply calm_Ret.
Qed.

Lemma calm_executeJobFlow name cfg job ts :
  jobs !! name = Some cfg -> job_typed job -> calm N (fun r : Job * option error => job_typed r.1) (executeJobFlow jobs job ts cfg).
Proof.
  intros Hcfg Hj. unfold executeJobFlow. case_match.
  { eapply calm_bind; [by apply calm_UpdateTasksStatusByJobID, job_status_column|]. intros; by apply calm_Ret. }
  case_match; [by apply calm_Ret|]. eapply calm_bind; [by eapply calm_publishTasks|]. intros [|e] _.
  2: { eapply calm_bind; [by apply calm_transitionJob|]. intros [j' err] Hj'. by apply calm_Ret. }
  eapply (calm_bind _ any); [case_match; [apply calm_CancelPreviousJobs|by apply calm_Ret]|]. intros _ _.
  eapply calm_bind; [by apply calm_transitionJob|]. intros [j' [e|]] Hj'; [by apply calm_Ret|].
  eapply (calm_bind _ any); [case_match; [apply calm_maybeFinalizeJob|by apply calm_Ret]|]. intros; by apply calm_Ret.
Qed.

Lemma calm_executeJob name refID metadata : calm N any (executeJob jobs name refID metadata).
Proof.
  assert (Hend : forall d ref st (r : option error), calm N any (x ← Since d; _ ← hook (OnJobFinished name ref st x); Ret r)).
  { intros d ref st r. eapply calm_bind; [apply calm_Since|]. intros x _.
    eapply calm_bind; [apply calm_hook|]. intros; by apply calm_Ret. }
  unfold executeJob. eapply calm_bind; [apply calm_Now|]. intros start _.
  destruct (jobs !! name) as [cfg|] eqn:Hcfg; [|by apply calm_Ret].
  eapply calm_bind; [by eapply calm_prepareJobAndTasks|]. intros [[j ts]|e] Hj; [|apply Hend].
  eapply calm_bind; [eapply calm_executeJobFlow; [done|apply Hj]|]. intros [j' err] _. apply Hend.
Qed.
End triggers.

(** *** Retries *)
Section retries.
  Context `{UuidText} `{FsmLaws} `{Pgtype} `{FloatConv} `{Codec}.
  Context (jobs : gmap string JobConfig) (Hpub : publishers_apart jobs) (Hints : machine_ints jobs).

Lemma calm_cloneBatch N job batch :
  Forall task_typed batch ->
  calm N (Forall (fun t => task_new t /\ Task_CreatedAt t = Job_CreatedAt job /\ Task_JobID t = Job_ID job))
    (cloneBatch job batch).
Proof.
  induction batch as [|t batch IH]; cbn [cloneBatch]; [intros _; apply calm_Ret; constructor|].
  intros [[_ _ Hm] Hb]%Forall_cons.
  eapply calm_bind; [apply calm_NewUUID|]. intros id _. eapply calm_bind; [by apply IH|]. intros rest Hrest.
  apply calm_Ret. constructor; [|done]. splits; [split; [split; [by apply contains_spec|done|done]|done]|done|done].
Qed.

Lemma calm_streamClone N name cfg fuel after total src job statuses :
  jobs !! name = Some cfg -> JobRow (job_key job) ∈ N -> IsZero (Job_CreatedAt job) = false ->
  calm N any (streamCloneAndPublish_from fuel after total src job statuses cfg).
Proof.
  intros Hcfg Hkey Hz. revert after total. induction fuel as [|fuel IH]; intros after total; cbn [streamCloneAndPublish_from];
    [by apply calm_Ret|].
  eapply calm_bind; [apply calm_FindTasksBatch|]. intros [[|t batch]|e] Hb; [by apply calm_Ret| |by apply calm_Ret].
  eapply calm_bind; [by apply calm_cloneBatch|]. intros clones Hcl.
  eapply calm_bind; [apply calm_CreateTasks|].
  { eapply Forall_impl; [exact Hcl|]. intros c (Hty & Hcr & Hown). splits; [done|by rewrite Hcr|].
    unfold task_owner. by rewrite Hcr, Hown. }
  intros [clones'|e] _; [|by apply calm_Ret].
  eapply calm_bind; [by eapply calm_cfg_PublishTasks|]. intros [|e] _; [|by apply calm_Ret].
  case_match; [by apply calm_Ret|apply IH].
Qed.

Lemma calm_streamPublish N name cfg fuel after id :
  jobs !! name = Some cfg -> calm N any (streamPublishTasks_from fuel after id cfg).
Proof.
  intros Hcfg. revert after. induction fuel as [|fuel IH]; intros after; cbn [streamPublishTasks_from]; [by apply calm_Ret|].
  eapply calm_bind; [apply calm_FindTasksBatch|]. intros [[|t batch]|e] _; [by apply calm_Ret| |by apply calm_Ret].
  eapply calm_bind; [by eapply calm_cfg_PublishTasks|]. intros [|e] _; [|by apply calm_Ret].
  case_match; [by apply calm_Ret|apply IH].
Qed.

Definition prepared_typed (r : option (res (Job * Z))) : Prop :=
  match r with Some (Ok (j, _)) => job_typed j | _ => True end.

(** The clone of a job, whose row is known to exist once it is made. *)
Lemma calm_clone name cfg fuel id originalJob refID fullRetry :
  jobs !! name = Some cfg ->
  calm [] prepared_typed
    (created ← CreateJobAndTasks (new_clone id originalJob refID) [];
     match created with
     | Err e => Ret (Some (Err (ErrWrap "create cloned job" e)))
     | Ok (clonedJob, _) =>
         streamed ← streamCloneAndPublish fuel (Job_ID originalJob) clonedJob (retryStatuses fullRetry) cfg;
         match streamed with
         | None => Ret None
         | Some (_, Some e) => Ret (Some (Err e))
         | Some (total, None) => Ret (Some (Ok (clonedJob, total)))
         end
     end).
Proof.
  intros Hcfg Q K _ HQ. apply safe_bind, safe_CreateJobAndTasks.
  - right. by apply contains_spec.
  - split; [done|constructor].
  - intros K1 [[job ts]|e] HK1; cbn; [|intros _; by apply HQ]. intros (Hty & _ & Hz & Hkey).
    apply (calm_bind [JobRow (job_key job)] any prepared_typed); [| |intros k ->%list_elem_of_singleton; done|].
    + eapply calm_streamClone; [done|left|done].
    + intros [[total [e|]]|] _; by apply calm_Ret.
    + intros K2 r HK2 Hr. apply HQ; [by etrans|done].
Qed.

Lemma calm_prepareAndStreamRetry fuel originalJob fullRetry refID :
  calm [] prepared_typed (prepareAndStreamRetry jobs fuel originalJob fullRetry refID).
Proof.
  unfold prepareAndStreamRetry. destruct (jobs !! _) as [cfg|] eqn:Hcfg; [|by apply calm_Ret].
  eapply calm_bind; [apply calm_FindPendingJobByParentID|]. intros [[existing|]|e] Hex; [| |by apply calm_Ret].
  - eapply calm_bind; [by eapply calm_streamPublish|]. intros [[|e]|] _; [|by apply calm_Ret..].
    eapply calm_bind; [apply calm_GetTaskStatusSummary|]. intros [summary|e] _; by apply calm_Ret.
  - eapply calm_bind; [apply calm_NewUUID|]. intros id _. by eapply calm_clone.
Qed.

Lemma calm_retryJob fuel id fullRetry refID : calm [] any (retryJob jobs fuel id fullRetry refID).
Proof.
  unfold retryJob. eapply calm_bind; [apply calm_FindJobByID|]. intros [original|e] _; [|by apply calm_Ret].
  case_match; [by apply calm_Ret|]. eapply calm_bind; [apply calm_prepareAndStreamRetry|].
  intros [[[cloned n]|e]|] Hc; [|by apply calm_Ret..]. case_match; [by apply calm_Ret|].
  case_match; [|by apply calm_Ret]. eapply (calm_bind _ any).
  - unfold startClonedJob. eapply calm_bind; [by apply calm_transitionJob|]. intros [j err] _. by apply calm_Ret.
  - intros j _. eapply (calm_bind _ any); [case_match; [apply calm_maybeFinalizeJob|by apply calm_Ret]|].
    intros; by apply calm_Ret.
Qed.

Lemma calm_retryTriggerJob id refID : calm [] any (retryTriggerJob jobs id refID).
Proof.
  unfold retryTriggerJob. eapply (calm_mono _ _ (ok any)); [|done|done].
  eapply calm_try; [apply calm_FindJobByID|]. intros original _.
  case_match; [by apply calm_Ret|]. case_match; [by apply calm_Ret|].
  eapply calm_bind; [by apply calm_executeJob|]. intros [e|] _; [by apply calm_Ret|].
  eapply calm_try; [apply calm_FindJobWithTasks|]. intros [[j ts]|] _; by apply calm_Ret.
Qed.

Lemma calm_retryHandler fuel payload taskID : calm [] any (retryHandler jobs fuel payload taskID).
Proof.
  unfold retryHandler. eapply calm_bind; [apply calm_Now|]. intros start _.
  case_match; [|by apply calm_Ret]. case_match; [|by apply calm_Ret].
  eapply calm_bind; [apply calm_retryJob|]. intros [r|] _; [|by apply calm_Ret].
  eapply calm_bind; [apply calm_Since|]. intros; by apply calm_Ret.
Qed.
End retries.

(** ** Requests *)
Lemma calm_read_only {R} N (p : prog R) : read_only p -> calm N any p.
Proof.
  intros Hp Q K HN HQ. revert K HN HQ Hp. induction p as [r|X e k IH]; intros K HN HQ; cbn.
  - intros _. by apply HQ.
  - intros [He Hk]. destruct e; cbn in He |- *; try done; try (intros ?; by apply IH).
    split; [|intros ?; by apply IH]. intros now db _ Hwf Hkn. rewrite He. splits; [done|done|]. exists K.
    splits; [done|done|by apply IH].
Qed.

Section requests.
  Context `{UuidText} `{FsmLaws} `{Pgtype} `{FloatConv} `{Codec}.
  Context (jobs : gmap string JobConfig) (Hpub : publishers_apart jobs) (Hints : machine_ints jobs).

Lemma calm_handleRetry insp fuel rawID q : calm [] any (handleRetry insp jobs fuel rawID q).
Proof.
  assert (Hjob : forall id full ref, calm [] any (retry_as_job jobs fuel id full ref)).
  { intros. unfold retry_as_job. eapply calm_bind; [by apply calm_retryJob|]. intros; by apply calm_Ret. }
  unfold handleRetry. destruct (parseAsynqJobID rawID) as [[queue taskID]|]; [by apply calm_Ret|].
  destruct (uuid_Parse rawID) as [jobID|msg]; [|by apply calm_Ret].
  eapply calm_bind; [apply calm_NewUUID|]. intros id _.
  eapply calm_bind; [apply calm_FindJobByID|]. intros [job|e] _; [|by apply calm_Ret].
  case_match; [|apply Hjob].
  eapply (calm_bind _ any); [by apply calm_read_only, read_only_call|]. intros [n|e] _; [|by apply calm_Ret].
  case_match; [|apply Hjob]. unfold retry_as_trigger.
  eapply calm_bind; [by apply calm_retryTriggerJob|]. intros; by apply calm_Ret.
Qed.

Lemma calm_handleTerminate rawID : calm [] any (handleTerminate rawID).
Proof.
  unfold handleTerminate, parse_id, Service_TerminateJob. case_match; [by apply calm_Ret|]. case_match; [|by apply calm_Ret].
  eapply (calm_bind _ any); [|intros; by apply calm_Ret].
  eapply (calm_bind _ any); [apply calm_TerminateJob|]. intros [|] _; by apply calm_Ret.
Qed.

Lemma calm_ServeHTTP insp date_trunc collate `{!RelDecision collate} scan_float ParseStandard fuel method path q :
  calm [] any (ServeHTTP insp date_trunc collate scan_float ParseStandard jobs fuel method path q).
Proof.
  unfold ServeHTTP. destruct (route method path) as [ep ws| |]; [|by apply calm_Ret..].
  destruct (mutating ep) eqn:Hm; [|by apply calm_read_only, read_only_handle].
  destruct ep; try done; cbn [handle_endpoint]; unfold reply_of.
  - eapply calm_bind; [apply calm_handleRetry|]. intros; by apply calm_Ret.
  - eapply calm_bind; [apply calm_handleTerminate|]. intros; by apply calm_Ret.
Qed.
End requests.

(** ** Everything a service does *)

(** A thread of a process that runs service [s]: an asynq handler, a consumer's turn,
    a request, or a call of the public API by the caller. *)
Inductive operation `{UuidText} `{Fsm} `{Pgtype} `{FloatConv} `{Codec} (s : Service) : prog unit -> Prop :=
| OpHandle h taskType taskID retryCount maxRetry :
    operation s (_ ← handle_task s h taskType taskID retryCount maxRetry; Ret ())
| OpRetryHandler fuel payload taskID : operation s (_ ← RegisterRetryHandler s fuel payload taskID; Ret ())
| OpConsume isRetry msg : operation s (_ ← consume (Service_ExecuteTask s) isRetry msg; Ret ())
| OpServe insp date_trunc collate (Hdec : RelDecision collate) scan_float ParseStandard fuel method path q :
    operation s (_ ← ServeHTTP insp date_trunc collate scan_float ParseStandard (Svc_jobs s) fuel method path q; Ret ())
| OpTrigger name refID metadata : operation s (_ ← Trigger s name refID metadata; Ret ())
| OpRetryJob fuel id fullRetry refID : operation s (_ ← Service_RetryJob s fuel id fullRetry refID; Ret ())
| OpRetryTriggerJob id refID : operation s (_ ← Service_RetryTriggerJob s id refID; Ret ())
| OpTerminate id : operation s (_ ← Service_TerminateJob id; Ret ())
| OpCheck name : operation s (_ ← Service_CheckJobCompletions s name; Ret ())
| OpGetJobTasks db filter : operation s (_ ← GetJobTasks db filter; Ret ()).

Lemma operation_calm `{UuidText} `{FsmLaws} `{Pgtype} `{FloatConv} `{Codec} s p :
  publishers_apart (Svc_jobs s) -> machine_ints (Svc_jobs s) -> operation s p -> calm [] any p.
Proof.
  intros Hpub Hints Hop.
  assert (Hunit : forall A (q : prog A), calm [] any q -> calm [] any (_ ← q; Ret ())).
  { intros A q Hq. eapply calm_bind; [exact Hq|]. intros; by apply calm_Ret. }
  destruct Hop; apply Hunit.
  - destruct h; [by apply calm_executeJob|by apply calm_checkJobCompletions].
  - by apply calm_retryHandler.
  - by apply calm_consume.
  - by apply calm_ServeHTTP.
  - by apply calm_executeJob.
  - by apply calm_retryJob.
  - by apply calm_retryTriggerJob.
  - eapply (calm_bind _ any); [apply calm_TerminateJob|]. intros [|] _; by apply calm_Ret.
  - by apply calm_checkJobCompletions.
  - unfold GetJobTasks. case_match; [|by apply calm_Ret]. apply calm_read_only.
    unfold ListTasksForJob. read_only_go.
Qed.

(** The invariant of a pool. *)
Definition pool_well_formed (db0 : DB) (c : pool) : Prop :=
  well_formed (w_db c.1) /\ evolves db0 (w_db c.1) /\
  Forall (fun t => exists K, known K (w_db c.1) /\ safe (fun _ _ => True) t K) c.2.

Lemma pool_well_formed_step E db0 c c' :
  (forall n, IsZero (env_now E n) = false) -> pool_step E c c' -> pool_well_formed db0 c -> pool_well_formed db0 c'.
Proof.
  intros Hnow [w ts i X e k Hi] (Hwf & Hev & Hts). cbn in *.
  destruct (Forall_lookup_1 _ _ _ _ Hts Hi) as (K & HK & Hsafe). cbn in Hsafe.
  assert (Hgo : forall w' x K', well_formed (w_db w') -> evolves (w_db w) (w_db w') -> known K' (w_db w') ->
    safe (fun _ _ => True) (k x) K' -> pool_well_formed db0 (w', <[i := k x]> ts)).
  { intros w' x K' Hwf' Hev' HK' Hx. split; [done|]. split; [by eapply evolves_trans|]. cbn.
    apply Forall_insert; [|by exists K']. eapply Forall_impl; [exact Hts|]. intros t (K2 & HK2 & Ht).
    exists K2. split; [by eapply known_evolves|done]. }
  assert (Hsame : forall w' x, w_db w' = w_db w -> safe (fun _ _ => True) (k x) K -> pool_well_formed db0 (w', <[i := k x]> ts)).
  { intros w' x Hdb Hx. apply (Hgo w' x K); rewrite ?Hdb; done. }
  destruct e; cbn in Hsafe |- *; try (by apply Hsame).
  - destruct Hsafe as [Hs Herr]. unfold do_sql.
    destruct (Hs (env_now E (w_tick w)) (w_db w) (Hnow _) Hwf HK) as (Hev' & Hwf' & K' & HKK & HK' & Hok).
    destruct (s (env_now E (w_tick w)) (w_db w)) as [db' r]. cbn in *.
    destruct (env_sql E (w_tick w)); cbn.
    + by apply (Hgo _ _ K').
    + by apply Hsame.
    + apply (Hgo _ _ K); try done. by apply (known_evolves K (w_db w)).
  - unfold do_write. destruct (env_write E (w_tick w)); by apply Hsame.
Qed.

(** Every state a service can reach keeps the invariant. *)
Lemma reachable_well_formed `{UuidText} `{FsmLaws} `{Pgtype} `{FloatConv} `{Codec} E s w ts w' ts' :
  (forall n, IsZero (env_now E n) = false) -> publishers_apart (Svc_jobs s) -> machine_ints (Svc_jobs s) ->
  Forall (operation s) ts -> rtc (pool_step E) (w, ts) (w', ts') ->
  well_formed (w_db w) -> well_formed (w_db w') /\ evolves (w_db w) (w_db w').
Proof.
  intros Hnow Hpub Hints Hts Hrtc Hwf.
  assert (pool_well_formed (w_db w) (w, ts)) as Hinit.
  { split; [done|]. split; [apply evolves_refl|]. eapply Forall_impl; [exact Hts|]. intros p Hop. exists [].
    split; [by intros ? ?%elem_of_nil|]. by apply (operation_calm s p Hpub Hints Hop). }
  assert (pool_well_formed (w_db w) (w', ts')) as (? & ? & _); [|done].
  revert Hinit. clear Hts. generalize (w_db w) at 1 2 as db0. intros db0.
  remember (w, ts) as c eqn:Hc. remember (w', ts') as c' eqn:Hc'. clear Hc Hc'.
  induction Hrtc as [|x y z Hxy _ IH]; [done|]. intros Hx. eapply IH, pool_well_formed_step; done.
Qed.

(** ** Properties *)

(** C7: well-typedness.  Whatever a service does and however its threads
    interleave, with any failures of the database and of Kafka and any behaviour of
    the caller's code, well-formed tables stay well-formed (every status is one of
    [constants.go], for a task also PARTIAL_FAILED, which it can take from its job
    ([TaskColumnStates]), keys are unique, each task has its job, attempts are counted from 1
    and stay within what some row of that id allows) and evolve only by new rows and
    by columns that do not identify a row; in particular nothing is ever deleted. *)
Theorem system_well_typed `{UuidText} `{FsmLaws} `{Pgtype} `{FloatConv} `{Codec} E s w ts w' ts' :
  (forall n, IsZero (env_now E n) = false) -> publishers_apart (Svc_jobs s) -> machine_ints (Svc_jobs s) ->
  Forall (operation s) ts -> rtc (pool_step E) (w, ts) (w', ts') ->
  well_formed (w_db w) -> well_formed (w_db w') /\ evolves (w_db w) (w_db w').
Proof. apply reachable_well_formed. Qed.

(** A trigger, a consumer and a termination at the same time. *)
Definition sample_service : Service := mkService sample_jobs ∅ ∅ [].
Definition sample_pool : pool :=
  (sample_world [sample_job 1 JobStatusRunning] [sample_row 2 1 TaskStatusPending 1],
   [ (_ ← @Trigger sample_uuid_text sample_fsm sample_pgtype sample_float_conv sample_service "job" "new" None; Ret ());
     (_ ← consume (@Service_ExecuteTask sample_uuid_text sample_fsm sample_pgtype sample_codec sample_service) (H := sample_codec)
            false (mkMessage "tasks" None sample_message); Ret ());
     (_ ← @Service_TerminateJob sample_uuid_text 1%N; Ret ()) ]).
Definition sample_schedule : list nat := repeat 0%nat 5 ++ repeat 1%nat 3 ++ [2%nat] ++ repeat 0%nat 12 ++ repeat 1%nat 12.
Definition sample_final : pool :=
  run_schedule (trigger_env [mkTaskData "a" None "k"]) sample_schedule sample_pool.

Lemma sample_publishers_apart : publishers_apart (Svc_jobs sample_service).
Proof.
  intros name cfg p Hcfg Hp. change (Svc_jobs sample_service) with sample_jobs in Hcfg. unfold sample_jobs in Hcfg.
  apply lookup_singleton_Some in Hcfg as [_ <-]. injection Hp as <-.
  apply NewTaskPublisher_apart.
Qed.

Lemma sample_machine_ints : machine_ints (Svc_jobs sample_service).
Proof.
  intros name cfg Hcfg. change (Svc_jobs sample_service) with sample_jobs in Hcfg. unfold sample_jobs in Hcfg.
  by apply lookup_singleton_Some in Hcfg as [_ <-].
Qed.

(** One RUNNING job with one task. *)
Lemma sample_well_formed attempt :
  1 <= attempt <= 3 ->
  well_formed (mkDB [sample_job 1 JobStatusRunning] [sample_row 2 1 TaskStatusPending attempt]).
Proof.
  intros Hatt. split; cbn; try apply NoDup_singleton; apply Forall_singleton.
  - unfold job_typed. by apply contains_spec.
  - split; [by apply contains_spec|cbn; lia|done].
  - left.
  - exists 3. split; [left|cbn; lia].
Qed.

Theorem system_well_typed_witness :
  well_formed (w_db sample_final.1) /\ evolves (w_db sample_pool.1) (w_db sample_final.1) /\
  map Job_Status (db_jobs (w_db sample_final.1)) = [JobStatusCancelled; JobStatusRunning].
Proof.
  assert (rtc (pool_step (trigger_env [mkTaskData "a" None "k"])) (sample_pool.1, sample_pool.2)
            (sample_final.1, sample_final.2)) as Hrtc.
  { pose proof (run_schedule_sound (trigger_env [mkTaskData "a" None "k"]) sample_schedule sample_pool) as Hr.
    rewrite (surjective_pairing (run_schedule _ _ _)) in Hr. exact Hr. }
  assert (Forall (@operation sample_uuid_text sample_fsm sample_pgtype sample_float_conv sample_codec sample_service)
            sample_pool.2) as Hops.
  { repeat apply List.Forall_cons; [apply OpTrigger|apply OpConsume|apply OpTerminate|apply List.Forall_nil]. }
  assert (well_formed (w_db sample_pool.1)) as Hwf.
  { by apply sample_well_formed. }
  destruct (@system_well_typed sample_uuid_text sample_fsm sample_fsm_laws sample_pgtype sample_float_conv sample_codec
              (trigger_env [mkTaskData "a" None "k"]) sample_service _ _ _ _
              ltac:(intros n; apply Z.eqb_neq; cbn; unfold zero_time; lia) sample_publishers_apart
              sample_machine_ints Hops Hrtc Hwf) as [H1 H2].
  split; [exact H1|]. split; [exact H2|]. by vm_compute.
Defined.

(** C8: the attempts of a task.  Under the same interleavings and failures, the same
    message in the hands of several consumers at once included, the attempt a task row
    is at is never above [max 1 MaxRetries] (nor below 1), as long as no two tasks
    were given one id. *)
Theorem attempts_bounded `{UuidText} `{FsmLaws} `{Pgtype} `{FloatConv} `{Codec} E s w ts w' ts' t :
  (forall n, IsZero (env_now E n) = false) -> publishers_apart (Svc_jobs s) -> machine_ints (Svc_jobs s) ->
  Forall (operation s) ts -> rtc (pool_step E) (w, ts) (w', ts') ->
  well_formed (w_db w) -> unique_tasks (w_db w') -> t ∈ db_tasks (w_db w') ->
  1 <= Task_Attempt t <= Z.max 1 (Task_MaxRetries t).
Proof.
  intros Hnow Hpub Hints Hts Hrtc Hwf Hu Ht.
  destruct (reachable_well_formed E s w ts w' ts' Hnow Hpub Hints Hts Hrtc Hwf) as [Hwf' _].
  by apply (attempts_within (w_db w')).
Qed.

(** Three consumers have the same message of a task at its second attempt of three;
    each runs it, one after the other loaded it. *)
Definition redelivered_pool : pool :=
  (sample_world [sample_job 1 JobStatusRunning] [sample_row 2 1 TaskStatusPending 2],
   replicate 3 (_ ← consume (@Service_ExecuteTask sample_uuid_text sample_fsm sample_pgtype sample_codec sample_service)
                      (H := sample_codec) false (mkMessage "tasks" None sample_message); Ret ())).
Definition redelivered_final : pool :=
  run_schedule env_failing (concat (replicate 3 [0; 1; 2]%nat) ++ replicate 20 0%nat ++ replicate 20 1%nat ++ replicate 20 2%nat)
    redelivered_pool.

Theorem attempts_bounded_witness :
  map Task_Attempt (db_tasks (w_db redelivered_final.1)) = [3] /\
  count is_started (w_hooks redelivered_final.1) = 3 /\
  forall t, t ∈ db_tasks (w_db redelivered_final.1) -> 1 <= Task_Attempt t <= Z.max 1 (Task_MaxRetries t).
Proof.
  split; [by vm_compute|]. split; [by vm_compute|].
  assert (rtc (pool_step env_failing) (redelivered_pool.1, redelivered_pool.2)
            (redelivered_final.1, redelivered_final.2)) as Hrtc.
  { unfold redelivered_final. rewrite <- (surjective_pairing (run_schedule _ _ _)). apply run_schedule_sound. }
  assert (Forall (@operation sample_uuid_text sample_fsm sample_pgtype sample_float_conv sample_codec sample_service)
            redelivered_pool.2) as Hops.
  { repeat apply List.Forall_cons; [apply OpConsume..|apply List.Forall_nil]. }
  intros t Ht.
  refine (@attempts_bounded sample_uuid_text sample_fsm sample_fsm_laws sample_pgtype sample_float_conv sample_codec
            env_failing sample_service _ _ _ _ t _ sample_publishers_apart sample_machine_ints Hops Hrtc _ _ Ht).
  - intros n. apply Z.eqb_neq. cbn. unfold zero_time. lia.
  - by apply sample_well_formed.
  - assert (map Task_ID (db_tasks (w_db redelivered_final.1)) = [2%N]) as Hids by (by vm_compute).
    unfold unique_tasks. rewrite Hids. apply NoDup_singleton.
Defined.
